(** * solidity-parser-go: the CST -> AST visitor, embedded in Rocq

    The Go package [solcparser] walks the parse tree built by the ANTLR
    runtime and produces the AST structs declared next to the visitor.
    This file embeds the visitor ([Visit], [skipNode], every [VisitX]
    builder, [mapCommasToNulls], [toText]) as executable Rocq functions
    and proves properties of them. *)

From Stdlib Require Import String Ascii List Bool Arith Lia.
Import ListNotations.
Open Scope string_scope.
Open Scope list_scope.
Set Implicit Arguments.
Set Warnings "-register-all".

(* ================================================================== *)
(** * Outcomes of Go code *)
(* ================================================================== *)

(** A Go call either returns or panics.  [OutOfFuel] is only produced by
    the fuel-indexed [Visit] below; no builder introduces it. *)
Inductive result (A : Type) : Type :=
| Ok (a : A)
| Panic (msg : string)
| OutOfFuel.

Arguments Ok {A} a.
Arguments Panic {A} msg.
Arguments OutOfFuel {A}.

Definition bind {A B : Type} (m : result A) (k : A -> result B) : result B :=
  match m with
  | Ok a => k a
  | Panic msg => Panic msg
  | OutOfFuel => OutOfFuel
  end.

Notation "x <- m ;; k" := (bind m (fun x => k))
  (at level 61, m at next level, right associativity).
Notation "' pat <- m ;; k" := (bind m (fun x => match x with pat => k end))
  (at level 61, pat pattern, m at next level, right associativity).

Fixpoint mapM {A B : Type} (f : A -> result B) (l : list A) : result (list B) :=
  match l with
  | [] => Ok []
  | x :: r => y <- f x ;; ys <- mapM f r ;; Ok (y :: ys)
  end.

Definition isPanic {A : Type} (r : result A) : Prop :=
  exists msg, r = Panic msg.

(** The message of a Go run-time panic (nil dereference, failed type
    assertion, index or slice bound out of range). *)
Definition runtimeError : string := "runtime error".

(* ================================================================== *)
(** * Go strings and slices *)
(* ================================================================== *)

(** [strings.HasPrefix], [strings.TrimPrefix], [strings.TrimSuffix]. *)
Definition HasPrefix (s p : string) : bool := String.prefix p s.

Definition TrimPrefix (s p : string) : string :=
  if HasPrefix s p then substring (String.length p) (String.length s - String.length p) s
  else s.

Definition HasSuffix (s x : string) : bool :=
  Nat.leb (String.length x) (String.length s) &&
  (substring (String.length s - String.length x) (String.length x) s =? x).

Definition TrimSuffix (s x : string) : string :=
  if HasSuffix s x then substring 0 (String.length s - String.length x) s else s.

Fixpoint inCutset (c : ascii) (cutset : string) : bool :=
  match cutset with
  | EmptyString => false
  | String d r => Ascii.eqb c d || inCutset c r
  end.

Fixpoint TrimLeft (s cutset : string) : string :=
  match s with
  | EmptyString => EmptyString
  | String c r => if inCutset c cutset then TrimLeft r cutset else s
  end.

Fixpoint TrimRight (s cutset : string) : string :=
  match s with
  | EmptyString => EmptyString
  | String c r =>
      match TrimRight r cutset with
      | EmptyString => if inCutset c cutset then EmptyString else String c EmptyString
      | r' => String c r'
      end
  end.

(** [strings.Trim(s, cutset)]: drop every leading and trailing byte that
    occurs in [cutset]. *)
Definition Trim (s cutset : string) : string := TrimRight (TrimLeft s cutset) cutset.

(** [strings.Join] with the empty separator. *)
Definition Join (parts : list string) : string := String.concat "" parts.

(** The one-byte string holding a double quote. *)
Definition dquote : string := String (ascii_of_nat 34) EmptyString.

(** A Go slice is either nil or a (possibly empty) sequence; [append] on a
    nil slice allocates. *)
Definition slice (A : Type) : Type := option (list A).

Definition elems {A : Type} (s : slice A) : list A :=
  match s with Some l => l | None => [] end.

Definition len {A : Type} (s : slice A) : nat := length (elems s).

Definition append {A : Type} (s : slice A) (x : A) : slice A := Some (elems s ++ [x]).

(** [for _, x := range xs { s = append(s, x) }]. *)
Fixpoint appendAll {A : Type} (s : slice A) (xs : list A) : slice A :=
  match xs with
  | [] => s
  | x :: r => appendAll (append s x) r
  end.

(* ================================================================== *)
(** * The concrete syntax tree (ANTLR runtime) *)
(* ================================================================== *)

(** An [antlr.Tree] is a token leaf ([*antlr.TerminalNodeImpl]), an error
    leaf ([*antlr.ErrorNodeImpl]) or the context of a grammar rule
    ([*solcparser.<rule>Context]) with its children.  A leaf carries the
    name of its token type (for a literal token, the literal in single
    quotes) and its text. *)
Inductive Tree : Type :=
| TerminalNodeImpl (tokenType : string) (text : string)
| ErrorNodeImpl (tokenType : string) (text : string)
| Ctx (rule : string) (children : list Tree).

(** A literal token such as '(' or ','. *)
Definition lit (s : string) : Tree := TerminalNodeImpl ("'" ++ s ++ "'")%string s.

(** [reflect.TypeOf(i).String()]. *)
Definition typeString (t : Tree) : string :=
  match t with
  | TerminalNodeImpl _ _ => "*antlr.TerminalNodeImpl"
  | ErrorNodeImpl _ _ => "*antlr.ErrorNodeImpl"
  | Ctx rule _ => ("*solcparser." ++ rule ++ "Context")%string
  end.

(** [GetText()]: a leaf returns its token text, a rule context the
    concatenation of its children's texts. *)
Fixpoint GetText (t : Tree) : string :=
  match t with
  | TerminalNodeImpl _ s => s
  | ErrorNodeImpl _ s => s
  | Ctx _ cs =>
      (fix go (l : list Tree) : string :=
         match l with
         | [] => ""
         | c :: r => (GetText c ++ go r)%string
         end) cs
  end.

Definition GetChildren (ctx : Tree) : list Tree :=
  match ctx with
  | Ctx _ cs => cs
  | _ => []
  end.

Definition GetChildCount (ctx : Tree) : nat := length (GetChildren ctx).

Definition GetChild (ctx : Tree) (i : nat) : option Tree := nth_error (GetChildren ctx) i.

Definition isCtx (rule : string) (t : Tree) : bool :=
  match t with
  | Ctx r _ => r =? rule
  | _ => false
  end.

Definition isToken (ttype : string) (t : Tree) : bool :=
  match t with
  | TerminalNodeImpl ty _ => ty =? ttype
  | ErrorNodeImpl ty _ => ty =? ttype
  | Ctx _ _ => false
  end.

(** Modelled from the spec: the generated parser (package [solcparser],
    the [XContext] types with their accessor methods) is not part of the
    sources.  Its accessors are the ANTLR ones: [ctx.AllFoo()] for a
    parser rule [foo] returns the children that are [FooContext]s in
    order and [ctx.Foo(i)] the i-th of them or nil; for a lexer rule
    [Foo] they return the token children of that token type. *)
Definition GetTypedRuleContexts (ctx : Tree) (rule : string) : list Tree :=
  filter (isCtx rule) (GetChildren ctx).

Definition GetTypedRuleContext (ctx : Tree) (rule : string) (i : nat) : option Tree :=
  nth_error (GetTypedRuleContexts ctx rule) i.

Definition GetTokens (ctx : Tree) (ttype : string) : list Tree :=
  filter (isToken ttype) (GetChildren ctx).

Definition GetToken (ctx : Tree) (ttype : string) (i : nat) : option Tree :=
  nth_error (GetTokens ctx ttype) i.

(** [hasElem(a)]: [len(a) > 0]. *)
Definition hasElem (a : list Tree) : bool :=
  match a with
  | [] => false
  | _ :: _ => true
  end.

(** [toText(i)]: the text of a tree; a nil interface does not implement
    [antlrToText] and the call panics. *)
Definition toText (i : option Tree) : result string :=
  match i with
  | Some t => Ok (GetText t)
  | None => Panic runtimeError
  end.

(** A type assertion of an accessor result to its context type: it only
    fails when the accessor returned nil. *)
Definition assertCtx (i : option Tree) : result Tree :=
  match i with
  | Some t => Ok t
  | None => Panic runtimeError
  end.

(** [contains(list, s)]. *)
Fixpoint contains (list : list string) (s : string) : bool :=
  match list with
  | [] => false
  | op :: r => if s =? op then true else contains r s
  end.

Definition unaryOps : list string := ["-"; "+"; "--"; "++"; "~"; "after"; "delete"; "!"].
Definition postFixOps : list string := ["++"; "--"].
Definition binaryOps : list string :=
  ["+"; "-"; "*"; "/"; "**"; "%"; "<<"; ">>"; "&&"; "||"; ",,"; "&"; ","; "^"; "<"; ">";
   "<="; ">="; "=="; "!="; "="; ",="; "^="; "&="; "<<="; ">>="; "+="; "-="; "*="; "/=";
   "%="; "|"; "|="].

(* ================================================================== *)
(** * The AST node model *)
(* ================================================================== *)

(** [type Node struct { Type string }], embedded in every AST struct.
    [sets] is a ghost field that is not in the Go struct: it counts the
    calls of [SetTypeName] the node has received, so that statements on
    how often a tag is assigned can be made.  A composite literal
    [Node{Type: t}] (or an omitted [Node]) starts it at 0. *)
Record Node : Type := mkNode { Type_ : string; sets : nat }.

Definition NodeOf (t : string) : Node := {| Type_ := t; sets := 0 |}.

(** The zero value of [Node], for a composite literal that leaves the
    embedded [Node] out. *)
Definition node0 : Node := NodeOf "".

(** A value of type [interface{}] as the builders store it: nil, a pointer
    to an AST struct, a string, or a slice of such values. *)
Inductive any (N : Type) : Type :=
| ANil
| ANode (n : N)
| AString (s : string)
| ASlice (l : slice (any N)).

Arguments ANil {N}.
Arguments ANode {N} n.
Arguments AString {N} s.
Arguments ASlice {N} l.

(** The fields of [VariableDeclaration] (also embedded in
    [StateVariableDeclarationVariable]). *)
Record VariableDeclarationT (N : Type) : Type := mkVariableDeclaration {
  vd_Name : string;
  vd_TypeName : any N;
  vd_Identifier : any N;
  vd_IsIndexed : bool;
  vd_IsStateVar : bool;
  vd_IsDeclaredConst : bool;
  vd_StorageLocation : string;
  vd_Expression : any N;
  vd_Visibility : string;
  vd_Override : slice (any N)
}.

(** The fields of [FunctionDefinition]. *)
Record FunctionDefinitionT (N : Type) : Type := mkFunctionDefinition {
  fd_Name : string;
  fd_Parameters : slice (any N);
  fd_Modifiers : slice (any N);
  fd_ReturnParameters : any N;
  fd_Body : any N;
  fd_StateMutability : string;
  fd_Visibility : string;
  fd_IsConstructor : bool;
  fd_IsReceiveEther : bool;
  fd_IsFallback : bool;
  fd_IsVirtual : bool;
  fd_Override : slice (any N)
}.

(** The fields of [ImportDirective]. *)
Record ImportDirectiveT (N : Type) : Type := mkImportDirective {
  id_Path : string;
  id_PathLiteral : any N;
  id_UnitAlias : string;
  id_UnitAliasIdentifier : any N;
  id_SymbolAliases : slice (slice string);
  id_SymbolAliasesIdentifiers : slice (slice (option N))
}.

(** One constructor per AST struct that embeds [Node], with the struct's
    own fields in declaration order.  [N] is the type of the nodes the
    fields point to. *)
Inductive Struct (N : Type) : Type :=
| SourceUnit (Children : slice (any N))
| PragmaDirective (Name Value : string)
| ContractDefinition (Name : string) (SubNodes BaseContracts : slice (any N)) (Kind : string)
| InheritanceSpecifier (BaseName : any N) (Arguments : slice (any N))
| StructDefinition (Name : string) (Members : slice (any N))
| VariableDeclaration (v : VariableDeclarationT N)
| Identifier (Name : string)
| StateVariableDeclaration (Variables : slice (any N)) (InitialValue : any N)
| StateVariableDeclarationVariable (v : VariableDeclarationT N) (IsInmutable : bool)
| FunctionDefinition (f : FunctionDefinitionT N)
| ModifierInvocation (Name : string) (Arguments : slice (any N))
| Block (Statements : slice (any N))
| ExpressionStatement (Expression : any N)
| NewExpression (TypeName : any N)
| UnaryOperation (Operator : string) (SubExpression : any N) (IsPrefix : bool)
| BinaryOperation (Operator : string) (Left Right : any N)
| NumberLiteral (Number : string) (SubDenomination : any N)
| IndexRangeAccess (Base IndexStart IndexEnd : any N)
| Conditional (Condition TrueExpression FalseExpression : any N)
| MemberAccess (Expression : any N) (MemberName : string)
| TupleExpression (Components : slice (any N)) (IsArray : bool)
| NameValueExpression (Expression Arguments : any N)
| IndexAccess (Base Index : any N)
| ArrayTypeName (BaseTypeName Length : any N)
| Mapping (KeyType ValueType : any N)
| NameValueList (Names : slice string) (Identifiers Args : slice (any N))
| TypeNameExpression (TypeName : any N)
| HexLiteral (Value : string) (Parts : slice string)
| BooleanLiteral (Value : bool)
| ForStatement (InitExpression ConditionExpression LoopExpression Body : any N)
| VariableDeclarationStatement (InitialValue : any N) (Variables : slice (any N))
| WhileStatement (Condition Body : any N)
| DoWhileStatement (Condition Body : any N)
| IfStatement (Condition TrueBody FalseBody : any N)
| EventDefinition (Name : string) (Parameters : slice (any N))
| ImportDirective (d : ImportDirectiveT N)
| StringLiteral (Value : string) (Parts : slice string) (IsUnicode : slice bool)
| EnumDefinition (Name : string) (Members : slice (any N))
| EnumValue (Name : string)
| BreakStatement
| ContinueStatement
| ReturnStatement (Expression : any N)
| ModifierDefinition (Name : string) (Parameters Body : any N) (IsVirtual : bool)
    (Override : slice (any N))
| OverrideSpecifier
| FunctionTypeName (ParameterTypes ReturnTypes : slice (any N))
    (Visibility StateMutability : string)
| UsingForDeclaration (LibraryName : string) (TypeName : any N)
| EmitStatement (EventCall : any N)
| ThrowStatement
| FunctionCall (Arguments Names Identifiers : slice (any N)) (Expression : any N)
| CustomErrorDefinition (Name : string) (Parameters : slice (any N))
| TryStatement (Expression : any N) (CatchClause : slice (any N))
    (Body ReturnParameters : any N)
| CatchClause (IsReasonType : bool) (Kind : string) (Parameters Body : any N)
| FileLevelConstant (Name : string) (InitialValue TypeName : any N)
    (IsDeclaredConst IsImmutable : bool)
| UncheckedStatement (Block : any N)
| TypeDefinition (Name : string) (Definition_ : any N)
| ElementaryTypeName (Name StateMutability : string)
| UserDefinedTypeName (NamePath : string)
| RevertStatement (RevertCall : any N).

Arguments SourceUnit {N}.
Arguments PragmaDirective {N}.
Arguments ContractDefinition {N}.
Arguments InheritanceSpecifier {N}.
Arguments StructDefinition {N}.
Arguments VariableDeclaration {N}.
Arguments Identifier {N}.
Arguments StateVariableDeclaration {N}.
Arguments StateVariableDeclarationVariable {N}.
Arguments FunctionDefinition {N}.
Arguments ModifierInvocation {N}.
Arguments Block {N}.
Arguments ExpressionStatement {N}.
Arguments NewExpression {N}.
Arguments UnaryOperation {N}.
Arguments BinaryOperation {N}.
Arguments NumberLiteral {N}.
Arguments IndexRangeAccess {N}.
Arguments Conditional {N}.
Arguments MemberAccess {N}.
Arguments TupleExpression {N}.
Arguments NameValueExpression {N}.
Arguments IndexAccess {N}.
Arguments ArrayTypeName {N}.
Arguments Mapping {N}.
Arguments NameValueList {N}.
Arguments TypeNameExpression {N}.
Arguments HexLiteral {N}.
Arguments BooleanLiteral {N}.
Arguments ForStatement {N}.
Arguments VariableDeclarationStatement {N}.
Arguments WhileStatement {N}.
Arguments DoWhileStatement {N}.
Arguments IfStatement {N}.
Arguments EventDefinition {N}.
Arguments ImportDirective {N}.
Arguments StringLiteral {N}.
Arguments EnumDefinition {N}.
Arguments EnumValue {N}.
Arguments BreakStatement {N}.
Arguments ContinueStatement {N}.
Arguments ReturnStatement {N}.
Arguments ModifierDefinition {N}.
Arguments OverrideSpecifier {N}.
Arguments FunctionTypeName {N}.
Arguments UsingForDeclaration {N}.
Arguments EmitStatement {N}.
Arguments ThrowStatement {N}.
Arguments FunctionCall {N}.
Arguments CustomErrorDefinition {N}.
Arguments TryStatement {N}.
Arguments CatchClause {N}.
Arguments FileLevelConstant {N}.
Arguments UncheckedStatement {N}.
Arguments TypeDefinition {N}.
Arguments ElementaryTypeName {N}.
Arguments UserDefinedTypeName {N}.
Arguments RevertStatement {N}.

(** A non-nil [INode]: a pointer to a struct, i.e. its embedded [Node]
    together with its own fields. *)
Inductive INode : Type :=
| Boxed (node : Node) (s : Struct INode).

(** The methods that every struct inherits from the embedded [Node]. *)
Definition GetType (n : INode) : string :=
  match n with
  | Boxed node _ => Type_ node
  end.

Definition SetTypeName (n : INode) (typ : string) : INode :=
  match n with
  | Boxed node s => Boxed {| Type_ := typ; sets := S (sets node) |} s
  end.


Definition structOf (n : INode) : Struct INode :=
  match n with
  | Boxed _ s => s
  end.

(** Storing an [INode] (possibly nil) in an [interface{}] slot. *)
Definition toAny (n : option INode) : any INode :=
  match n with
  | Some n => ANode n
  | None => ANil
  end.

(** What a builder hands back to [Visit] through reflection: a nil
    interface or nil slice, a non-nil [INode], or a non-nil value that
    does not implement [INode] (the inline-assembly structs, which do
    not embed [Node], and non-nil slices). *)
Inductive output : Type :=
| ONil
| ONode (n : INode)
| OOther.

Definition ofINode (n : option INode) : output :=
  match n with
  | Some n => ONode n
  | None => ONil
  end.

Definition ofSlice {A : Type} (s : slice A) : output :=
  match s with
  | Some _ => OOther
  | None => ONil
  end.

(** [e.Visit], as the builders see it. *)
Definition visitor : Type := option Tree -> result (option INode).

(* ================================================================== *)
(** * The builders *)
(* ================================================================== *)

(** [mapCommasToNulls(tree)]: the children of a comma-separated list,
    with a nil slot wherever an element is left out. *)
Fixpoint mapCommasToNulls_loop (tree : list Tree) (comma : bool) (res : list (option Tree))
  : result (list (option Tree)) :=
  match tree with
  | [] => if comma then Ok (res ++ [None]) else Ok res
  | child :: rest =>
      if comma then
        if GetText child =? "," then mapCommasToNulls_loop rest true (res ++ [None])
        else mapCommasToNulls_loop rest false (res ++ [Some child])
      else
        if negb (GetText child =? ",") then Panic "Comma expected"
        else mapCommasToNulls_loop rest true res
  end.

Definition mapCommasToNulls (tree : list Tree) : result (list (option Tree)) :=
  match tree with
  | [] => Ok []
  | _ :: _ => mapCommasToNulls_loop tree true []
  end.

(** [children[1 : count-1]], for [count >= 2]. *)
Definition sliceInner (children : list Tree) (count : nat) : list Tree :=
  firstn (count - 2) (skipn 1 children).

Section Builders.

(** The listener's own [Visit], which every builder calls on the parts of
    its context. *)
Variable Visit : visitor.

(** [for _, p := range l { s = append(s, e.Visit(p)) }]: the visited
    values, in order; the loop stops at the first panic. *)
Definition visitAll (l : list Tree) : result (list (any INode)) :=
  mapM (fun p => n <- Visit (Some p) ;; Ok (toAny n)) l.

Definition VisitParameterList (ctx : Tree) : result (slice (any INode)) :=
  parameters <- visitAll (GetTypedRuleContexts ctx "Parameter") ;;
  Ok (appendAll None parameters).

Definition VisitReturnParameters (ctx : Tree) : result (slice (any INode)) :=
  parameterList <- assertCtx (GetTypedRuleContext ctx "ParameterList" 0) ;;
  VisitParameterList parameterList.

Definition VisitSourceUnit (ctx : Tree) : result output :=
  children <- visitAll (GetChildren ctx) ;;
  Ok (ONode (Boxed node0 (SourceUnit (appendAll (Some []) children)))).

Definition VisitPragmaDirective (ctx : Tree) : result output :=
  name <- toText (GetTypedRuleContext ctx "PragmaName" 0) ;;
  value <- toText (GetTypedRuleContext ctx "PragmaValue" 0) ;;
  Ok (ONode (Boxed node0 (PragmaDirective name value))).

Definition VisitContractDefinition (ctx : Tree) : result output :=
  name <- toText (GetTypedRuleContext ctx "Identifier" 0) ;;
  kind <- toText (GetChild ctx 0) ;;
  subNodes <- visitAll (GetTypedRuleContexts ctx "ContractPart") ;;
  baseContracts <- visitAll (GetTypedRuleContexts ctx "InheritanceSpecifier") ;;
  Ok (ONode (Boxed node0
    (ContractDefinition name (appendAll (Some []) subNodes)
       (appendAll (Some []) baseContracts) kind))).

Definition VisitInheritanceSpecifier (ctx : Tree) : result output :=
  baseName <- Visit (GetTypedRuleContext ctx "UserDefinedTypeName" 0) ;;
  arguments <-
    match GetTypedRuleContext ctx "ExpressionList" 0 with
    | Some expr => n <- Visit (Some expr) ;; Ok (append (Some []) (toAny n))
    | None => Ok (Some [])
    end ;;
  Ok (ONode (Boxed node0 (InheritanceSpecifier (toAny baseName) arguments))).

Definition VisitContractPart (ctx : Tree) : result output :=
  n <- Visit (GetChild ctx 0) ;;
  Ok (ofINode n).

Definition VisitStructDefinition (ctx : Tree) : result output :=
  members <- visitAll (GetTypedRuleContexts ctx "VariableDeclaration") ;;
  name <- toText (GetTypedRuleContext ctx "Identifier" 0) ;;
  Ok (ONode (Boxed node0 (StructDefinition name (appendAll (Some []) members)))).

Definition VisitVariableDeclaration (ctx : Tree) : result output :=
  name <- toText (GetTypedRuleContext ctx "Identifier" 0) ;;
  identifier <- Visit (GetTypedRuleContext ctx "Identifier" 0) ;;
  typeName <- Visit (GetTypedRuleContext ctx "TypeName" 0) ;;
  storageLocation <-
    match GetTypedRuleContext ctx "StorageLocation" 0 with
    | Some sl => toText (Some sl)
    | None => Ok ""
    end ;;
  Ok (ONode (Boxed node0 (VariableDeclaration
    {| vd_Name := name;
       vd_TypeName := toAny typeName;
       vd_Identifier := toAny identifier;
       vd_IsIndexed := false;
       vd_IsStateVar := false;
       vd_IsDeclaredConst := false;
       vd_StorageLocation := storageLocation;
       vd_Expression := ANil;
       vd_Visibility := "";
       vd_Override := None |}))).

Definition VisitIdentifier (ctx : Tree) : result output :=
  Ok (ONode (Boxed node0 (Identifier (GetText ctx)))).

(** The override loop shared by state variables and functions: the
    slice starts nil and receives the visited base types of the first
    override specifier, if there is one. *)
Definition overrideOf (overSpec : list Tree) : result (slice (any INode)) :=
  match overSpec with
  | [] => Ok None
  | spec :: _ =>
      types <- visitAll (GetTypedRuleContexts spec "UserDefinedTypeName") ;;
      Ok (appendAll None types)
  end.

Definition VisitStateVariableDeclaration (ctx : Tree) : result output :=
  let visibility :=
    if hasElem (GetTokens ctx "InternalKeyword") then "internal"
    else if hasElem (GetTokens ctx "PublicKeyword") then "public"
    else if hasElem (GetTokens ctx "PrivateKeyword") then "private"
    else "default" in
  override <- overrideOf (GetTypedRuleContexts ctx "OverrideSpecifier") ;;
  name <- toText (GetTypedRuleContext ctx "Identifier" 0) ;;
  typeName <- Visit (GetTypedRuleContext ctx "TypeName" 0) ;;
  identifier <- Visit (GetTypedRuleContext ctx "Identifier" 0) ;;
  expression <-
    match GetTypedRuleContext ctx "Expression" 0 with
    | Some e => n <- Visit (Some e) ;; Ok (toAny n)
    | None => Ok ANil
    end ;;
  let vv := Boxed (NodeOf "VariableDeclaration")
    (StateVariableDeclarationVariable
       {| vd_Name := name;
          vd_TypeName := toAny typeName;
          vd_Identifier := toAny identifier;
          vd_IsIndexed := false;
          vd_IsStateVar := true;
          vd_IsDeclaredConst := hasElem (GetTokens ctx "ConstantKeyword");
          vd_StorageLocation := "";
          vd_Expression := expression;
          vd_Visibility := visibility;
          vd_Override := override |}
       (hasElem (GetTokens ctx "ImmutableKeyword"))) in
  Ok (ONode (Boxed node0 (StateVariableDeclaration (Some [ANode vv]) ANil))).

(** The local variables that the switch on the descriptor keyword of
    [VisitFunctionDefinition] assigns. *)
Record descriptorVars : Type := mkDescriptorVars {
  dv_name : string;
  dv_returnParameters : any INode;
  dv_visibility : string;
  dv_isConstructor : bool;
  dv_isFallback : bool;
  dv_isReceiveEther : bool
}.

Definition functionDescriptorSwitch (ctx modList descr : Tree) (keyword : string)
  : result descriptorVars :=
  if keyword =? "constructor" then
    let visibility :=
      if hasElem (GetTokens modList "InternalKeyword") then "internal"
      else if hasElem (GetTokens modList "PublicKeyword") then "public"
      else "default" in
    Ok (mkDescriptorVars "" ANil visibility true false false)
  else if keyword =? "fallback" then
    Ok (mkDescriptorVars "" ANil "external" false true false)
  else if keyword =? "receive" then
    Ok (mkDescriptorVars "" ANil "external" false false true)
  else if keyword =? "function" then
    name <-
      match GetTypedRuleContext descr "Identifier" 0 with
      | Some ident => toText (Some ident)
      | None => Ok ""
      end ;;
    returnParameters <-
      match GetTypedRuleContext ctx "ReturnParameters" 0 with
      | Some ctxRet => s <- VisitReturnParameters ctxRet ;; Ok (ASlice s)
      | None => Ok ANil
      end ;;
    let visibility :=
      if hasElem (GetTokens modList "ExternalKeyword") then "external"
      else if hasElem (GetTokens modList "InternalKeyword") then "internal"
      else if hasElem (GetTokens modList "PublicKeyword") then "public"
      else if hasElem (GetTokens modList "PrivateKeyword") then "private"
      else "default" in
    Ok (mkDescriptorVars name returnParameters visibility false (name =? "") false)
  else
    Ok (mkDescriptorVars "" ANil "default" false false false).

Definition VisitFunctionDefinition (ctx : Tree) : result output :=
  block <-
    match GetTypedRuleContext ctx "Block" 0 with
    | Some b => n <- Visit (Some b) ;; Ok (toAny n)
    | None => Ok ANil
    end ;;
  modList <- assertCtx (GetTypedRuleContext ctx "ModifierList" 0) ;;
  modifiers <- visitAll (GetTypedRuleContexts modList "ModifierInvocation") ;;
  parameterList <- assertCtx (GetTypedRuleContext ctx "ParameterList" 0) ;;
  parameters <- visitAll (GetTypedRuleContexts parameterList "Parameter") ;;
  descr <- assertCtx (GetTypedRuleContext ctx "FunctionDescriptor" 0) ;;
  keyword <- toText (GetChild descr 0) ;;
  vars <- functionDescriptorSwitch ctx modList descr keyword ;;
  let isVirtual := hasElem (GetTokens modList "VirtualKeyword") in
  override <- overrideOf (GetTypedRuleContexts modList "OverrideSpecifier") ;;
  Ok (ONode (Boxed node0 (FunctionDefinition
    {| fd_Name := dv_name vars;
       fd_Parameters := appendAll None parameters;
       fd_Modifiers := appendAll (Some []) modifiers;
       fd_ReturnParameters := dv_returnParameters vars;
       fd_Body := block;
       fd_StateMutability := "";
       fd_Visibility := dv_visibility vars;
       fd_IsConstructor := dv_isConstructor vars;
       fd_IsReceiveEther := dv_isReceiveEther vars;
       fd_IsFallback := dv_isFallback vars;
       fd_IsVirtual := isVirtual;
       fd_Override := override |}))).

Definition VisitParameter (ctx : Tree) : result output :=
  typeName <- Visit (GetTypedRuleContext ctx "TypeName" 0) ;;
  storageLocation <-
    match GetTypedRuleContext ctx "StorageLocation" 0 with
    | Some sl => toText (Some sl)
    | None => Ok ""
    end ;;
  '(name, identifier) <-
    match GetTypedRuleContext ctx "Identifier" 0 with
    | Some iden =>
        name <- toText (Some iden) ;;
        n <- Visit (Some iden) ;;
        Ok (name, toAny n)
    | None => Ok ("", ANil)
    end ;;
  Ok (ONode (Boxed (NodeOf "VariableDeclaration") (VariableDeclaration
    {| vd_Name := name;
       vd_TypeName := toAny typeName;
       vd_Identifier := identifier;
       vd_IsIndexed := false;
       vd_IsStateVar := false;
       vd_IsDeclaredConst := false;
       vd_StorageLocation := storageLocation;
       vd_Expression := ANil;
       vd_Visibility := "";
       vd_Override := None |}))).

Definition VisitModifierInvocation (ctx : Tree) : result output :=
  args <-
    match GetTypedRuleContext ctx "ExpressionList" 0 with
    | Some expr =>
        vs <- visitAll (GetTypedRuleContexts expr "Expression") ;;
        Ok (appendAll None vs)
    | None =>
        if Nat.ltb 1 (length (GetChildren ctx)) then Ok (Some []) else Ok None
    end ;;
  name <- toText (GetTypedRuleContext ctx "Identifier" 0) ;;
  Ok (ONode (Boxed node0 (ModifierInvocation name args))).

Definition VisitBlock (ctx : Tree) : result output :=
  statements <- visitAll (GetTypedRuleContexts ctx "Statement") ;;
  Ok (ONode (Boxed node0 (Block (appendAll (Some []) statements)))).

Definition VisitStatement (ctx : Tree) : result output :=
  n <- Visit (GetChild ctx 0) ;;
  Ok (ofINode n).

Definition VisitSimpleStatement (ctx : Tree) : result output :=
  n <- Visit (GetChild ctx 0) ;;
  Ok (ofINode n).

(** The receiver [ctx] is never a nil pointer here: [Visit] only
    dispatches on trees that exist, so the [ctx == nil] branch of the Go
    function has no counterpart. *)
Definition VisitExpressionStatement (ctx : Tree) : result output :=
  expression <- Visit (GetTypedRuleContext ctx "Expression" 0) ;;
  Ok (ONode (Boxed node0 (ExpressionStatement (toAny expression)))).

(** The argument loops of a call: positional arguments from an
    expression list, or (argument, name, identifier) triples from a
    name-value list. *)
Fixpoint nameValueLoop (l : list Tree)
  : result (list (any INode) * list string * list (any INode)) :=
  match l with
  | [] => Ok ([], [], [])
  | p :: rest =>
      arg <- Visit (GetTypedRuleContext p "Expression" 0) ;;
      name <- toText (GetTypedRuleContext p "Identifier" 0) ;;
      identifier <- Visit (GetTypedRuleContext p "Identifier" 0) ;;
      '(args, names, identifiers) <- nameValueLoop rest ;;
      Ok (toAny arg :: args, name :: names, toAny identifier :: identifiers)
  end.

Definition stringsAsAny (l : list string) : list (any INode) := map AString l.

Definition VisitExpression (ctx : Tree) : result output :=
  let todo : result output := Panic "TODO" in
  match GetChildren ctx with
  | [c0] => n <- Visit (Some c0) ;; Ok (ofINode n)
  | [c0; c1] =>
      let op := GetText c0 in
      if op =? "new" then
        typeName <- Visit (GetTypedRuleContext ctx "TypeName" 0) ;;
        Ok (ONode (Boxed (NodeOf "NewExpression") (NewExpression (toAny typeName))))
      else if contains unaryOps op then
        sub <- Visit (GetTypedRuleContext ctx "Expression" 0) ;;
        Ok (ONode (Boxed (NodeOf "UnaryOperation") (UnaryOperation op (toAny sub) true)))
      else
        let op := GetText c1 in
        if contains postFixOps op then
          sub <- Visit (GetTypedRuleContext ctx "Expression" 0) ;;
          Ok (ONode (Boxed (NodeOf "UnaryOperation") (UnaryOperation op (toAny sub) false)))
        else todo
  | [c0; c1; c2] =>
      if (GetText c0 =? "(") && (GetText c2 =? ")") then
        component <- Visit (Some c1) ;;
        Ok (ONode (Boxed (NodeOf "TupleExpression")
          (TupleExpression (Some [toAny component]) false)))
      else
        let op := GetText c1 in
        if op =? "." then
          expression <- Visit (GetTypedRuleContext ctx "Expression" 0) ;;
          memberName <- toText (GetTypedRuleContext ctx "Identifier" 0) ;;
          Ok (ONode (Boxed (NodeOf "MemberAccess")
            (MemberAccess (toAny expression) memberName)))
        else if contains binaryOps op then
          left <- Visit (GetTypedRuleContext ctx "Expression" 0) ;;
          right <- Visit (GetTypedRuleContext ctx "Expression" 1) ;;
          Ok (ONode (Boxed (NodeOf "BinaryOperation")
            (BinaryOperation op (toAny left) (toAny right))))
        else todo
  | [c0; c1; c2; c3] =>
      if (GetText c1 =? "(") && (GetText c3 =? ")") then
        ctxArgs <- assertCtx (GetTypedRuleContext ctx "FunctionCallArguments" 0) ;;
        '(args, names, identifiers) <-
          match GetTypedRuleContext ctxArgs "ExpressionList" 0 with
          | Some expr =>
              vs <- visitAll (GetTypedRuleContexts expr "Expression") ;;
              Ok (appendAll None vs, None, None)
          | None =>
              match GetTypedRuleContext ctxArgs "NameValueList" 0 with
              | Some expr =>
                  '(vs, ns, ids) <- nameValueLoop (GetTypedRuleContexts expr "NameValue") ;;
                  Ok (appendAll None vs, appendAll None (stringsAsAny ns), appendAll None ids)
              | None => Ok (None, None, None)
              end
          end ;;
        expression <- Visit (GetTypedRuleContext ctx "Expression" 0) ;;
        Ok (ONode (Boxed (NodeOf "FunctionCall")
          (FunctionCall args names identifiers (toAny expression))))
      else if (GetText c1 =? "[") && (GetText c3 =? "]") then
        if GetText c2 =? ":" then
          base <- Visit (GetTypedRuleContext ctx "Expression" 0) ;;
          Ok (ONode (Boxed (NodeOf "IndexRangeAccess")
            (IndexRangeAccess (toAny base) ANil ANil)))
        else
          base <- Visit (GetTypedRuleContext ctx "Expression" 0) ;;
          index <- Visit (GetTypedRuleContext ctx "Expression" 1) ;;
          Ok (ONode (Boxed (NodeOf "IndexAccess") (IndexAccess (toAny base) (toAny index))))
      else if (GetText c1 =? "{") && (GetText c3 =? "}") then
        expression <- Visit (GetTypedRuleContext ctx "Expression" 0) ;;
        arguments <- Visit (GetTypedRuleContext ctx "NameValueList" 0) ;;
        Ok (ONode (Boxed (NodeOf "NameValueExpression")
          (NameValueExpression (toAny expression) (toAny arguments))))
      else todo
  | [c0; c1; c2; c3; c4] =>
      if (GetText c1 =? "?") && (GetText c3 =? ":") then
        condition <- Visit (GetTypedRuleContext ctx "Expression" 0) ;;
        trueExpression <- Visit (GetTypedRuleContext ctx "Expression" 1) ;;
        falseExpression <- Visit (GetTypedRuleContext ctx "Expression" 2) ;;
        Ok (ONode (Boxed (NodeOf "Conditional")
          (Conditional (toAny condition) (toAny trueExpression) (toAny falseExpression))))
      else if (GetText c1 =? "[") && (GetText c2 =? ":") && (GetText c4 =? "]") then
        base <- Visit (GetTypedRuleContext ctx "Expression" 0) ;;
        indexEnd <- Visit (GetTypedRuleContext ctx "Expression" 1) ;;
        Ok (ONode (Boxed (NodeOf "IndexRangeAccess")
          (IndexRangeAccess (toAny base) ANil (toAny indexEnd))))
      else if (GetText c1 =? "[") && (GetText c3 =? ":") && (GetText c4 =? "]") then
        base <- Visit (GetTypedRuleContext ctx "Expression" 0) ;;
        indexStart <- Visit (GetTypedRuleContext ctx "Expression" 1) ;;
        Ok (ONode (Boxed (NodeOf "IndexRangeAccess")
          (IndexRangeAccess (toAny base) (toAny indexStart) ANil)))
      else todo
  | [c0; c1; c2; c3; c4; c5] =>
      if (GetText c1 =? "[") && (GetText c3 =? ":") && (GetText c5 =? "]") then
        base <- Visit (GetTypedRuleContext ctx "Expression" 0) ;;
        indexStart <- Visit (GetTypedRuleContext ctx "Expression" 1) ;;
        indexEnd <- Visit (GetTypedRuleContext ctx "Expression" 2) ;;
        Ok (ONode (Boxed (NodeOf "IndexRangeAccess")
          (IndexRangeAccess (toAny base) (toAny indexStart) (toAny indexEnd))))
      else todo
  | _ => todo
  end.

Definition VisitMapping (ctx : Tree) : result output :=
  keyType <- Visit (GetTypedRuleContext ctx "MappingKey" 0) ;;
  valueType <- Visit (GetTypedRuleContext ctx "TypeName" 0) ;;
  Ok (ONode (Boxed node0 (Mapping (toAny keyType) (toAny valueType)))).

Definition VisitMappingKey (ctx : Tree) : result output :=
  match GetTypedRuleContext ctx "ElementaryTypeName" 0 with
  | Some elem => n <- Visit (Some elem) ;; Ok (ofINode n)
  | None =>
      match GetTypedRuleContext ctx "UserDefinedTypeName" 0 with
      | Some elem => n <- Visit (Some elem) ;; Ok (ofINode n)
      | None => Panic "BUG"
      end
  end.

Fixpoint nameValueListLoop (l : list Tree)
  : result (list string * list (any INode) * list (any INode)) :=
  match l with
  | [] => Ok ([], [], [])
  | p :: rest =>
      name <- toText (GetTypedRuleContext p "Identifier" 0) ;;
      identifier <- Visit (GetTypedRuleContext p "Identifier" 0) ;;
      arg <- Visit (GetTypedRuleContext p "Expression" 0) ;;
      '(names, identifiers, args) <- nameValueListLoop rest ;;
      Ok (name :: names, toAny identifier :: identifiers, toAny arg :: args)
  end.

Definition VisitNameValueList (ctx : Tree) : result output :=
  '(names, identifiers, args) <- nameValueListLoop (GetTypedRuleContexts ctx "NameValue") ;;
  Ok (ONode (Boxed node0
    (NameValueList (appendAll (Some []) names) (appendAll (Some []) identifiers)
       (appendAll (Some []) args)))).

(** The loop over the slots of a sparse list: a nil slot stays nil, an
    element is visited. *)
Definition visitSlot (child : option Tree) : result (any INode) :=
  match child with
  | None => Ok ANil
  | Some c => n <- Visit (Some c) ;; Ok (toAny n)
  end.

Definition VisitTupleExpression (ctx : Tree) : result output :=
  let count := GetChildCount ctx in
  if Nat.ltb count 2 then Panic "bad"
  else
    childs <- mapCommasToNulls (sliceInner (GetChildren ctx) count) ;;
    components <- mapM visitSlot childs ;;
    open <- toText (GetChild ctx 0) ;;
    Ok (ONode (Boxed node0
      (TupleExpression (appendAll (Some []) components) (open =? "[")))).

Definition VisitTypeNameExpression (ctx : Tree) : result output :=
  typeName <-
    match GetTypedRuleContext ctx "ElementaryTypeName" 0 with
    | Some ctxElem => Visit (Some ctxElem)
    | None =>
        match GetTypedRuleContext ctx "UserDefinedTypeName" 0 with
        | Some ctxUser => Visit (Some ctxUser)
        | None => Panic "BAD"
        end
    end ;;
  Ok (ONode (Boxed node0 (TypeNameExpression (toAny typeName)))).

Definition VisitNumberLiteral (ctx : Tree) : result output :=
  number <- toText (GetChild ctx 0) ;;
  subDenomination <-
    (if GetChildCount ctx =? 2 then s <- toText (GetChild ctx 1) ;; Ok (AString s)
     else Ok ANil)%nat ;;
  Ok (ONode (Boxed node0 (NumberLiteral number subDenomination))).

Definition hexFragment (p : Tree) : string :=
  Trim (TrimPrefix (GetText p) "hex") dquote.

Definition VisitHexLiteral (ctx : Tree) : result output :=
  let parts := appendAll (Some []) (map hexFragment (GetTokens ctx "HexLiteralFragment")) in
  Ok (ONode (Boxed node0 (HexLiteral (Join (elems parts)) parts))).

(** [text[1 : len(text)-1]]; the slice expression panics when the text
    has fewer than two bytes. *)
Definition withoutQuotes (text : string) : result string :=
  if Nat.leb 2 (String.length text) then Ok (substring 1 (String.length text - 2) text)
  else Panic runtimeError.

(** One round of the loop over the fragments of a string literal: the
    value of the fragment and its unicode flag. *)
Definition stringFragment (g : Tree) : result (string * bool) :=
  let text := GetText g in
  let isUnicode := HasPrefix text "unicode" in
  let text := if isUnicode then TrimPrefix text "unicode" else text in
  value <- withoutQuotes text ;;
  Ok (value, isUnicode).

Definition VisitPrimaryExpression (ctx : Tree) : result output :=
  match GetToken ctx "BooleanLiteral" 0 with
  | Some expr =>
      Ok (ONode (Boxed (NodeOf "BooleanLiteral") (BooleanLiteral (GetText expr =? "true"))))
  | None =>
  match GetTypedRuleContext ctx "HexLiteral" 0 with
  | Some expr => n <- Visit (Some expr) ;; Ok (ofINode n)
  | None =>
  match GetTypedRuleContext ctx "StringLiteral" 0 with
  | Some expr =>
      frags <- mapM stringFragment (GetTokens expr "StringLiteralFragment") ;;
      let values := appendAll (Some []) (map fst frags) in
      let parts := appendAll (Some []) (map fst frags) in
      let isUnicode := appendAll (Some []) (map snd frags) in
      Ok (ONode (Boxed (NodeOf "StringLiteral")
        (StringLiteral (Join (elems values)) parts isUnicode)))
  | None =>
  match GetTypedRuleContext ctx "NumberLiteral" 0 with
  | Some expr => n <- Visit (Some expr) ;; Ok (ofINode n)
  | None =>
  match GetToken ctx "TypeKeyword" 0 with
  | Some expr => Ok (ONode (Boxed (NodeOf "Identifier") (Identifier "type")))
  | None =>
      match GetChildren ctx with
      | [c0; c1; c2] =>
          if (GetText c0 =? "[") && (GetText c2 =? "]") then Panic "TODO"
          else n <- Visit (Some c0) ;; Ok (ofINode n)
      | _ => n <- Visit (GetChild ctx 0) ;; Ok (ofINode n)
      end
  end end end end end.

(** The type assertion to an [ExpressionStatement] pointer, followed by
    the selection of its [Expression] field. *)
Definition expressionOfStatement (n : option INode) : result (any INode) :=
  match n with
  | Some (Boxed _ (ExpressionStatement e)) => Ok e
  | _ => Panic runtimeError
  end.

Definition VisitForStatement (ctx : Tree) : result output :=
  conditionExpr <-
    match GetTypedRuleContext ctx "ExpressionStatement" 0 with
    | Some es => n <- Visit (Some es) ;; expressionOfStatement n
    | None => Ok ANil
    end ;;
  body <- Visit (GetTypedRuleContext ctx "Statement" 0) ;;
  initExpression <-
    match GetTypedRuleContext ctx "SimpleStatement" 0 with
    | Some s => n <- Visit (Some s) ;; Ok (toAny n)
    | None => Ok ANil
    end ;;
  loopExpression <-
    match GetTypedRuleContext ctx "Expression" 0 with
    | Some e => n <- Visit (Some e) ;; Ok (toAny n)
    | None => Ok ANil
    end ;;
  let loopExpr := Boxed (NodeOf "ExpressionStatement") (ExpressionStatement loopExpression) in
  Ok (ONode (Boxed node0
    (ForStatement initExpression conditionExpr (ANode loopExpr) (toAny body)))).

(** [nth_error] for an index expression [a[i]], which panics out of
    range. *)
Definition index {A : Type} (a : list A) (i : nat) : result A :=
  match nth_error a i with
  | Some x => Ok x
  | None => Panic runtimeError
  end.

Fixpoint buildIdentifierList_loop (childs : list (option Tree)) (identifiers : list Tree)
  (indx : nat) : result (list (any INode)) :=
  match childs with
  | [] => Ok []
  | None :: rest =>
      vs <- buildIdentifierList_loop rest identifiers indx ;;
      Ok (ANil :: vs)
  | Some _ :: rest =>
      iden <- index identifiers indx ;;
      identifier <- Visit (Some iden) ;;
      let v := Boxed (NodeOf "VariableDeclaration") (VariableDeclaration
        {| vd_Name := GetText iden;
           vd_TypeName := ANil;
           vd_Identifier := toAny identifier;
           vd_IsIndexed := false;
           vd_IsStateVar := false;
           vd_IsDeclaredConst := false;
           vd_StorageLocation := "";
           vd_Expression := ANil;
           vd_Visibility := "";
           vd_Override := None |}) in
      vs <- buildIdentifierList_loop rest identifiers (S indx) ;;
      Ok (ANode v :: vs)
  end.

Definition buildIdentifierList (ctx : Tree) : result (slice (any INode)) :=
  let count := GetChildCount ctx in
  if Nat.ltb count 2 then Panic "bad"
  else
    childs <- mapCommasToNulls (sliceInner (GetChildren ctx) count) ;;
    variables <- buildIdentifierList_loop childs (GetTypedRuleContexts ctx "Identifier") 0 ;;
    Ok (appendAll (Some []) variables).

Fixpoint buildVariableDeclarationList_loop (childs : list (option Tree))
  (variableDeclarations : list Tree) (indx : nat) : result (list (any INode)) :=
  match childs with
  | [] => Ok []
  | None :: rest =>
      vs <- buildVariableDeclarationList_loop rest variableDeclarations indx ;;
      Ok (ANil :: vs)
  | Some _ :: rest =>
      decl <- index variableDeclarations indx ;;
      let iden := GetTypedRuleContext decl "Identifier" 0 in
      storageLocation <-
        match GetTypedRuleContext decl "StorageLocation" 0 with
        | Some sl => toText (Some sl)
        | None => Ok ""
        end ;;
      name <- toText iden ;;
      identifier <- Visit iden ;;
      typeName <- Visit (GetTypedRuleContext decl "TypeName" 0) ;;
      let v := Boxed (NodeOf "VariableDeclaration") (VariableDeclaration
        {| vd_Name := name;
           vd_TypeName := toAny typeName;
           vd_Identifier := toAny identifier;
           vd_IsIndexed := false;
           vd_IsStateVar := false;
           vd_IsDeclaredConst := false;
           vd_StorageLocation := storageLocation;
           vd_Expression := ANil;
           vd_Visibility := "";
           vd_Override := None |}) in
      vs <- buildVariableDeclarationList_loop rest variableDeclarations (S indx) ;;
      Ok (ANode v :: vs)
  end.

Definition buildVariableDeclarationList (ctx : Tree) : result (slice (any INode)) :=
  childs <- mapCommasToNulls (GetChildren ctx) ;;
  variables <-
    buildVariableDeclarationList_loop childs (GetTypedRuleContexts ctx "VariableDeclaration") 0 ;;
  Ok (appendAll (Some []) variables).

Definition VisitVariableDeclarationStatement (ctx : Tree) : result output :=
  variables <-
    match GetTypedRuleContext ctx "VariableDeclaration" 0 with
    | Some expr => n <- Visit (Some expr) ;; Ok (Some [toAny n])
    | None =>
        match GetTypedRuleContext ctx "IdentifierList" 0 with
        | Some expr => buildIdentifierList expr
        | None =>
            match GetTypedRuleContext ctx "VariableDeclarationList" 0 with
            | Some expr => buildVariableDeclarationList expr
            | None => Ok None
            end
        end
    end ;;
  initialValue <-
    match GetTypedRuleContext ctx "Expression" 0 with
    | Some e => n <- Visit (Some e) ;; Ok (toAny n)
    | None => Ok ANil
    end ;;
  Ok (ONode (Boxed node0 (VariableDeclarationStatement initialValue variables))).

Definition VisitWhileStatement (ctx : Tree) : result output :=
  condition <- Visit (GetTypedRuleContext ctx "Expression" 0) ;;
  body <- Visit (GetTypedRuleContext ctx "Statement" 0) ;;
  Ok (ONode (Boxed node0 (WhileStatement (toAny condition) (toAny body)))).

Definition VisitDoWhileStatement (ctx : Tree) : result output :=
  condition <- Visit (GetTypedRuleContext ctx "Expression" 0) ;;
  body <- Visit (GetTypedRuleContext ctx "Statement" 0) ;;
  Ok (ONode (Boxed node0 (DoWhileStatement (toAny condition) (toAny body)))).

Definition VisitIfStatement (ctx : Tree) : result output :=
  condition <- Visit (GetTypedRuleContext ctx "Expression" 0) ;;
  trueBody <- Visit (GetTypedRuleContext ctx "Statement" 0) ;;
  falseBody <-
    (if Nat.ltb 1 (length (GetTypedRuleContexts ctx "Statement")) then
       n <- Visit (GetTypedRuleContext ctx "Statement" 1) ;; Ok (toAny n)
     else Ok ANil) ;;
  Ok (ONode (Boxed node0 (IfStatement (toAny condition) (toAny trueBody) falseBody))).

Fixpoint eventParameterLoop (paramsList : list Tree) : result (list (any INode)) :=
  match paramsList with
  | [] => Ok []
  | param :: rest =>
      '(name, identifier) <-
        match GetTypedRuleContext param "Identifier" 0 with
        | Some iden =>
            name <- toText (Some iden) ;;
            n <- Visit (Some iden) ;;
            Ok (name, toAny n)
        | None => Ok ("", ANil)
        end ;;
      typeName <- Visit (GetTypedRuleContext param "TypeName" 0) ;;
      let isIndexed :=
        match GetToken param "IndexedKeyword" 0 with
        | Some _ => true
        | None => false
        end in
      let varDecl := Boxed (NodeOf "VariableDeclaration") (VariableDeclaration
        {| vd_Name := name;
           vd_TypeName := toAny typeName;
           vd_Identifier := identifier;
           vd_IsIndexed := isIndexed;
           vd_IsStateVar := false;
           vd_IsDeclaredConst := false;
           vd_StorageLocation := "";
           vd_Expression := ANil;
           vd_Visibility := "";
           vd_Override := None |}) in
      vs <- eventParameterLoop rest ;;
      Ok (ANode varDecl :: vs)
  end.

Definition VisitEventDefinition (ctx : Tree) : result output :=
  name <- toText (GetTypedRuleContext ctx "Identifier" 0) ;;
  eventParameterList <- assertCtx (GetTypedRuleContext ctx "EventParameterList" 0) ;;
  parameters <- eventParameterLoop (GetTypedRuleContexts eventParameterList "EventParameter") ;;
  Ok (ONode (Boxed node0 (EventDefinition name (appendAll (Some []) parameters)))).

(** The type assertion of a visited node to an [Identifier] pointer. *)
Definition assertIdentifier (n : option INode) : result INode :=
  match n with
  | Some (Boxed node (Identifier name)) => Ok (Boxed node (Identifier name))
  | _ => Panic runtimeError
  end.

(** The loop over the import declarations of the symbol-alias form: for
    each, the pair of symbol and alias texts and the pair of their
    identifier nodes (the alias one nil when there is no alias). *)
Fixpoint importDeclarationLoop (importDecl : list Tree)
  : result (list (slice string) * list (slice (option INode))) :=
  match importDecl with
  | [] => Ok ([], [])
  | ctx :: rest =>
      symbol <- toText (GetTypedRuleContext ctx "Identifier" 0) ;;
      n <- Visit (GetTypedRuleContext ctx "Identifier" 0) ;;
      symbolIdentifier <- assertIdentifier n ;;
      '(alias, aliasIdentifier) <-
        (if Nat.ltb 1 (length (GetTypedRuleContexts ctx "Identifier")) then
           alias <- toText (GetTypedRuleContext ctx "Identifier" 1) ;;
           n <- Visit (GetTypedRuleContext ctx "Identifier" 1) ;;
           aliasIdentifier <- assertIdentifier n ;;
           Ok (alias, Some aliasIdentifier)
         else Ok ("", None)) ;;
      '(aliases, identifiers) <- importDeclarationLoop rest ;;
      Ok (Some [symbol; alias] :: aliases,
          Some [Some symbolIdentifier; aliasIdentifier] :: identifiers)
  end.

Definition VisitImportDirective (ctx : Tree) : result output :=
  pathString <- toText (GetTypedRuleContext ctx "ImportPath" 0) ;;
  let path := Trim pathString dquote in
  let importDecl := GetTypedRuleContexts ctx "ImportDeclaration" in
  '(unitAlias, unitAliasIdentifier, symbolAliases, symbolAliasesIdentifiers) <-
    (if Nat.ltb 0 (length importDecl) then
       '(aliases, identifiers) <- importDeclarationLoop importDecl ;;
       Ok ("", ANil, appendAll None aliases, appendAll None identifiers)
     else
       let idenList := GetTypedRuleContexts ctx "Identifier" in
       iden <-
         match idenList with
         | [] => Ok None
         | [i0] => Ok (Some i0)
         | [i0; i1] => Ok (Some i1)
         | _ => Panic "BAD"
         end ;;
       match iden with
       | Some iden =>
           n <- Visit (Some iden) ;;
           Ok (GetText iden, toAny n, None, None)
       | None => Ok ("", ANil, None, None)
       end) ;;
  let pathLiteral := Boxed (NodeOf "StringLiteral")
    (StringLiteral path (Some [path]) (Some [false])) in
  Ok (ONode (Boxed node0 (ImportDirective
    {| id_Path := path;
       id_PathLiteral := ANode pathLiteral;
       id_UnitAlias := unitAlias;
       id_UnitAliasIdentifier := unitAliasIdentifier;
       id_SymbolAliases := symbolAliases;
       id_SymbolAliasesIdentifiers := symbolAliasesIdentifiers |}))).

Definition VisitEnumDefinition (ctx : Tree) : result output :=
  name <- toText (GetTypedRuleContext ctx "Identifier" 0) ;;
  members <- visitAll (GetTypedRuleContexts ctx "EnumValue") ;;
  Ok (ONode (Boxed node0 (EnumDefinition name (appendAll (Some []) members)))).

Definition VisitEnumValue (ctx : Tree) : result output :=
  name <- toText (GetTypedRuleContext ctx "Identifier" 0) ;;
  Ok (ONode (Boxed node0 (EnumValue name))).

Definition VisitBreakStatement (ctx : Tree) : result output :=
  Ok (ONode (Boxed node0 BreakStatement)).

Definition VisitContinueStatement (ctx : Tree) : result output :=
  Ok (ONode (Boxed node0 ContinueStatement)).

Definition VisitReturnStatement (ctx : Tree) : result output :=
  expression <-
    match GetTypedRuleContext ctx "Expression" 0 with
    | Some e => n <- Visit (Some e) ;; Ok (toAny n)
    | None => Ok ANil
    end ;;
  Ok (ONode (Boxed node0 (ReturnStatement expression))).

Definition VisitModifierDefinition (ctx : Tree) : result output :=
  name <- toText (GetTypedRuleContext ctx "Identifier" 0) ;;
  override <-
    match GetTypedRuleContexts ctx "OverrideSpecifier" with
    | [] => Ok (Some [])
    | spec :: _ =>
        types <- visitAll (GetTypedRuleContexts spec "UserDefinedTypeName") ;;
        Ok (appendAll (Some []) types)
    end ;;
  let isVirtual := Nat.ltb 0 (length (GetTokens ctx "VirtualKeyword")) in
  body <-
    match GetTypedRuleContext ctx "Block" 0 with
    | Some b => n <- Visit (Some b) ;; Ok (toAny n)
    | None => Ok ANil
    end ;;
  Ok (ONode (Boxed node0 (ModifierDefinition name ANil body isVirtual override))).

Definition VisitOverrideSpecifier (ctx : Tree) : result output :=
  Ok (ONode (Boxed node0 OverrideSpecifier)).

Definition VisitFunctionTypeName (ctx : Tree) : result output :=
  let paramList := GetTypedRuleContexts ctx "FunctionTypeParameterList" in
  params <- index paramList 0 ;;
  parameterTypes <- visitAll (GetTypedRuleContexts params "FunctionTypeParameter") ;;
  returnTypes <-
    (if Nat.ltb 1 (length paramList) then
       rets <- index paramList 1 ;;
       visitAll (GetTypedRuleContexts rets "FunctionTypeParameter")
     else Ok []) ;;
  let visibility :=
    if hasElem (GetTokens ctx "InternalKeyword") then "internal"
    else if hasElem (GetTokens ctx "ExternalKeyword") then "external"
    else "default" in
  let stateMutability :=
    match GetTypedRuleContexts ctx "StateMutability" with
    | m :: _ => GetText m
    | [] => ""
    end in
  Ok (ONode (Boxed node0
    (FunctionTypeName (appendAll (Some []) parameterTypes) (appendAll (Some []) returnTypes)
       visibility stateMutability))).

Definition VisitFunctionTypeParameter (ctx : Tree) : result output :=
  typeName <- Visit (GetTypedRuleContext ctx "TypeName" 0) ;;
  storageLocation <-
    match GetTypedRuleContext ctx "StorageLocation" 0 with
    | Some sl => toText (Some sl)
    | None => Ok ""
    end ;;
  Ok (ONode (Boxed (NodeOf "VariableDeclaration") (VariableDeclaration
    {| vd_Name := "";
       vd_TypeName := toAny typeName;
       vd_Identifier := ANil;
       vd_IsIndexed := false;
       vd_IsStateVar := false;
       vd_IsDeclaredConst := false;
       vd_StorageLocation := storageLocation;
       vd_Expression := ANil;
       vd_Visibility := "";
       vd_Override := None |}))).

Definition VisitUsingForDeclaration (ctx : Tree) : result output :=
  libraryName <- toText (GetTypedRuleContext ctx "Identifier" 0) ;;
  typeName <-
    match GetTypedRuleContext ctx "TypeName" 0 with
    | Some typ => n <- Visit (Some typ) ;; Ok (toAny n)
    | None => Ok ANil
    end ;;
  Ok (ONode (Boxed node0 (UsingForDeclaration libraryName typeName))).

Definition VisitTypeName (ctx : Tree) : result output :=
  if Nat.ltb 2 (GetChildCount ctx) then
    length_ <-
      (if Nat.eqb (GetChildCount ctx) 4 then
         match GetTypedRuleContext ctx "Expression" 0 with
         | Some expr => n <- Visit (Some expr) ;; Ok (toAny n)
         | None => Panic "BAD"
         end
       else Ok ANil) ;;
    baseTypeName <- Visit (GetTypedRuleContext ctx "TypeName" 0) ;;
    Ok (ONode (Boxed (NodeOf "ArrayTypeName") (ArrayTypeName (toAny baseTypeName) length_)))
  else if Nat.eqb (GetChildCount ctx) 2 then
    name <- toText (GetChild ctx 0) ;;
    stateMutability <- toText (GetChild ctx 1) ;;
    Ok (ONode (Boxed (NodeOf "ElementaryTypeName") (ElementaryTypeName name stateMutability)))
  else
    match GetTypedRuleContext ctx "ElementaryTypeName" 0 with
    | Some elem => n <- Visit (Some elem) ;; Ok (ofINode n)
    | None =>
    match GetTypedRuleContext ctx "UserDefinedTypeName" 0 with
    | Some elem => n <- Visit (Some elem) ;; Ok (ofINode n)
    | None =>
    match GetTypedRuleContext ctx "Mapping" 0 with
    | Some elem => n <- Visit (Some elem) ;; Ok (ofINode n)
    | None =>
    match GetTypedRuleContext ctx "FunctionTypeName" 0 with
    | Some elem => n <- Visit (Some elem) ;; Ok (ofINode n)
    | None => Panic "TODO"
    end end end end.

(** ** Inline assembly

    The assembly structs do not embed [Node], so none of them is an
    [INode]: each builder below visits what the Go builder visits, in the
    same order, and then returns a non-nil value that [Visit] cannot
    convert ([OOther]). *)
Definition VisitInlineAssemblyStatement (ctx : Tree) : result output :=
  body <- Visit (GetTypedRuleContext ctx "AssemblyBlock" 0) ;;
  Ok OOther.

Definition VisitAssemblyBlock (ctx : Tree) : result output :=
  operations <- visitAll (GetTypedRuleContexts ctx "AssemblyItem") ;;
  Ok OOther.

Definition VisitAssemblyItem (ctx : Tree) : result output :=
  n <- Visit (GetChild ctx 0) ;;
  Ok (ofINode n).

Definition VisitAssemblyExpression (ctx : Tree) : result output :=
  n <- Visit (GetChild ctx 0) ;;
  Ok (ofINode n).

Definition VisitAssemblyCall (ctx : Tree) : result output :=
  arguments <- visitAll (GetTypedRuleContexts ctx "AssemblyExpression") ;;
  Ok OOther.

Definition VisitAssemblyLiteral (ctx : Tree) : result output :=
  Ok OOther.

Definition VisitAssemblySwitch (ctx : Tree) : result output :=
  expression <- Visit (GetTypedRuleContext ctx "AssemblyExpression" 0) ;;
  cases <- visitAll (GetTypedRuleContexts ctx "AssemblyCase") ;;
  Ok OOther.

Definition VisitAssemblyCase (ctx : Tree) : result output :=
  block <- Visit (GetTypedRuleContext ctx "AssemblyBlock" 0) ;;
  Ok OOther.

Definition VisitAssemblyLocalDefinition (ctx : Tree) : result output :=
  expression <-
    match GetTypedRuleContext ctx "AssemblyExpression" 0 with
    | Some expr => n <- Visit (Some expr) ;; Ok (toAny n)
    | None => Ok ANil
    end ;;
  Ok OOther.

Definition VisitAssemblyFunctionDefinition (ctx : Tree) : result output :=
  body <- Visit (GetTypedRuleContext ctx "AssemblyBlock" 0) ;;
  Ok OOther.

Definition VisitAssemblyAssignment (ctx : Tree) : result output :=
  expression <- Visit (GetTypedRuleContext ctx "AssemblyExpression" 0) ;;
  Ok OOther.

Definition VisitAssemblyFor (ctx : Tree) : result output :=
  pre <- Visit (GetChild ctx 0) ;;
  condition <- Visit (GetChild ctx 1) ;;
  post <- Visit (GetChild ctx 2) ;;
  body <- Visit (GetChild ctx 3) ;;
  Ok OOther.

Definition VisitAssemblyIf (ctx : Tree) : result output :=
  condition <- Visit (GetTypedRuleContext ctx "AssemblyExpression" 0) ;;
  body <- Visit (GetTypedRuleContext ctx "AssemblyBlock" 0) ;;
  Ok OOther.

Definition VisitAssemblyMember (ctx : Tree) : result output :=
  expression <- Visit (GetTypedRuleContext ctx "Identifier" 0) ;;
  memberName <- Visit (GetTypedRuleContext ctx "Identifier" 1) ;;
  Ok OOther.

(** ** Remaining statements, calls and type names *)

Definition VisitEmitStatement (ctx : Tree) : result output :=
  eventCall <- Visit (GetTypedRuleContext ctx "FunctionCall" 0) ;;
  Ok (ONode (Boxed node0 (EmitStatement (toAny eventCall)))).

Definition VisitThrowStatement (ctx : Tree) : result output :=
  Ok (ONode (Boxed node0 ThrowStatement)).

Definition VisitFunctionCall (ctx : Tree) : result output :=
  expression <- Visit (GetTypedRuleContext ctx "Expression" 0) ;;
  ctxArgs <- assertCtx (GetTypedRuleContext ctx "FunctionCallArguments" 0) ;;
  '(args, names, identifiers) <-
    match GetTypedRuleContext ctxArgs "ExpressionList" 0 with
    | Some ctxArgsExpr =>
        vs <- visitAll (GetTypedRuleContexts ctxArgsExpr "Expression") ;;
        Ok (appendAll (Some []) vs, Some [], Some [])
    | None =>
        match GetTypedRuleContext ctxArgs "NameValueList" 0 with
        | Some ctxArgsName =>
            '(vs, ns, ids) <- nameValueLoop (GetTypedRuleContexts ctxArgsName "NameValue") ;;
            Ok (appendAll (Some []) vs, appendAll (Some []) (stringsAsAny ns),
                appendAll (Some []) ids)
        | None => Ok (Some [], Some [], Some [])
        end
    end ;;
  Ok (ONode (Boxed node0 (FunctionCall args names identifiers (toAny expression)))).

Definition VisitCustomErrorDefinition (ctx : Tree) : result output :=
  name <- toText (GetTypedRuleContext ctx "Identifier" 0) ;;
  parameterList <- assertCtx (GetTypedRuleContext ctx "ParameterList" 0) ;;
  parameters <- VisitParameterList parameterList ;;
  Ok (ONode (Boxed node0 (CustomErrorDefinition name parameters))).

Definition VisitTryStatement (ctx : Tree) : result output :=
  catchClause <- visitAll (GetTypedRuleContexts ctx "CatchClause") ;;
  expression <- Visit (GetTypedRuleContext ctx "Expression" 0) ;;
  body <- Visit (GetTypedRuleContext ctx "Block" 0) ;;
  returnParameters <-
    match GetTypedRuleContext ctx "ReturnParameters" 0 with
    | Some ret => s <- VisitReturnParameters ret ;; Ok (ASlice s)
    | None => Ok ANil
    end ;;
  Ok (ONode (Boxed node0
    (TryStatement (toAny expression) (appendAll (Some []) catchClause) (toAny body)
       returnParameters))).

Definition VisitCatchClause (ctx : Tree) : result output :=
  kind <-
    match GetTypedRuleContext ctx "Identifier" 0 with
    | Some iden =>
        let kind := GetText iden in
        if negb (kind =? "Error") && negb (kind =? "Panic") then
          Panic "Expected 'Error' or 'Panic'"
        else Ok kind
    | None => Ok ""
    end ;;
  body <- Visit (GetTypedRuleContext ctx "Block" 0) ;;
  parameters <-
    match GetTypedRuleContext ctx "ParameterList" 0 with
    | Some param => s <- VisitParameterList param ;; Ok (ASlice s)
    | None => Ok ANil
    end ;;
  Ok (ONode (Boxed node0 (CatchClause (kind =? "Error") kind parameters (toAny body)))).

Definition VisitFileLevelConstant (ctx : Tree) : result output :=
  name <- toText (GetTypedRuleContext ctx "Identifier" 0) ;;
  typeName <- Visit (GetTypedRuleContext ctx "TypeName" 0) ;;
  initialValue <- Visit (GetTypedRuleContext ctx "Expression" 0) ;;
  Ok (ONode (Boxed node0
    (FileLevelConstant name (toAny initialValue) (toAny typeName) true false))).

Definition VisitUncheckedStatement (ctx : Tree) : result output :=
  block <- Visit (GetTypedRuleContext ctx "Block" 0) ;;
  Ok (ONode (Boxed node0 (UncheckedStatement (toAny block)))).

Definition VisitTypeDefinition (ctx : Tree) : result output :=
  name <- toText (GetTypedRuleContext ctx "Identifier" 0) ;;
  definition <- Visit (GetTypedRuleContext ctx "ElementaryTypeName" 0) ;;
  Ok (ONode (Boxed node0 (TypeDefinition name (toAny definition)))).

Definition VisitElementaryTypeName (ctx : Tree) : result output :=
  Ok (ONode (Boxed node0 (ElementaryTypeName (GetText ctx) ""))).

Definition VisitUserDefinedTypeName (ctx : Tree) : result output :=
  Ok (ONode (Boxed node0 (UserDefinedTypeName (GetText ctx)))).

Definition VisitRevertStatement (ctx : Tree) : result output :=
  revertCall <- Visit (GetTypedRuleContext ctx "FunctionCall" 0) ;;
  Ok (ONode (Boxed node0 (RevertStatement (toAny revertCall)))).

(** ** The method table

    [init] registers every exported method whose name starts with
    [Visit], except [Visit] itself, under its name.  The two methods
    that return a slice hand [Visit] a nil or a non-nil slice. *)
Definition funcMap : list (string * (Tree -> result output)) :=
  [ ("VisitSourceUnit", VisitSourceUnit);
    ("VisitPragmaDirective", VisitPragmaDirective);
    ("VisitContractDefinition", VisitContractDefinition);
    ("VisitInheritanceSpecifier", VisitInheritanceSpecifier);
    ("VisitContractPart", VisitContractPart);
    ("VisitStructDefinition", VisitStructDefinition);
    ("VisitVariableDeclaration", VisitVariableDeclaration);
    ("VisitIdentifier", VisitIdentifier);
    ("VisitStateVariableDeclaration", VisitStateVariableDeclaration);
    ("VisitFunctionDefinition", VisitFunctionDefinition);
    ("VisitParameter", VisitParameter);
    ("VisitModifierInvocation", VisitModifierInvocation);
    ("VisitBlock", VisitBlock);
    ("VisitStatement", VisitStatement);
    ("VisitSimpleStatement", VisitSimpleStatement);
    ("VisitExpressionStatement", VisitExpressionStatement);
    ("VisitExpression", VisitExpression);
    ("VisitMapping", VisitMapping);
    ("VisitMappingKey", VisitMappingKey);
    ("VisitNameValueList", VisitNameValueList);
    ("VisitTupleExpression", VisitTupleExpression);
    ("VisitTypeNameExpression", VisitTypeNameExpression);
    ("VisitNumberLiteral", VisitNumberLiteral);
    ("VisitHexLiteral", VisitHexLiteral);
    ("VisitPrimaryExpression", VisitPrimaryExpression);
    ("VisitForStatement", VisitForStatement);
    ("VisitVariableDeclarationStatement", VisitVariableDeclarationStatement);
    ("VisitWhileStatement", VisitWhileStatement);
    ("VisitDoWhileStatement", VisitDoWhileStatement);
    ("VisitIfStatement", VisitIfStatement);
    ("VisitEventDefinition", VisitEventDefinition);
    ("VisitImportDirective", VisitImportDirective);
    ("VisitEnumDefinition", VisitEnumDefinition);
    ("VisitEnumValue", VisitEnumValue);
    ("VisitBreakStatement", VisitBreakStatement);
    ("VisitContinueStatement", VisitContinueStatement);
    ("VisitReturnStatement", VisitReturnStatement);
    ("VisitModifierDefinition", VisitModifierDefinition);
    ("VisitOverrideSpecifier", VisitOverrideSpecifier);
    ("VisitFunctionTypeName", VisitFunctionTypeName);
    ("VisitFunctionTypeParameter", VisitFunctionTypeParameter);
    ("VisitUsingForDeclaration", VisitUsingForDeclaration);
    ("VisitTypeName", VisitTypeName);
    ("VisitInlineAssemblyStatement", VisitInlineAssemblyStatement);
    ("VisitAssemblyBlock", VisitAssemblyBlock);
    ("VisitAssemblyItem", VisitAssemblyItem);
    ("VisitAssemblyExpression", VisitAssemblyExpression);
    ("VisitAssemblyCall", VisitAssemblyCall);
    ("VisitAssemblyLiteral", VisitAssemblyLiteral);
    ("VisitAssemblySwitch", VisitAssemblySwitch);
    ("VisitAssemblyCase", VisitAssemblyCase);
    ("VisitAssemblyLocalDefinition", VisitAssemblyLocalDefinition);
    ("VisitAssemblyFunctionDefinition", VisitAssemblyFunctionDefinition);
    ("VisitAssemblyAssignment", VisitAssemblyAssignment);
    ("VisitAssemblyFor", VisitAssemblyFor);
    ("VisitAssemblyIf", VisitAssemblyIf);
    ("VisitAssemblyMember", VisitAssemblyMember);
    ("VisitEmitStatement", VisitEmitStatement);
    ("VisitThrowStatement", VisitThrowStatement);
    ("VisitFunctionCall", VisitFunctionCall);
    ("VisitCustomErrorDefinition", VisitCustomErrorDefinition);
    ("VisitTryStatement", VisitTryStatement);
    ("VisitCatchClause", VisitCatchClause);
    ("VisitReturnParameters", fun ctx => s <- VisitReturnParameters ctx ;; Ok (ofSlice s));
    ("VisitParameterList", fun ctx => s <- VisitParameterList ctx ;; Ok (ofSlice s));
    ("VisitFileLevelConstant", VisitFileLevelConstant);
    ("VisitUncheckedStatement", VisitUncheckedStatement);
    ("VisitTypeDefinition", VisitTypeDefinition);
    ("VisitElementaryTypeName", VisitElementaryTypeName);
    ("VisitUserDefinedTypeName", VisitUserDefinedTypeName);
    ("VisitRevertStatement", VisitRevertStatement) ].

End Builders.

(** [e.funcMap[funcName]]. *)
Fixpoint lookup {A : Type} (name : string) (m : list (string * A)) : option A :=
  match m with
  | [] => None
  | (k, v) :: r => if k =? name then Some v else lookup name r
  end.

Definition skip : list string :=
  ["ContractPart"; "Statement"; "SimpleStatement"; "Expression"; "TypeName"; "MappingKey";
   "PrimaryExpression"; "Parameter"; "FunctionTypeParameter"].

Fixpoint skipNode_loop (skip : list string) (i : string) : bool :=
  match skip with
  | [] => false
  | j :: r => if j =? i then true else skipNode_loop r i
  end.

Definition skipNode (i : string) : bool := skipNode_loop skip i.

(** One call of [Visit], given the listener's [Visit] for the calls that
    the builders make. *)
Definition Visit_step (self : visitor) (i : option Tree) : result (option INode) :=
  match i with
  | None => Panic runtimeError
  | Some t =>
      let funcName := typeString t in
      if funcName =? "*antlr.TerminalNodeImpl" then Ok None
      else
        let funcName := TrimPrefix funcName "*solcparser." in
        let xx := TrimSuffix funcName "Context" in
        let funcName := ("Visit" ++ TrimSuffix funcName "Context")%string in
        match lookup funcName (funcMap self) with
        | None => Panic ("BUG: visit not found " ++ funcName)%string
        | Some fd =>
            output <- fd t ;;
            match output with
            | ONil => Ok None
            | OOther => Panic runtimeError
            | ONode ii =>
                if negb (skipNode xx) then Ok (Some (SetTypeName ii xx))
                else Ok (Some ii)
            end
        end
  end.

(** [Visit], by recursion on a bound of the depth of the calls.  A
    bound above the depth of the tree is enough, and a larger one does
    not change the run ([Visit_total] and [Visit_fuel] below). *)
Fixpoint Visit (fuel : nat) (i : option Tree) : result (option INode) :=
  match fuel with
  | 0 => OutOfFuel
  | S fuel => Visit_step (Visit fuel) i
  end.

(** The nesting depth of a tree, which bounds the depth of the calls. *)
Fixpoint depth (t : Tree) : nat :=
  match t with
  | TerminalNodeImpl _ _ => 0
  | ErrorNodeImpl _ _ => 0
  | Ctx _ cs =>
      S ((fix go (l : list Tree) : nat :=
            match l with
            | [] => 0
            | c :: r => Nat.max (depth c) (go r)
            end) cs)
  end.

(** [lis.Visit(tree)] as [Parse] calls it on the tree of the parser. *)
Definition VisitTree (t : Tree) : result (option INode) := Visit (S (depth t)) (Some t).

(* ================================================================== *)
(** * Specification-side definitions *)
(* ================================================================== *)

(** ** Sparse lists, in the words of the specification

    A raw child sequence holds elements and separator commas.  Cutting
    it at every comma leaves one segment per slot: [m + 1] segments for
    [m] commas, an empty segment wherever no element stands between two
    adjacent separators or at a boundary of the sequence. *)
Definition isComma (t : Tree) : bool := GetText t =? ",".

Definition commas (tree : list Tree) : nat := length (filter isComma tree).

Definition elements (tree : list Tree) : list Tree :=
  filter (fun t => negb (isComma t)) tree.

Fixpoint segments (tree : list Tree) : list (list Tree) :=
  match tree with
  | [] => [[]]
  | c :: rest =>
      if isComma c then [] :: segments rest
      else
        match segments rest with
        | seg :: segs => (c :: seg) :: segs
        | [] => [[c]]
        end
  end.

(** The slot of a segment: absent for an empty one, else its element. *)
Definition slotOf (seg : list Tree) : option Tree := hd_error seg.

(** The elements that a sequence of slots holds, in order. *)
Fixpoint present (slots : list (option Tree)) : list Tree :=
  match slots with
  | [] => []
  | Some t :: r => t :: present r
  | None :: r => present r
  end.

(** Elements and separators alternate: no two elements are adjacent. *)
Definition alternating (tree : list Tree) : Prop :=
  Forall (fun seg => length seg <= 1) (segments tree).

(** ** Predicates over every node of an AST *)

Section All.

Variable N : Type.
Variable P : N -> Prop.

Definition listAll {A : Type} (Q : A -> Prop) : list A -> Prop :=
  fix go (l : list A) : Prop :=
    match l with
    | [] => True
    | x :: r => Q x /\ go r
    end.

Definition sliceAll {A : Type} (Q : A -> Prop) (s : slice A) : Prop :=
  match s with
  | Some l => listAll Q l
  | None => True
  end.

Definition optionAll {A : Type} (Q : A -> Prop) (o : option A) : Prop :=
  match o with
  | Some x => Q x
  | None => True
  end.

(** [P] holds of every node stored in an [interface{}] slot. *)
Fixpoint anyAll (a : any N) : Prop :=
  match a with
  | ANil => True
  | ANode n => P n
  | AString _ => True
  | ASlice None => True
  | ASlice (Some l) =>
      (fix go (l : list (any N)) : Prop :=
         match l with
         | [] => True
         | x :: r => anyAll x /\ go r
         end) l
  end.

Definition variableDeclarationAll (v : VariableDeclarationT N) : Prop :=
  anyAll (vd_TypeName v) /\ anyAll (vd_Identifier v) /\ anyAll (vd_Expression v) /\
  sliceAll anyAll (vd_Override v).

Definition functionDefinitionAll (f : FunctionDefinitionT N) : Prop :=
  sliceAll anyAll (fd_Parameters f) /\ sliceAll anyAll (fd_Modifiers f) /\
  anyAll (fd_ReturnParameters f) /\ anyAll (fd_Body f) /\ sliceAll anyAll (fd_Override f).

Definition importDirectiveAll (d : ImportDirectiveT N) : Prop :=
  anyAll (id_PathLiteral d) /\ anyAll (id_UnitAliasIdentifier d) /\
  sliceAll (sliceAll (optionAll P)) (id_SymbolAliasesIdentifiers d).

(** [P] holds of every node that the fields of a struct point to. *)
Definition structAll (s : Struct N) : Prop :=
  match s with
  | SourceUnit ch => sliceAll anyAll ch
  | PragmaDirective _ _ => True
  | ContractDefinition _ sub base _ => sliceAll anyAll sub /\ sliceAll anyAll base
  | InheritanceSpecifier b args => anyAll b /\ sliceAll anyAll args
  | StructDefinition _ m => sliceAll anyAll m
  | VariableDeclaration v => variableDeclarationAll v
  | Identifier _ => True
  | StateVariableDeclaration vars init => sliceAll anyAll vars /\ anyAll init
  | StateVariableDeclarationVariable v _ => variableDeclarationAll v
  | FunctionDefinition f => functionDefinitionAll f
  | ModifierInvocation _ args => sliceAll anyAll args
  | Block st => sliceAll anyAll st
  | ExpressionStatement e => anyAll e
  | NewExpression t => anyAll t
  | UnaryOperation _ e _ => anyAll e
  | BinaryOperation _ l r => anyAll l /\ anyAll r
  | NumberLiteral _ sd => anyAll sd
  | IndexRangeAccess b s e => anyAll b /\ anyAll s /\ anyAll e
  | Conditional c t f => anyAll c /\ anyAll t /\ anyAll f
  | MemberAccess e _ => anyAll e
  | TupleExpression comps _ => sliceAll anyAll comps
  | NameValueExpression e a => anyAll e /\ anyAll a
  | IndexAccess b i => anyAll b /\ anyAll i
  | ArrayTypeName b l => anyAll b /\ anyAll l
  | Mapping k v => anyAll k /\ anyAll v
  | NameValueList _ ids args => sliceAll anyAll ids /\ sliceAll anyAll args
  | TypeNameExpression t => anyAll t
  | HexLiteral _ _ => True
  | BooleanLiteral _ => True
  | ForStatement i c l b => anyAll i /\ anyAll c /\ anyAll l /\ anyAll b
  | VariableDeclarationStatement init vars => anyAll init /\ sliceAll anyAll vars
  | WhileStatement c b => anyAll c /\ anyAll b
  | DoWhileStatement c b => anyAll c /\ anyAll b
  | IfStatement c t f => anyAll c /\ anyAll t /\ anyAll f
  | EventDefinition _ ps => sliceAll anyAll ps
  | ImportDirective d => importDirectiveAll d
  | StringLiteral _ _ _ => True
  | EnumDefinition _ m => sliceAll anyAll m
  | EnumValue _ => True
  | BreakStatement => True
  | ContinueStatement => True
  | ReturnStatement e => anyAll e
  | ModifierDefinition _ ps b _ o => anyAll ps /\ anyAll b /\ sliceAll anyAll o
  | OverrideSpecifier => True
  | FunctionTypeName ps rs _ _ => sliceAll anyAll ps /\ sliceAll anyAll rs
  | UsingForDeclaration _ t => anyAll t
  | EmitStatement c => anyAll c
  | ThrowStatement => True
  | FunctionCall args names ids e =>
      sliceAll anyAll args /\ sliceAll anyAll names /\ sliceAll anyAll ids /\ anyAll e
  | CustomErrorDefinition _ ps => sliceAll anyAll ps
  | TryStatement e cs b r => anyAll e /\ sliceAll anyAll cs /\ anyAll b /\ anyAll r
  | CatchClause _ _ ps b => anyAll ps /\ anyAll b
  | FileLevelConstant _ i t _ _ => anyAll i /\ anyAll t
  | UncheckedStatement b => anyAll b
  | TypeDefinition _ d => anyAll d
  | ElementaryTypeName _ _ => True
  | UserDefinedTypeName _ => True
  | RevertStatement c => anyAll c
  end.

End All.

(** [P] holds of the embedded [Node] of a node and of every node below
    it. *)
Fixpoint AllNodes (P : Node -> Prop) (n : INode) : Prop :=
  match n with
  | Boxed node s => P node /\ structAll (AllNodes P) s
  end.

(** ** Tags

    A tag is in order when [SetTypeName] has reached the node at most
    once and the tag is not the name of a suppressed production. *)
Definition tagOk (node : Node) : Prop :=
  sets node <= 1 /\ skipNode (Type_ node) = false.

(** The rule of a tree: the production name that [Visit] derives from
    the type of a rule context (the empty string for a leaf). *)
Definition ruleOf (t : Tree) : string :=
  match t with
  | Ctx rule _ => rule
  | _ => ""
  end.

(** Modelled from the spec: the grammar is not part of the sources.  In
    it the rules [assemblyItem] and [assemblyExpression] are only
    reachable through [assemblyBlock], so in a tree built by the parser
    every context of these two rules lies inside the context of an
    assembly block. *)
Fixpoint assemblyInBlock (t : Tree) : bool :=
  match t with
  | Ctx rule cs =>
      (rule =? "AssemblyBlock") ||
      (negb (rule =? "AssemblyItem") && negb (rule =? "AssemblyExpression") &&
       forallb assemblyInBlock cs)
  | _ => true
  end.

(** ** Visibility and import aliases, in the words of the specification *)

(** The first keyword of an ordered candidate list that the modifier
    list holds, "default" when it holds none. *)
Fixpoint firstKeyword (modList : Tree) (candidates : list (string * string)) : string :=
  match candidates with
  | [] => "default"
  | (ttype, visibility) :: rest =>
      if hasElem (GetTokens modList ttype) then visibility
      else firstKeyword modList rest
  end.

(** The (symbol, alias) pair of an import declaration: the texts of its
    first identifier and of its second one, if any. *)
Definition symbolAliasOf (decl : Tree) : slice string :=
  Some [match GetTypedRuleContext decl "Identifier" 0 with
        | Some i => GetText i
        | None => ""
        end;
        match GetTypedRuleContext decl "Identifier" 1 with
        | Some i => GetText i
        | None => ""
        end].

(** ** The invariant of the traversal *)

(** A node all of whose tags are in order. *)
Definition goodNode (n : INode) : Prop := AllNodes tagOk n.

Definition goodAny (a : any INode) : Prop := anyAll goodNode a.

(** The result of a builder of a production that is not suppressed: a
    node that has not been tagged, over good nodes. *)
Definition fresh (out : output) : Prop :=
  match out with
  | ONode (Boxed node s) => node = node0 /\ structAll goodNode s
  | _ => True
  end.

(** The result of a builder of a suppressed production. *)
Definition goodOut (out : output) : Prop :=
  match out with
  | ONode n => goodNode n
  | _ => True
  end.

Definition guarded (t : Tree) : Prop := assemblyInBlock t = true.

Definition below (ctx : Tree) : Prop := Forall guarded (GetChildren ctx).

(** What the builders may assume of [e.Visit]. *)
Definition goodV (V : visitor) : Prop :=
  forall i n, optionAll guarded i -> V i = Ok (Some n) -> goodNode n.

(** ** Agreement of runs

    Two runs are settled when they end alike and not for lack of fuel;
    two visitors agree below a depth when their runs are settled on
    every tree of smaller depth (and on nil). *)
Definition settled {A : Type} (r r' : result A) : Prop := r = r' /\ r <> OutOfFuel.

Definition shallower (d : nat) (i : option Tree) : Prop :=
  match i with
  | Some t => depth t < d
  | None => True
  end.

Definition agreeBelow (d : nat) (V V' : visitor) : Prop :=
  forall i, shallower d i -> settled (V i) (V' i).

(** ** Visited lists and slots

    What the loops of the builders leave in a list: the visit of a tree
    stored in an [interface{}] slot, and the same for the slots of a
    sparse list, where an absent slot stays nil. *)
Definition visits (V : visitor) (p : Tree) (v : any INode) : Prop :=
  exists n, V (Some p) = Ok n /\ v = toAny n.

Definition visitsSlot (V : visitor) (slot : option Tree) (v : any INode) : Prop :=
  match slot with
  | None => v = ANil
  | Some c => visits V c v
  end.

(** The visit of the first child context of a production, as a field
    holds it: [e.Visit(p.Expression())], [e.Visit(p.Identifier())]. *)
Definition visitsPart (V : visitor) (rule : string) (p : Tree) (v : any INode) : Prop :=
  exists n, V (GetTypedRuleContext p rule 0) = Ok n /\ v = toAny n.

(** The declaration that [buildIdentifierList] makes of an identifier. *)
Definition identifierDeclaration (iden : Tree) (identifier : any INode) : INode :=
  Boxed (NodeOf "VariableDeclaration") (VariableDeclaration
    {| vd_Name := GetText iden;
       vd_TypeName := ANil;
       vd_Identifier := identifier;
       vd_IsIndexed := false;
       vd_IsStateVar := false;
       vd_IsDeclaredConst := false;
       vd_StorageLocation := "";
       vd_Expression := ANil;
       vd_Visibility := "";
       vd_Override := None |}).

Definition declaresSlot (V : visitor) (slot : option Tree) (v : any INode) : Prop :=
  match slot with
  | None => v = ANil
  | Some iden => exists n, V (Some iden) = Ok n /\ v = ANode (identifierDeclaration iden (toAny n))
  end.

(** The productions of inline assembly whose structs do not embed
    [Node]. *)
Definition assemblyStructs : list string :=
  ["InlineAssemblyStatement"; "AssemblyBlock"; "AssemblyCall"; "AssemblyLiteral";
   "AssemblySwitch"; "AssemblyCase"; "AssemblyLocalDefinition";
   "AssemblyFunctionDefinition"; "AssemblyAssignment"; "AssemblyFor"; "AssemblyIf";
   "AssemblyMember"].

(** The productions whose builder is [return e.Visit(ctx.GetChild(0))]
    and that [skipNode] suppresses. *)
Definition delegating : list string := ["ContractPart"; "Statement"; "SimpleStatement"].

(** The text of the first identifier of a tree, empty without one. *)
Definition identifierText (p : Tree) : string :=
  match GetTypedRuleContext p "Identifier" 0 with
  | Some i => GetText i
  | None => ""
  end.

(** The declaration that [buildVariableDeclarationList] makes of a
    variable declaration context. *)
Definition declaresVariable (V : visitor) (slot : option Tree) (v : any INode) : Prop :=
  match slot with
  | None => v = ANil
  | Some decl =>
      exists iden identifier typeName,
        GetTypedRuleContext decl "Identifier" 0 = Some iden /\
        V (Some iden) = Ok identifier /\
        V (GetTypedRuleContext decl "TypeName" 0) = Ok typeName /\
        v = ANode (Boxed (NodeOf "VariableDeclaration") (VariableDeclaration
          {| vd_Name := GetText iden;
             vd_TypeName := toAny typeName;
             vd_Identifier := toAny identifier;
             vd_IsIndexed := false;
             vd_IsStateVar := false;
             vd_IsDeclaredConst := false;
             vd_StorageLocation :=
               match GetTypedRuleContext decl "StorageLocation" 0 with
               | Some sl => GetText sl
               | None => ""
               end;
             vd_Expression := ANil;
             vd_Visibility := "";
             vd_Override := None |}))
  end.

(** ** Quoted texts

    A text between two one-byte delimiters, and the texts that hold no
    double quote. *)
Definition quoted (q : ascii) (s : string) (q' : ascii) : string :=
  String q (s ++ String q' EmptyString).

Fixpoint quoteFree (s : string) : bool :=
  match s with
  | EmptyString => true
  | String c r => negb (inCutset c dquote) && quoteFree r
  end.

(** A string-literal fragment token and the part and unicode flag read
    off it. *)
Definition fragmentOf (tok : Tree) (pf : string * bool) : Prop :=
  exists q q',
    (snd pf = false /\ GetText tok = quoted q (fst pf) q' /\
     HasPrefix (GetText tok) "unicode" = false) \/
    (snd pf = true /\ GetText tok = ("unicode" ++ quoted q (fst pf) q')%string).

(** A hex-literal fragment token and the part read off it: the digits of
    a double-quoted fragment, and the digits with their quotes of a
    single-quoted one. *)
Definition hexPartOf (tok : Tree) (part : string) : Prop :=
  exists digits,
    (GetText tok = ("hex" ++ dquote ++ digits ++ dquote)%string /\
     quoteFree digits = true /\ part = digits) \/
    (GetText tok = ("hex'" ++ digits ++ "'")%string /\
     part = ("'" ++ digits ++ "'")%string).

(** The declaration that [VisitEventDefinition] makes of an event
    parameter. *)
Definition declaresEventParameter (V : visitor) (param : Tree) (v : any INode) : Prop :=
  exists typeName identifier,
    V (GetTypedRuleContext param "TypeName" 0) = Ok typeName /\
    match GetTypedRuleContext param "Identifier" 0 with
    | Some iden => visits V iden identifier
    | None => identifier = ANil
    end /\
    v = ANode (Boxed (NodeOf "VariableDeclaration") (VariableDeclaration
      {| vd_Name := identifierText param;
         vd_TypeName := toAny typeName;
         vd_Identifier := identifier;
         vd_IsIndexed := hasElem (GetTokens param "IndexedKeyword");
         vd_IsStateVar := false;
         vd_IsDeclaredConst := false;
         vd_StorageLocation := "";
         vd_Expression := ANil;
         vd_Visibility := "";
         vd_Override := None |})).

(** ** The struct behind a tag

    The name of the AST struct that a value of [Struct] stands for; a
    [StateVariableDeclarationVariable] counts as the
    [VariableDeclaration] that it embeds. *)
Definition kindOf {N : Type} (s : Struct N) : string :=
  match s with
  | SourceUnit _ => "SourceUnit"
  | PragmaDirective _ _ => "PragmaDirective"
  | ContractDefinition _ _ _ _ => "ContractDefinition"
  | InheritanceSpecifier _ _ => "InheritanceSpecifier"
  | StructDefinition _ _ => "StructDefinition"
  | VariableDeclaration _ => "VariableDeclaration"
  | Identifier _ => "Identifier"
  | StateVariableDeclaration _ _ => "StateVariableDeclaration"
  | StateVariableDeclarationVariable _ _ => "VariableDeclaration"
  | FunctionDefinition _ => "FunctionDefinition"
  | ModifierInvocation _ _ => "ModifierInvocation"
  | Block _ => "Block"
  | ExpressionStatement _ => "ExpressionStatement"
  | NewExpression _ => "NewExpression"
  | UnaryOperation _ _ _ => "UnaryOperation"
  | BinaryOperation _ _ _ => "BinaryOperation"
  | NumberLiteral _ _ => "NumberLiteral"
  | IndexRangeAccess _ _ _ => "IndexRangeAccess"
  | Conditional _ _ _ => "Conditional"
  | MemberAccess _ _ => "MemberAccess"
  | TupleExpression _ _ => "TupleExpression"
  | NameValueExpression _ _ => "NameValueExpression"
  | IndexAccess _ _ => "IndexAccess"
  | ArrayTypeName _ _ => "ArrayTypeName"
  | Mapping _ _ => "Mapping"
  | NameValueList _ _ _ => "NameValueList"
  | TypeNameExpression _ => "TypeNameExpression"
  | HexLiteral _ _ => "HexLiteral"
  | BooleanLiteral _ => "BooleanLiteral"
  | ForStatement _ _ _ _ => "ForStatement"
  | VariableDeclarationStatement _ _ => "VariableDeclarationStatement"
  | WhileStatement _ _ => "WhileStatement"
  | DoWhileStatement _ _ => "DoWhileStatement"
  | IfStatement _ _ _ => "IfStatement"
  | EventDefinition _ _ => "EventDefinition"
  | ImportDirective _ => "ImportDirective"
  | StringLiteral _ _ _ => "StringLiteral"
  | EnumDefinition _ _ => "EnumDefinition"
  | EnumValue _ => "EnumValue"
  | BreakStatement => "BreakStatement"
  | ContinueStatement => "ContinueStatement"
  | ReturnStatement _ => "ReturnStatement"
  | ModifierDefinition _ _ _ _ _ => "ModifierDefinition"
  | OverrideSpecifier => "OverrideSpecifier"
  | FunctionTypeName _ _ _ _ => "FunctionTypeName"
  | UsingForDeclaration _ _ => "UsingForDeclaration"
  | EmitStatement _ => "EmitStatement"
  | ThrowStatement => "ThrowStatement"
  | FunctionCall _ _ _ _ => "FunctionCall"
  | CustomErrorDefinition _ _ => "CustomErrorDefinition"
  | TryStatement _ _ _ _ => "TryStatement"
  | CatchClause _ _ _ _ => "CatchClause"
  | FileLevelConstant _ _ _ _ _ => "FileLevelConstant"
  | UncheckedStatement _ => "UncheckedStatement"
  | TypeDefinition _ _ => "TypeDefinition"
  | ElementaryTypeName _ _ => "ElementaryTypeName"
  | UserDefinedTypeName _ => "UserDefinedTypeName"
  | RevertStatement _ => "RevertStatement"
  end.

(** [Q] holds of the embedded [Node] and the fields of a node and of
    every node below it. *)
Fixpoint Every (Q : Node -> Struct INode -> Prop) (n : INode) : Prop :=
  match n with
  | Boxed node s => Q node s /\ structAll (Every Q) s
  end.

(** A tag is of the right kind when it names the struct of its node. *)
Definition kindOk (node : Node) (s : Struct INode) : Prop := Type_ node = kindOf s.

Definition wellKinded (n : INode) : Prop := Every kindOk n.

Definition kindAny (a : any INode) : Prop := anyAll wellKinded a.

(** The result of the builder of a production that is not suppressed:
    an untagged node of the struct of that name over well-kinded nodes;
    only the two parameter-list productions hand back nil. *)
Definition freshOf (rule : string) (out : output) : Prop :=
  match out with
  | ONode (Boxed node s) => node = node0 /\ kindOf s = rule /\ structAll wellKinded s
  | ONil => rule = "ReturnParameters" \/ rule = "ParameterList"
  | OOther => True
  end.

Definition kindOut (out : output) : Prop :=
  match out with
  | ONode n => wellKinded n
  | _ => True
  end.

Definition kindV (V : visitor) : Prop :=
  forall i n, optionAll guarded i -> V i = Ok (Some n) -> wellKinded n.

(* ================================================================== *)
(** * Sample parse trees *)
(* ================================================================== *)

(** The trees that the parser builds for a few fragments of source. *)
Module Sample.

Definition ident (s : string) : Tree := Ctx "Identifier" [TerminalNodeImpl "Identifier" s].

Definition eIdent (s : string) : Tree :=
  Ctx "Expression" [Ctx "PrimaryExpression" [ident s]].

Definition eNum (s : string) : Tree :=
  Ctx "Expression"
    [Ctx "PrimaryExpression" [Ctx "NumberLiteral" [TerminalNodeImpl "DecimalNumber" s]]].

Definition emptyBlock : Tree := Ctx "Block" [lit "{"; lit "}"].

Definition elementary (s : string) : Tree :=
  Ctx "TypeName" [Ctx "ElementaryTypeName" [lit s]].

(** [a[:]], [a[7]], [a[:20]], [a[3:]], [a[0:4]]. *)
Definition rangeNone : Tree := Ctx "Expression" [eIdent "a"; lit "["; lit ":"; lit "]"].
Definition indexSeven : Tree := Ctx "Expression" [eIdent "a"; lit "["; eNum "7"; lit "]"].
Definition rangeEnd : Tree :=
  Ctx "Expression" [eIdent "a"; lit "["; lit ":"; eNum "20"; lit "]"].
Definition rangeStart : Tree :=
  Ctx "Expression" [eIdent "a"; lit "["; eNum "3"; lit ":"; lit "]"].
Definition rangeBoth : Tree :=
  Ctx "Expression" [eIdent "a"; lit "["; eNum "0"; lit ":"; eNum "4"; lit "]"].

(** [catch Error(string memory b) {}], [catch (bytes memory c) {}],
    [catch {}] and a clause with another identifier. *)
Definition parameter (ty loc name : string) : Tree :=
  Ctx "Parameter" [elementary ty; Ctx "StorageLocation" [lit loc]; ident name].

Definition catchError : Tree :=
  Ctx "CatchClause"
    [lit "catch"; ident "Error";
     Ctx "ParameterList" [lit "("; parameter "string" "memory" "b"; lit ")"]; emptyBlock].

Definition catchBytes : Tree :=
  Ctx "CatchClause"
    [lit "catch"; Ctx "ParameterList" [lit "("; parameter "bytes" "memory" "c"; lit ")"];
     emptyBlock].

Definition catchBare : Tree := Ctx "CatchClause" [lit "catch"; emptyBlock].

Definition catchOther : Tree :=
  Ctx "CatchClause"
    [lit "catch"; ident "Failure"; Ctx "ParameterList" [lit "("; lit ")"]; emptyBlock].

(** [function foo() public {}], [function () external {}],
    [constructor() private {}], [fallback () external {}],
    [receive () external payable {}]. *)
Definition functionDefinition (descr : list Tree) (modifiers : list Tree) : Tree :=
  Ctx "FunctionDefinition"
    [Ctx "FunctionDescriptor" descr; Ctx "ParameterList" [lit "("; lit ")"];
     Ctx "ModifierList" modifiers; emptyBlock].

Definition functionFoo : Tree :=
  functionDefinition [lit "function"; ident "foo"] [TerminalNodeImpl "PublicKeyword" "public"].

Definition functionAnonymous : Tree :=
  functionDefinition [lit "function"] [TerminalNodeImpl "ExternalKeyword" "external"].

Definition constructorPrivate : Tree :=
  functionDefinition [TerminalNodeImpl "ConstructorKeyword" "constructor"]
    [TerminalNodeImpl "PrivateKeyword" "private"].

Definition fallbackExternal : Tree :=
  functionDefinition [TerminalNodeImpl "FallbackKeyword" "fallback"]
    [TerminalNodeImpl "ExternalKeyword" "external"].

Definition receiveExternal : Tree :=
  functionDefinition [TerminalNodeImpl "ReceiveKeyword" "receive"]
    [TerminalNodeImpl "ExternalKeyword" "external";
     Ctx "StateMutability" [TerminalNodeImpl "PayableKeyword" "payable"]].

(** [uint a;] and [modifier onlyOwner {}]. *)
Definition stateVariable : Tree :=
  Ctx "StateVariableDeclaration" [elementary "uint"; ident "a"; lit ";"].

Definition modifierOnlyOwner : Tree :=
  Ctx "ModifierDefinition" [lit "modifier"; ident "onlyOwner"; emptyBlock].

(** [import "f";], [import "f" as x;], [import {a as b, c} from "f";]. *)
Definition importPath : Tree :=
  Ctx "ImportPath" [TerminalNodeImpl "StringLiteralFragment" (dquote ++ "f" ++ dquote)%string].

Definition importBare : Tree := Ctx "ImportDirective" [lit "import"; importPath; lit ";"].

Definition importUnit : Tree :=
  Ctx "ImportDirective" [lit "import"; importPath; lit "as"; ident "x"; lit ";"].

Definition importSymbols : Tree :=
  Ctx "ImportDirective"
    [lit "import"; lit "{";
     Ctx "ImportDeclaration" [ident "a"; lit "as"; ident "b"]; lit ",";
     Ctx "ImportDeclaration" [ident "c"]; lit "}"; lit "from"; importPath; lit ";"].

(** [for (;; i++) {}] and [for (;;) {}]. *)
Definition forLoopOnly : Tree :=
  Ctx "ForStatement"
    [lit "for"; lit "("; lit ";"; lit ";";
     Ctx "Expression" [eIdent "i"; lit "++"]; lit ")"; Ctx "Statement" [emptyBlock]].

Definition forBare : Tree :=
  Ctx "ForStatement"
    [lit "for"; lit "("; lit ";"; lit ";"; lit ")"; Ctx "Statement" [emptyBlock]].

(** The modifier invocations [m], [m()] and [m(a, b)]. *)
Definition invocationPlain : Tree := Ctx "ModifierInvocation" [ident "m"].

Definition invocationEmpty : Tree := Ctx "ModifierInvocation" [ident "m"; lit "("; lit ")"].

Definition invocationArgs : Tree :=
  Ctx "ModifierInvocation"
    [ident "m"; lit "(";
     Ctx "ExpressionList" [eIdent "a"; lit ","; eIdent "b"]; lit ")"].

(** The literals [hex"fa" hex"fb"], ["He" "llo"] and [10 ether]. *)
Definition hexLiteral : Tree :=
  Ctx "HexLiteral"
    [TerminalNodeImpl "HexLiteralFragment" ("hex" ++ dquote ++ "fa" ++ dquote)%string;
     TerminalNodeImpl "HexLiteralFragment" ("hex" ++ dquote ++ "fb" ++ dquote)%string].

Definition stringLiteral : Tree :=
  Ctx "PrimaryExpression"
    [Ctx "StringLiteral"
       [TerminalNodeImpl "StringLiteralFragment" (dquote ++ "He" ++ dquote)%string;
        TerminalNodeImpl "StringLiteralFragment" (dquote ++ "llo" ++ dquote)%string]].

Definition tenEther : Tree :=
  Ctx "NumberLiteral"
    [TerminalNodeImpl "DecimalNumber" "10"; TerminalNodeImpl "NumberUnit" "ether"].

(** [contract C { uint a; function foo() public {} }], and an assembly
    item standing alone. *)
Definition contractC : Tree :=
  Ctx "SourceUnit"
    [Ctx "ContractDefinition"
       [lit "contract"; ident "C"; lit "{";
        Ctx "ContractPart" [stateVariable]; Ctx "ContractPart" [functionFoo]; lit "}"];
     TerminalNodeImpl "EOF" "<EOF>"].

Definition assemblyItemX : Tree := Ctx "AssemblyItem" [ident "x"].

(** The tuples [(a, , b)] and [()]. *)
Definition tupleSparse : Tree :=
  Ctx "TupleExpression" [lit "("; eIdent "a"; lit ","; lit ","; eIdent "b"; lit ")"].

Definition tupleEmpty : Tree := Ctx "TupleExpression" [lit "("; lit ")"].

(** The identifier list [(a, , b)] and the declaration list
    [uint a, , uint b] of a variable declaration statement. *)
Definition identifierList : Tree :=
  Ctx "IdentifierList" [lit "("; ident "a"; lit ","; lit ","; ident "b"; lit ")"].

Definition variableDeclaration (ty name : string) : Tree :=
  Ctx "VariableDeclaration" [elementary ty; ident name].

Definition variableDeclarationList : Tree :=
  Ctx "VariableDeclarationList"
    [variableDeclaration "uint" "a"; lit ","; lit ","; variableDeclaration "uint" "b"].

(** The calls [f(a, b)] and [f({x: a, y: b})] as generic expressions,
    and [f({x: a})] as the call of an emit statement. *)
Definition nameValue (name value : string) : Tree :=
  Ctx "NameValue" [ident name; lit ":"; eIdent value].

Definition callPositional : Tree :=
  Ctx "Expression"
    [eIdent "f"; lit "(";
     Ctx "FunctionCallArguments" [Ctx "ExpressionList" [eIdent "a"; lit ","; eIdent "b"]];
     lit ")"].

Definition callNamed : Tree :=
  Ctx "Expression"
    [eIdent "f"; lit "(";
     Ctx "FunctionCallArguments"
       [lit "{"; Ctx "NameValueList" [nameValue "x" "a"; lit ","; nameValue "y" "b"]; lit "}"];
     lit ")"].

Definition emitCall : Tree :=
  Ctx "FunctionCall"
    [eIdent "f"; lit "(";
     Ctx "FunctionCallArguments"
       [lit "{"; Ctx "NameValueList" [nameValue "x" "a"]; lit "}"];
     lit ")"].

(** [assembly { x }] as a statement of the block [{ assembly { x } }],
    and the inheritance specifier [B(1)]. *)
Definition inlineAssembly : Tree :=
  Ctx "InlineAssemblyStatement"
    [lit "assembly"; Ctx "AssemblyBlock" [lit "{"; Ctx "AssemblyItem" [ident "x"]; lit "}"]].

Definition assemblyBody : Tree :=
  Ctx "Block" [lit "{"; Ctx "Statement" [inlineAssembly]; lit "}"].

Definition inheritanceWithArguments : Tree :=
  Ctx "InheritanceSpecifier"
    [Ctx "UserDefinedTypeName" [ident "B"]; lit "(";
     Ctx "ExpressionList" [eNum "1"]; lit ")"].

(** The inheritance specifier [B], the contract [contract A is B(1) {}],
    a source unit with an error node, and the statement [break;]. *)
Definition inheritancePlain : Tree :=
  Ctx "InheritanceSpecifier" [Ctx "UserDefinedTypeName" [ident "B"]].

Definition contractWithArguments : Tree :=
  Ctx "ContractDefinition"
    [lit "contract"; ident "A"; lit "is"; inheritanceWithArguments; lit "{"; lit "}"].

Definition sourceUnitError : Tree :=
  Ctx "SourceUnit" [ErrorNodeImpl "Identifier" "x"; TerminalNodeImpl "EOF" "<EOF>"].

Definition breakStatement : Tree := Ctx "BreakStatement" [lit "break"; lit ";"].

(** The literals [unicode"Hi" 'x'] and [hex'fa'], and [import 'f';]. *)
Definition stringLiteralMixed : Tree :=
  Ctx "PrimaryExpression"
    [Ctx "StringLiteral"
       [TerminalNodeImpl "StringLiteralFragment" ("unicode" ++ dquote ++ "Hi" ++ dquote)%string;
        TerminalNodeImpl "StringLiteralFragment" "'x'"]].

Definition hexLiteralSingle : Tree :=
  Ctx "HexLiteral" [TerminalNodeImpl "HexLiteralFragment" "hex'fa'"].

Definition importSingle : Tree :=
  Ctx "ImportDirective"
    [lit "import"; Ctx "ImportPath" [TerminalNodeImpl "StringLiteralFragment" "'f'"]; lit ";"].

(** The expressions [a + b], [!a], [i++] and [a ? b], the last one with
    an operator that the tables do not hold. *)
Definition binaryPlus : Tree := Ctx "Expression" [eIdent "a"; lit "+"; eIdent "b"].
Definition prefixNot : Tree := Ctx "Expression" [lit "!"; eIdent "a"].
Definition postfixIncrement : Tree := Ctx "Expression" [eIdent "i"; lit "++"].
Definition unknownOperator : Tree := Ctx "Expression" [eIdent "a"; lit "?"; eIdent "b"].

(** [uint public constant a = 1;], and the event parameters of
    [event E(uint indexed a, uint)]. *)
Definition stateVariableConstant : Tree :=
  Ctx "StateVariableDeclaration"
    [elementary "uint"; TerminalNodeImpl "PublicKeyword" "public";
     TerminalNodeImpl "ConstantKeyword" "constant"; ident "a"; lit "="; eNum "1"; lit ";"].

Definition eventE : Tree :=
  Ctx "EventDefinition"
    [lit "event"; ident "E";
     Ctx "EventParameterList"
       [lit "(";
        Ctx "EventParameter"
          [elementary "uint"; TerminalNodeImpl "IndexedKeyword" "indexed"; ident "a"];
        lit ",";
        Ctx "EventParameter" [elementary "uint"];
        lit ")"];
     lit ";"].

(** The type names [uint[]], [uint[3]] and [address payable]. *)
Definition arrayDynamic : Tree := Ctx "TypeName" [elementary "uint"; lit "["; lit "]"].
Definition arrayFixed : Tree :=
  Ctx "TypeName" [elementary "uint"; lit "["; eNum "3"; lit "]"].
Definition addressPayable : Tree :=
  Ctx "TypeName" [lit "address"; TerminalNodeImpl "PayableKeyword" "payable"].

(** [modifier m(uint a) virtual;]. *)
Definition modifierWithParameter : Tree :=
  Ctx "ModifierDefinition"
    [lit "modifier"; ident "m";
     Ctx "ParameterList" [lit "("; parameter "uint" "memory" "a"; lit ")"];
     TerminalNodeImpl "VirtualKeyword" "virtual"; lit ";"].

End Sample.

Unset Implicit Arguments.

(* ================================================================== *)
(** * The sparse-element algorithm *)
(* ================================================================== *)

Lemma segments_nonempty (tree : list Tree) : segments tree <> [].
Proof.
  destruct tree as [|c rest]; simpl; [discriminate|].
  destruct (isComma c); [discriminate|].
  destruct (segments rest); discriminate.
Qed.

Lemma segments_length (tree : list Tree) : length (segments tree) = S (commas tree).
Proof.
  unfold commas.
  induction tree as [|c rest IH]; simpl; [reflexivity|].
  destruct (isComma c); simpl; [now rewrite IH|].
  destruct (segments rest) eqn:E; simpl in *; [discriminate|exact IH].
Qed.

Lemma present_app (a b : list (option Tree)) : present (a ++ b) = present a ++ present b.
Proof.
  induction a as [|[x|] a IH]; simpl; [reflexivity| |exact IH].
  now rewrite IH.
Qed.

(** The elements of a sequence are the elements of its segments, in
    order. *)
Lemma present_segments (tree : list Tree) :
  alternating tree -> present (map slotOf (segments tree)) = elements tree.
Proof.
  unfold alternating, elements.
  induction tree as [|c rest IH]; simpl; intros H; [reflexivity|].
  destruct (isComma c) eqn:Ec; simpl.
  - apply IH. now inversion H.
  - destruct (segments rest) as [|seg segs] eqn:E.
    + now destruct (segments_nonempty rest).
    + inversion H as [|? ? Hlen Hrest]; subst. simpl in Hlen.
      destruct seg; [|simpl in Hlen; lia].
      simpl. f_equal. rewrite <- IH.
      * reflexivity.
      * constructor; [simpl; lia|exact Hrest].
Qed.

(** The two states of the scan.  While an element is expected the scan
    emits the slots of the remaining segments; after an element, the
    first remaining segment must be empty and its slot is already
    there. *)
Lemma mapCommasToNulls_loop_segments (tree : list Tree) :
  forall res : list (option Tree),
    (alternating tree ->
     mapCommasToNulls_loop tree true res = Ok (res ++ map slotOf (segments tree))) /\
    (forall segs, segments tree = [] :: segs ->
       Forall (fun seg => length seg <= 1) segs ->
       mapCommasToNulls_loop tree false res = Ok (res ++ map slotOf segs)).
Proof.
  unfold alternating.
  induction tree as [|c rest IH]; intros res; split.
  - intros _. reflexivity.
  - intros segs E _. simpl in E. injection E as <-. simpl. now rewrite app_nil_r.
  - intros H. simpl in *. unfold isComma in *.
    destruct (GetText c =? ",") eqn:Ec.
    + inversion H; subst.
      destruct (IH (res ++ [None])) as [IH1 _].
      rewrite IH1 by assumption. rewrite <- app_assoc. reflexivity.
    + destruct (segments rest) as [|seg segs] eqn:E;
        [now destruct (segments_nonempty rest)|].
      inversion H as [|? ? Hlen Hrest]; subst.
      destruct seg; [|simpl in Hlen; lia].
      destruct (IH (res ++ [Some c])) as [_ IH2].
      rewrite (IH2 segs eq_refl Hrest). rewrite <- app_assoc. reflexivity.
  - intros segs E H. simpl in *. unfold isComma in *.
    destruct (GetText c =? ",") eqn:Ec; simpl.
    + injection E as <-.
      destruct (IH res) as [IH1 _]. now apply IH1.
    + destruct (segments rest); discriminate.
Qed.

(** Two adjacent elements abort the scan. *)
Lemma mapCommasToNulls_loop_adjacent (tree : list Tree) :
  forall res : list (option Tree),
    (~ alternating tree -> mapCommasToNulls_loop tree true res = Panic "Comma expected") /\
    (forall seg segs, segments tree = seg :: segs ->
       ~ Forall (fun seg => length seg <= 1) ([] :: segs) \/ seg <> [] ->
       mapCommasToNulls_loop tree false res = Panic "Comma expected").
Proof.
  unfold alternating.
  induction tree as [|c rest IH]; intros res; split.
  - intros H. exfalso. apply H. simpl. repeat constructor.
  - intros seg segs E [H|H]; simpl in E; injection E as <- <-.
    + exfalso. apply H. repeat constructor.
    + now destruct H.
  - intros H. simpl in *. unfold isComma in *.
    destruct (GetText c =? ",") eqn:Ec.
    + destruct (IH (res ++ [None])) as [IH1 _]. apply IH1.
      intros H'. apply H. constructor; [simpl; lia|exact H'].
    + destruct (segments rest) as [|seg segs] eqn:E;
        [now destruct (segments_nonempty rest)|].
      destruct (IH (res ++ [Some c])) as [_ IH2].
      apply (IH2 seg segs eq_refl).
      destruct seg as [|x seg]; [left|right; discriminate].
      intros H'. apply H. inversion H'; subst.
      constructor; [simpl; lia|assumption].
  - intros seg segs E H. simpl in *. unfold isComma in *.
    destruct (GetText c =? ",") eqn:Ec; simpl; [|reflexivity].
    injection E as <- <-.
    destruct (IH res) as [IH1 _]. apply IH1.
    destruct H as [H|H]; [|now destruct H].
    intros H'. apply H. constructor; [simpl; lia|exact H'].
Qed.

Lemma nth_error_slot (segs : list (list Tree)) (i : nat) :
  nth_error (map slotOf segs) i = Some None <-> nth_error segs i = Some [].
Proof.
  rewrite nth_error_map.
  destruct (nth_error segs i) as [[|x seg]|]; simpl; split; intros H;
    try discriminate; reflexivity.
Qed.

(** C2, as the claim states it, fails on the empty sequence: no comma,
    but no slot either. *)
Lemma mapCommasToNulls_empty_counterexample :
  exists res, mapCommasToNulls [] = Ok res /\ length res <> commas [] + 1.
Proof.
  exists []. split; [reflexivity|]. simpl. discriminate.
Qed.

(** C2 (amended): for every non-empty raw child sequence in which
    elements and separator commas alternate, with m commas, the scan
    returns exactly m+1 slots, the slot of each segment between
    separators (or at a boundary) in order: absent exactly where the
    segment holds no element (in particular a trailing absent slot when
    the scan ends expecting an element), and the elements in source
    order.  The empty sequence yields the empty sequence. *)
Theorem mapCommasToNulls_sparse (tree : list Tree) :
  tree <> [] -> alternating tree ->
  exists res,
    mapCommasToNulls tree = Ok res /\
    length res = commas tree + 1 /\
    res = map slotOf (segments tree) /\
    (forall i, nth_error res i = Some None <-> nth_error (segments tree) i = Some []) /\
    present res = elements tree.
Proof.
  intros Hne Halt.
  exists (map slotOf (segments tree)).
  split; [|split; [|split; [reflexivity|split]]].
  - destruct tree as [|c rest]; [now destruct Hne|].
    unfold mapCommasToNulls.
    destruct (mapCommasToNulls_loop_segments (c :: rest) []) as [H _].
    now rewrite H.
  - rewrite length_map, segments_length. lia.
  - intros i. apply nth_error_slot.
  - now apply present_segments.
Qed.

(** The amended C2 at the children of [(a,,b)] and of [(a,)]. *)
Lemma mapCommasToNulls_sparse_witness :
  (exists res,
     mapCommasToNulls [lit "a"; lit ","; lit ","; lit "b"] = Ok res /\
     length res = 3 /\
     res = [Some (lit "a"); None; Some (lit "b")]) /\
  (exists res, mapCommasToNulls [lit "a"; lit ","] = Ok res /\ res = [Some (lit "a"); None]).
Proof.
  split.
  - destruct (mapCommasToNulls_sparse [lit "a"; lit ","; lit ","; lit "b"])
      as (res & H1 & H2 & H3 & _).
    + discriminate.
    + unfold alternating. simpl. repeat constructor.
    + exists res. split; [exact H1|]. split; [exact H2|exact H3].
  - destruct (mapCommasToNulls_sparse [lit "a"; lit ","]) as (res & H1 & _ & H3 & _).
    + discriminate.
    + unfold alternating. simpl. repeat constructor.
    + exists res. split; [exact H1|exact H3].
Defined.

(** Outside the alternation the scan aborts with "Comma expected". *)
Lemma mapCommasToNulls_adjacent (tree : list Tree) :
  ~ alternating tree -> mapCommasToNulls tree = Panic "Comma expected".
Proof.
  intros H. destruct tree as [|c rest].
  - exfalso. apply H. unfold alternating. simpl. repeat constructor.
  - unfold mapCommasToNulls.
    destruct (mapCommasToNulls_loop_adjacent (c :: rest) []) as [H1 _]. now apply H1.
Qed.

Lemma mapCommasToNulls_empty : mapCommasToNulls [] = Ok [].
Proof. reflexivity. Qed.

(* ================================================================== *)
(** * Inversion of builder runs *)
(* ================================================================== *)

Lemma bind_Ok {A B : Type} (m : result A) (k : A -> result B) (b : B) :
  bind m k = Ok b -> exists a, m = Ok a /\ k a = Ok b.
Proof. destruct m; simpl; intros H; try discriminate. now exists a. Qed.

Lemma toText_Ok (i : option Tree) (s : string) :
  toText i = Ok s -> exists t, i = Some t /\ s = GetText t.
Proof. destruct i; simpl; intros H; inversion H. now eexists. Qed.

Lemma assertCtx_Ok (i : option Tree) (t : Tree) : assertCtx i = Ok t -> i = Some t.
Proof. destruct i; simpl; intros H; inversion H. reflexivity. Qed.

(** One step of taking a successful run apart. *)
Ltac inv_run :=
  match goal with
  | H : Ok _ = Ok _ |- _ => inversion H; subst; clear H
  | H : Panic _ = Ok _ |- _ => discriminate H
  | H : OutOfFuel = Ok _ |- _ => discriminate H
  | H : bind ?m _ = Ok _ |- _ =>
      let a := fresh "a" in
      let E := fresh "E" in
      apply bind_Ok in H; destruct H as (a & E & H)
  | H : toText _ = Ok _ |- _ =>
      let t := fresh "t" in
      let E := fresh "E" in
      apply toText_Ok in H; destruct H as (t & E & H); subst
  | H : assertCtx _ = Ok _ |- _ => apply assertCtx_Ok in H
  | H : match ?x with _ => _ end = Ok _ |- _ => destruct x eqn:?
  end.

Ltac inv_runs := repeat inv_run.

(* ================================================================== *)
(** * Catch clauses *)
(* ================================================================== *)

(** C5: the Kind of a catch clause is the text of its identifier when
    that is "Error" or "Panic", any other identifier aborts the
    traversal, no identifier gives the empty Kind, and IsReasonType is
    true exactly when Kind is "Error". *)
Theorem VisitCatchClause_kind (V : visitor) (ctx : Tree) :
  (forall iden,
     GetTypedRuleContext ctx "Identifier" 0 = Some iden ->
     GetText iden <> "Error" -> GetText iden <> "Panic" ->
     VisitCatchClause V ctx = Panic "Expected 'Error' or 'Panic'") /\
  (forall out,
     VisitCatchClause V ctx = Ok out ->
     exists isReasonType kind parameters body,
       out = ONode (Boxed node0 (CatchClause isReasonType kind parameters body)) /\
       (forall iden, GetTypedRuleContext ctx "Identifier" 0 = Some iden ->
          kind = GetText iden /\ (kind = "Error" \/ kind = "Panic")) /\
       (GetTypedRuleContext ctx "Identifier" 0 = None -> kind = "") /\
       (isReasonType = true <-> kind = "Error")) /\
  (forall body,
     (forall iden, GetTypedRuleContext ctx "Identifier" 0 = Some iden ->
        GetText iden = "Error" \/ GetText iden = "Panic") ->
     V (GetTypedRuleContext ctx "Block" 0) = Ok body ->
     GetTypedRuleContext ctx "ParameterList" 0 = None ->
     exists out, VisitCatchClause V ctx = Ok out).
Proof.
  split; [|split].
  - intros iden Hi He Hp. unfold VisitCatchClause. rewrite Hi.
    apply String.eqb_neq in He, Hp. rewrite He, Hp. reflexivity.
  - intros out H. unfold VisitCatchClause in H.
    inv_runs;
      (eexists _, _, _, _; split; [reflexivity|];
       split; [|split; [|apply String.eqb_eq]]).
    all: try (intros iden Hi; inversion Hi; subst; clear Hi).
    all: try (intros Hn; try discriminate Hn).
    all: try match goal with
         | H : (negb (?a =? "Error") && negb (?a =? "Panic")) = false |- _ =>
             split; [reflexivity|];
             destruct (String.eqb_spec a "Error"); [now left|];
             destruct (String.eqb_spec a "Panic"); [now right|discriminate H]
         end.
    all: try reflexivity.
  - intros body Hk Hb Hp. unfold VisitCatchClause. rewrite Hb, Hp.
    destruct (GetTypedRuleContext ctx "Identifier" 0) as [iden|] eqn:Ei.
    + destruct (Hk iden eq_refl) as [-> | ->]; simpl; eexists; reflexivity.
    + simpl. eexists. reflexivity.
Qed.

(* ================================================================== *)
(** * Index and range access *)
(* ================================================================== *)

Lemma typed0_head (rule r : string) (c0 : Tree) (cs : list Tree) :
  isCtx r c0 = true -> GetTypedRuleContext (Ctx rule (c0 :: cs)) r 0 = Some c0.
Proof.
  intros H. unfold GetTypedRuleContext, GetTypedRuleContexts. simpl. now rewrite H.
Qed.

(** C1: the index and range forms of a generic expression.  Child 0 is
    the base expression, the bounds are expression children, "[" and the
    separating ":" are not expressions; the cases are tried in this
    order, so the start-only form requires that the end-only check on
    child 2 has not matched. *)
Theorem VisitExpression_index_forms (V : visitor) (rule : string) :
  (forall c0 c1 c2 c3,
     isCtx "Expression" c0 = true ->
     GetText c1 = "[" -> GetText c3 = "]" -> GetText c2 = ":" ->
     VisitExpression V (Ctx rule [c0; c1; c2; c3]) =
       base <- V (Some c0) ;;
       Ok (ONode (Boxed (NodeOf "IndexRangeAccess")
         (IndexRangeAccess (toAny base) ANil ANil)))) /\
  (forall c0 c1 c2 c3,
     isCtx "Expression" c0 = true -> isCtx "Expression" c1 = false ->
     isCtx "Expression" c2 = true ->
     GetText c1 = "[" -> GetText c3 = "]" -> GetText c2 <> ":" ->
     VisitExpression V (Ctx rule [c0; c1; c2; c3]) =
       base <- V (Some c0) ;;
       index <- V (Some c2) ;;
       Ok (ONode (Boxed (NodeOf "IndexAccess") (IndexAccess (toAny base) (toAny index))))) /\
  (forall c0 c1 c2 c3 c4,
     isCtx "Expression" c0 = true -> isCtx "Expression" c1 = false ->
     isCtx "Expression" c2 = false -> isCtx "Expression" c3 = true ->
     GetText c1 = "[" -> GetText c2 = ":" -> GetText c4 = "]" ->
     VisitExpression V (Ctx rule [c0; c1; c2; c3; c4]) =
       base <- V (Some c0) ;;
       indexEnd <- V (Some c3) ;;
       Ok (ONode (Boxed (NodeOf "IndexRangeAccess")
         (IndexRangeAccess (toAny base) ANil (toAny indexEnd))))) /\
  (forall c0 c1 c2 c3 c4,
     isCtx "Expression" c0 = true -> isCtx "Expression" c1 = false ->
     isCtx "Expression" c2 = true ->
     GetText c1 = "[" -> GetText c2 <> ":" -> GetText c3 = ":" -> GetText c4 = "]" ->
     VisitExpression V (Ctx rule [c0; c1; c2; c3; c4]) =
       base <- V (Some c0) ;;
       indexStart <- V (Some c2) ;;
       Ok (ONode (Boxed (NodeOf "IndexRangeAccess")
         (IndexRangeAccess (toAny base) (toAny indexStart) ANil)))) /\
  (forall c0 c1 c2 c3 c4 c5,
     isCtx "Expression" c0 = true -> isCtx "Expression" c1 = false ->
     isCtx "Expression" c2 = true -> isCtx "Expression" c3 = false ->
     isCtx "Expression" c4 = true ->
     GetText c1 = "[" -> GetText c3 = ":" -> GetText c5 = "]" ->
     VisitExpression V (Ctx rule [c0; c1; c2; c3; c4; c5]) =
       base <- V (Some c0) ;;
       indexStart <- V (Some c2) ;;
       indexEnd <- V (Some c4) ;;
       Ok (ONode (Boxed (NodeOf "IndexRangeAccess")
         (IndexRangeAccess (toAny base) (toAny indexStart) (toAny indexEnd))))).
Proof.
  repeat split.
  - intros c0 c1 c2 c3 H0 T1 T3 T2.
    unfold VisitExpression. simpl GetChildren. cbv iota.
    rewrite T1, T2, T3. simpl. rewrite typed0_head by assumption. reflexivity.
  - intros c0 c1 c2 c3 H0 H1 H2 T1 T3 T2.
    unfold VisitExpression. simpl GetChildren. cbv iota.
    rewrite T1, T3. apply String.eqb_neq in T2. rewrite T2. simpl.
    unfold GetTypedRuleContext, GetTypedRuleContexts. simpl.
    rewrite H0, H1, H2. reflexivity.
  - intros c0 c1 c2 c3 c4 H0 H1 H2 H3 T1 T2 T4.
    unfold VisitExpression. simpl GetChildren. cbv iota.
    rewrite T1, T2, T4. simpl.
    unfold GetTypedRuleContext, GetTypedRuleContexts. simpl.
    rewrite H0, H1, H2, H3. reflexivity.
  - intros c0 c1 c2 c3 c4 H0 H1 H2 T1 T2 T3 T4.
    unfold VisitExpression. simpl GetChildren. cbv iota.
    rewrite T1, T3, T4. apply String.eqb_neq in T2. rewrite T2. simpl.
    unfold GetTypedRuleContext, GetTypedRuleContexts. simpl.
    rewrite H0, H1, H2. reflexivity.
  - intros c0 c1 c2 c3 c4 c5 H0 H1 H2 H3 H4 T1 T3 T5.
    unfold VisitExpression. simpl GetChildren. cbv iota.
    rewrite T1, T3, T5. simpl.
    unfold GetTypedRuleContext, GetTypedRuleContexts. simpl.
    rewrite H0, H1, H2, H3, H4. reflexivity.
Qed.

(* ================================================================== *)
(** * For statements *)
(* ================================================================== *)

(** C8: the three clauses of a for statement are optional one by one,
    and the loop clause is always an [ExpressionStatement] node, around
    an absent expression when the clause is absent. *)
Theorem VisitForStatement_clauses (V : visitor) (ctx : Tree) :
  (forall body,
     GetTypedRuleContext ctx "SimpleStatement" 0 = None ->
     GetTypedRuleContext ctx "ExpressionStatement" 0 = None ->
     GetTypedRuleContext ctx "Expression" 0 = None ->
     V (GetTypedRuleContext ctx "Statement" 0) = Ok body ->
     VisitForStatement V ctx =
       Ok (ONode (Boxed node0
         (ForStatement ANil ANil
            (ANode (Boxed (NodeOf "ExpressionStatement") (ExpressionStatement ANil)))
            (toAny body))))) /\
  (forall out,
     VisitForStatement V ctx = Ok out ->
     exists init cond loop body,
       out = ONode (Boxed node0
         (ForStatement init cond
            (ANode (Boxed (NodeOf "ExpressionStatement") (ExpressionStatement loop))) body)) /\
       (GetTypedRuleContext ctx "SimpleStatement" 0 = None -> init = ANil) /\
       (GetTypedRuleContext ctx "ExpressionStatement" 0 = None -> cond = ANil) /\
       (GetTypedRuleContext ctx "Expression" 0 = None -> loop = ANil) /\
       (forall s, GetTypedRuleContext ctx "SimpleStatement" 0 = Some s ->
          exists n, V (Some s) = Ok n /\ init = toAny n) /\
       (forall es, GetTypedRuleContext ctx "ExpressionStatement" 0 = Some es ->
          exists node e, V (Some es) = Ok (Some (Boxed node (ExpressionStatement e))) /\
                         cond = e) /\
       (forall e, GetTypedRuleContext ctx "Expression" 0 = Some e ->
          exists n, V (Some e) = Ok n /\ loop = toAny n)).
Proof.
  split.
  { intros body Hs He Hx Hb. unfold VisitForStatement.
    rewrite Hs, He, Hx, Hb. reflexivity. }
  intros out H. unfold VisitForStatement in H.
  inv_runs; eexists _, _, _, _; (split; [reflexivity|]).
  all: repeat split; intros; try discriminate; try reflexivity.
  all: repeat match goal with
         | H : Some _ = Some _ |- _ => inversion H; subst; clear H
         end.
  all: try (eexists; split; [eassumption|reflexivity]).
  all: unfold expressionOfStatement in *.
  all: repeat match goal with
         | H : match ?x with _ => _ end = Ok _ |- _ => destruct x; try discriminate H
         end.
  all: inv_runs; eexists _, _; split; [eassumption|reflexivity].
Qed.

(* ================================================================== *)
(** * Modifier invocations *)
(* ================================================================== *)

Lemma elems_appendAll {A : Type} (s : slice A) (xs : list A) :
  elems (appendAll s xs) = elems s ++ xs.
Proof.
  revert s. induction xs as [|x xs IH]; intros s; simpl.
  - now rewrite app_nil_r.
  - rewrite IH. simpl. now rewrite <- app_assoc.
Qed.

Lemma appendAll_nil_slice {A : Type} (xs : list A) :
  appendAll None xs = match xs with [] => None | _ => Some xs end.
Proof.
  destruct xs as [|x xs]; [reflexivity|].
  assert (H : forall (s : slice A) ys, s <> None -> appendAll s ys = Some (elems s ++ ys)).
  { intros s ys. revert s. induction ys as [|y ys IH]; intros s Hs; simpl.
    - destruct s; [simpl; now rewrite app_nil_r|now destruct Hs].
    - rewrite IH by discriminate. simpl. now rewrite <- app_assoc. }
  simpl. rewrite H by discriminate. reflexivity.
Qed.

Lemma appendAll_empty_slice {A : Type} (xs : list A) : appendAll (Some []) xs = Some xs.
Proof.
  revert xs.
  assert (H : forall (l ys : list A), appendAll (Some l) ys = Some (l ++ ys)).
  { intros l ys. revert l. induction ys as [|y ys IH]; intros l; simpl.
    - now rewrite app_nil_r.
    - unfold append. simpl. rewrite IH. now rewrite <- app_assoc. }
  intros xs. apply H.
Qed.

Lemma mapM_length {A B : Type} (f : A -> result B) (l : list A) (vs : list B) :
  mapM f l = Ok vs -> length vs = length l.
Proof.
  revert vs. induction l as [|x l IH]; intros vs H; simpl in H; inv_runs; simpl;
    [reflexivity|]. f_equal. now apply IH.
Qed.

Lemma visitAll_Forall2 (V : visitor) (l : list Tree) (vs : list (any INode)) :
  visitAll V l = Ok vs <-> Forall2 (visits V) l vs.
Proof.
  unfold visitAll. revert vs. induction l as [|p l IH]; intros vs; simpl.
  - split; intros H; [inversion H; constructor|now inversion H].
  - split; intros H.
    + apply bind_Ok in H. destruct H as (v & Ev & H).
      apply bind_Ok in H. destruct H as (vs' & Evs & H). inversion H; subst; clear H.
      apply bind_Ok in Ev. destruct Ev as (n & En & Ev). inversion Ev; subst; clear Ev.
      constructor; [now exists n|now apply IH].
    + inversion H as [|? v ? vs' (n & En & ->) Hf]; subst.
      rewrite En. simpl. apply IH in Hf. rewrite Hf. reflexivity.
Qed.

(** C10: a modifier invocation without parentheses has a nil argument
    slice, one with empty parentheses an empty non-nil slice, and one
    with an expression list holds, for each expression of the list and
    in source order, the visit of that expression.  The name is the
    text of the identifier. *)
Theorem VisitModifierInvocation_arguments (V : visitor) (ctx : Tree) :
  (forall out,
     VisitModifierInvocation V ctx = Ok out ->
     exists identifier args,
       out = ONode (Boxed node0 (ModifierInvocation (GetText identifier) args)) /\
       GetTypedRuleContext ctx "Identifier" 0 = Some identifier /\
       (GetTypedRuleContext ctx "ExpressionList" 0 = None ->
        length (GetChildren ctx) <= 1 -> args = None) /\
       (GetTypedRuleContext ctx "ExpressionList" 0 = None ->
        1 < length (GetChildren ctx) -> args = Some []) /\
       (forall expr, GetTypedRuleContext ctx "ExpressionList" 0 = Some expr ->
          exists vs, Forall2 (visits V) (GetTypedRuleContexts expr "Expression") vs /\
                     visitAll V (GetTypedRuleContexts expr "Expression") = Ok vs /\
                     elems args = vs /\
                     length vs = length (GetTypedRuleContexts expr "Expression") /\
                     (vs <> [] -> args = Some vs) /\
                     (vs = [] -> args = None))) /\
  (forall identifier,
     GetTypedRuleContext ctx "Identifier" 0 = Some identifier ->
     GetTypedRuleContext ctx "ExpressionList" 0 = None ->
     exists args,
       VisitModifierInvocation V ctx =
         Ok (ONode (Boxed node0 (ModifierInvocation (GetText identifier) args))) /\
       (args = None <-> length (GetChildren ctx) <= 1) /\
       (args = Some [] <-> 1 < length (GetChildren ctx))).
Proof.
  split.
  - intros out H. unfold VisitModifierInvocation in H.
    apply bind_Ok in H. destruct H as (args & Ea & H).
    apply bind_Ok in H. destruct H as (name & En & H).
    apply toText_Ok in En. destruct En as (identifier & Ei & ->).
    inversion H; subst; clear H.
    exists identifier, args. split; [reflexivity|]. split; [exact Ei|].
    destruct (GetTypedRuleContext ctx "ExpressionList" 0) as [expr|] eqn:Ee.
    + apply bind_Ok in Ea. destruct Ea as (vs & Evs & Ea).
      inversion Ea; subst; clear Ea.
      split; [|split]; try (intros; discriminate).
      intros expr' Hx. inversion Hx; subst; clear Hx.
      exists vs. split; [now apply visitAll_Forall2|]. split; [exact Evs|].
      rewrite elems_appendAll. simpl. split; [reflexivity|].
      split; [exact (mapM_length _ _ _ Evs)|].
      split; [|intros ->; reflexivity].
      intros Hne. rewrite appendAll_nil_slice. destruct vs;
        [now destruct Hne|reflexivity].
    + destruct (Nat.ltb_spec 1 (length (GetChildren ctx))) as [Hl|Hl];
        inversion Ea; subst; clear Ea;
        (split; [|split]); intros; try discriminate; try reflexivity; lia.
  - intros identifier Hi He. unfold VisitModifierInvocation. rewrite He, Hi.
    destruct (Nat.ltb_spec 1 (length (GetChildren ctx))); simpl;
      eexists; (split; [reflexivity|]); split; split; intros; try discriminate;
      try reflexivity; lia.
Qed.

(* ================================================================== *)
(** * Literals *)
(* ================================================================== *)

Lemma string_append_empty_r (s : string) : (s ++ "")%string = s.
Proof. induction s as [|c s IH]; simpl; [reflexivity|now rewrite IH]. Qed.

Lemma mapM_stringFragment_fst (l : list Tree) (frags : list (string * bool)) :
  mapM stringFragment l = Ok frags ->
  length frags = length l.
Proof. apply mapM_length. Qed.

(** C9: the stored value of a literal is the concatenation of its
    stored parts, at each place where a literal node is built: hex
    literals, string literals, the path literal of an import, and a
    number literal keeps its text and its unit side by side. *)
Theorem literal_parts_roundtrip (V : visitor) (ctx : Tree) :
  (exists parts,
     VisitHexLiteral ctx = Ok (ONode (Boxed node0 (HexLiteral (Join parts) (Some parts)))) /\
     parts = map hexFragment (GetTokens ctx "HexLiteralFragment")) /\
  (forall expr out,
     GetToken ctx "BooleanLiteral" 0 = None ->
     GetTypedRuleContext ctx "HexLiteral" 0 = None ->
     GetTypedRuleContext ctx "StringLiteral" 0 = Some expr ->
     VisitPrimaryExpression V ctx = Ok out ->
     exists parts isUnicode,
       out = ONode (Boxed (NodeOf "StringLiteral")
               (StringLiteral (Join parts) (Some parts) (Some isUnicode))) /\
       length parts = length (GetTokens expr "StringLiteralFragment") /\
       length isUnicode = length parts) /\
  (forall out,
     VisitImportDirective V ctx = Ok out ->
     exists d path,
       out = ONode (Boxed node0 (ImportDirective d)) /\
       id_PathLiteral d =
         ANode (Boxed (NodeOf "StringLiteral") (StringLiteral path (Some [path]) (Some [false]))) /\
       Join [path] = path) /\
  (forall out,
     VisitNumberLiteral ctx = Ok out ->
     exists number subDenomination,
       out = ONode (Boxed node0 (NumberLiteral number subDenomination)) /\
       (forall c0, GetChildren ctx = [c0] ->
          number = GetText c0 /\ subDenomination = ANil /\ number = GetText ctx) /\
       (forall c0 c1, GetChildren ctx = [c0; c1] ->
          number = GetText c0 /\ subDenomination = AString (GetText c1) /\
          (number ++ GetText c1)%string = GetText ctx)).
Proof.
  split; [|split; [|split]].
  - eexists. split; [|reflexivity].
    unfold VisitHexLiteral. rewrite appendAll_empty_slice. reflexivity.
  - intros expr out Hb Hh Hs H. unfold VisitPrimaryExpression in H.
    rewrite Hb, Hh, Hs in H. inv_runs.
    rewrite !appendAll_empty_slice. simpl.
    eexists _, _. split; [reflexivity|].
    rewrite !length_map. split; [|reflexivity].
    eapply mapM_length; eassumption.
  - intros out H. unfold VisitImportDirective in H.
    inv_runs; eexists _, _; (split; [reflexivity|]); simpl; (split; [reflexivity|]);
      reflexivity.
  - intros out H. unfold VisitNumberLiteral in H.
    inv_runs; eexists _, _; (split; [reflexivity|]).
    + apply Nat.eqb_eq in Heqb. unfold GetChildCount in Heqb.
      unfold GetChild in *. split.
      * intros c0 Hc. rewrite Hc in Heqb. discriminate.
      * intros c0 c1 Hc. rewrite Hc in *. simpl in *.
        repeat match goal with
               | H : Some _ = Some _ |- _ => inversion H; subst; clear H
               end.
        repeat split.
        destruct ctx; simpl in *; try discriminate. subst. simpl.
        now rewrite string_append_empty_r.
    + apply Nat.eqb_neq in Heqb. unfold GetChildCount in Heqb.
      unfold GetChild in *. split.
      * intros c0 Hc. rewrite Hc in *. simpl in *.
        repeat match goal with
               | H : Some _ = Some _ |- _ => inversion H; subst; clear H
               end.
        repeat split.
        destruct ctx; simpl in *; try discriminate. subst. simpl.
        now rewrite string_append_empty_r.
      * intros c0 c1 Hc. rewrite Hc in Heqb. now destruct Heqb.
Qed.

(* ================================================================== *)
(** * Function definitions *)
(* ================================================================== *)

(** What a successful run of [VisitFunctionDefinition] has gone
    through. *)
Lemma VisitFunctionDefinition_inv (V : visitor) (ctx : Tree) (out : output) :
  VisitFunctionDefinition V ctx = Ok out ->
  exists block modList modifiers parameters descr keyword vars override,
    GetTypedRuleContext ctx "ModifierList" 0 = Some modList /\
    GetTypedRuleContext ctx "FunctionDescriptor" 0 = Some descr /\
    GetChild descr 0 = Some keyword /\
    functionDescriptorSwitch V ctx modList descr (GetText keyword) = Ok vars /\
    overrideOf V (GetTypedRuleContexts modList "OverrideSpecifier") = Ok override /\
    out = ONode (Boxed node0 (FunctionDefinition
      {| fd_Name := dv_name vars;
         fd_Parameters := parameters;
         fd_Modifiers := modifiers;
         fd_ReturnParameters := dv_returnParameters vars;
         fd_Body := block;
         fd_StateMutability := "";
         fd_Visibility := dv_visibility vars;
         fd_IsConstructor := dv_isConstructor vars;
         fd_IsReceiveEther := dv_isReceiveEther vars;
         fd_IsFallback := dv_isFallback vars;
         fd_IsVirtual := hasElem (GetTokens modList "VirtualKeyword");
         fd_Override := override |})).
Proof.
  intros H. unfold VisitFunctionDefinition in H.
  apply bind_Ok in H. destruct H as (block & _ & H).
  apply bind_Ok in H. destruct H as (modList & Em & H). apply assertCtx_Ok in Em.
  apply bind_Ok in H. destruct H as (modifiers & _ & H).
  apply bind_Ok in H. destruct H as (parameterList & _ & H).
  apply bind_Ok in H. destruct H as (parameters & _ & H).
  apply bind_Ok in H. destruct H as (descr & Ed & H). apply assertCtx_Ok in Ed.
  apply bind_Ok in H. destruct H as (kw & Ek & H).
  apply toText_Ok in Ek. destruct Ek as (keyword & Ek & ->).
  apply bind_Ok in H. destruct H as (vars & Ev & H).
  apply bind_Ok in H. destruct H as (override & Eo & H).
  inversion H; subst; clear H.
  exists block, modList, (appendAll (Some []) modifiers), (appendAll None parameters),
    descr, keyword, vars, override.
  repeat split; assumption.
Qed.


(** C6: flags and visibility of a function definition follow the
    keyword that introduces its descriptor. *)
Theorem VisitFunctionDefinition_routing (V : visitor) (ctx : Tree) (out : output) :
  VisitFunctionDefinition V ctx = Ok out ->
  exists f modList descr keyword,
    out = ONode (Boxed node0 (FunctionDefinition f)) /\
    GetTypedRuleContext ctx "ModifierList" 0 = Some modList /\
    GetTypedRuleContext ctx "FunctionDescriptor" 0 = Some descr /\
    GetChild descr 0 = Some keyword /\
    (GetText keyword = "constructor" ->
       fd_IsConstructor f = true /\ fd_IsFallback f = false /\ fd_IsReceiveEther f = false /\
       fd_Visibility f =
         firstKeyword modList [("InternalKeyword", "internal"); ("PublicKeyword", "public")] /\
       In (fd_Visibility f) ["internal"; "public"; "default"] /\
       (GetTokens modList "InternalKeyword" = [] -> GetTokens modList "PublicKeyword" = [] ->
        fd_Visibility f = "default")) /\
    (GetText keyword = "fallback" ->
       fd_IsFallback f = true /\ fd_IsConstructor f = false /\ fd_IsReceiveEther f = false /\
       fd_Visibility f = "external") /\
    (GetText keyword = "receive" ->
       fd_IsReceiveEther f = true /\ fd_IsConstructor f = false /\ fd_IsFallback f = false /\
       fd_Visibility f = "external") /\
    (GetText keyword = "function" ->
       fd_Name f =
         match GetTypedRuleContext descr "Identifier" 0 with
         | Some ident => GetText ident
         | None => ""
         end /\
       fd_Visibility f =
         firstKeyword modList
           [("ExternalKeyword", "external"); ("InternalKeyword", "internal");
            ("PublicKeyword", "public"); ("PrivateKeyword", "private")] /\
       (fd_IsFallback f = true <-> fd_Name f = "") /\
       fd_IsConstructor f = false /\ fd_IsReceiveEther f = false).
Proof.
  intros H. apply VisitFunctionDefinition_inv in H.
  destruct H as (block & modList & modifiers & parameters & descr & keyword & vars &
                 override & Em & Ed & Ek & Ev & Eo & ->).
  eexists _, modList, descr, keyword.
  split; [reflexivity|]. split; [exact Em|]. split; [exact Ed|]. split; [exact Ek|].
  unfold functionDescriptorSwitch in Ev. simpl.
  split; [|split; [|split]]; intros Hk; rewrite Hk in Ev; simpl in Ev.
  - inversion Ev; subst; clear Ev. simpl. repeat split.
    + destruct (hasElem (GetTokens modList "InternalKeyword")); [simpl; auto|].
      destruct (hasElem (GetTokens modList "PublicKeyword")); simpl; auto.
    + intros Hi Hp. now rewrite Hi, Hp.
  - inversion Ev; subst; clear Ev. simpl. repeat split.
  - inversion Ev; subst; clear Ev. simpl. repeat split.
  - inv_runs; simpl; repeat split; try apply String.eqb_eq.
Qed.

(* ================================================================== *)
(** * Override lists *)
(* ================================================================== *)

Lemma VisitStateVariableDeclaration_inv (V : visitor) (ctx : Tree) (out : output) :
  VisitStateVariableDeclaration V ctx = Ok out ->
  exists v immutable override,
    out = ONode (Boxed node0 (StateVariableDeclaration
            (Some [ANode (Boxed (NodeOf "VariableDeclaration")
                            (StateVariableDeclarationVariable v immutable))]) ANil)) /\
    overrideOf V (GetTypedRuleContexts ctx "OverrideSpecifier") = Ok override /\
    vd_Override v = override.
Proof.
  intros H. unfold VisitStateVariableDeclaration in H.
  apply bind_Ok in H. destruct H as (override & Eo & H).
  inv_runs;
    (eexists _, _, override; split; [reflexivity|split; [exact Eo|reflexivity]]).
Qed.

(** C4 (amended): without an override specifier, the Override field of
    a ModifierDefinition is an empty non-nil list, and the Override
    field of a FunctionDefinition and of the variable of a state
    variable declaration is nil (absent). *)
Theorem Override_without_specifier (V : visitor) (ctx : Tree) (out : output) :
  (VisitFunctionDefinition V ctx = Ok out ->
   (forall modList, GetTypedRuleContext ctx "ModifierList" 0 = Some modList ->
      GetTypedRuleContexts modList "OverrideSpecifier" = []) ->
   exists f, out = ONode (Boxed node0 (FunctionDefinition f)) /\ fd_Override f = None) /\
  (VisitStateVariableDeclaration V ctx = Ok out ->
   GetTypedRuleContexts ctx "OverrideSpecifier" = [] ->
   exists v immutable,
     out = ONode (Boxed node0 (StateVariableDeclaration
             (Some [ANode (Boxed (NodeOf "VariableDeclaration")
                             (StateVariableDeclarationVariable v immutable))]) ANil)) /\
     vd_Override v = None) /\
  (VisitModifierDefinition V ctx = Ok out ->
   GetTypedRuleContexts ctx "OverrideSpecifier" = [] ->
   exists name parameters body isVirtual,
     out = ONode (Boxed node0 (ModifierDefinition name parameters body isVirtual (Some [])))).
Proof.
  split; [|split].
  - intros H Hno. apply VisitFunctionDefinition_inv in H.
    destruct H as (block & modList & modifiers & parameters & descr & keyword & vars &
                   override & Em & Ed & Ek & Ev & Eo & ->).
    rewrite (Hno modList Em) in Eo. simpl in Eo. inversion Eo; subst.
    eexists. split; reflexivity.
  - intros H Hno. apply VisitStateVariableDeclaration_inv in H.
    destruct H as (v & immutable & override & -> & Eo & Ev).
    rewrite Hno in Eo. simpl in Eo.
    eexists _, _. split; [reflexivity|congruence].
  - intros H Hno. unfold VisitModifierDefinition in H. rewrite Hno in H.
    inv_runs; eexists _, _, _, _; reflexivity.
Qed.

(* ================================================================== *)
(** * Import directives *)
(* ================================================================== *)


Lemma importDeclarationLoop_pairs (V : visitor) (importDecl : list Tree) :
  forall aliases identifiers,
    importDeclarationLoop V importDecl = Ok (aliases, identifiers) ->
    aliases = map symbolAliasOf importDecl /\
    length identifiers = length importDecl.
Proof.
  induction importDecl as [|decl rest IH]; intros aliases identifiers H; simpl in H.
  - inv_runs. split; reflexivity.
  - inv_runs.
    all: match goal with
         | H : importDeclarationLoop _ _ = Ok (_, _) |- _ =>
             destruct (IH _ _ H) as [-> Hl]
         end.
    all: simpl; split; [|now rewrite Hl].
    all: f_equal; unfold symbolAliasOf.
    all: repeat match goal with
           | H : GetTypedRuleContext _ _ _ = _ |- _ => rewrite H
           end.
    all: try reflexivity.
    apply Nat.ltb_ge in Heqb. unfold GetTypedRuleContext.
    destruct (nth_error (GetTypedRuleContexts decl "Identifier") 1) eqn:En; [|reflexivity].
    assert (Hlt : nth_error (GetTypedRuleContexts decl "Identifier") 1 <> None)
      by (rewrite En; discriminate).
    apply nth_error_Some in Hlt. lia.
Qed.

(** C7: an import directive carries the symbol aliases (one pair per
    import declaration, in order, no unit alias), or the unit alias (no
    symbol aliases), or neither for a bare import; never both. *)
Theorem VisitImportDirective_shapes (V : visitor) (ctx : Tree) (out : output) :
  VisitImportDirective V ctx = Ok out ->
  exists d,
    out = ONode (Boxed node0 (ImportDirective d)) /\
    (GetTypedRuleContexts ctx "ImportDeclaration" <> [] ->
       id_UnitAlias d = "" /\ id_UnitAliasIdentifier d = ANil /\
       id_SymbolAliases d =
         Some (map symbolAliasOf (GetTypedRuleContexts ctx "ImportDeclaration")) /\
       exists identifiers,
         id_SymbolAliasesIdentifiers d = Some identifiers /\
         length identifiers = length (GetTypedRuleContexts ctx "ImportDeclaration")) /\
    (GetTypedRuleContexts ctx "ImportDeclaration" = [] ->
       id_SymbolAliases d = None /\ id_SymbolAliasesIdentifiers d = None /\
       match GetTypedRuleContexts ctx "Identifier" with
       | [] => id_UnitAlias d = "" /\ id_UnitAliasIdentifier d = ANil
       | [alias] | [_; alias] =>
           id_UnitAlias d = GetText alias /\
           exists n, V (Some alias) = Ok n /\ id_UnitAliasIdentifier d = toAny n
       | _ => False
       end).
Proof.
  intros H. unfold VisitImportDirective in H.
  apply bind_Ok in H. destruct H as (pathString & _ & H).
  destruct (GetTypedRuleContexts ctx "ImportDeclaration") as [|decl rest] eqn:Ed.
  - simpl in H.
    inv_runs; eexists; (split; [reflexivity|]); simpl;
      (split; [intros Hne; now destruct Hne|]); intros _; repeat split;
      eexists; split; try eassumption; reflexivity.
  - change (Nat.ltb 0 (length (decl :: rest))) with true in H. cbv iota in H.
    inv_runs.
    match goal with
    | H : importDeclarationLoop V _ = Ok (_, _) |- _ =>
        destruct (importDeclarationLoop_pairs V _ _ _ H) as [-> Hl]
    end.
    eexists; (split; [reflexivity|]); simpl. split; [|intros Hn; discriminate Hn].
    intros _. split; [reflexivity|]. split; [reflexivity|]. split.
    + change (appendAll None (map symbolAliasOf (decl :: rest)) =
              Some (map symbolAliasOf (decl :: rest))).
      rewrite appendAll_nil_slice. reflexivity.
    + destruct l0 as [|i0 ids]; [simpl in Hl; discriminate|].
      rewrite appendAll_nil_slice. eexists. split; [reflexivity|exact Hl].
Qed.

(* ================================================================== *)
(** * Tags across a traversal *)
(* ================================================================== *)

Lemma listAll_Forall {A : Type} (Q : A -> Prop) (l : list A) : listAll Q l <-> Forall Q l.
Proof.
  induction l as [|x l IH]; simpl; split; intros H.
  - constructor.
  - exact I.
  - destruct H as [Hx Hl]. constructor; [exact Hx|now apply IH].
  - inversion H; subst. split; [assumption|now apply IH].
Qed.

Lemma listAll_app {A : Type} (Q : A -> Prop) (l1 l2 : list A) :
  listAll Q l1 -> listAll Q l2 -> listAll Q (l1 ++ l2).
Proof.
  induction l1 as [|x l1 IH]; simpl; intros H1 H2; [exact H2|].
  destruct H1 as [Hx H1]. split; [exact Hx|now apply IH].
Qed.

Lemma sliceAll_appendAll {A : Type} (Q : A -> Prop) (s : slice A) (xs : list A) :
  sliceAll Q s -> listAll Q xs -> sliceAll Q (appendAll s xs).
Proof.
  revert s. induction xs as [|x xs IH]; intros s Hs Hx; simpl; [exact Hs|].
  destruct Hx as [Hx Hxs]. apply IH; [|exact Hxs].
  unfold append. simpl. apply listAll_app.
  - destruct s; simpl in *; [exact Hs|exact I].
  - simpl. split; [exact Hx|exact I].
Qed.

Lemma anyAll_ASlice {N : Type} (P : N -> Prop) (s : slice (any N)) :
  anyAll P (ASlice s) = sliceAll (anyAll P) s.
Proof. destruct s; reflexivity. Qed.


Lemma tagOk_literal (t : string) : skipNode t = false -> tagOk (NodeOf t).
Proof. intros H. split; [simpl; lia|exact H]. Qed.

Lemma goodV_toAny (V : visitor) (i : option Tree) (n : option INode) :
  goodV V -> optionAll guarded i -> V i = Ok n -> goodAny (toAny n).
Proof.
  intros HV Hi H. destruct n as [n|]; simpl; [|exact I]. exact (HV i n Hi H).
Qed.

Lemma goodV_ofINode (V : visitor) (i : option Tree) (n : option INode) :
  goodV V -> optionAll guarded i -> V i = Ok n -> goodOut (ofINode n).
Proof.
  intros HV Hi H. destruct n as [n|]; simpl; [|exact I]. exact (HV i n Hi H).
Qed.

(** ** Trees below a guarded context *)

Lemma guarded_Ctx (rule : string) (cs : list Tree) :
  guarded (Ctx rule cs) -> (rule =? "AssemblyBlock") = false -> below (Ctx rule cs).
Proof.
  unfold guarded, below. simpl. intros H Hr. rewrite Hr in H. simpl in H.
  apply andb_prop in H. destruct H as [_ H].
  apply Forall_forall. intros x Hx. unfold guarded.
  rewrite forallb_forall in H. now apply H.
Qed.

Lemma isCtx_inv (r : string) (x : Tree) :
  isCtx r x = true -> exists cs, x = Ctx r cs.
Proof.
  destruct x; simpl; try discriminate. intros H. apply String.eqb_eq in H. subst.
  now eexists.
Qed.

Lemma guarded_below (r : string) (x : Tree) :
  guarded x -> isCtx r x = true -> (r =? "AssemblyBlock") = false -> below x.
Proof.
  intros HG Hx Hr. destruct (isCtx_inv _ _ Hx) as (cs & ->). now apply guarded_Ctx.
Qed.

Lemma typed_In (ctx : Tree) (r : string) (i : nat) (x : Tree) :
  GetTypedRuleContext ctx r i = Some x -> In x (GetChildren ctx) /\ isCtx r x = true.
Proof.
  unfold GetTypedRuleContext, GetTypedRuleContexts. intros H.
  apply nth_error_In in H. now apply filter_In in H.
Qed.

Lemma typed_guarded (ctx : Tree) (r : string) (i : nat) (x : Tree) :
  below ctx -> GetTypedRuleContext ctx r i = Some x -> guarded x.
Proof.
  intros Hk H. apply typed_In in H. destruct H as [H _].
  unfold below in Hk. rewrite Forall_forall in Hk. now apply Hk.
Qed.

Lemma typed_below (ctx : Tree) (r : string) (i : nat) (x : Tree) :
  below ctx -> (r =? "AssemblyBlock") = false -> GetTypedRuleContext ctx r i = Some x ->
  below x.
Proof.
  intros Hk Hr H. pose proof (typed_guarded _ _ _ _ Hk H) as HG.
  apply typed_In in H. destruct H as [_ H]. exact (guarded_below _ _ HG H Hr).
Qed.

Lemma below_typed (ctx : Tree) (r : string) (i : nat) :
  below ctx -> optionAll guarded (GetTypedRuleContext ctx r i).
Proof.
  intros Hk. destruct (GetTypedRuleContext ctx r i) eqn:E; simpl; [|exact I].
  exact (typed_guarded _ _ _ _ Hk E).
Qed.

Lemma below_child (ctx : Tree) (i : nat) : below ctx -> optionAll guarded (GetChild ctx i).
Proof.
  intros Hk. unfold GetChild. destruct (nth_error (GetChildren ctx) i) eqn:E; simpl;
    [|exact I].
  apply nth_error_In in E. unfold below in Hk. rewrite Forall_forall in Hk. now apply Hk.
Qed.

Lemma below_typeds (ctx : Tree) (r : string) :
  below ctx -> Forall guarded (GetTypedRuleContexts ctx r).
Proof.
  intros Hk. unfold GetTypedRuleContexts. apply Forall_forall. intros x Hx.
  apply filter_In in Hx. destruct Hx as [Hx _].
  unfold below in Hk. rewrite Forall_forall in Hk. now apply Hk.
Qed.

Lemma below_typeds_below (ctx : Tree) (r : string) :
  below ctx -> (r =? "AssemblyBlock") = false -> Forall below (GetTypedRuleContexts ctx r).
Proof.
  intros Hk Hr. unfold GetTypedRuleContexts. apply Forall_forall. intros x Hx.
  apply filter_In in Hx. destruct Hx as [Hx Hc].
  unfold below in Hk. rewrite Forall_forall in Hk. exact (guarded_below _ _ (Hk x Hx) Hc Hr).
Qed.

Lemma below_children (ctx : Tree) (cs : list Tree) :
  below ctx -> GetChildren ctx = cs -> Forall guarded cs.
Proof. unfold below. now intros H <-. Qed.

Lemma index_In {A : Type} (l : list A) (i : nat) (x : A) : index l i = Ok x -> In x l.
Proof.
  unfold index. destruct (nth_error l i) eqn:E; intros H; inversion H; subst.
  now apply nth_error_In in E.
Qed.

(** ** The loops *)

Lemma visitAll_good (V : visitor) (l : list Tree) (vs : list (any INode)) :
  goodV V -> Forall guarded l -> visitAll V l = Ok vs -> listAll goodAny vs.
Proof.
  intros HV. unfold visitAll. revert vs.
  induction l as [|x l IH]; intros vs Hl H; simpl in H; inv_runs; simpl; [exact I|].
  inversion Hl; subst. split.
  - eapply goodV_toAny; [exact HV| |eassumption]. assumption.
  - now apply IH.
Qed.

Lemma goodNode_Boxed (node : Node) (s : Struct INode) :
  tagOk node -> structAll goodNode s -> goodNode (Boxed node s).
Proof. intros Hn Hs. split; [exact Hn|exact Hs]. Qed.

Lemma stringsAsAny_good (l : list string) : listAll goodAny (stringsAsAny l).
Proof. induction l as [|x l IH]; simpl; [exact I|]. split; [exact I|exact IH]. Qed.

Lemma Forall_sliceInner (Q : Tree -> Prop) (l : list Tree) (count : nat) :
  Forall Q l -> Forall Q (sliceInner l count).
Proof.
  intros H. unfold sliceInner.
  rewrite <- (firstn_skipn 1 l) in H. apply Forall_app in H. destruct H as [_ H].
  rewrite <- (firstn_skipn (count - 2) (skipn 1 l)) in H.
  apply Forall_app in H. now destruct H.
Qed.

Lemma mapCommasToNulls_loop_Forall (Q : Tree -> Prop) (tree : list Tree) :
  forall comma res childs,
    Forall Q tree -> Forall (optionAll Q) res ->
    mapCommasToNulls_loop tree comma res = Ok childs -> Forall (optionAll Q) childs.
Proof.
  induction tree as [|c rest IH]; intros comma res childs Ht Hr H; simpl in H.
  - destruct comma; inversion H; subst; [|exact Hr].
    apply Forall_app. split; [exact Hr|]. constructor; [exact I|constructor].
  - inversion Ht; subst.
    destruct comma.
    + destruct (GetText c =? ",").
      * apply (IH true (res ++ [None])); [assumption| |exact H].
        apply Forall_app. split; [exact Hr|]. constructor; [exact I|constructor].
      * apply (IH false (res ++ [Some c])); [assumption| |exact H].
        apply Forall_app. split; [exact Hr|]. constructor; [assumption|constructor].
    + destruct (GetText c =? ","); simpl in H; [|discriminate].
      now apply (IH true res).
Qed.

Lemma mapCommasToNulls_Forall (Q : Tree -> Prop) (tree : list Tree)
  (childs : list (option Tree)) :
  Forall Q tree -> mapCommasToNulls tree = Ok childs -> Forall (optionAll Q) childs.
Proof.
  intros Ht H. destruct tree as [|c rest].
  - inversion H. constructor.
  - unfold mapCommasToNulls in H.
    apply (mapCommasToNulls_loop_Forall Q (c :: rest) true [] childs Ht); [constructor|exact H].
Qed.

(** The tactics that discharge the builders one by one: [saturate]
    collects what is known of the trees below the context, [side]
    proves that a visited tree is guarded, [good_goal] walks through the
    fields of the node that the builder returns. *)
Ltac have_not P := lazymatch goal with | _ : P |- _ => fail | _ => idtac end.

Ltac saturate :=
  repeat match goal with
  | Hk : below ?c, H : GetTypedRuleContext ?c ?r ?i = Some ?x |- _ =>
      have_not (guarded x); pose proof (typed_guarded c r i x Hk H);
      try pose proof (typed_below c r i x Hk eq_refl H)
  | Hk : below ?c, H : GetChildren ?c = ?x :: _ |- _ =>
      have_not (guarded x);
      let F := fresh "F" in
      pose proof (below_children c _ Hk H) as F;
      repeat match goal with
             | F' : Forall guarded (_ :: _) |- _ => inversion_clear F'
             end
  | Hk : below ?c, H : GetTypedRuleContexts ?c ?r = ?x :: _ |- _ =>
      have_not (guarded x);
      let F := fresh "F" in
      pose proof (below_typeds c r Hk) as F; rewrite H in F;
      repeat match goal with
             | F' : Forall guarded (_ :: _) |- _ => inversion_clear F'
             end;
      try (let F2 := fresh "F" in
           pose proof (below_typeds_below c r Hk eq_refl) as F2; rewrite H in F2;
           repeat match goal with
                  | F' : Forall below (_ :: _) |- _ => inversion_clear F'
                  end)
  | Hk : below ?c, H : index (GetTypedRuleContexts ?c ?r) ?i = Ok ?x |- _ =>
      have_not (guarded x);
      let F := fresh "F" in
      pose proof (index_In _ i x H) as F;
      let F1 := fresh "F" in
      pose proof (below_typeds c r Hk) as F1;
      rewrite Forall_forall in F1; pose proof (F1 x F); clear F1;
      try (let F2 := fresh "F" in
           pose proof (below_typeds_below c r Hk eq_refl) as F2;
           rewrite Forall_forall in F2; pose proof (F2 x F); clear F2)
  | Hk : Forall below ?l, H : index ?l ?i = Ok ?x |- _ =>
      have_not (below x);
      let F := fresh "F" in
      pose proof (index_In l i x H) as F;
      rewrite Forall_forall in Hk; pose proof (Hk x F);
      rewrite <- Forall_forall in Hk
  end.

Ltac side :=
  match goal with
  | |- optionAll guarded (Some _) => simpl; assumption
  | |- optionAll guarded None => exact I
  | |- optionAll guarded (GetTypedRuleContext _ _ _) => apply below_typed; assumption
  | |- optionAll guarded (GetChild _ _) => apply below_child; assumption
  | |- Forall guarded (GetTypedRuleContexts _ _) => apply below_typeds; assumption
  | |- Forall guarded (GetChildren _) => assumption
  | |- Forall below (GetTypedRuleContexts _ _) =>
      apply below_typeds_below; [assumption|reflexivity]
  | |- Forall guarded (sliceInner _ _) => apply Forall_sliceInner; side
  | |- Forall (optionAll guarded) ?childs =>
      match goal with
      | H : mapCommasToNulls ?t = Ok childs |- _ =>
          apply (mapCommasToNulls_Forall guarded t childs); [side|exact H]
      end
  | |- below _ => assumption
  | |- guarded _ => assumption
  end.

Ltac reduce_all :=
  cbn [fresh goodOut structAll vd_TypeName vd_Identifier vd_Expression vd_Override
       fd_Parameters fd_Modifiers fd_ReturnParameters fd_Body fd_Override
       id_PathLiteral id_UnitAliasIdentifier id_SymbolAliasesIdentifiers
       sliceAll listAll optionAll anyAll ofINode ofSlice append elems app].

Ltac unfold_all :=
  reduce_all;
  try unfold variableDeclarationAll; try unfold functionDefinitionAll;
  try unfold importDirectiveAll;
  reduce_all.

Ltac good_goal :=
  unfold goodAny in *; unfold_all;
  match goal with
  | |- True => exact I
  | |- _ = _ => reflexivity
  | |- _ /\ _ => split; good_goal
  | |- tagOk _ => apply tagOk_literal; reflexivity
  | |- goodNode (Boxed _ _) => apply goodNode_Boxed; good_goal
  | |- anyAll _ (toAny ?n) =>
      match goal with
      | H : ?V ?e = Ok n |- _ => apply (goodV_toAny V e n); [assumption|side|exact H]
      end
  | |- goodOut (ofINode ?n) =>
      match goal with
      | H : ?V ?e = Ok n |- _ => apply (goodV_ofINode V e n); [assumption|side|exact H]
      end
  | |- goodNode ?n =>
      match goal with
      | HV : goodV ?V, H : ?V ?e = Ok (Some n) |- _ => apply (HV e n); [side|exact H]
      end
  | |- sliceAll _ (appendAll _ _) => apply sliceAll_appendAll; good_goal
  | |- anyAll _ (ASlice _) => rewrite anyAll_ASlice; good_goal
  | |- listAll _ (stringsAsAny _) => apply stringsAsAny_good
  | |- listAll _ ?vs =>
      match goal with
      | H : visitAll ?V ?l = Ok vs |- _ =>
          apply (visitAll_good V l vs); [assumption|side|exact H]
      end
  | |- _ => eassumption
  end.

Ltac start_good f :=
  let out := fresh "out" in
  let HV := fresh "HV" in
  let Hk := fresh "Hk" in
  let H := fresh "H" in
  intros HV Hk out H; unfold f in H; inv_runs; saturate.

Ltac builder_good f := start_good f; try good_goal.

Section Loops.

Variable V : visitor.
Hypothesis HV : goodV V.

Lemma VisitParameterList_good (ctx : Tree) :
  below ctx -> forall s, VisitParameterList V ctx = Ok s -> sliceAll goodAny s.
Proof.
  intros Hk s H. unfold VisitParameterList in H. inv_runs. good_goal.
Qed.

Lemma VisitReturnParameters_good (ctx : Tree) :
  below ctx -> forall s, VisitReturnParameters V ctx = Ok s -> sliceAll goodAny s.
Proof.
  intros Hk s H. unfold VisitReturnParameters in H. inv_runs. saturate.
  eapply VisitParameterList_good; eassumption.
Qed.

Lemma overrideOf_good (overSpec : list Tree) :
  Forall below overSpec -> forall o, overrideOf V overSpec = Ok o -> sliceAll goodAny o.
Proof.
  intros Hk o H. unfold overrideOf in H. inv_runs; [exact I|].
  inversion_clear Hk. good_goal.
Qed.

Lemma nameValueLoop_good (l : list Tree) :
  Forall below l ->
  forall args names identifiers,
    nameValueLoop V l = Ok (args, names, identifiers) ->
    listAll goodAny args /\ listAll goodAny identifiers.
Proof.
  induction l as [|p rest IH]; intros Hk args names identifiers H; simpl in H; inv_runs.
  - split; exact I.
  - inversion_clear Hk.
    match goal with
    | H : nameValueLoop _ _ = Ok _ |- _ => destruct (IH ltac:(assumption) _ _ _ H)
    end.
    split; good_goal.
Qed.

Lemma nameValueListLoop_good (l : list Tree) :
  Forall below l ->
  forall names identifiers args,
    nameValueListLoop V l = Ok (names, identifiers, args) ->
    listAll goodAny identifiers /\ listAll goodAny args.
Proof.
  induction l as [|p rest IH]; intros Hk names identifiers args H; simpl in H; inv_runs.
  - split; exact I.
  - inversion_clear Hk.
    match goal with
    | H : nameValueListLoop _ _ = Ok _ |- _ => destruct (IH ltac:(assumption) _ _ _ H)
    end.
    split; good_goal.
Qed.

Lemma visitSlot_good (childs : list (option Tree)) :
  Forall (optionAll guarded) childs ->
  forall components, mapM (visitSlot V) childs = Ok components -> listAll goodAny components.
Proof.
  induction childs as [|c rest IH]; intros Hk components H; simpl in H; inv_runs.
  - exact I.
  - inversion_clear Hk. split; [|now apply IH].
    unfold visitSlot in *. inv_runs; good_goal.
Qed.

Lemma buildIdentifierList_loop_good (childs : list (option Tree)) (identifiers : list Tree) :
  Forall guarded identifiers ->
  forall indx vs,
    buildIdentifierList_loop V childs identifiers indx = Ok vs -> listAll goodAny vs.
Proof.
  intros Hi. induction childs as [|c rest IH]; intros indx vs H; simpl in H; inv_runs.
  - exact I.
  - split; [|eapply IH; eassumption].
    match goal with
    | H : index _ _ = Ok ?x |- _ =>
        apply index_In in H; rewrite Forall_forall in Hi; pose proof (Hi x H)
    end.
    good_goal.
  - split; [exact I|eapply IH; eassumption].
Qed.

Lemma buildIdentifierList_good (ctx : Tree) :
  below ctx -> forall s, buildIdentifierList V ctx = Ok s -> sliceAll goodAny s.
Proof.
  intros Hk s H. unfold buildIdentifierList in H. inv_runs.
  apply sliceAll_appendAll; [exact I|].
  eapply buildIdentifierList_loop_good; [|eassumption]. side.
Qed.

Lemma buildVariableDeclarationList_loop_good (childs : list (option Tree))
  (variableDeclarations : list Tree) :
  Forall below variableDeclarations ->
  forall indx vs,
    buildVariableDeclarationList_loop V childs variableDeclarations indx = Ok vs ->
    listAll goodAny vs.
Proof.
  intros Hi. induction childs as [|c rest IH]; intros indx vs H; simpl in H; inv_runs.
  1: exact I.
  all: try (split; [exact I|eapply IH; eassumption]).
  all: split; [|eapply IH; eassumption].
  all: saturate; good_goal.
Qed.

Lemma buildVariableDeclarationList_good (ctx : Tree) :
  below ctx -> forall s, buildVariableDeclarationList V ctx = Ok s -> sliceAll goodAny s.
Proof.
  intros Hk s H. unfold buildVariableDeclarationList in H. inv_runs.
  apply sliceAll_appendAll; [exact I|].
  eapply buildVariableDeclarationList_loop_good; [|eassumption]. side.
Qed.

Lemma eventParameterLoop_good (paramsList : list Tree) :
  Forall below paramsList ->
  forall vs, eventParameterLoop V paramsList = Ok vs -> listAll goodAny vs.
Proof.
  induction paramsList as [|param rest IH]; intros Hk vs H; simpl in H; inv_runs.
  1: exact I.
  all: inversion_clear Hk.
  all: split; [|eapply IH; eassumption].
  all: saturate; good_goal.
Qed.

Lemma assertIdentifier_good (e : option Tree) (n : option INode) (m : INode) :
  optionAll guarded e -> V e = Ok n -> assertIdentifier n = Ok m -> goodNode m.
Proof.
  intros He Hn H. unfold assertIdentifier in H.
  destruct n as [[node s]|]; [|discriminate].
  destruct s; try discriminate. inversion H; subst. exact (HV e _ He Hn).
Qed.

Lemma importDeclarationLoop_good (importDecl : list Tree) :
  Forall below importDecl ->
  forall aliases identifiers,
    importDeclarationLoop V importDecl = Ok (aliases, identifiers) ->
    listAll (sliceAll (optionAll goodNode)) identifiers.
Proof.
  induction importDecl as [|decl rest IH]; intros Hk aliases identifiers H; simpl in H;
    inv_runs.
  1: exact I.
  all: inversion_clear Hk.
  all: split; [|eapply IH; eassumption].
  all: unfold_all.
  all: repeat split.
  all: eapply assertIdentifier_good; [| |eassumption]; [|eassumption]; side.
Qed.

Lemma expressionOfStatement_good (e : option Tree) (n : option INode) (x : any INode) :
  optionAll guarded e -> V e = Ok n -> expressionOfStatement n = Ok x -> goodAny x.
Proof.
  intros He Hn H. unfold expressionOfStatement in H.
  destruct n as [[node s]|]; [|discriminate].
  destruct s; try discriminate. inversion H; subst.
  pose proof (HV e _ He Hn) as Hg. destruct Hg as [_ Hg]. exact Hg.
Qed.

Lemma functionDescriptorSwitch_good (ctx modList descr : Tree) (keyword : string) :
  below ctx ->
  forall vars,
    functionDescriptorSwitch V ctx modList descr keyword = Ok vars ->
    goodAny (dv_returnParameters vars).
Proof.
  intros Hk vars H. unfold functionDescriptorSwitch in H.
  inv_runs; cbn [dv_returnParameters]; try exact I.
  all: saturate.
  all: unfold goodAny; rewrite anyAll_ASlice; eapply VisitReturnParameters_good;
    eassumption.
Qed.

End Loops.


(** ** The builders, one by one *)

Ltac forward_loops :=
  repeat match goal with
  | HV : goodV ?V, H : VisitParameterList ?V ?c = Ok ?s |- _ =>
      have_not (sliceAll goodAny s);
      pose proof (VisitParameterList_good V HV c ltac:(side) s H)
  | HV : goodV ?V, H : VisitReturnParameters ?V ?c = Ok ?s |- _ =>
      have_not (sliceAll goodAny s);
      pose proof (VisitReturnParameters_good V HV c ltac:(side) s H)
  | HV : goodV ?V, H : overrideOf ?V ?l = Ok ?s |- _ =>
      have_not (sliceAll goodAny s);
      pose proof (overrideOf_good V HV l ltac:(side) s H)
  | HV : goodV ?V, H : buildIdentifierList ?V ?c = Ok ?s |- _ =>
      have_not (sliceAll goodAny s);
      pose proof (buildIdentifierList_good V HV c ltac:(side) s H)
  | HV : goodV ?V, H : buildVariableDeclarationList ?V ?c = Ok ?s |- _ =>
      have_not (sliceAll goodAny s);
      pose proof (buildVariableDeclarationList_good V HV c ltac:(side) s H)
  | HV : goodV ?V, H : eventParameterLoop ?V ?l = Ok ?vs |- _ =>
      have_not (listAll goodAny vs);
      pose proof (eventParameterLoop_good V HV l ltac:(side) vs H)
  | HV : goodV ?V, H : mapM (visitSlot ?V) ?l = Ok ?vs |- _ =>
      have_not (listAll goodAny vs);
      pose proof (visitSlot_good V HV l ltac:(side) vs H)
  | HV : goodV ?V, H : nameValueLoop ?V ?l = Ok (?a, ?n, ?i) |- _ =>
      have_not (listAll goodAny a);
      destruct (nameValueLoop_good V HV l ltac:(side) a n i H)
  | HV : goodV ?V, H : nameValueListLoop ?V ?l = Ok (?n, ?i, ?a) |- _ =>
      have_not (listAll goodAny a);
      destruct (nameValueListLoop_good V HV l ltac:(side) n i a H)
  | HV : goodV ?V, H : importDeclarationLoop ?V ?l = Ok (?a, ?i) |- _ =>
      have_not (listAll (sliceAll (optionAll goodNode)) i);
      pose proof (importDeclarationLoop_good V HV l ltac:(side) a i H)
  | HV : goodV ?V, H : functionDescriptorSwitch ?V ?c ?m ?d ?k = Ok ?vars |- _ =>
      have_not (goodAny (dv_returnParameters vars));
      pose proof (functionDescriptorSwitch_good V HV c m d k ltac:(side) vars H)
  | HV : goodV ?V, H : ?V ?e = Ok ?n, H' : expressionOfStatement ?n = Ok ?x |- _ =>
      have_not (goodAny x);
      pose proof (expressionOfStatement_good V HV e n x ltac:(side) H H')
  end.

Ltac builder_good f ::= start_good f; forward_loops; try good_goal.

Lemma VisitSourceUnit_good (V : visitor) (ctx : Tree) :
  goodV V -> below ctx -> forall out, VisitSourceUnit V ctx = Ok out -> fresh out.
Proof. builder_good VisitSourceUnit. Qed.

Lemma VisitPragmaDirective_good (V : visitor) (ctx : Tree) :
  goodV V -> below ctx -> forall out, VisitPragmaDirective ctx = Ok out -> fresh out.
Proof. builder_good VisitPragmaDirective. Qed.

Lemma VisitContractDefinition_good (V : visitor) (ctx : Tree) :
  goodV V -> below ctx -> forall out, VisitContractDefinition V ctx = Ok out -> fresh out.
Proof. builder_good VisitContractDefinition. Qed.

Lemma VisitInheritanceSpecifier_good (V : visitor) (ctx : Tree) :
  goodV V -> below ctx -> forall out, VisitInheritanceSpecifier V ctx = Ok out -> fresh out.
Proof. builder_good VisitInheritanceSpecifier. Qed.

Lemma VisitContractPart_good (V : visitor) (ctx : Tree) :
  goodV V -> below ctx -> forall out, VisitContractPart V ctx = Ok out -> goodOut out.
Proof. builder_good VisitContractPart. Qed.

Lemma VisitStructDefinition_good (V : visitor) (ctx : Tree) :
  goodV V -> below ctx -> forall out, VisitStructDefinition V ctx = Ok out -> fresh out.
Proof. builder_good VisitStructDefinition. Qed.

Lemma VisitVariableDeclaration_good (V : visitor) (ctx : Tree) :
  goodV V -> below ctx -> forall out, VisitVariableDeclaration V ctx = Ok out -> fresh out.
Proof. builder_good VisitVariableDeclaration. Qed.

Lemma VisitIdentifier_good (V : visitor) (ctx : Tree) :
  goodV V -> below ctx -> forall out, VisitIdentifier ctx = Ok out -> fresh out.
Proof. builder_good VisitIdentifier. Qed.

Lemma VisitStateVariableDeclaration_good (V : visitor) (ctx : Tree) :
  goodV V -> below ctx -> forall out, VisitStateVariableDeclaration V ctx = Ok out -> fresh out.
Proof. builder_good VisitStateVariableDeclaration. Qed.

Lemma VisitFunctionDefinition_good (V : visitor) (ctx : Tree) :
  goodV V -> below ctx -> forall out, VisitFunctionDefinition V ctx = Ok out -> fresh out.
Proof. builder_good VisitFunctionDefinition. Qed.

Lemma VisitParameter_good (V : visitor) (ctx : Tree) :
  goodV V -> below ctx -> forall out, VisitParameter V ctx = Ok out -> goodOut out.
Proof. builder_good VisitParameter. Qed.

Lemma VisitModifierInvocation_good (V : visitor) (ctx : Tree) :
  goodV V -> below ctx -> forall out, VisitModifierInvocation V ctx = Ok out -> fresh out.
Proof. builder_good VisitModifierInvocation. Qed.

Lemma VisitBlock_good (V : visitor) (ctx : Tree) :
  goodV V -> below ctx -> forall out, VisitBlock V ctx = Ok out -> fresh out.
Proof. builder_good VisitBlock. Qed.

Lemma VisitStatement_good (V : visitor) (ctx : Tree) :
  goodV V -> below ctx -> forall out, VisitStatement V ctx = Ok out -> goodOut out.
Proof. builder_good VisitStatement. Qed.

Lemma VisitSimpleStatement_good (V : visitor) (ctx : Tree) :
  goodV V -> below ctx -> forall out, VisitSimpleStatement V ctx = Ok out -> goodOut out.
Proof. builder_good VisitSimpleStatement. Qed.

Lemma VisitExpressionStatement_good (V : visitor) (ctx : Tree) :
  goodV V -> below ctx -> forall out, VisitExpressionStatement V ctx = Ok out -> fresh out.
Proof. builder_good VisitExpressionStatement. Qed.

Lemma VisitExpression_good (V : visitor) (ctx : Tree) :
  goodV V -> below ctx -> forall out, VisitExpression V ctx = Ok out -> goodOut out.
Proof. builder_good VisitExpression. Qed.

Lemma VisitMapping_good (V : visitor) (ctx : Tree) :
  goodV V -> below ctx -> forall out, VisitMapping V ctx = Ok out -> fresh out.
Proof. builder_good VisitMapping. Qed.

Lemma VisitMappingKey_good (V : visitor) (ctx : Tree) :
  goodV V -> below ctx -> forall out, VisitMappingKey V ctx = Ok out -> goodOut out.
Proof. builder_good VisitMappingKey. Qed.

Lemma VisitNameValueList_good (V : visitor) (ctx : Tree) :
  goodV V -> below ctx -> forall out, VisitNameValueList V ctx = Ok out -> fresh out.
Proof. builder_good VisitNameValueList. Qed.

Lemma VisitTupleExpression_good (V : visitor) (ctx : Tree) :
  goodV V -> below ctx -> forall out, VisitTupleExpression V ctx = Ok out -> fresh out.
Proof. builder_good VisitTupleExpression. Qed.

Lemma VisitTypeNameExpression_good (V : visitor) (ctx : Tree) :
  goodV V -> below ctx -> forall out, VisitTypeNameExpression V ctx = Ok out -> fresh out.
Proof. builder_good VisitTypeNameExpression. Qed.

Lemma VisitNumberLiteral_good (V : visitor) (ctx : Tree) :
  goodV V -> below ctx -> forall out, VisitNumberLiteral ctx = Ok out -> fresh out.
Proof. builder_good VisitNumberLiteral. Qed.

Lemma VisitHexLiteral_good (V : visitor) (ctx : Tree) :
  goodV V -> below ctx -> forall out, VisitHexLiteral ctx = Ok out -> fresh out.
Proof. builder_good VisitHexLiteral. Qed.

Lemma VisitPrimaryExpression_good (V : visitor) (ctx : Tree) :
  goodV V -> below ctx -> forall out, VisitPrimaryExpression V ctx = Ok out -> goodOut out.
Proof. builder_good VisitPrimaryExpression. Qed.

Lemma VisitForStatement_good (V : visitor) (ctx : Tree) :
  goodV V -> below ctx -> forall out, VisitForStatement V ctx = Ok out -> fresh out.
Proof. builder_good VisitForStatement. Qed.

Lemma VisitVariableDeclarationStatement_good (V : visitor) (ctx : Tree) :
  goodV V -> below ctx -> forall out, VisitVariableDeclarationStatement V ctx = Ok out -> fresh out.
Proof. builder_good VisitVariableDeclarationStatement. Qed.

Lemma VisitWhileStatement_good (V : visitor) (ctx : Tree) :
  goodV V -> below ctx -> forall out, VisitWhileStatement V ctx = Ok out -> fresh out.
Proof. builder_good VisitWhileStatement. Qed.

Lemma VisitDoWhileStatement_good (V : visitor) (ctx : Tree) :
  goodV V -> below ctx -> forall out, VisitDoWhileStatement V ctx = Ok out -> fresh out.
Proof. builder_good VisitDoWhileStatement. Qed.

Lemma VisitIfStatement_good (V : visitor) (ctx : Tree) :
  goodV V -> below ctx -> forall out, VisitIfStatement V ctx = Ok out -> fresh out.
Proof. builder_good VisitIfStatement. Qed.

Lemma VisitEventDefinition_good (V : visitor) (ctx : Tree) :
  goodV V -> below ctx -> forall out, VisitEventDefinition V ctx = Ok out -> fresh out.
Proof. builder_good VisitEventDefinition. Qed.

Lemma VisitImportDirective_good (V : visitor) (ctx : Tree) :
  goodV V -> below ctx -> forall out, VisitImportDirective V ctx = Ok out -> fresh out.
Proof. builder_good VisitImportDirective. Qed.

Lemma VisitEnumDefinition_good (V : visitor) (ctx : Tree) :
  goodV V -> below ctx -> forall out, VisitEnumDefinition V ctx = Ok out -> fresh out.
Proof. builder_good VisitEnumDefinition. Qed.

Lemma VisitEnumValue_good (V : visitor) (ctx : Tree) :
  goodV V -> below ctx -> forall out, VisitEnumValue ctx = Ok out -> fresh out.
Proof. builder_good VisitEnumValue. Qed.

Lemma VisitBreakStatement_good (V : visitor) (ctx : Tree) :
  goodV V -> below ctx -> forall out, VisitBreakStatement ctx = Ok out -> fresh out.
Proof. builder_good VisitBreakStatement. Qed.

Lemma VisitContinueStatement_good (V : visitor) (ctx : Tree) :
  goodV V -> below ctx -> forall out, VisitContinueStatement ctx = Ok out -> fresh out.
Proof. builder_good VisitContinueStatement. Qed.

Lemma VisitReturnStatement_good (V : visitor) (ctx : Tree) :
  goodV V -> below ctx -> forall out, VisitReturnStatement V ctx = Ok out -> fresh out.
Proof. builder_good VisitReturnStatement. Qed.

Lemma VisitModifierDefinition_good (V : visitor) (ctx : Tree) :
  goodV V -> below ctx -> forall out, VisitModifierDefinition V ctx = Ok out -> fresh out.
Proof. builder_good VisitModifierDefinition. Qed.

Lemma VisitOverrideSpecifier_good (V : visitor) (ctx : Tree) :
  goodV V -> below ctx -> forall out, VisitOverrideSpecifier ctx = Ok out -> fresh out.
Proof. builder_good VisitOverrideSpecifier. Qed.

Lemma VisitFunctionTypeName_good (V : visitor) (ctx : Tree) :
  goodV V -> below ctx -> forall out, VisitFunctionTypeName V ctx = Ok out -> fresh out.
Proof. builder_good VisitFunctionTypeName. Qed.

Lemma VisitFunctionTypeParameter_good (V : visitor) (ctx : Tree) :
  goodV V -> below ctx -> forall out, VisitFunctionTypeParameter V ctx = Ok out -> goodOut out.
Proof. builder_good VisitFunctionTypeParameter. Qed.

Lemma VisitUsingForDeclaration_good (V : visitor) (ctx : Tree) :
  goodV V -> below ctx -> forall out, VisitUsingForDeclaration V ctx = Ok out -> fresh out.
Proof. builder_good VisitUsingForDeclaration. Qed.

Lemma VisitTypeName_good (V : visitor) (ctx : Tree) :
  goodV V -> below ctx -> forall out, VisitTypeName V ctx = Ok out -> goodOut out.
Proof. builder_good VisitTypeName. Qed.

Lemma VisitInlineAssemblyStatement_good (V : visitor) (ctx : Tree) :
  forall out, VisitInlineAssemblyStatement V ctx = Ok out -> fresh out.
Proof. intros out H. unfold VisitInlineAssemblyStatement in H. inv_runs; exact I. Qed.

Lemma VisitAssemblyBlock_good (V : visitor) (ctx : Tree) :
  forall out, VisitAssemblyBlock V ctx = Ok out -> fresh out.
Proof. intros out H. unfold VisitAssemblyBlock in H. inv_runs; exact I. Qed.

Lemma VisitAssemblyCall_good (V : visitor) (ctx : Tree) :
  forall out, VisitAssemblyCall V ctx = Ok out -> fresh out.
Proof. intros out H. unfold VisitAssemblyCall in H. inv_runs; exact I. Qed.

Lemma VisitAssemblyLiteral_good (V : visitor) (ctx : Tree) :
  forall out, VisitAssemblyLiteral ctx = Ok out -> fresh out.
Proof. intros out H. unfold VisitAssemblyLiteral in H. inv_runs; exact I. Qed.

Lemma VisitAssemblySwitch_good (V : visitor) (ctx : Tree) :
  forall out, VisitAssemblySwitch V ctx = Ok out -> fresh out.
Proof. intros out H. unfold VisitAssemblySwitch in H. inv_runs; exact I. Qed.

Lemma VisitAssemblyCase_good (V : visitor) (ctx : Tree) :
  forall out, VisitAssemblyCase V ctx = Ok out -> fresh out.
Proof. intros out H. unfold VisitAssemblyCase in H. inv_runs; exact I. Qed.

Lemma VisitAssemblyLocalDefinition_good (V : visitor) (ctx : Tree) :
  forall out, VisitAssemblyLocalDefinition V ctx = Ok out -> fresh out.
Proof. intros out H. unfold VisitAssemblyLocalDefinition in H. inv_runs; exact I. Qed.

Lemma VisitAssemblyFunctionDefinition_good (V : visitor) (ctx : Tree) :
  forall out, VisitAssemblyFunctionDefinition V ctx = Ok out -> fresh out.
Proof. intros out H. unfold VisitAssemblyFunctionDefinition in H. inv_runs; exact I. Qed.

Lemma VisitAssemblyAssignment_good (V : visitor) (ctx : Tree) :
  forall out, VisitAssemblyAssignment V ctx = Ok out -> fresh out.
Proof. intros out H. unfold VisitAssemblyAssignment in H. inv_runs; exact I. Qed.

Lemma VisitAssemblyFor_good (V : visitor) (ctx : Tree) :
  forall out, VisitAssemblyFor V ctx = Ok out -> fresh out.
Proof. intros out H. unfold VisitAssemblyFor in H. inv_runs; exact I. Qed.

Lemma VisitAssemblyIf_good (V : visitor) (ctx : Tree) :
  forall out, VisitAssemblyIf V ctx = Ok out -> fresh out.
Proof. intros out H. unfold VisitAssemblyIf in H. inv_runs; exact I. Qed.

Lemma VisitAssemblyMember_good (V : visitor) (ctx : Tree) :
  forall out, VisitAssemblyMember V ctx = Ok out -> fresh out.
Proof. intros out H. unfold VisitAssemblyMember in H. inv_runs; exact I. Qed.

Lemma VisitEmitStatement_good (V : visitor) (ctx : Tree) :
  goodV V -> below ctx -> forall out, VisitEmitStatement V ctx = Ok out -> fresh out.
Proof. builder_good VisitEmitStatement. Qed.

Lemma VisitThrowStatement_good (V : visitor) (ctx : Tree) :
  goodV V -> below ctx -> forall out, VisitThrowStatement ctx = Ok out -> fresh out.
Proof. builder_good VisitThrowStatement. Qed.

Lemma VisitFunctionCall_good (V : visitor) (ctx : Tree) :
  goodV V -> below ctx -> forall out, VisitFunctionCall V ctx = Ok out -> fresh out.
Proof. builder_good VisitFunctionCall. Qed.

Lemma VisitCustomErrorDefinition_good (V : visitor) (ctx : Tree) :
  goodV V -> below ctx -> forall out, VisitCustomErrorDefinition V ctx = Ok out -> fresh out.
Proof. builder_good VisitCustomErrorDefinition. Qed.

Lemma VisitTryStatement_good (V : visitor) (ctx : Tree) :
  goodV V -> below ctx -> forall out, VisitTryStatement V ctx = Ok out -> fresh out.
Proof. builder_good VisitTryStatement. Qed.

Lemma VisitCatchClause_good (V : visitor) (ctx : Tree) :
  goodV V -> below ctx -> forall out, VisitCatchClause V ctx = Ok out -> fresh out.
Proof. builder_good VisitCatchClause. Qed.

Lemma VisitFileLevelConstant_good (V : visitor) (ctx : Tree) :
  goodV V -> below ctx -> forall out, VisitFileLevelConstant V ctx = Ok out -> fresh out.
Proof. builder_good VisitFileLevelConstant. Qed.

Lemma VisitUncheckedStatement_good (V : visitor) (ctx : Tree) :
  goodV V -> below ctx -> forall out, VisitUncheckedStatement V ctx = Ok out -> fresh out.
Proof. builder_good VisitUncheckedStatement. Qed.

Lemma VisitTypeDefinition_good (V : visitor) (ctx : Tree) :
  goodV V -> below ctx -> forall out, VisitTypeDefinition V ctx = Ok out -> fresh out.
Proof. builder_good VisitTypeDefinition. Qed.

Lemma VisitElementaryTypeName_good (V : visitor) (ctx : Tree) :
  goodV V -> below ctx -> forall out, VisitElementaryTypeName ctx = Ok out -> fresh out.
Proof. builder_good VisitElementaryTypeName. Qed.

Lemma VisitUserDefinedTypeName_good (V : visitor) (ctx : Tree) :
  goodV V -> below ctx -> forall out, VisitUserDefinedTypeName ctx = Ok out -> fresh out.
Proof. builder_good VisitUserDefinedTypeName. Qed.

Lemma VisitRevertStatement_good (V : visitor) (ctx : Tree) :
  goodV V -> below ctx -> forall out, VisitRevertStatement V ctx = Ok out -> fresh out.
Proof. builder_good VisitRevertStatement. Qed.

Create HintDb builders.

#[local] Hint Resolve
  VisitSourceUnit_good
  VisitPragmaDirective_good
  VisitContractDefinition_good
  VisitInheritanceSpecifier_good
  VisitContractPart_good
  VisitStructDefinition_good
  VisitVariableDeclaration_good
  VisitIdentifier_good
  VisitStateVariableDeclaration_good
  VisitFunctionDefinition_good
  VisitParameter_good
  VisitModifierInvocation_good
  VisitBlock_good
  VisitStatement_good
  VisitSimpleStatement_good
  VisitExpressionStatement_good
  VisitExpression_good
  VisitMapping_good
  VisitMappingKey_good
  VisitNameValueList_good
  VisitTupleExpression_good
  VisitTypeNameExpression_good
  VisitNumberLiteral_good
  VisitHexLiteral_good
  VisitPrimaryExpression_good
  VisitForStatement_good
  VisitVariableDeclarationStatement_good
  VisitWhileStatement_good
  VisitDoWhileStatement_good
  VisitIfStatement_good
  VisitEventDefinition_good
  VisitImportDirective_good
  VisitEnumDefinition_good
  VisitEnumValue_good
  VisitBreakStatement_good
  VisitContinueStatement_good
  VisitReturnStatement_good
  VisitModifierDefinition_good
  VisitOverrideSpecifier_good
  VisitFunctionTypeName_good
  VisitFunctionTypeParameter_good
  VisitUsingForDeclaration_good
  VisitTypeName_good
  VisitInlineAssemblyStatement_good
  VisitAssemblyBlock_good
  VisitAssemblyCall_good
  VisitAssemblyLiteral_good
  VisitAssemblySwitch_good
  VisitAssemblyCase_good
  VisitAssemblyLocalDefinition_good
  VisitAssemblyFunctionDefinition_good
  VisitAssemblyAssignment_good
  VisitAssemblyFor_good
  VisitAssemblyIf_good
  VisitAssemblyMember_good
  VisitEmitStatement_good
  VisitThrowStatement_good
  VisitFunctionCall_good
  VisitCustomErrorDefinition_good
  VisitTryStatement_good
  VisitCatchClause_good
  VisitFileLevelConstant_good
  VisitUncheckedStatement_good
  VisitTypeDefinition_good
  VisitElementaryTypeName_good
  VisitUserDefinedTypeName_good
  VisitRevertStatement_good : builders.

(** ** Dispatch *)

Lemma string_length_append (a b : string) :
  String.length (a ++ b) = String.length a + String.length b.
Proof. induction a as [|c a IH]; simpl; [reflexivity|now rewrite IH]. Qed.

Lemma substring_append_l (a b : string) : substring 0 (String.length a) (a ++ b) = a.
Proof. induction a as [|c a IH]; simpl; [now destruct b|now rewrite IH]. Qed.

Lemma substring_append_r (a b : string) (n : nat) :
  substring (String.length a) n (a ++ b) = substring 0 n b.
Proof. induction a as [|c a IH]; simpl; [reflexivity|exact IH]. Qed.

Lemma substring_all (s : string) : substring 0 (String.length s) s = s.
Proof. induction s as [|c s IH]; simpl; [reflexivity|now rewrite IH]. Qed.

Lemma TrimPrefix_solcparser (s : string) :
  TrimPrefix ("*solcparser." ++ s) "*solcparser." = s.
Proof.
  unfold TrimPrefix, HasPrefix.
  replace (prefix "*solcparser." ("*solcparser." ++ s)) with true
    by (simpl; now destruct s).
  simpl. rewrite Nat.sub_0_r. apply substring_all.
Qed.

Lemma TrimSuffix_Context (s : string) : TrimSuffix (s ++ "Context") "Context" = s.
Proof.
  unfold TrimSuffix, HasSuffix.
  rewrite string_length_append.
  replace (String.length s + String.length "Context" - String.length "Context")
    with (String.length s) by lia.
  rewrite substring_append_r, substring_append_l.
  replace (Nat.leb (String.length "Context") (String.length s + String.length "Context"))
    with true by (symmetry; apply Nat.leb_le; lia).
  reflexivity.
Qed.

Lemma Visit_step_Ctx (V : visitor) (rule : string) (cs : list Tree) :
  Visit_step V (Some (Ctx rule cs)) =
    match lookup ("Visit" ++ rule) (funcMap V) with
    | None => Panic ("BUG: visit not found " ++ "Visit" ++ rule)
    | Some fd =>
        output <- fd (Ctx rule cs) ;;
        match output with
        | ONil => Ok None
        | OOther => Panic runtimeError
        | ONode ii =>
            if negb (skipNode rule) then Ok (Some (SetTypeName ii rule)) else Ok (Some ii)
        end
    end.
Proof.
  unfold Visit_step, typeString.
  change (("*solcparser." ++ rule ++ "Context") =? "*antlr.TerminalNodeImpl") with false.
  cbv iota. cbv zeta.
  rewrite TrimPrefix_solcparser, TrimSuffix_Context. reflexivity.
Qed.

Lemma lookup_In {A : Type} (name : string) (m : list (string * A)) (v : A) :
  lookup name m = Some v -> In (name, v) m.
Proof.
  induction m as [|[k w] m IH]; simpl; intros H; [discriminate|].
  destruct (String.eqb_spec k name).
  - inversion H; subst. now left.
  - right. now apply IH.
Qed.


Lemma Visit_S (fuel : nat) (i : option Tree) :
  Visit (S fuel) i = Visit_step (Visit fuel) i.
Proof. reflexivity. Qed.

Lemma Visit_step_leaf (V : visitor) (t : Tree) (n : INode) :
  GetChildren t = [] -> ruleOf t = "" -> Visit_step V (Some t) <> Ok (Some n).
Proof.
  destruct t as [ty s|ty s|rule cs]; simpl; intros Hc Hr H; subst.
  - discriminate H.
  - vm_compute in H. discriminate H.
  - vm_compute in H. discriminate H.
Qed.



(* ================================================================== *)
(** * The fuel of [Visit] *)
(* ================================================================== *)

Lemma settled_refl {A : Type} (r : result A) : r <> OutOfFuel -> settled r r.
Proof. intros H. split; [reflexivity|exact H]. Qed.

Lemma settled_Ok {A : Type} (a : A) : settled (Ok a) (Ok a).
Proof. apply settled_refl. discriminate. Qed.

Lemma settled_Panic {A : Type} (msg : string) : settled (@Panic A msg) (Panic msg).
Proof. apply settled_refl. discriminate. Qed.

Lemma settled_bind {A B : Type} (m m' : result A) (k k' : A -> result B) :
  settled m m' -> (forall a, m = Ok a -> settled (k a) (k' a)) ->
  settled (bind m k) (bind m' k').
Proof.
  intros [<- Hm] Hk. destruct m as [a| |]; simpl.
  - now apply Hk.
  - apply settled_Panic.
  - now destruct Hm.
Qed.

Lemma settled_toText (i : option Tree) : settled (toText i) (toText i).
Proof. apply settled_refl. destruct i; discriminate. Qed.

Lemma settled_assertCtx (i : option Tree) : settled (assertCtx i) (assertCtx i).
Proof. apply settled_refl. destruct i; discriminate. Qed.

Lemma settled_index {A : Type} (l : list A) (i : nat) : settled (index l i) (index l i).
Proof. apply settled_refl. unfold index. destruct (nth_error l i); discriminate. Qed.

Lemma settled_withoutQuotes (s : string) : settled (withoutQuotes s) (withoutQuotes s).
Proof. apply settled_refl. unfold withoutQuotes. destruct (Nat.leb _ _); discriminate. Qed.

Lemma settled_expressionOfStatement (n : option INode) :
  settled (expressionOfStatement n) (expressionOfStatement n).
Proof.
  apply settled_refl. unfold expressionOfStatement.
  destruct n as [[node s]|]; [|discriminate]. destruct s; discriminate.
Qed.

Lemma settled_assertIdentifier (n : option INode) :
  settled (assertIdentifier n) (assertIdentifier n).
Proof.
  apply settled_refl. unfold assertIdentifier.
  destruct n as [[node s]|]; [|discriminate]. destruct s; discriminate.
Qed.

Lemma mapCommasToNulls_loop_fuel (tree : list Tree) :
  forall comma res, mapCommasToNulls_loop tree comma res <> OutOfFuel.
Proof.
  induction tree as [|c rest IH]; intros comma res; simpl.
  - destruct comma; discriminate.
  - destruct comma; destruct (GetText c =? ","); simpl; try apply IH. discriminate.
Qed.

Lemma settled_mapCommasToNulls (tree : list Tree) :
  settled (mapCommasToNulls tree) (mapCommasToNulls tree).
Proof.
  apply settled_refl. destruct tree; [discriminate|]. apply mapCommasToNulls_loop_fuel.
Qed.

Lemma settled_stringFragments (l : list Tree) :
  settled (mapM stringFragment l) (mapM stringFragment l).
Proof.
  apply settled_refl. induction l as [|x l IH]; simpl; [discriminate|].
  unfold stringFragment at 1. cbv zeta.
  match goal with |- context [withoutQuotes ?s] =>
    destruct (settled_withoutQuotes s) as [_ Hw]; destruct (withoutQuotes s) end;
    simpl; try discriminate; [|now destruct Hw].
  destruct (mapM stringFragment l); simpl; try discriminate. now destruct IH.
Qed.

(** ** Depth of the trees below a context *)

Lemma depth_child (rule : string) (cs : list Tree) (x : Tree) :
  In x cs -> depth x < depth (Ctx rule cs).
Proof.
  simpl. induction cs as [|c cs IH]; intros H; [contradiction|].
  destruct H as [->|H]; [lia|]. specialize (IH H). lia.
Qed.

Lemma depth_In (ctx x : Tree) : In x (GetChildren ctx) -> depth x < depth ctx.
Proof.
  destruct ctx as [ty s|ty s|rule cs]; [contradiction|contradiction|].
  exact (depth_child rule cs x).
Qed.

Lemma depth_typed (ctx : Tree) (r : string) (i : nat) (x : Tree) :
  GetTypedRuleContext ctx r i = Some x -> depth x < depth ctx.
Proof. intros H. apply typed_In in H. apply depth_In. tauto. Qed.

Lemma depth_getChild (ctx : Tree) (i : nat) (x : Tree) :
  GetChild ctx i = Some x -> depth x < depth ctx.
Proof. intros H. apply depth_In. now apply nth_error_In in H. Qed.

Lemma depth_children (ctx : Tree) (cs : list Tree) (d : nat) :
  GetChildren ctx = cs -> depth ctx <= d -> Forall (fun x => depth x < d) cs.
Proof.
  intros <- Hd. apply Forall_forall. intros x Hx. apply depth_In in Hx. lia.
Qed.

Lemma depth_typeds (ctx : Tree) (r : string) (d : nat) :
  depth ctx <= d -> Forall (fun x => depth x < d) (GetTypedRuleContexts ctx r).
Proof.
  intros Hd. apply Forall_forall. intros x Hx. apply filter_In in Hx.
  destruct Hx as [Hx _]. apply depth_In in Hx. lia.
Qed.

Lemma shallower_typed (ctx : Tree) (r : string) (i : nat) (d : nat) :
  depth ctx <= d -> shallower d (GetTypedRuleContext ctx r i).
Proof.
  intros Hd. destruct (GetTypedRuleContext ctx r i) eqn:E; simpl; [|exact I].
  apply depth_typed in E. lia.
Qed.

Lemma shallower_getChild (ctx : Tree) (i : nat) (d : nat) :
  depth ctx <= d -> shallower d (GetChild ctx i).
Proof.
  intros Hd. destruct (GetChild ctx i) eqn:E; simpl; [|exact I].
  apply depth_getChild in E. lia.
Qed.

(** The tactics of this part: [deepen] records how deep the trees in
    sight are, [shallow] proves that a visited tree is shallow enough,
    [local_step] follows two runs of a builder side by side. *)
Ltac deepen :=
  subst;
  repeat match goal with
  | F : Forall (fun x => depth x < _) (_ :: _) |- _ => inversion_clear F
  | H : GetTypedRuleContext ?c ?r ?i = Some ?x |- _ =>
      have_not (depth x < depth c); pose proof (depth_typed c r i x H)
  | H : GetChild ?c ?i = Some ?x |- _ =>
      have_not (depth x < depth c); pose proof (depth_getChild c i x H)
  | H : GetChildren ?c = ?x :: _ |- _ =>
      have_not (depth x < depth c);
      let F := fresh "F" in
      pose proof (depth_children c _ (depth c) H (le_n _)) as F;
      repeat match goal with
             | F' : Forall (fun x => depth x < _) (_ :: _) |- _ => inversion_clear F'
             end
  | H : GetTypedRuleContexts ?c ?r = ?x :: _ |- _ =>
      have_not (depth x < depth c);
      let F := fresh "F" in
      pose proof (depth_typeds c r (depth c) (le_n _)) as F; rewrite H in F;
      repeat match goal with
             | F' : Forall (fun x => depth x < _) (_ :: _) |- _ => inversion_clear F'
             end
  | H : index (GetTypedRuleContexts ?c ?r) ?i = Ok ?x |- _ =>
      have_not (depth x < depth c);
      let F := fresh "F" in
      pose proof (index_In _ i x H) as F;
      let F1 := fresh "F" in
      pose proof (depth_typeds c r (depth c) (le_n _)) as F1;
      rewrite Forall_forall in F1; pose proof (F1 x F); clear F1
  | Hl : Forall (fun x => depth x < ?d) ?l, H : index ?l ?i = Ok ?x |- _ =>
      have_not (depth x < d);
      let F := fresh "F" in
      pose proof (index_In l i x H) as F;
      rewrite Forall_forall in Hl; pose proof (Hl x F);
      rewrite <- Forall_forall in Hl
  end.

Ltac shallow :=
  match goal with
  | |- shallower _ (Some _) => simpl; lia
  | |- shallower _ None => exact I
  | |- shallower _ (GetTypedRuleContext _ _ _) => apply shallower_typed; lia
  | |- shallower _ (GetChild _ _) => apply shallower_getChild; lia
  | |- Forall _ (GetTypedRuleContexts _ _) => apply depth_typeds; lia
  | |- Forall _ (GetChildren _) => eapply depth_children; [reflexivity|lia]
  | |- Forall _ (sliceInner _ _) => apply Forall_sliceInner; shallow
  | |- Forall (optionAll _) ?childs =>
      match goal with
      | H : mapCommasToNulls ?t = Ok childs |- _ =>
          apply (mapCommasToNulls_Forall _ t childs); [shallow|exact H]
      end
  | |- _ <= _ => lia
  | |- _ < _ => lia
  | |- _ => assumption
  end.


Ltac local_leaf :=
  match goal with
  | |- settled (Ok _) (Ok _) => apply settled_Ok
  | |- settled (Panic _) (Panic _) => apply settled_Panic
  | |- settled (toText _) (toText _) => apply settled_toText
  | |- settled (assertCtx _) (assertCtx _) => apply settled_assertCtx
  | |- settled (index _ _) (index _ _) => apply settled_index
  | |- settled (withoutQuotes _) (withoutQuotes _) => apply settled_withoutQuotes
  | |- settled (expressionOfStatement _) (expressionOfStatement _) =>
      apply settled_expressionOfStatement
  | |- settled (assertIdentifier _) (assertIdentifier _) => apply settled_assertIdentifier
  | |- settled (mapCommasToNulls _) (mapCommasToNulls _) => apply settled_mapCommasToNulls
  | |- settled (mapM stringFragment _) (mapM stringFragment _) =>
      apply settled_stringFragments
  | HV : agreeBelow _ ?V ?V' |- settled (?V _) (?V' _) => apply HV; shallow
  end.

(** The loops of the builders are registered in [local_loop] as they are
    proved. *)
Ltac local_loop := fail.

Ltac local_step :=
  cbv zeta;
  first
  [ local_leaf
  | local_loop
  | match goal with
    | |- settled (bind _ _) (bind _ _) =>
        apply settled_bind;
        [|let a := fresh "a" in let Ha := fresh "Ha" in intros a Ha; inv_runs; deepen]
    | |- settled (match ?x with _ => _ end) (match ?x with _ => _ end) =>
        destruct x eqn:?; deepen
    end ].

Ltac local_steps := repeat local_step.

Section Locality.

Variables V V' : visitor.
Variable d : nat.
Hypothesis HV : agreeBelow d V V'.

Lemma visitAll_local (l : list Tree) :
  Forall (fun x => depth x < d) l -> settled (visitAll V l) (visitAll V' l).
Proof.
  intros Hl. unfold visitAll.
  induction l as [|x l IH]; simpl; [apply settled_Ok|].
  inversion_clear Hl. local_steps. now apply IH.
Qed.

Ltac local_loop ::=
  match goal with
  | |- settled (visitAll _ _) (visitAll _ _) => apply visitAll_local; shallow
  end.

Lemma VisitParameterList_local (ctx : Tree) :
  depth ctx <= d -> settled (VisitParameterList V ctx) (VisitParameterList V' ctx).
Proof. intros Hd. unfold VisitParameterList. local_steps. Qed.

Lemma VisitReturnParameters_local (ctx : Tree) :
  depth ctx <= d -> settled (VisitReturnParameters V ctx) (VisitReturnParameters V' ctx).
Proof.
  intros Hd. unfold VisitReturnParameters. local_steps.
  apply VisitParameterList_local. lia.
Qed.

Lemma overrideOf_local (overSpec : list Tree) :
  Forall (fun x => depth x < d) overSpec ->
  settled (overrideOf V overSpec) (overrideOf V' overSpec).
Proof. intros Hl. unfold overrideOf. local_steps. Qed.

Lemma functionDescriptorSwitch_local (ctx modList descr : Tree) (keyword : string) :
  depth ctx <= d ->
  settled (functionDescriptorSwitch V ctx modList descr keyword)
          (functionDescriptorSwitch V' ctx modList descr keyword).
Proof.
  intros Hd. unfold functionDescriptorSwitch. local_steps.
  all: apply VisitReturnParameters_local; lia.
Qed.

Lemma nameValueLoop_local (l : list Tree) :
  Forall (fun x => depth x < d) l -> settled (nameValueLoop V l) (nameValueLoop V' l).
Proof.
  intros Hl. induction l as [|p l IH]; simpl; [apply settled_Ok|].
  inversion_clear Hl. specialize (IH H0). local_steps; exact IH.
Qed.

Lemma nameValueListLoop_local (l : list Tree) :
  Forall (fun x => depth x < d) l ->
  settled (nameValueListLoop V l) (nameValueListLoop V' l).
Proof.
  intros Hl. induction l as [|p l IH]; simpl; [apply settled_Ok|].
  inversion_clear Hl. specialize (IH H0). local_steps; exact IH.
Qed.

Lemma visitSlots_local (childs : list (option Tree)) :
  Forall (optionAll (fun x => depth x < d)) childs ->
  settled (mapM (visitSlot V) childs) (mapM (visitSlot V') childs).
Proof.
  intros Hl. induction childs as [|c l IH]; simpl; [apply settled_Ok|].
  inversion_clear Hl. specialize (IH H0). unfold visitSlot at 1 3.
  destruct c as [c|]; simpl in H; local_steps; exact IH.
Qed.

Lemma buildIdentifierList_loop_local (childs : list (option Tree)) (identifiers : list Tree) :
  Forall (fun x => depth x < d) identifiers ->
  forall indx,
  settled (buildIdentifierList_loop V childs identifiers indx)
          (buildIdentifierList_loop V' childs identifiers indx).
Proof.
  intros Hl. induction childs as [|c l IH]; intros indx; simpl; [apply settled_Ok|].
  destruct c as [c|]; local_steps; apply IH.
Qed.

Lemma buildIdentifierList_local (ctx : Tree) :
  depth ctx <= d -> settled (buildIdentifierList V ctx) (buildIdentifierList V' ctx).
Proof.
  intros Hd. unfold buildIdentifierList. local_steps.
  apply buildIdentifierList_loop_local. shallow.
Qed.

Lemma buildVariableDeclarationList_loop_local (childs : list (option Tree))
  (variableDeclarations : list Tree) :
  Forall (fun x => depth x < d) variableDeclarations ->
  forall indx,
  settled (buildVariableDeclarationList_loop V childs variableDeclarations indx)
          (buildVariableDeclarationList_loop V' childs variableDeclarations indx).
Proof.
  intros Hl. induction childs as [|c l IH]; intros indx; simpl; [apply settled_Ok|].
  destruct c as [c|]; local_steps; apply IH.
Qed.

Lemma buildVariableDeclarationList_local (ctx : Tree) :
  depth ctx <= d ->
  settled (buildVariableDeclarationList V ctx) (buildVariableDeclarationList V' ctx).
Proof.
  intros Hd. unfold buildVariableDeclarationList. local_steps.
  apply buildVariableDeclarationList_loop_local. shallow.
Qed.

Lemma eventParameterLoop_local (paramsList : list Tree) :
  Forall (fun x => depth x < d) paramsList ->
  settled (eventParameterLoop V paramsList) (eventParameterLoop V' paramsList).
Proof.
  intros Hl. induction paramsList as [|p l IH]; simpl; [apply settled_Ok|].
  inversion_clear Hl. specialize (IH H0). local_steps; exact IH.
Qed.

Lemma importDeclarationLoop_local (importDecl : list Tree) :
  Forall (fun x => depth x < d) importDecl ->
  settled (importDeclarationLoop V importDecl) (importDeclarationLoop V' importDecl).
Proof.
  intros Hl. induction importDecl as [|p l IH]; simpl; [apply settled_Ok|].
  inversion_clear Hl. specialize (IH H0). local_steps; exact IH.
Qed.

End Locality.

Ltac local_loop ::=
  match goal with
  | HV : agreeBelow ?d ?V ?V' |- settled (visitAll ?V _) (visitAll ?V' _) =>
      apply (visitAll_local V V' d HV); shallow
  | HV : agreeBelow ?d ?V ?V' |- settled (VisitParameterList ?V _) _ =>
      apply (VisitParameterList_local V V' d HV); shallow
  | HV : agreeBelow ?d ?V ?V' |- settled (VisitReturnParameters ?V _) _ =>
      apply (VisitReturnParameters_local V V' d HV); shallow
  | HV : agreeBelow ?d ?V ?V' |- settled (overrideOf ?V _) _ =>
      apply (overrideOf_local V V' d HV); shallow
  | HV : agreeBelow ?d ?V ?V' |- settled (functionDescriptorSwitch ?V _ _ _ _) _ =>
      apply (functionDescriptorSwitch_local V V' d HV); shallow
  | HV : agreeBelow ?d ?V ?V' |- settled (nameValueLoop ?V _) _ =>
      apply (nameValueLoop_local V V' d HV); shallow
  | HV : agreeBelow ?d ?V ?V' |- settled (nameValueListLoop ?V _) _ =>
      apply (nameValueListLoop_local V V' d HV); shallow
  | HV : agreeBelow ?d ?V ?V' |- settled (mapM (visitSlot ?V) _) _ =>
      apply (visitSlots_local V V' d HV); shallow
  | HV : agreeBelow ?d ?V ?V' |- settled (buildIdentifierList ?V _) _ =>
      apply (buildIdentifierList_local V V' d HV); shallow
  | HV : agreeBelow ?d ?V ?V' |- settled (buildVariableDeclarationList ?V _) _ =>
      apply (buildVariableDeclarationList_local V V' d HV); shallow
  | HV : agreeBelow ?d ?V ?V' |- settled (eventParameterLoop ?V _) _ =>
      apply (eventParameterLoop_local V V' d HV); shallow
  | HV : agreeBelow ?d ?V ?V' |- settled (importDeclarationLoop ?V _) _ =>
      apply (importDeclarationLoop_local V V' d HV); shallow
  end.

Ltac builder_local f := intros HV; unfold f; local_steps.

Lemma VisitSourceUnit_local (V V' : visitor) (ctx : Tree) :
  agreeBelow (depth ctx) V V' -> settled (VisitSourceUnit V ctx) (VisitSourceUnit V' ctx).
Proof. builder_local VisitSourceUnit. Qed.

Lemma VisitPragmaDirective_local (ctx : Tree) : settled (VisitPragmaDirective ctx) (VisitPragmaDirective ctx).
Proof. unfold VisitPragmaDirective. local_steps. Qed.

Lemma VisitContractDefinition_local (V V' : visitor) (ctx : Tree) :
  agreeBelow (depth ctx) V V' -> settled (VisitContractDefinition V ctx) (VisitContractDefinition V' ctx).
Proof. builder_local VisitContractDefinition. Qed.

Lemma VisitInheritanceSpecifier_local (V V' : visitor) (ctx : Tree) :
  agreeBelow (depth ctx) V V' -> settled (VisitInheritanceSpecifier V ctx) (VisitInheritanceSpecifier V' ctx).
Proof. builder_local VisitInheritanceSpecifier. Qed.

Lemma VisitContractPart_local (V V' : visitor) (ctx : Tree) :
  agreeBelow (depth ctx) V V' -> settled (VisitContractPart V ctx) (VisitContractPart V' ctx).
Proof. builder_local VisitContractPart. Qed.

Lemma VisitStructDefinition_local (V V' : visitor) (ctx : Tree) :
  agreeBelow (depth ctx) V V' -> settled (VisitStructDefinition V ctx) (VisitStructDefinition V' ctx).
Proof. builder_local VisitStructDefinition. Qed.

Lemma VisitVariableDeclaration_local (V V' : visitor) (ctx : Tree) :
  agreeBelow (depth ctx) V V' -> settled (VisitVariableDeclaration V ctx) (VisitVariableDeclaration V' ctx).
Proof. builder_local VisitVariableDeclaration. Qed.

Lemma VisitIdentifier_local (ctx : Tree) : settled (VisitIdentifier ctx) (VisitIdentifier ctx).
Proof. unfold VisitIdentifier. local_steps. Qed.

Lemma VisitStateVariableDeclaration_local (V V' : visitor) (ctx : Tree) :
  agreeBelow (depth ctx) V V' -> settled (VisitStateVariableDeclaration V ctx) (VisitStateVariableDeclaration V' ctx).
Proof. builder_local VisitStateVariableDeclaration. Qed.

Lemma VisitFunctionDefinition_local (V V' : visitor) (ctx : Tree) :
  agreeBelow (depth ctx) V V' -> settled (VisitFunctionDefinition V ctx) (VisitFunctionDefinition V' ctx).
Proof. builder_local VisitFunctionDefinition. Qed.

Lemma VisitParameter_local (V V' : visitor) (ctx : Tree) :
  agreeBelow (depth ctx) V V' -> settled (VisitParameter V ctx) (VisitParameter V' ctx).
Proof. builder_local VisitParameter. Qed.

Lemma VisitModifierInvocation_local (V V' : visitor) (ctx : Tree) :
  agreeBelow (depth ctx) V V' -> settled (VisitModifierInvocation V ctx) (VisitModifierInvocation V' ctx).
Proof. builder_local VisitModifierInvocation. Qed.

Lemma VisitBlock_local (V V' : visitor) (ctx : Tree) :
  agreeBelow (depth ctx) V V' -> settled (VisitBlock V ctx) (VisitBlock V' ctx).
Proof. builder_local VisitBlock. Qed.

Lemma VisitStatement_local (V V' : visitor) (ctx : Tree) :
  agreeBelow (depth ctx) V V' -> settled (VisitStatement V ctx) (VisitStatement V' ctx).
Proof. builder_local VisitStatement. Qed.

Lemma VisitSimpleStatement_local (V V' : visitor) (ctx : Tree) :
  agreeBelow (depth ctx) V V' -> settled (VisitSimpleStatement V ctx) (VisitSimpleStatement V' ctx).
Proof. builder_local VisitSimpleStatement. Qed.

Lemma VisitExpressionStatement_local (V V' : visitor) (ctx : Tree) :
  agreeBelow (depth ctx) V V' -> settled (VisitExpressionStatement V ctx) (VisitExpressionStatement V' ctx).
Proof. builder_local VisitExpressionStatement. Qed.

Lemma VisitExpression_local (V V' : visitor) (ctx : Tree) :
  agreeBelow (depth ctx) V V' -> settled (VisitExpression V ctx) (VisitExpression V' ctx).
Proof. builder_local VisitExpression. Qed.

Lemma VisitMapping_local (V V' : visitor) (ctx : Tree) :
  agreeBelow (depth ctx) V V' -> settled (VisitMapping V ctx) (VisitMapping V' ctx).
Proof. builder_local VisitMapping. Qed.

Lemma VisitMappingKey_local (V V' : visitor) (ctx : Tree) :
  agreeBelow (depth ctx) V V' -> settled (VisitMappingKey V ctx) (VisitMappingKey V' ctx).
Proof. builder_local VisitMappingKey. Qed.

Lemma VisitNameValueList_local (V V' : visitor) (ctx : Tree) :
  agreeBelow (depth ctx) V V' -> settled (VisitNameValueList V ctx) (VisitNameValueList V' ctx).
Proof. builder_local VisitNameValueList. Qed.

Lemma VisitTupleExpression_local (V V' : visitor) (ctx : Tree) :
  agreeBelow (depth ctx) V V' -> settled (VisitTupleExpression V ctx) (VisitTupleExpression V' ctx).
Proof. builder_local VisitTupleExpression. Qed.

Lemma VisitTypeNameExpression_local (V V' : visitor) (ctx : Tree) :
  agreeBelow (depth ctx) V V' -> settled (VisitTypeNameExpression V ctx) (VisitTypeNameExpression V' ctx).
Proof. builder_local VisitTypeNameExpression. Qed.

Lemma VisitNumberLiteral_local (ctx : Tree) : settled (VisitNumberLiteral ctx) (VisitNumberLiteral ctx).
Proof. unfold VisitNumberLiteral. local_steps. Qed.

Lemma VisitHexLiteral_local (ctx : Tree) : settled (VisitHexLiteral ctx) (VisitHexLiteral ctx).
Proof. unfold VisitHexLiteral. local_steps. Qed.

Lemma VisitPrimaryExpression_local (V V' : visitor) (ctx : Tree) :
  agreeBelow (depth ctx) V V' -> settled (VisitPrimaryExpression V ctx) (VisitPrimaryExpression V' ctx).
Proof. builder_local VisitPrimaryExpression. Qed.

Lemma VisitForStatement_local (V V' : visitor) (ctx : Tree) :
  agreeBelow (depth ctx) V V' -> settled (VisitForStatement V ctx) (VisitForStatement V' ctx).
Proof. builder_local VisitForStatement. Qed.

Lemma VisitVariableDeclarationStatement_local (V V' : visitor) (ctx : Tree) :
  agreeBelow (depth ctx) V V' -> settled (VisitVariableDeclarationStatement V ctx) (VisitVariableDeclarationStatement V' ctx).
Proof. builder_local VisitVariableDeclarationStatement. Qed.

Lemma VisitWhileStatement_local (V V' : visitor) (ctx : Tree) :
  agreeBelow (depth ctx) V V' -> settled (VisitWhileStatement V ctx) (VisitWhileStatement V' ctx).
Proof. builder_local VisitWhileStatement. Qed.

Lemma VisitDoWhileStatement_local (V V' : visitor) (ctx : Tree) :
  agreeBelow (depth ctx) V V' -> settled (VisitDoWhileStatement V ctx) (VisitDoWhileStatement V' ctx).
Proof. builder_local VisitDoWhileStatement. Qed.

Lemma VisitIfStatement_local (V V' : visitor) (ctx : Tree) :
  agreeBelow (depth ctx) V V' -> settled (VisitIfStatement V ctx) (VisitIfStatement V' ctx).
Proof. builder_local VisitIfStatement. Qed.

Lemma VisitEventDefinition_local (V V' : visitor) (ctx : Tree) :
  agreeBelow (depth ctx) V V' -> settled (VisitEventDefinition V ctx) (VisitEventDefinition V' ctx).
Proof. builder_local VisitEventDefinition. Qed.

Lemma VisitImportDirective_local (V V' : visitor) (ctx : Tree) :
  agreeBelow (depth ctx) V V' -> settled (VisitImportDirective V ctx) (VisitImportDirective V' ctx).
Proof. builder_local VisitImportDirective. Qed.

Lemma VisitEnumDefinition_local (V V' : visitor) (ctx : Tree) :
  agreeBelow (depth ctx) V V' -> settled (VisitEnumDefinition V ctx) (VisitEnumDefinition V' ctx).
Proof. builder_local VisitEnumDefinition. Qed.

Lemma VisitEnumValue_local (ctx : Tree) : settled (VisitEnumValue ctx) (VisitEnumValue ctx).
Proof. unfold VisitEnumValue. local_steps. Qed.

Lemma VisitBreakStatement_local (ctx : Tree) : settled (VisitBreakStatement ctx) (VisitBreakStatement ctx).
Proof. unfold VisitBreakStatement. local_steps. Qed.

Lemma VisitContinueStatement_local (ctx : Tree) : settled (VisitContinueStatement ctx) (VisitContinueStatement ctx).
Proof. unfold VisitContinueStatement. local_steps. Qed.

Lemma VisitReturnStatement_local (V V' : visitor) (ctx : Tree) :
  agreeBelow (depth ctx) V V' -> settled (VisitReturnStatement V ctx) (VisitReturnStatement V' ctx).
Proof. builder_local VisitReturnStatement. Qed.

Lemma VisitModifierDefinition_local (V V' : visitor) (ctx : Tree) :
  agreeBelow (depth ctx) V V' -> settled (VisitModifierDefinition V ctx) (VisitModifierDefinition V' ctx).
Proof. builder_local VisitModifierDefinition. Qed.

Lemma VisitOverrideSpecifier_local (ctx : Tree) : settled (VisitOverrideSpecifier ctx) (VisitOverrideSpecifier ctx).
Proof. unfold VisitOverrideSpecifier. local_steps. Qed.

Lemma VisitFunctionTypeName_local (V V' : visitor) (ctx : Tree) :
  agreeBelow (depth ctx) V V' -> settled (VisitFunctionTypeName V ctx) (VisitFunctionTypeName V' ctx).
Proof. builder_local VisitFunctionTypeName. Qed.

Lemma VisitFunctionTypeParameter_local (V V' : visitor) (ctx : Tree) :
  agreeBelow (depth ctx) V V' -> settled (VisitFunctionTypeParameter V ctx) (VisitFunctionTypeParameter V' ctx).
Proof. builder_local VisitFunctionTypeParameter. Qed.

Lemma VisitUsingForDeclaration_local (V V' : visitor) (ctx : Tree) :
  agreeBelow (depth ctx) V V' -> settled (VisitUsingForDeclaration V ctx) (VisitUsingForDeclaration V' ctx).
Proof. builder_local VisitUsingForDeclaration. Qed.

Lemma VisitTypeName_local (V V' : visitor) (ctx : Tree) :
  agreeBelow (depth ctx) V V' -> settled (VisitTypeName V ctx) (VisitTypeName V' ctx).
Proof. builder_local VisitTypeName. Qed.

Lemma VisitInlineAssemblyStatement_local (V V' : visitor) (ctx : Tree) :
  agreeBelow (depth ctx) V V' -> settled (VisitInlineAssemblyStatement V ctx) (VisitInlineAssemblyStatement V' ctx).
Proof. builder_local VisitInlineAssemblyStatement. Qed.

Lemma VisitAssemblyBlock_local (V V' : visitor) (ctx : Tree) :
  agreeBelow (depth ctx) V V' -> settled (VisitAssemblyBlock V ctx) (VisitAssemblyBlock V' ctx).
Proof. builder_local VisitAssemblyBlock. Qed.

Lemma VisitAssemblyItem_local (V V' : visitor) (ctx : Tree) :
  agreeBelow (depth ctx) V V' -> settled (VisitAssemblyItem V ctx) (VisitAssemblyItem V' ctx).
Proof. builder_local VisitAssemblyItem. Qed.

Lemma VisitAssemblyExpression_local (V V' : visitor) (ctx : Tree) :
  agreeBelow (depth ctx) V V' -> settled (VisitAssemblyExpression V ctx) (VisitAssemblyExpression V' ctx).
Proof. builder_local VisitAssemblyExpression. Qed.

Lemma VisitAssemblyCall_local (V V' : visitor) (ctx : Tree) :
  agreeBelow (depth ctx) V V' -> settled (VisitAssemblyCall V ctx) (VisitAssemblyCall V' ctx).
Proof. builder_local VisitAssemblyCall. Qed.

Lemma VisitAssemblyLiteral_local (ctx : Tree) : settled (VisitAssemblyLiteral ctx) (VisitAssemblyLiteral ctx).
Proof. unfold VisitAssemblyLiteral. local_steps. Qed.

Lemma VisitAssemblySwitch_local (V V' : visitor) (ctx : Tree) :
  agreeBelow (depth ctx) V V' -> settled (VisitAssemblySwitch V ctx) (VisitAssemblySwitch V' ctx).
Proof. builder_local VisitAssemblySwitch. Qed.

Lemma VisitAssemblyCase_local (V V' : visitor) (ctx : Tree) :
  agreeBelow (depth ctx) V V' -> settled (VisitAssemblyCase V ctx) (VisitAssemblyCase V' ctx).
Proof. builder_local VisitAssemblyCase. Qed.

Lemma VisitAssemblyLocalDefinition_local (V V' : visitor) (ctx : Tree) :
  agreeBelow (depth ctx) V V' -> settled (VisitAssemblyLocalDefinition V ctx) (VisitAssemblyLocalDefinition V' ctx).
Proof. builder_local VisitAssemblyLocalDefinition. Qed.

Lemma VisitAssemblyFunctionDefinition_local (V V' : visitor) (ctx : Tree) :
  agreeBelow (depth ctx) V V' -> settled (VisitAssemblyFunctionDefinition V ctx) (VisitAssemblyFunctionDefinition V' ctx).
Proof. builder_local VisitAssemblyFunctionDefinition. Qed.

Lemma VisitAssemblyAssignment_local (V V' : visitor) (ctx : Tree) :
  agreeBelow (depth ctx) V V' -> settled (VisitAssemblyAssignment V ctx) (VisitAssemblyAssignment V' ctx).
Proof. builder_local VisitAssemblyAssignment. Qed.

Lemma VisitAssemblyFor_local (V V' : visitor) (ctx : Tree) :
  agreeBelow (depth ctx) V V' -> settled (VisitAssemblyFor V ctx) (VisitAssemblyFor V' ctx).
Proof. builder_local VisitAssemblyFor. Qed.

Lemma VisitAssemblyIf_local (V V' : visitor) (ctx : Tree) :
  agreeBelow (depth ctx) V V' -> settled (VisitAssemblyIf V ctx) (VisitAssemblyIf V' ctx).
Proof. builder_local VisitAssemblyIf. Qed.

Lemma VisitAssemblyMember_local (V V' : visitor) (ctx : Tree) :
  agreeBelow (depth ctx) V V' -> settled (VisitAssemblyMember V ctx) (VisitAssemblyMember V' ctx).
Proof. builder_local VisitAssemblyMember. Qed.

Lemma VisitEmitStatement_local (V V' : visitor) (ctx : Tree) :
  agreeBelow (depth ctx) V V' -> settled (VisitEmitStatement V ctx) (VisitEmitStatement V' ctx).
Proof. builder_local VisitEmitStatement. Qed.

Lemma VisitThrowStatement_local (ctx : Tree) : settled (VisitThrowStatement ctx) (VisitThrowStatement ctx).
Proof. unfold VisitThrowStatement. local_steps. Qed.

Lemma VisitFunctionCall_local (V V' : visitor) (ctx : Tree) :
  agreeBelow (depth ctx) V V' -> settled (VisitFunctionCall V ctx) (VisitFunctionCall V' ctx).
Proof. builder_local VisitFunctionCall. Qed.

Lemma VisitCustomErrorDefinition_local (V V' : visitor) (ctx : Tree) :
  agreeBelow (depth ctx) V V' -> settled (VisitCustomErrorDefinition V ctx) (VisitCustomErrorDefinition V' ctx).
Proof. builder_local VisitCustomErrorDefinition. Qed.

Lemma VisitTryStatement_local (V V' : visitor) (ctx : Tree) :
  agreeBelow (depth ctx) V V' -> settled (VisitTryStatement V ctx) (VisitTryStatement V' ctx).
Proof. builder_local VisitTryStatement. Qed.

Lemma VisitCatchClause_local (V V' : visitor) (ctx : Tree) :
  agreeBelow (depth ctx) V V' -> settled (VisitCatchClause V ctx) (VisitCatchClause V' ctx).
Proof. builder_local VisitCatchClause. Qed.

Lemma VisitFileLevelConstant_local (V V' : visitor) (ctx : Tree) :
  agreeBelow (depth ctx) V V' -> settled (VisitFileLevelConstant V ctx) (VisitFileLevelConstant V' ctx).
Proof. builder_local VisitFileLevelConstant. Qed.

Lemma VisitUncheckedStatement_local (V V' : visitor) (ctx : Tree) :
  agreeBelow (depth ctx) V V' -> settled (VisitUncheckedStatement V ctx) (VisitUncheckedStatement V' ctx).
Proof. builder_local VisitUncheckedStatement. Qed.

Lemma VisitTypeDefinition_local (V V' : visitor) (ctx : Tree) :
  agreeBelow (depth ctx) V V' -> settled (VisitTypeDefinition V ctx) (VisitTypeDefinition V' ctx).
Proof. builder_local VisitTypeDefinition. Qed.

Lemma VisitElementaryTypeName_local (ctx : Tree) : settled (VisitElementaryTypeName ctx) (VisitElementaryTypeName ctx).
Proof. unfold VisitElementaryTypeName. local_steps. Qed.

Lemma VisitUserDefinedTypeName_local (ctx : Tree) : settled (VisitUserDefinedTypeName ctx) (VisitUserDefinedTypeName ctx).
Proof. unfold VisitUserDefinedTypeName. local_steps. Qed.

Lemma VisitRevertStatement_local (V V' : visitor) (ctx : Tree) :
  agreeBelow (depth ctx) V V' -> settled (VisitRevertStatement V ctx) (VisitRevertStatement V' ctx).
Proof. builder_local VisitRevertStatement. Qed.

Create HintDb locals.

#[local] Hint Resolve
  VisitSourceUnit_local
  VisitPragmaDirective_local
  VisitContractDefinition_local
  VisitInheritanceSpecifier_local
  VisitContractPart_local
  VisitStructDefinition_local
  VisitVariableDeclaration_local
  VisitIdentifier_local
  VisitStateVariableDeclaration_local
  VisitFunctionDefinition_local
  VisitParameter_local
  VisitModifierInvocation_local
  VisitBlock_local
  VisitStatement_local
  VisitSimpleStatement_local
  VisitExpressionStatement_local
  VisitExpression_local
  VisitMapping_local
  VisitMappingKey_local
  VisitNameValueList_local
  VisitTupleExpression_local
  VisitTypeNameExpression_local
  VisitNumberLiteral_local
  VisitHexLiteral_local
  VisitPrimaryExpression_local
  VisitForStatement_local
  VisitVariableDeclarationStatement_local
  VisitWhileStatement_local
  VisitDoWhileStatement_local
  VisitIfStatement_local
  VisitEventDefinition_local
  VisitImportDirective_local
  VisitEnumDefinition_local
  VisitEnumValue_local
  VisitBreakStatement_local
  VisitContinueStatement_local
  VisitReturnStatement_local
  VisitModifierDefinition_local
  VisitOverrideSpecifier_local
  VisitFunctionTypeName_local
  VisitFunctionTypeParameter_local
  VisitUsingForDeclaration_local
  VisitTypeName_local
  VisitInlineAssemblyStatement_local
  VisitAssemblyBlock_local
  VisitAssemblyItem_local
  VisitAssemblyExpression_local
  VisitAssemblyCall_local
  VisitAssemblyLiteral_local
  VisitAssemblySwitch_local
  VisitAssemblyCase_local
  VisitAssemblyLocalDefinition_local
  VisitAssemblyFunctionDefinition_local
  VisitAssemblyAssignment_local
  VisitAssemblyFor_local
  VisitAssemblyIf_local
  VisitAssemblyMember_local
  VisitEmitStatement_local
  VisitThrowStatement_local
  VisitFunctionCall_local
  VisitCustomErrorDefinition_local
  VisitTryStatement_local
  VisitCatchClause_local
  VisitFileLevelConstant_local
  VisitUncheckedStatement_local
  VisitTypeDefinition_local
  VisitElementaryTypeName_local
  VisitUserDefinedTypeName_local
  VisitRevertStatement_local : locals.

(** The two tables of two visitors that agree below a context hold the
    same names, and their builders run alike on the context. *)
Lemma funcMap_local (V V' : visitor) (ctx : Tree) (name : string) :
  agreeBelow (depth ctx) V V' ->
  match lookup name (funcMap V), lookup name (funcMap V') with
  | Some fd, Some fd' => settled (fd ctx) (fd' ctx)
  | None, None => True
  | _, _ => False
  end.
Proof.
  intros HV. unfold funcMap. cbn [lookup].
  repeat (match goal with |- context [(?k =? name)%string] => destruct (k =? name)%string end;
          [solve [auto with locals | local_steps] |]).
  exact I.
Qed.

Lemma Visit_step_Error (V : visitor) (ty s : string) :
  Visit_step V (Some (ErrorNodeImpl ty s)) =
  Panic "BUG: visit not found Visit*antlr.ErrorNodeImpl".
Proof. reflexivity. Qed.

Lemma Visit_nil (fuel : nat) : Visit (S fuel) None = Panic runtimeError.
Proof. reflexivity. Qed.

(** Runs of [Visit] with enough fuel agree and do not run out of it. *)
Lemma Visit_settled (fuel : nat) :
  forall (fuel' : nat) (t : Tree),
    depth t < fuel -> depth t < fuel' ->
    settled (Visit fuel (Some t)) (Visit fuel' (Some t)).
Proof.
  induction fuel as [|g IH]; intros fuel' t Hf Hf'; [lia|].
  destruct fuel' as [|g']; [lia|].
  destruct t as [ty s|ty s|rule cs].
  - change (settled (Ok None : result (option INode)) (Ok None)). apply settled_Ok.
  - rewrite !Visit_S, !Visit_step_Error. apply settled_Panic.
  - rewrite !Visit_S, !Visit_step_Ctx.
    assert (HV : agreeBelow (depth (Ctx rule cs)) (Visit g) (Visit g')).
    { assert (H1 : 1 <= depth (Ctx rule cs)) by (simpl; lia).
      intros [x|] Hx.
      - change (depth x < depth (Ctx rule cs)) in Hx. apply IH; lia.
      - destruct g as [|g]; [lia|]. destruct g' as [|g']; [lia|].
        rewrite !Visit_nil. apply settled_Panic. }
    pose proof (funcMap_local (Visit g) (Visit g') (Ctx rule cs) ("Visit" ++ rule) HV) as L.
    destruct (lookup ("Visit" ++ rule) (funcMap (Visit g))) as [fd|];
      destruct (lookup ("Visit" ++ rule) (funcMap (Visit g'))) as [fd'|];
      try contradiction.
    + apply settled_bind; [exact L|]. intros out _.
      apply settled_refl. destruct out; try discriminate.
      destruct (negb (skipNode rule)); discriminate.
    + apply settled_Panic.
Qed.

(** [Visit] returns or panics on every tree once the fuel exceeds the
    depth of the tree. *)
Theorem Visit_total (fuel : nat) (t : Tree) :
  depth t < fuel -> Visit fuel (Some t) <> OutOfFuel.
Proof. intros H. exact (proj2 (Visit_settled fuel fuel t H H)). Qed.

(** More fuel than the depth of the tree does not change the run: it is
    the run of [VisitTree]. *)
Theorem Visit_fuel (fuel : nat) (t : Tree) :
  depth t < fuel -> Visit fuel (Some t) = VisitTree t.
Proof.
  intros H. unfold VisitTree.
  exact (proj1 (Visit_settled fuel (S (depth t)) t H (Nat.lt_succ_diag_r _))).
Qed.

Theorem VisitTree_total (t : Tree) : VisitTree t <> OutOfFuel.
Proof. apply Visit_total. lia. Qed.


(* ================================================================== *)
(** * The theorems at the sample trees *)
(* ================================================================== *)

Import Sample.

(** C1 at [a[:]], [a[7]], [a[:20]], [a[3:]] and [a[0:4]]. *)
Lemma VisitExpression_index_forms_witness :
  VisitExpression (Visit 3) rangeNone =
    Ok (ONode (Boxed (NodeOf "IndexRangeAccess")
      (IndexRangeAccess (ANode (Boxed (mkNode "Identifier" 1) (Identifier "a"))) ANil ANil))) /\
  VisitExpression (Visit 3) indexSeven =
    Ok (ONode (Boxed (NodeOf "IndexAccess")
      (IndexAccess (ANode (Boxed (mkNode "Identifier" 1) (Identifier "a")))
         (ANode (Boxed (mkNode "NumberLiteral" 1) (NumberLiteral "7" ANil)))))) /\
  VisitExpression (Visit 3) rangeEnd =
    Ok (ONode (Boxed (NodeOf "IndexRangeAccess")
      (IndexRangeAccess (ANode (Boxed (mkNode "Identifier" 1) (Identifier "a"))) ANil
         (ANode (Boxed (mkNode "NumberLiteral" 1) (NumberLiteral "20" ANil)))))) /\
  VisitExpression (Visit 3) rangeStart =
    Ok (ONode (Boxed (NodeOf "IndexRangeAccess")
      (IndexRangeAccess (ANode (Boxed (mkNode "Identifier" 1) (Identifier "a")))
         (ANode (Boxed (mkNode "NumberLiteral" 1) (NumberLiteral "3" ANil))) ANil))) /\
  VisitExpression (Visit 3) rangeBoth =
    Ok (ONode (Boxed (NodeOf "IndexRangeAccess")
      (IndexRangeAccess (ANode (Boxed (mkNode "Identifier" 1) (Identifier "a")))
         (ANode (Boxed (mkNode "NumberLiteral" 1) (NumberLiteral "0" ANil)))
         (ANode (Boxed (mkNode "NumberLiteral" 1) (NumberLiteral "4" ANil)))))).
Proof.
  destruct (VisitExpression_index_forms (Visit 3) "Expression") as (H1 & H2 & H3 & H4 & H5).
  split; [|split; [|split; [|split]]].
  - unfold rangeNone. rewrite H1 by reflexivity. reflexivity.
  - unfold indexSeven. rewrite H2; [reflexivity|reflexivity..|discriminate].
  - unfold rangeEnd. rewrite H3 by reflexivity. reflexivity.
  - unfold rangeStart. rewrite H4; [reflexivity|reflexivity..|discriminate|reflexivity|reflexivity].
  - unfold rangeBoth. rewrite H5 by reflexivity. reflexivity.
Defined.


(** C4 (amended) at [function foo() public {}], [uint a;] and
    [modifier onlyOwner {}]. *)
Lemma Override_without_specifier_witness :
  (exists f,
     VisitFunctionDefinition (Visit 2) functionFoo =
       Ok (ONode (Boxed node0 (FunctionDefinition f))) /\ fd_Override f = None) /\
  (exists v immutable,
     VisitStateVariableDeclaration (Visit 3) stateVariable =
       Ok (ONode (Boxed node0 (StateVariableDeclaration
             (Some [ANode (Boxed (NodeOf "VariableDeclaration")
                             (StateVariableDeclarationVariable v immutable))]) ANil))) /\
     vd_Override v = None) /\
  (exists name parameters body isVirtual,
     VisitModifierDefinition (Visit 2) modifierOnlyOwner =
       Ok (ONode (Boxed node0
             (ModifierDefinition name parameters body isVirtual (Some []))))).
Proof.
  split; [|split].
  - destruct (VisitFunctionDefinition (Visit 2) functionFoo) as [out| |] eqn:E;
      try (vm_compute in E; discriminate E).
    destruct (Override_without_specifier (Visit 2) functionFoo out) as (H & _ & _).
    destruct (H E) as (f & -> & Hf).
    + intros modList Hm. vm_compute in Hm. inversion Hm; subst. reflexivity.
    + exists f. split; [reflexivity|exact Hf].
  - destruct (VisitStateVariableDeclaration (Visit 3) stateVariable) as [out| |] eqn:E;
      try (vm_compute in E; discriminate E).
    destruct (Override_without_specifier (Visit 3) stateVariable out) as (_ & H & _).
    destruct (H E eq_refl) as (v & immutable & -> & Hv).
    exists v, immutable. split; [reflexivity|exact Hv].
  - destruct (VisitModifierDefinition (Visit 2) modifierOnlyOwner) as [out| |] eqn:E;
      try (vm_compute in E; discriminate E).
    destruct (Override_without_specifier (Visit 2) modifierOnlyOwner out) as (_ & _ & H).
    destruct (H E eq_refl) as (name & parameters & body & isVirtual & ->).
    exists name, parameters, body, isVirtual. reflexivity.
Defined.

(** C4, as the claim states it, fails at [function foo() public {}] and
    at [uint a;]: the Override field is nil, not an empty list. *)
Lemma Override_nil_counterexample :
  (exists f,
     VisitTree functionFoo = Ok (Some (Boxed (mkNode "FunctionDefinition" 1)
                                          (FunctionDefinition f))) /\
     GetTypedRuleContexts (Ctx "ModifierList" [TerminalNodeImpl "PublicKeyword" "public"])
       "OverrideSpecifier" = [] /\
     fd_Override f = None /\ fd_Override f <> Some []) /\
  (exists v immutable,
     VisitStateVariableDeclaration (Visit 3) stateVariable =
       Ok (ONode (Boxed node0 (StateVariableDeclaration
             (Some [ANode (Boxed (NodeOf "VariableDeclaration")
                             (StateVariableDeclarationVariable v immutable))]) ANil))) /\
     GetTypedRuleContexts stateVariable "OverrideSpecifier" = [] /\
     vd_Override v = None /\ vd_Override v <> Some []).
Proof.
  split.
  - eexists. split; [vm_compute; reflexivity|].
    split; [reflexivity|]. split; [reflexivity|discriminate].
  - eexists _, _. split; [vm_compute; reflexivity|].
    split; [reflexivity|]. split; [reflexivity|discriminate].
Qed.

(** C5 at [catch Error(string memory b) {}], [catch {}] and a clause
    with another identifier. *)
Lemma VisitCatchClause_kind_witness :
  (exists parameters body,
     VisitCatchClause (Visit 4) catchError =
       Ok (ONode (Boxed node0 (CatchClause true "Error" parameters body)))) /\
  (exists parameters body,
     VisitCatchClause (Visit 4) catchBare =
       Ok (ONode (Boxed node0 (CatchClause false "" parameters body)))) /\
  VisitCatchClause (Visit 4) catchOther = Panic "Expected 'Error' or 'Panic'".
Proof.
  split; [|split].
  - destruct (VisitCatchClause (Visit 4) catchError) as [out| |] eqn:E;
      try (vm_compute in E; discriminate E).
    destruct (VisitCatchClause_kind (Visit 4) catchError) as (_ & H & _).
    destruct (H out E) as (r & kind & parameters & body & -> & Hi & _ & Hr).
    destruct (Hi (ident "Error") eq_refl) as [-> _].
    exists parameters, body. simpl in Hr.
    destruct r; [reflexivity|]. destruct Hr as [_ Hr]. discriminate (Hr eq_refl).
  - destruct (VisitCatchClause (Visit 4) catchBare) as [out| |] eqn:E;
      try (vm_compute in E; discriminate E).
    destruct (VisitCatchClause_kind (Visit 4) catchBare) as (_ & H & _).
    destruct (H out E) as (r & kind & parameters & body & -> & _ & Hn & Hr).
    rewrite (Hn eq_refl) in *.
    exists parameters, body.
    destruct r; [|reflexivity]. destruct Hr as [Hr _]. discriminate (Hr eq_refl).
  - destruct (VisitCatchClause_kind (Visit 4) catchOther) as (H & _ & _).
    apply (H (ident "Failure")); [reflexivity|discriminate|discriminate].
Defined.

(** C6 at [constructor() private {}], [fallback () external {}],
    [receive () external payable {}], [function foo() public {}] and
    [function () external {}]. *)
Lemma VisitFunctionDefinition_routing_witness :
  (exists f,
     VisitFunctionDefinition (Visit 2) constructorPrivate =
       Ok (ONode (Boxed node0 (FunctionDefinition f))) /\
     fd_IsConstructor f = true /\ fd_Visibility f = "default") /\
  (exists f,
     VisitFunctionDefinition (Visit 2) functionAnonymous =
       Ok (ONode (Boxed node0 (FunctionDefinition f))) /\
     fd_Name f = "" /\ fd_IsFallback f = true /\ fd_Visibility f = "external").
Proof.
  split.
  - destruct (VisitFunctionDefinition (Visit 2) constructorPrivate) as [out| |] eqn:E;
      try (vm_compute in E; discriminate E).
    destruct (VisitFunctionDefinition_routing (Visit 2) constructorPrivate out E)
      as (f & modList & descr & keyword & -> & Hm & Hd & Hk & Hc & _).
    vm_compute in Hm. inversion Hm; subst; clear Hm.
    vm_compute in Hd. inversion Hd; subst; clear Hd.
    vm_compute in Hk. inversion Hk; subst; clear Hk.
    destruct (Hc eq_refl) as (H1 & _ & _ & _ & _ & H6).
    exists f. split; [reflexivity|]. split; [exact H1|]. apply H6; reflexivity.
  - destruct (VisitFunctionDefinition (Visit 2) functionAnonymous) as [out| |] eqn:E;
      try (vm_compute in E; discriminate E).
    destruct (VisitFunctionDefinition_routing (Visit 2) functionAnonymous out E)
      as (f & modList & descr & keyword & -> & Hm & Hd & Hk & _ & _ & _ & Hf).
    vm_compute in Hm. inversion Hm; subst; clear Hm.
    vm_compute in Hd. inversion Hd; subst; clear Hd.
    vm_compute in Hk. inversion Hk; subst; clear Hk.
    destruct (Hf eq_refl) as (H1 & H2 & H3 & _).
    exists f. split; [reflexivity|]. split; [exact H1|].
    split; [apply H3; exact H1|exact H2].
Defined.

(** C7 at [import {a as b, c} from "f";], [import "f" as x;] and
    [import "f";]. *)
Lemma VisitImportDirective_shapes_witness :
  (exists d,
     VisitImportDirective (Visit 2) importSymbols = Ok (ONode (Boxed node0 (ImportDirective d))) /\
     id_UnitAlias d = "" /\ id_UnitAliasIdentifier d = ANil /\
     id_SymbolAliases d = Some [Some ["a"; "b"]; Some ["c"; ""]]) /\
  (exists d,
     VisitImportDirective (Visit 2) importUnit = Ok (ONode (Boxed node0 (ImportDirective d))) /\
     id_UnitAlias d = "x" /\ id_SymbolAliases d = None /\
     id_SymbolAliasesIdentifiers d = None) /\
  (exists d,
     VisitImportDirective (Visit 2) importBare = Ok (ONode (Boxed node0 (ImportDirective d))) /\
     id_UnitAlias d = "" /\ id_UnitAliasIdentifier d = ANil /\
     id_SymbolAliases d = None /\ id_SymbolAliasesIdentifiers d = None).
Proof.
  split; [|split].
  - destruct (VisitImportDirective (Visit 2) importSymbols) as [out| |] eqn:E;
      try (vm_compute in E; discriminate E).
    destruct (VisitImportDirective_shapes (Visit 2) importSymbols out E) as (d & -> & H & _).
    destruct H as (H1 & H2 & H3 & _); [discriminate|].
    exists d. split; [reflexivity|]. split; [exact H1|]. split; [exact H2|exact H3].
  - destruct (VisitImportDirective (Visit 2) importUnit) as [out| |] eqn:E;
      try (vm_compute in E; discriminate E).
    destruct (VisitImportDirective_shapes (Visit 2) importUnit out E) as (d & -> & _ & H).
    destruct (H eq_refl) as (H1 & H2 & H3).
    change (GetTypedRuleContexts importUnit "Identifier") with [ident "x"] in H3.
    destruct H3 as [H3 _].
    exists d. split; [reflexivity|]. split; [exact H3|]. split; [exact H1|exact H2].
  - destruct (VisitImportDirective (Visit 2) importBare) as [out| |] eqn:E;
      try (vm_compute in E; discriminate E).
    destruct (VisitImportDirective_shapes (Visit 2) importBare out E) as (d & -> & _ & H).
    destruct (H eq_refl) as (H1 & H2 & H3).
    change (GetTypedRuleContexts importBare "Identifier") with (@nil Tree) in H3.
    destruct H3 as [H3 H4].
    exists d. split; [reflexivity|]. repeat split; assumption.
Defined.

(** C8 at [for (;; i++) {}] and [for (;;) {}]. *)
Lemma VisitForStatement_clauses_witness :
  (exists loop body,
     VisitForStatement (Visit 5) forLoopOnly =
       Ok (ONode (Boxed node0
         (ForStatement ANil ANil
            (ANode (Boxed (NodeOf "ExpressionStatement") (ExpressionStatement loop))) body))) /\
     loop <> ANil) /\
  (exists body,
     VisitForStatement (Visit 5) forBare =
       Ok (ONode (Boxed node0
         (ForStatement ANil ANil
            (ANode (Boxed (NodeOf "ExpressionStatement") (ExpressionStatement ANil))) body)))).
Proof.
  split.
  - destruct (VisitForStatement (Visit 5) forLoopOnly) as [out| |] eqn:E;
      try (vm_compute in E; discriminate E).
    destruct (VisitForStatement_clauses (Visit 5) forLoopOnly) as [_ H].
    destruct (H out E) as (init & cond & loop & body & -> & Hi & Hc & _ & _ & _ & Hl).
    rewrite (Hi eq_refl), (Hc eq_refl).
    destruct (Hl _ eq_refl) as (n & Hn & ->).
    exists (toAny n), body. split; [reflexivity|].
    vm_compute in Hn. inversion Hn; subst. discriminate.
  - destruct (VisitForStatement_clauses (Visit 5) forBare) as [H _].
    eexists. apply H; reflexivity.
Defined.

(** C9 at [hex"fa" hex"fb"], ["He" "llo"], [import "f";] and
    [10 ether]. *)
Lemma literal_parts_roundtrip_witness :
  VisitHexLiteral hexLiteral = Ok (ONode (Boxed node0 (HexLiteral "fafb" (Some ["fa"; "fb"])))) /\
  (exists parts isUnicode,
     VisitPrimaryExpression (Visit 1) stringLiteral =
       Ok (ONode (Boxed (NodeOf "StringLiteral")
             (StringLiteral (Join parts) (Some parts) (Some isUnicode)))) /\
     length parts = 2) /\
  (exists number,
     VisitNumberLiteral tenEther =
       Ok (ONode (Boxed node0 (NumberLiteral number (AString "ether")))) /\
     (number ++ "ether")%string = "10ether").
Proof.
  split; [|split].
  - destruct (literal_parts_roundtrip (Visit 1) hexLiteral) as ((parts & H & ->) & _).
    exact H.
  - destruct (VisitPrimaryExpression (Visit 1) stringLiteral) as [out| |] eqn:E;
      try (vm_compute in E; discriminate E).
    destruct (literal_parts_roundtrip (Visit 1) stringLiteral) as (_ & H & _).
    destruct (H _ out eq_refl eq_refl eq_refl E) as (parts & isUnicode & -> & Hl & _).
    exists parts, isUnicode. split; [reflexivity|exact Hl].
  - destruct (VisitNumberLiteral tenEther) as [out| |] eqn:E;
      try (vm_compute in E; discriminate E).
    destruct (literal_parts_roundtrip (Visit 1) tenEther) as (_ & _ & _ & H).
    destruct (H out E) as (number & sd & -> & _ & H2).
    destruct (H2 _ _ eq_refl) as (_ & -> & Hn).
    exists number. split; [reflexivity|exact Hn].
Defined.

(** C10 at the invocations [m], [m()] and [m(a, b)]. *)
Lemma VisitModifierInvocation_arguments_witness :
  VisitModifierInvocation (Visit 1) invocationPlain =
    Ok (ONode (Boxed node0 (ModifierInvocation "m" None))) /\
  VisitModifierInvocation (Visit 1) invocationEmpty =
    Ok (ONode (Boxed node0 (ModifierInvocation "m" (Some [])))) /\
  VisitModifierInvocation (Visit 4) invocationArgs =
    Ok (ONode (Boxed node0
          (ModifierInvocation "m"
             (Some [ANode (Boxed (mkNode "Identifier" 1) (Identifier "a"));
                    ANode (Boxed (mkNode "Identifier" 1) (Identifier "b"))])))).
Proof.
  split; [|split].
  - destruct (VisitModifierInvocation_arguments (Visit 1) invocationPlain) as [_ H].
    destruct (H (ident "m") eq_refl eq_refl) as (args & -> & [_ Hn] & _).
    rewrite Hn; [reflexivity|]. simpl. lia.
  - destruct (VisitModifierInvocation_arguments (Visit 1) invocationEmpty) as [_ H].
    destruct (H (ident "m") eq_refl eq_refl) as (args & -> & _ & [_ He]).
    rewrite He; [reflexivity|]. simpl. lia.
  - destruct (VisitModifierInvocation (Visit 4) invocationArgs) as [out| |] eqn:E;
      try (vm_compute in E; discriminate E).
    destruct (VisitModifierInvocation_arguments (Visit 4) invocationArgs) as [H _].
    destruct (H out E) as (identifier & args & -> & Ei & _ & _ & Ha).
    vm_compute in Ei. inversion Ei; subst; clear Ei.
    destruct (Ha _ eq_refl) as (vs & Hf & _ & _ & _ & Hs & _).
    change (GetTypedRuleContexts _ "Expression") with [eIdent "a"; eIdent "b"] in Hf.
    inversion Hf as [|? a ? vs' (na & Ea & ->) Hf']; subst; clear Hf.
    inversion Hf' as [|? b ? vs'' (nb & Eb & ->) Hf'']; subst; clear Hf'.
    inversion Hf''; subst; clear Hf''.
    vm_compute in Ea. inversion Ea; subst; clear Ea.
    vm_compute in Eb. inversion Eb; subst; clear Eb.
    rewrite Hs by discriminate. reflexivity.
Defined.

(** Why C3 needs its hypothesis: [AssemblyItem] is not suppressed, and
    its builder hands on the node of its child, which [Visit] then tags
    a second time; and the visit of an assembly block never returns a
    node, the struct it builds not being an [INode]. *)
Lemma AssemblyItem_tagged_twice :
  VisitTree assemblyItemX = Ok (Some (Boxed (mkNode "AssemblyItem" 2) (Identifier "x"))).
Proof. reflexivity. Qed.

Lemma AssemblyBlock_no_node (fuel : nat) (cs : list Tree) (n : option INode) :
  Visit fuel (Some (Ctx "AssemblyBlock" cs)) <> Ok n.
Proof.
  destruct fuel as [|fuel]; [discriminate|].
  rewrite Visit_S, Visit_step_Ctx.
  change (lookup ("Visit" ++ "AssemblyBlock") (funcMap (Visit fuel)))
    with (Some (VisitAssemblyBlock (Visit fuel))).
  unfold VisitAssemblyBlock.
  destruct (visitAll (Visit fuel) (GetTypedRuleContexts (Ctx "AssemblyBlock" cs) "AssemblyItem"));
    discriminate.
Qed.


(* ================================================================== *)
(** * The structs behind the tags *)
(* ================================================================== *)

Lemma kindV_toAny (V : visitor) (i : option Tree) (n : option INode) :
  kindV V -> optionAll guarded i -> V i = Ok n -> kindAny (toAny n).
Proof.
  intros HV Hi H. destruct n as [n|]; simpl; [|exact I]. exact (HV i n Hi H).
Qed.

Lemma kindV_ofINode (V : visitor) (i : option Tree) (n : option INode) :
  kindV V -> optionAll guarded i -> V i = Ok n -> kindOut (ofINode n).
Proof.
  intros HV Hi H. destruct n as [n|]; simpl; [|exact I]. exact (HV i n Hi H).
Qed.


Lemma visitAll_kinded (V : visitor) (l : list Tree) (vs : list (any INode)) :
  kindV V -> Forall guarded l -> visitAll V l = Ok vs -> listAll kindAny vs.
Proof.
  intros HV. unfold visitAll. revert vs.
  induction l as [|x l IH]; intros vs Hl H; simpl in H; inv_runs; simpl; [exact I|].
  inversion Hl; subst. split.
  - eapply kindV_toAny; [exact HV| |eassumption]. assumption.
  - now apply IH.
Qed.

Lemma wellKinded_Boxed (node : Node) (s : Struct INode) :
  kindOk node s -> structAll wellKinded s -> wellKinded (Boxed node s).
Proof. intros Hn Hs. split; [exact Hn|exact Hs]. Qed.

Lemma stringsAsAny_kinded (l : list string) : listAll kindAny (stringsAsAny l).
Proof. induction l as [|x l IH]; simpl; [exact I|]. split; [exact I|exact IH]. Qed.


Ltac reduce_kinds :=
  cbn [freshOf kindOut structAll vd_TypeName vd_Identifier vd_Expression vd_Override
       fd_Parameters fd_Modifiers fd_ReturnParameters fd_Body fd_Override
       id_PathLiteral id_UnitAliasIdentifier id_SymbolAliasesIdentifiers
       sliceAll listAll optionAll anyAll ofINode ofSlice append elems app].

Ltac unfold_kinds :=
  reduce_kinds;
  try unfold variableDeclarationAll; try unfold functionDefinitionAll;
  try unfold importDirectiveAll;
  reduce_kinds.

Ltac kind_goal :=
  unfold kindAny in *; unfold_kinds;
  match goal with
  | |- True => exact I
  | |- _ = _ => reflexivity
  | |- _ /\ _ => split; kind_goal
  | |- kindOk _ _ => reflexivity
  | |- wellKinded (Boxed _ _) => apply wellKinded_Boxed; kind_goal
  | |- anyAll _ (toAny ?n) =>
      match goal with
      | H : ?V ?e = Ok n |- _ => apply (kindV_toAny V e n); [assumption|side|exact H]
      end
  | |- kindOut (ofINode ?n) =>
      match goal with
      | H : ?V ?e = Ok n |- _ => apply (kindV_ofINode V e n); [assumption|side|exact H]
      end
  | |- wellKinded ?n =>
      match goal with
      | HV : kindV ?V, H : ?V ?e = Ok (Some n) |- _ => apply (HV e n); [side|exact H]
      end
  | |- sliceAll _ (appendAll _ _) => apply sliceAll_appendAll; kind_goal
  | |- anyAll _ (ASlice _) => rewrite anyAll_ASlice; kind_goal
  | |- listAll _ (stringsAsAny _) => apply stringsAsAny_kinded
  | |- listAll _ ?vs =>
      match goal with
      | H : visitAll ?V ?l = Ok vs |- _ =>
          apply (visitAll_kinded V l vs); [assumption|side|exact H]
      end
  | |- _ => eassumption
  end.

Ltac start_kind f :=
  let out := fresh "out" in
  let HV := fresh "HV" in
  let Hk := fresh "Hk" in
  let H := fresh "H" in
  intros HV Hk out H; unfold f in H; inv_runs; saturate.

Ltac builder_kind f := start_kind f; try kind_goal.

Section KindLoops.

Variable V : visitor.
Hypothesis HV : kindV V.

Lemma VisitParameterList_kinded (ctx : Tree) :
  below ctx -> forall s, VisitParameterList V ctx = Ok s -> sliceAll kindAny s.
Proof.
  intros Hk s H. unfold VisitParameterList in H. inv_runs. kind_goal.
Qed.

Lemma VisitReturnParameters_kinded (ctx : Tree) :
  below ctx -> forall s, VisitReturnParameters V ctx = Ok s -> sliceAll kindAny s.
Proof.
  intros Hk s H. unfold VisitReturnParameters in H. inv_runs. saturate.
  eapply VisitParameterList_kinded; eassumption.
Qed.

Lemma overrideOf_kinded (overSpec : list Tree) :
  Forall below overSpec -> forall o, overrideOf V overSpec = Ok o -> sliceAll kindAny o.
Proof.
  intros Hk o H. unfold overrideOf in H. inv_runs; [exact I|].
  inversion_clear Hk. kind_goal.
Qed.

Lemma nameValueLoop_kinded (l : list Tree) :
  Forall below l ->
  forall args names identifiers,
    nameValueLoop V l = Ok (args, names, identifiers) ->
    listAll kindAny args /\ listAll kindAny identifiers.
Proof.
  induction l as [|p rest IH]; intros Hk args names identifiers H; simpl in H; inv_runs.
  - split; exact I.
  - inversion_clear Hk.
    match goal with
    | H : nameValueLoop _ _ = Ok _ |- _ => destruct (IH ltac:(assumption) _ _ _ H)
    end.
    split; kind_goal.
Qed.

Lemma nameValueListLoop_kinded (l : list Tree) :
  Forall below l ->
  forall names identifiers args,
    nameValueListLoop V l = Ok (names, identifiers, args) ->
    listAll kindAny identifiers /\ listAll kindAny args.
Proof.
  induction l as [|p rest IH]; intros Hk names identifiers args H; simpl in H; inv_runs.
  - split; exact I.
  - inversion_clear Hk.
    match goal with
    | H : nameValueListLoop _ _ = Ok _ |- _ => destruct (IH ltac:(assumption) _ _ _ H)
    end.
    split; kind_goal.
Qed.

Lemma visitSlot_kinded (childs : list (option Tree)) :
  Forall (optionAll guarded) childs ->
  forall components, mapM (visitSlot V) childs = Ok components -> listAll kindAny components.
Proof.
  induction childs as [|c rest IH]; intros Hk components H; simpl in H; inv_runs.
  - exact I.
  - inversion_clear Hk. split; [|now apply IH].
    unfold visitSlot in *. inv_runs; kind_goal.
Qed.

Lemma buildIdentifierList_loop_kinded (childs : list (option Tree)) (identifiers : list Tree) :
  Forall guarded identifiers ->
  forall indx vs,
    buildIdentifierList_loop V childs identifiers indx = Ok vs -> listAll kindAny vs.
Proof.
  intros Hi. induction childs as [|c rest IH]; intros indx vs H; simpl in H; inv_runs.
  - exact I.
  - split; [|eapply IH; eassumption].
    match goal with
    | H : index _ _ = Ok ?x |- _ =>
        apply index_In in H; rewrite Forall_forall in Hi; pose proof (Hi x H)
    end.
    kind_goal.
  - split; [exact I|eapply IH; eassumption].
Qed.

Lemma buildIdentifierList_kinded (ctx : Tree) :
  below ctx -> forall s, buildIdentifierList V ctx = Ok s -> sliceAll kindAny s.
Proof.
  intros Hk s H. unfold buildIdentifierList in H. inv_runs.
  apply sliceAll_appendAll; [exact I|].
  eapply buildIdentifierList_loop_kinded; [|eassumption]. side.
Qed.

Lemma buildVariableDeclarationList_loop_kinded (childs : list (option Tree))
  (variableDeclarations : list Tree) :
  Forall below variableDeclarations ->
  forall indx vs,
    buildVariableDeclarationList_loop V childs variableDeclarations indx = Ok vs ->
    listAll kindAny vs.
Proof.
  intros Hi. induction childs as [|c rest IH]; intros indx vs H; simpl in H; inv_runs.
  1: exact I.
  all: try (split; [exact I|eapply IH; eassumption]).
  all: split; [|eapply IH; eassumption].
  all: saturate; kind_goal.
Qed.

Lemma buildVariableDeclarationList_kinded (ctx : Tree) :
  below ctx -> forall s, buildVariableDeclarationList V ctx = Ok s -> sliceAll kindAny s.
Proof.
  intros Hk s H. unfold buildVariableDeclarationList in H. inv_runs.
  apply sliceAll_appendAll; [exact I|].
  eapply buildVariableDeclarationList_loop_kinded; [|eassumption]. side.
Qed.

Lemma eventParameterLoop_kinded (paramsList : list Tree) :
  Forall below paramsList ->
  forall vs, eventParameterLoop V paramsList = Ok vs -> listAll kindAny vs.
Proof.
  induction paramsList as [|param rest IH]; intros Hk vs H; simpl in H; inv_runs.
  1: exact I.
  all: inversion_clear Hk.
  all: split; [|eapply IH; eassumption].
  all: saturate; kind_goal.
Qed.

Lemma assertIdentifier_kinded (e : option Tree) (n : option INode) (m : INode) :
  optionAll guarded e -> V e = Ok n -> assertIdentifier n = Ok m -> wellKinded m.
Proof.
  intros He Hn H. unfold assertIdentifier in H.
  destruct n as [[node s]|]; [|discriminate].
  destruct s; try discriminate. inversion H; subst. exact (HV e _ He Hn).
Qed.

Lemma importDeclarationLoop_kinded (importDecl : list Tree) :
  Forall below importDecl ->
  forall aliases identifiers,
    importDeclarationLoop V importDecl = Ok (aliases, identifiers) ->
    listAll (sliceAll (optionAll wellKinded)) identifiers.
Proof.
  induction importDecl as [|decl rest IH]; intros Hk aliases identifiers H; simpl in H;
    inv_runs.
  1: exact I.
  all: inversion_clear Hk.
  all: split; [|eapply IH; eassumption].
  all: unfold_kinds.
  all: repeat split.
  all: eapply assertIdentifier_kinded; [| |eassumption]; [|eassumption]; side.
Qed.

Lemma expressionOfStatement_kinded (e : option Tree) (n : option INode) (x : any INode) :
  optionAll guarded e -> V e = Ok n -> expressionOfStatement n = Ok x -> kindAny x.
Proof.
  intros He Hn H. unfold expressionOfStatement in H.
  destruct n as [[node s]|]; [|discriminate].
  destruct s; try discriminate. inversion H; subst.
  pose proof (HV e _ He Hn) as Hg. destruct Hg as [_ Hg]. exact Hg.
Qed.

Lemma functionDescriptorSwitch_kinded (ctx modList descr : Tree) (keyword : string) :
  below ctx ->
  forall vars,
    functionDescriptorSwitch V ctx modList descr keyword = Ok vars ->
    kindAny (dv_returnParameters vars).
Proof.
  intros Hk vars H. unfold functionDescriptorSwitch in H.
  inv_runs; cbn [dv_returnParameters]; try exact I.
  all: saturate.
  all: unfold kindAny; rewrite anyAll_ASlice; eapply VisitReturnParameters_kinded;
    eassumption.
Qed.

End KindLoops.

Ltac forward_kinds :=
  repeat match goal with
  | HV : kindV ?V, H : VisitParameterList ?V ?c = Ok ?s |- _ =>
      have_not (sliceAll kindAny s);
      pose proof (VisitParameterList_kinded V HV c ltac:(side) s H)
  | HV : kindV ?V, H : VisitReturnParameters ?V ?c = Ok ?s |- _ =>
      have_not (sliceAll kindAny s);
      pose proof (VisitReturnParameters_kinded V HV c ltac:(side) s H)
  | HV : kindV ?V, H : overrideOf ?V ?l = Ok ?s |- _ =>
      have_not (sliceAll kindAny s);
      pose proof (overrideOf_kinded V HV l ltac:(side) s H)
  | HV : kindV ?V, H : buildIdentifierList ?V ?c = Ok ?s |- _ =>
      have_not (sliceAll kindAny s);
      pose proof (buildIdentifierList_kinded V HV c ltac:(side) s H)
  | HV : kindV ?V, H : buildVariableDeclarationList ?V ?c = Ok ?s |- _ =>
      have_not (sliceAll kindAny s);
      pose proof (buildVariableDeclarationList_kinded V HV c ltac:(side) s H)
  | HV : kindV ?V, H : eventParameterLoop ?V ?l = Ok ?vs |- _ =>
      have_not (listAll kindAny vs);
      pose proof (eventParameterLoop_kinded V HV l ltac:(side) vs H)
  | HV : kindV ?V, H : mapM (visitSlot ?V) ?l = Ok ?vs |- _ =>
      have_not (listAll kindAny vs);
      pose proof (visitSlot_kinded V HV l ltac:(side) vs H)
  | HV : kindV ?V, H : nameValueLoop ?V ?l = Ok (?a, ?n, ?i) |- _ =>
      have_not (listAll kindAny a);
      destruct (nameValueLoop_kinded V HV l ltac:(side) a n i H)
  | HV : kindV ?V, H : nameValueListLoop ?V ?l = Ok (?n, ?i, ?a) |- _ =>
      have_not (listAll kindAny a);
      destruct (nameValueListLoop_kinded V HV l ltac:(side) n i a H)
  | HV : kindV ?V, H : importDeclarationLoop ?V ?l = Ok (?a, ?i) |- _ =>
      have_not (listAll (sliceAll (optionAll wellKinded)) i);
      pose proof (importDeclarationLoop_kinded V HV l ltac:(side) a i H)
  | HV : kindV ?V, H : functionDescriptorSwitch ?V ?c ?m ?d ?k = Ok ?vars |- _ =>
      have_not (kindAny (dv_returnParameters vars));
      pose proof (functionDescriptorSwitch_kinded V HV c m d k ltac:(side) vars H)
  | HV : kindV ?V, H : ?V ?e = Ok ?n, H' : expressionOfStatement ?n = Ok ?x |- _ =>
      have_not (kindAny x);
      pose proof (expressionOfStatement_kinded V HV e n x ltac:(side) H H')
  end.

Ltac builder_kind f ::= start_kind f; forward_kinds; try kind_goal.


Lemma VisitSourceUnit_kinded (V : visitor) (ctx : Tree) :
  kindV V -> below ctx -> forall out, VisitSourceUnit V ctx = Ok out ->
  freshOf "SourceUnit" out.
Proof. builder_kind VisitSourceUnit. Qed.

Lemma VisitPragmaDirective_kinded (V : visitor) (ctx : Tree) :
  kindV V -> below ctx -> forall out, VisitPragmaDirective ctx = Ok out ->
  freshOf "PragmaDirective" out.
Proof. builder_kind VisitPragmaDirective. Qed.

Lemma VisitContractDefinition_kinded (V : visitor) (ctx : Tree) :
  kindV V -> below ctx -> forall out, VisitContractDefinition V ctx = Ok out ->
  freshOf "ContractDefinition" out.
Proof. builder_kind VisitContractDefinition. Qed.

Lemma VisitInheritanceSpecifier_kinded (V : visitor) (ctx : Tree) :
  kindV V -> below ctx -> forall out, VisitInheritanceSpecifier V ctx = Ok out ->
  freshOf "InheritanceSpecifier" out.
Proof. builder_kind VisitInheritanceSpecifier. Qed.

Lemma VisitContractPart_kinded (V : visitor) (ctx : Tree) :
  kindV V -> below ctx -> forall out, VisitContractPart V ctx = Ok out -> kindOut out.
Proof. builder_kind VisitContractPart. Qed.

Lemma VisitStructDefinition_kinded (V : visitor) (ctx : Tree) :
  kindV V -> below ctx -> forall out, VisitStructDefinition V ctx = Ok out ->
  freshOf "StructDefinition" out.
Proof. builder_kind VisitStructDefinition. Qed.

Lemma VisitVariableDeclaration_kinded (V : visitor) (ctx : Tree) :
  kindV V -> below ctx -> forall out, VisitVariableDeclaration V ctx = Ok out ->
  freshOf "VariableDeclaration" out.
Proof. builder_kind VisitVariableDeclaration. Qed.

Lemma VisitIdentifier_kinded (V : visitor) (ctx : Tree) :
  kindV V -> below ctx -> forall out, VisitIdentifier ctx = Ok out ->
  freshOf "Identifier" out.
Proof. builder_kind VisitIdentifier. Qed.

Lemma VisitStateVariableDeclaration_kinded (V : visitor) (ctx : Tree) :
  kindV V -> below ctx -> forall out, VisitStateVariableDeclaration V ctx = Ok out ->
  freshOf "StateVariableDeclaration" out.
Proof. builder_kind VisitStateVariableDeclaration. Qed.

Lemma VisitFunctionDefinition_kinded (V : visitor) (ctx : Tree) :
  kindV V -> below ctx -> forall out, VisitFunctionDefinition V ctx = Ok out ->
  freshOf "FunctionDefinition" out.
Proof. builder_kind VisitFunctionDefinition. Qed.

Lemma VisitParameter_kinded (V : visitor) (ctx : Tree) :
  kindV V -> below ctx -> forall out, VisitParameter V ctx = Ok out -> kindOut out.
Proof. builder_kind VisitParameter. Qed.

Lemma VisitModifierInvocation_kinded (V : visitor) (ctx : Tree) :
  kindV V -> below ctx -> forall out, VisitModifierInvocation V ctx = Ok out ->
  freshOf "ModifierInvocation" out.
Proof. builder_kind VisitModifierInvocation. Qed.

Lemma VisitBlock_kinded (V : visitor) (ctx : Tree) :
  kindV V -> below ctx -> forall out, VisitBlock V ctx = Ok out ->
  freshOf "Block" out.
Proof. builder_kind VisitBlock. Qed.

Lemma VisitStatement_kinded (V : visitor) (ctx : Tree) :
  kindV V -> below ctx -> forall out, VisitStatement V ctx = Ok out -> kindOut out.
Proof. builder_kind VisitStatement. Qed.

Lemma VisitSimpleStatement_kinded (V : visitor) (ctx : Tree) :
  kindV V -> below ctx -> forall out, VisitSimpleStatement V ctx = Ok out -> kindOut out.
Proof. builder_kind VisitSimpleStatement. Qed.

Lemma VisitExpressionStatement_kinded (V : visitor) (ctx : Tree) :
  kindV V -> below ctx -> forall out, VisitExpressionStatement V ctx = Ok out ->
  freshOf "ExpressionStatement" out.
Proof. builder_kind VisitExpressionStatement. Qed.

Lemma VisitExpression_kinded (V : visitor) (ctx : Tree) :
  kindV V -> below ctx -> forall out, VisitExpression V ctx = Ok out -> kindOut out.
Proof. builder_kind VisitExpression. Qed.

Lemma VisitMapping_kinded (V : visitor) (ctx : Tree) :
  kindV V -> below ctx -> forall out, VisitMapping V ctx = Ok out ->
  freshOf "Mapping" out.
Proof. builder_kind VisitMapping. Qed.

Lemma VisitMappingKey_kinded (V : visitor) (ctx : Tree) :
  kindV V -> below ctx -> forall out, VisitMappingKey V ctx = Ok out -> kindOut out.
Proof. builder_kind VisitMappingKey. Qed.

Lemma VisitNameValueList_kinded (V : visitor) (ctx : Tree) :
  kindV V -> below ctx -> forall out, VisitNameValueList V ctx = Ok out ->
  freshOf "NameValueList" out.
Proof. builder_kind VisitNameValueList. Qed.

Lemma VisitTupleExpression_kinded (V : visitor) (ctx : Tree) :
  kindV V -> below ctx -> forall out, VisitTupleExpression V ctx = Ok out ->
  freshOf "TupleExpression" out.
Proof. builder_kind VisitTupleExpression. Qed.

Lemma VisitTypeNameExpression_kinded (V : visitor) (ctx : Tree) :
  kindV V -> below ctx -> forall out, VisitTypeNameExpression V ctx = Ok out ->
  freshOf "TypeNameExpression" out.
Proof. builder_kind VisitTypeNameExpression. Qed.

Lemma VisitNumberLiteral_kinded (V : visitor) (ctx : Tree) :
  kindV V -> below ctx -> forall out, VisitNumberLiteral ctx = Ok out ->
  freshOf "NumberLiteral" out.
Proof. builder_kind VisitNumberLiteral. Qed.

Lemma VisitHexLiteral_kinded (V : visitor) (ctx : Tree) :
  kindV V -> below ctx -> forall out, VisitHexLiteral ctx = Ok out ->
  freshOf "HexLiteral" out.
Proof. builder_kind VisitHexLiteral. Qed.

Lemma VisitPrimaryExpression_kinded (V : visitor) (ctx : Tree) :
  kindV V -> below ctx -> forall out, VisitPrimaryExpression V ctx = Ok out -> kindOut out.
Proof. builder_kind VisitPrimaryExpression. Qed.

Lemma VisitForStatement_kinded (V : visitor) (ctx : Tree) :
  kindV V -> below ctx -> forall out, VisitForStatement V ctx = Ok out ->
  freshOf "ForStatement" out.
Proof. builder_kind VisitForStatement. Qed.

Lemma VisitVariableDeclarationStatement_kinded (V : visitor) (ctx : Tree) :
  kindV V -> below ctx -> forall out, VisitVariableDeclarationStatement V ctx = Ok out ->
  freshOf "VariableDeclarationStatement" out.
Proof. builder_kind VisitVariableDeclarationStatement. Qed.

Lemma VisitWhileStatement_kinded (V : visitor) (ctx : Tree) :
  kindV V -> below ctx -> forall out, VisitWhileStatement V ctx = Ok out ->
  freshOf "WhileStatement" out.
Proof. builder_kind VisitWhileStatement. Qed.

Lemma VisitDoWhileStatement_kinded (V : visitor) (ctx : Tree) :
  kindV V -> below ctx -> forall out, VisitDoWhileStatement V ctx = Ok out ->
  freshOf "DoWhileStatement" out.
Proof. builder_kind VisitDoWhileStatement. Qed.

Lemma VisitIfStatement_kinded (V : visitor) (ctx : Tree) :
  kindV V -> below ctx -> forall out, VisitIfStatement V ctx = Ok out ->
  freshOf "IfStatement" out.
Proof. builder_kind VisitIfStatement. Qed.

Lemma VisitEventDefinition_kinded (V : visitor) (ctx : Tree) :
  kindV V -> below ctx -> forall out, VisitEventDefinition V ctx = Ok out ->
  freshOf "EventDefinition" out.
Proof. builder_kind VisitEventDefinition. Qed.

Lemma VisitImportDirective_kinded (V : visitor) (ctx : Tree) :
  kindV V -> below ctx -> forall out, VisitImportDirective V ctx = Ok out ->
  freshOf "ImportDirective" out.
Proof. builder_kind VisitImportDirective. Qed.

Lemma VisitEnumDefinition_kinded (V : visitor) (ctx : Tree) :
  kindV V -> below ctx -> forall out, VisitEnumDefinition V ctx = Ok out ->
  freshOf "EnumDefinition" out.
Proof. builder_kind VisitEnumDefinition. Qed.

Lemma VisitEnumValue_kinded (V : visitor) (ctx : Tree) :
  kindV V -> below ctx -> forall out, VisitEnumValue ctx = Ok out ->
  freshOf "EnumValue" out.
Proof. builder_kind VisitEnumValue. Qed.

Lemma VisitBreakStatement_kinded (V : visitor) (ctx : Tree) :
  kindV V -> below ctx -> forall out, VisitBreakStatement ctx = Ok out ->
  freshOf "BreakStatement" out.
Proof. builder_kind VisitBreakStatement. Qed.

Lemma VisitContinueStatement_kinded (V : visitor) (ctx : Tree) :
  kindV V -> below ctx -> forall out, VisitContinueStatement ctx = Ok out ->
  freshOf "ContinueStatement" out.
Proof. builder_kind VisitContinueStatement. Qed.

Lemma VisitReturnStatement_kinded (V : visitor) (ctx : Tree) :
  kindV V -> below ctx -> forall out, VisitReturnStatement V ctx = Ok out ->
  freshOf "ReturnStatement" out.
Proof. builder_kind VisitReturnStatement. Qed.

Lemma VisitModifierDefinition_kinded (V : visitor) (ctx : Tree) :
  kindV V -> below ctx -> forall out, VisitModifierDefinition V ctx = Ok out ->
  freshOf "ModifierDefinition" out.
Proof. builder_kind VisitModifierDefinition. Qed.

Lemma VisitOverrideSpecifier_kinded (V : visitor) (ctx : Tree) :
  kindV V -> below ctx -> forall out, VisitOverrideSpecifier ctx = Ok out ->
  freshOf "OverrideSpecifier" out.
Proof. builder_kind VisitOverrideSpecifier. Qed.

Lemma VisitFunctionTypeName_kinded (V : visitor) (ctx : Tree) :
  kindV V -> below ctx -> forall out, VisitFunctionTypeName V ctx = Ok out ->
  freshOf "FunctionTypeName" out.
Proof. builder_kind VisitFunctionTypeName. Qed.

Lemma VisitFunctionTypeParameter_kinded (V : visitor) (ctx : Tree) :
  kindV V -> below ctx -> forall out, VisitFunctionTypeParameter V ctx = Ok out -> kindOut out.
Proof. builder_kind VisitFunctionTypeParameter. Qed.

Lemma VisitUsingForDeclaration_kinded (V : visitor) (ctx : Tree) :
  kindV V -> below ctx -> forall out, VisitUsingForDeclaration V ctx = Ok out ->
  freshOf "UsingForDeclaration" out.
Proof. builder_kind VisitUsingForDeclaration. Qed.

Lemma VisitTypeName_kinded (V : visitor) (ctx : Tree) :
  kindV V -> below ctx -> forall out, VisitTypeName V ctx = Ok out -> kindOut out.
Proof. builder_kind VisitTypeName. Qed.

Lemma VisitInlineAssemblyStatement_kinded (V : visitor) (ctx : Tree) :
  forall out, VisitInlineAssemblyStatement V ctx = Ok out -> freshOf "InlineAssemblyStatement" out.
Proof. intros out H. unfold VisitInlineAssemblyStatement in H. inv_runs; exact I. Qed.

Lemma VisitAssemblyBlock_kinded (V : visitor) (ctx : Tree) :
  forall out, VisitAssemblyBlock V ctx = Ok out -> freshOf "AssemblyBlock" out.
Proof. intros out H. unfold VisitAssemblyBlock in H. inv_runs; exact I. Qed.

Lemma VisitAssemblyCall_kinded (V : visitor) (ctx : Tree) :
  forall out, VisitAssemblyCall V ctx = Ok out -> freshOf "AssemblyCall" out.
Proof. intros out H. unfold VisitAssemblyCall in H. inv_runs; exact I. Qed.

Lemma VisitAssemblyLiteral_kinded (V : visitor) (ctx : Tree) :
  forall out, VisitAssemblyLiteral ctx = Ok out -> freshOf "AssemblyLiteral" out.
Proof. intros out H. unfold VisitAssemblyLiteral in H. inv_runs; exact I. Qed.

Lemma VisitAssemblySwitch_kinded (V : visitor) (ctx : Tree) :
  forall out, VisitAssemblySwitch V ctx = Ok out -> freshOf "AssemblySwitch" out.
Proof. intros out H. unfold VisitAssemblySwitch in H. inv_runs; exact I. Qed.

Lemma VisitAssemblyCase_kinded (V : visitor) (ctx : Tree) :
  forall out, VisitAssemblyCase V ctx = Ok out -> freshOf "AssemblyCase" out.
Proof. intros out H. unfold VisitAssemblyCase in H. inv_runs; exact I. Qed.

Lemma VisitAssemblyLocalDefinition_kinded (V : visitor) (ctx : Tree) :
  forall out, VisitAssemblyLocalDefinition V ctx = Ok out -> freshOf "AssemblyLocalDefinition" out.
Proof. intros out H. unfold VisitAssemblyLocalDefinition in H. inv_runs; exact I. Qed.

Lemma VisitAssemblyFunctionDefinition_kinded (V : visitor) (ctx : Tree) :
  forall out, VisitAssemblyFunctionDefinition V ctx = Ok out -> freshOf "AssemblyFunctionDefinition" out.
Proof. intros out H. unfold VisitAssemblyFunctionDefinition in H. inv_runs; exact I. Qed.

Lemma VisitAssemblyAssignment_kinded (V : visitor) (ctx : Tree) :
  forall out, VisitAssemblyAssignment V ctx = Ok out -> freshOf "AssemblyAssignment" out.
Proof. intros out H. unfold VisitAssemblyAssignment in H. inv_runs; exact I. Qed.

Lemma VisitAssemblyFor_kinded (V : visitor) (ctx : Tree) :
  forall out, VisitAssemblyFor V ctx = Ok out -> freshOf "AssemblyFor" out.
Proof. intros out H. unfold VisitAssemblyFor in H. inv_runs; exact I. Qed.

Lemma VisitAssemblyIf_kinded (V : visitor) (ctx : Tree) :
  forall out, VisitAssemblyIf V ctx = Ok out -> freshOf "AssemblyIf" out.
Proof. intros out H. unfold VisitAssemblyIf in H. inv_runs; exact I. Qed.

Lemma VisitAssemblyMember_kinded (V : visitor) (ctx : Tree) :
  forall out, VisitAssemblyMember V ctx = Ok out -> freshOf "AssemblyMember" out.
Proof. intros out H. unfold VisitAssemblyMember in H. inv_runs; exact I. Qed.

Lemma VisitEmitStatement_kinded (V : visitor) (ctx : Tree) :
  kindV V -> below ctx -> forall out, VisitEmitStatement V ctx = Ok out ->
  freshOf "EmitStatement" out.
Proof. builder_kind VisitEmitStatement. Qed.

Lemma VisitThrowStatement_kinded (V : visitor) (ctx : Tree) :
  kindV V -> below ctx -> forall out, VisitThrowStatement ctx = Ok out ->
  freshOf "ThrowStatement" out.
Proof. builder_kind VisitThrowStatement. Qed.

Lemma VisitFunctionCall_kinded (V : visitor) (ctx : Tree) :
  kindV V -> below ctx -> forall out, VisitFunctionCall V ctx = Ok out ->
  freshOf "FunctionCall" out.
Proof. builder_kind VisitFunctionCall. Qed.

Lemma VisitCustomErrorDefinition_kinded (V : visitor) (ctx : Tree) :
  kindV V -> below ctx -> forall out, VisitCustomErrorDefinition V ctx = Ok out ->
  freshOf "CustomErrorDefinition" out.
Proof. builder_kind VisitCustomErrorDefinition. Qed.

Lemma VisitTryStatement_kinded (V : visitor) (ctx : Tree) :
  kindV V -> below ctx -> forall out, VisitTryStatement V ctx = Ok out ->
  freshOf "TryStatement" out.
Proof. builder_kind VisitTryStatement. Qed.

Lemma VisitCatchClause_kinded (V : visitor) (ctx : Tree) :
  kindV V -> below ctx -> forall out, VisitCatchClause V ctx = Ok out ->
  freshOf "CatchClause" out.
Proof. builder_kind VisitCatchClause. Qed.

Lemma VisitFileLevelConstant_kinded (V : visitor) (ctx : Tree) :
  kindV V -> below ctx -> forall out, VisitFileLevelConstant V ctx = Ok out ->
  freshOf "FileLevelConstant" out.
Proof. builder_kind VisitFileLevelConstant. Qed.

Lemma VisitUncheckedStatement_kinded (V : visitor) (ctx : Tree) :
  kindV V -> below ctx -> forall out, VisitUncheckedStatement V ctx = Ok out ->
  freshOf "UncheckedStatement" out.
Proof. builder_kind VisitUncheckedStatement. Qed.

Lemma VisitTypeDefinition_kinded (V : visitor) (ctx : Tree) :
  kindV V -> below ctx -> forall out, VisitTypeDefinition V ctx = Ok out ->
  freshOf "TypeDefinition" out.
Proof. builder_kind VisitTypeDefinition. Qed.

Lemma VisitElementaryTypeName_kinded (V : visitor) (ctx : Tree) :
  kindV V -> below ctx -> forall out, VisitElementaryTypeName ctx = Ok out ->
  freshOf "ElementaryTypeName" out.
Proof. builder_kind VisitElementaryTypeName. Qed.

Lemma VisitUserDefinedTypeName_kinded (V : visitor) (ctx : Tree) :
  kindV V -> below ctx -> forall out, VisitUserDefinedTypeName ctx = Ok out ->
  freshOf "UserDefinedTypeName" out.
Proof. builder_kind VisitUserDefinedTypeName. Qed.

Lemma VisitRevertStatement_kinded (V : visitor) (ctx : Tree) :
  kindV V -> below ctx -> forall out, VisitRevertStatement V ctx = Ok out ->
  freshOf "RevertStatement" out.
Proof. builder_kind VisitRevertStatement. Qed.

Create HintDb kinds.

#[local] Hint Resolve
  VisitSourceUnit_kinded
  VisitPragmaDirective_kinded
  VisitContractDefinition_kinded
  VisitInheritanceSpecifier_kinded
  VisitContractPart_kinded
  VisitStructDefinition_kinded
  VisitVariableDeclaration_kinded
  VisitIdentifier_kinded
  VisitStateVariableDeclaration_kinded
  VisitFunctionDefinition_kinded
  VisitParameter_kinded
  VisitModifierInvocation_kinded
  VisitBlock_kinded
  VisitStatement_kinded
  VisitSimpleStatement_kinded
  VisitExpressionStatement_kinded
  VisitExpression_kinded
  VisitMapping_kinded
  VisitMappingKey_kinded
  VisitNameValueList_kinded
  VisitTupleExpression_kinded
  VisitTypeNameExpression_kinded
  VisitNumberLiteral_kinded
  VisitHexLiteral_kinded
  VisitPrimaryExpression_kinded
  VisitForStatement_kinded
  VisitVariableDeclarationStatement_kinded
  VisitWhileStatement_kinded
  VisitDoWhileStatement_kinded
  VisitIfStatement_kinded
  VisitEventDefinition_kinded
  VisitImportDirective_kinded
  VisitEnumDefinition_kinded
  VisitEnumValue_kinded
  VisitBreakStatement_kinded
  VisitContinueStatement_kinded
  VisitReturnStatement_kinded
  VisitModifierDefinition_kinded
  VisitOverrideSpecifier_kinded
  VisitFunctionTypeName_kinded
  VisitFunctionTypeParameter_kinded
  VisitUsingForDeclaration_kinded
  VisitTypeName_kinded
  VisitInlineAssemblyStatement_kinded
  VisitAssemblyBlock_kinded
  VisitAssemblyCall_kinded
  VisitAssemblyLiteral_kinded
  VisitAssemblySwitch_kinded
  VisitAssemblyCase_kinded
  VisitAssemblyLocalDefinition_kinded
  VisitAssemblyFunctionDefinition_kinded
  VisitAssemblyAssignment_kinded
  VisitAssemblyFor_kinded
  VisitAssemblyIf_kinded
  VisitAssemblyMember_kinded
  VisitEmitStatement_kinded
  VisitThrowStatement_kinded
  VisitFunctionCall_kinded
  VisitCustomErrorDefinition_kinded
  VisitTryStatement_kinded
  VisitCatchClause_kinded
  VisitFileLevelConstant_kinded
  VisitUncheckedStatement_kinded
  VisitTypeDefinition_kinded
  VisitElementaryTypeName_kinded
  VisitUserDefinedTypeName_kinded
  VisitRevertStatement_kinded : kinds.

(** Every registered builder returns a node of the right kind: the
    struct named by its production, untagged, from a builder whose
    production is tagged by [Visit]; a well-kinded node from a builder
    of a suppressed production. *)
Lemma funcMap_kind (V : visitor) (rule : string) (cs : list Tree)
  (fd : Tree -> result output) (out : output) :
  kindV V -> guarded (Ctx rule cs) ->
  lookup ("Visit" ++ rule) (funcMap V) = Some fd ->
  fd (Ctx rule cs) = Ok out ->
  if skipNode rule then kindOut out else freshOf rule out.
Proof.
  intros HV HG Hl H. apply lookup_In in Hl.
  cbn [String.append] in Hl. unfold funcMap in Hl. cbn [In] in Hl.
  repeat match goal with
         | H : _ \/ _ |- _ => destruct H as [H|H]
         end.
  all: try contradiction.
  all: inversion Hl; subst; clear Hl.
  all: try (exfalso; discriminate HG).
  all: change (skipNode _) with true || change (skipNode _) with false; cbv iota.
  all: try (eauto with kinds; fail).
  all: try (assert (Hk : below (Ctx _ cs)) by (apply guarded_Ctx; [exact HG|reflexivity]);
            eauto with kinds; fail).
  all: inv_runs; match goal with
                 | |- freshOf _ (ofSlice ?s) => destruct s; simpl; auto
                 end.
Qed.

Lemma Visit_kindV (fuel : nat) : kindV (Visit fuel).
Proof.
  induction fuel as [|fuel IH]; intros i n Hi H; [discriminate H|].
  rewrite Visit_S in H. destruct i as [t|]; [|discriminate H].
  destruct t as [ty s|ty s|rule cs];
    [now apply Visit_step_leaf in H|now apply Visit_step_leaf in H|].
  rewrite Visit_step_Ctx in H.
  destruct (lookup ("Visit" ++ rule) (funcMap (Visit fuel))) as [fd|] eqn:El;
    [|discriminate H].
  apply bind_Ok in H. destruct H as (out & Eo & H).
  pose proof (funcMap_kind (Visit fuel) rule cs fd out IH Hi El Eo) as Hg.
  destruct out as [|[node s]|]; try discriminate H.
  destruct (skipNode rule) eqn:Es; simpl in H; inversion H; subst; clear H.
  - exact Hg.
  - destruct Hg as (-> & Hk & Hs). split; [|exact Hs].
    unfold kindOk. simpl. now rewrite Hk.
Qed.

Lemma kindOf_nonempty {N : Type} (s : Struct N) : kindOf s <> "".
Proof. destruct s; discriminate. Qed.

(** X19: tags name structs.  In the traversal of a tree in which the
    assembly items and expressions lie inside assembly blocks, every
    node of the returned AST carries as its tag the name of its own
    struct, which is never empty (the variable of a state variable
    declaration carries the name of the VariableDeclaration that it
    embeds); the node returned for a production that is not suppressed
    is the struct named by the production; and the traversal returns
    nil only for a token, for a suppressed production whose builder
    hands on a nil, and for a parameter list without parameters. *)
Theorem Visit_kinds (fuel : nat) (t : Tree) (r : option INode) :
  assemblyInBlock t = true ->
  Visit fuel (Some t) = Ok r ->
  (forall n, r = Some n ->
     Every kindOk n /\
     GetType n = kindOf (structOf n) /\ GetType n <> "" /\
     (skipNode (ruleOf t) = false -> kindOf (structOf n) = ruleOf t)) /\
  (r = None ->
     (exists ty s, t = TerminalNodeImpl ty s) \/
     skipNode (ruleOf t) = true \/
     ruleOf t = "ReturnParameters" \/ ruleOf t = "ParameterList").
Proof.
  intros Hi H. split.
  - intros n ->. pose proof (Visit_kindV fuel (Some t) n Hi H) as Hk.
    split; [exact Hk|].
    assert (Ht : GetType n = kindOf (structOf n)).
    { destruct n as [node s]. destruct Hk as [Hk _]. exact Hk. }
    split; [exact Ht|]. split; [rewrite Ht; apply kindOf_nonempty|].
    intros Hs. destruct fuel as [|fuel]; [discriminate H|].
    rewrite Visit_S in H.
    destruct t as [ty s|ty s|rule cs];
      [now apply Visit_step_leaf in H|now apply Visit_step_leaf in H|].
    rewrite Visit_step_Ctx in H. simpl in Hs.
    destruct (lookup ("Visit" ++ rule) (funcMap (Visit fuel))) as [fd|] eqn:El;
      [|discriminate H].
    apply bind_Ok in H. destruct H as (out & Eo & H).
    pose proof (funcMap_kind (Visit fuel) rule cs fd out (Visit_kindV fuel) Hi El Eo) as Hg.
    rewrite Hs in Hg, H.
    destruct out as [|[node s]|]; try discriminate H.
    simpl in H. inversion H; subst; clear H.
    destruct Hg as (_ & Hg & _). exact Hg.
  - intros ->. destruct fuel as [|fuel]; [discriminate H|].
    destruct t as [ty s|ty s|rule cs].
    + left. now exists ty, s.
    + rewrite Visit_S, Visit_step_Error in H. discriminate H.
    + right. rewrite Visit_S, Visit_step_Ctx in H.
      destruct (lookup ("Visit" ++ rule) (funcMap (Visit fuel))) as [fd|] eqn:El;
        [|discriminate H].
      apply bind_Ok in H. destruct H as (out & Eo & H).
      pose proof (funcMap_kind (Visit fuel) rule cs fd out (Visit_kindV fuel) Hi El Eo) as Hg.
      simpl. destruct (skipNode rule) eqn:Es; [now left|right].
      destruct out as [|[node s]|]; simpl in H; try discriminate H. exact Hg.
Qed.

(** X19 at [contract C { uint a; function foo() public {} }]. *)
Lemma Visit_kinds_witness :
  exists n,
    VisitTree Sample.contractC = Ok (Some n) /\
    Every kindOk n /\ kindOf (structOf n) = "SourceUnit".
Proof.
  destruct (VisitTree Sample.contractC) as [[n|]| |] eqn:E;
    try (vm_compute in E; discriminate E).
  exists n. split; [reflexivity|].
  destruct (Visit_kinds (S (depth Sample.contractC)) Sample.contractC (Some n) eq_refl E)
    as [H _].
  destruct (H n eq_refl) as (H1 & _ & _ & H2).
  split; [exact H1|exact (H2 eq_refl)].
Defined.


(* ================================================================== *)
(** * Further properties of the visitor *)
(* ================================================================== *)

(** ** Sparse lists: tuples and declaration lists *)

Lemma alternating_dec (tree : list Tree) : {alternating tree} + {~ alternating tree}.
Proof.
  unfold alternating. apply Forall_dec. intros seg. apply le_dec.
Qed.

Lemma mapCommasToNulls_Ok (tree : list Tree) (res : list (option Tree)) :
  mapCommasToNulls tree = Ok res ->
  alternating tree /\
  res = match tree with [] => [] | _ :: _ => map slotOf (segments tree) end.
Proof.
  intros H. destruct (alternating_dec tree) as [Ha|Hn].
  - split; [exact Ha|]. destruct tree as [|c rest]; [now inversion H|].
    unfold mapCommasToNulls in H.
    destruct (mapCommasToNulls_loop_segments (c :: rest) []) as [H1 _].
    rewrite (H1 Ha) in H. now inversion H.
  - rewrite (mapCommasToNulls_adjacent tree Hn) in H. discriminate H.
Qed.

(** X1: the scan of a comma-separated list returns exactly when no two
    elements are adjacent, and panics with "Comma expected" otherwise. *)
Theorem mapCommasToNulls_comma_expected (tree : list Tree) :
  (alternating tree -> exists res, mapCommasToNulls tree = Ok res) /\
  (forall res, mapCommasToNulls tree = Ok res -> alternating tree) /\
  (~ alternating tree -> mapCommasToNulls tree = Panic "Comma expected") /\
  (mapCommasToNulls tree = Panic "Comma expected" -> ~ alternating tree).
Proof.
  split; [|split; [|split]].
  - intros Ha. destruct tree as [|c rest]; [now exists []|].
    destruct (mapCommasToNulls_loop_segments (c :: rest) []) as [H1 _].
    eexists. unfold mapCommasToNulls. now rewrite H1.
  - intros res H. now destruct (mapCommasToNulls_Ok tree res H).
  - apply mapCommasToNulls_adjacent.
  - intros H Ha. destruct tree as [|c rest]; [discriminate H|].
    destruct (mapCommasToNulls_loop_segments (c :: rest) []) as [H1 _].
    unfold mapCommasToNulls in H. rewrite (H1 Ha) in H. discriminate H.
Qed.

(** X1 at the children of [a b] and of [a, b]. *)
Lemma mapCommasToNulls_comma_expected_witness :
  mapCommasToNulls [lit "a"; lit "b"] = Panic "Comma expected" /\
  alternating [lit "a"; lit ","; lit "b"].
Proof.
  split.
  - destruct (mapCommasToNulls_comma_expected [lit "a"; lit "b"]) as (_ & _ & H & _).
    apply H. unfold alternating. simpl. intros Hf. inversion Hf; subst. simpl in *. lia.
  - destruct (mapCommasToNulls_comma_expected [lit "a"; lit ","; lit "b"]) as (_ & H & _).
    eapply H. reflexivity.
Defined.

Lemma sliceInner_inner (open close : Tree) (inner : list Tree) :
  sliceInner (open :: inner ++ [close]) (length (open :: inner ++ [close])) = inner.
Proof.
  unfold sliceInner. simpl. rewrite length_app. simpl.
  replace (length inner + 1 - 1) with (length inner + 0) by lia.
  rewrite firstn_app_2. simpl. now rewrite app_nil_r.
Qed.

Lemma visitSlots_Forall2 (V : visitor) (slots : list (option Tree)) (vs : list (any INode)) :
  mapM (visitSlot V) slots = Ok vs -> Forall2 (visitsSlot V) slots vs.
Proof.
  revert vs. induction slots as [|slot slots IH]; intros vs H; simpl in H.
  - inv_runs. constructor.
  - apply bind_Ok in H. destruct H as (v & Ev & H).
    apply bind_Ok in H. destruct H as (vs' & Evs & H). inversion H; subst; clear H.
    constructor; [|now apply IH].
    destruct slot as [c|]; simpl in *.
    + apply bind_Ok in Ev. destruct Ev as (n & En & Ev). inversion Ev; subst.
      now exists n.
    + now inversion Ev.
Qed.

(** X2: a tuple has one component per slot of its sparse list: nil where
    an element is left out, the visit of the element otherwise, in
    order; [()] has no component; two adjacent elements abort the
    builder, and so do fewer than two children ("bad"). *)
Theorem VisitTupleExpression_components (V : visitor) (rule : string) :
  (forall cs, length cs < 2 -> VisitTupleExpression V (Ctx rule cs) = Panic "bad") /\
  (forall open close inner out,
     VisitTupleExpression V (Ctx rule (open :: inner ++ [close])) = Ok out ->
     exists components,
       out = ONode (Boxed node0
               (TupleExpression (Some components) (GetText open =? "["))) /\
       alternating inner /\
       match inner with
       | [] => components = []
       | _ :: _ =>
           Forall2 (visitsSlot V) (map slotOf (segments inner)) components /\
           length components = commas inner + 1
       end).
Proof.
  split.
  - intros cs Hc. unfold VisitTupleExpression, GetChildCount. simpl.
    apply Nat.ltb_lt in Hc. now rewrite Hc.
  - intros open close inner out H. unfold VisitTupleExpression, GetChildCount in H.
    cbn [GetChildren] in H. rewrite sliceInner_inner in H.
    destruct (Nat.ltb _ 2) eqn:El; [discriminate H|]. cbv zeta in H.
    apply bind_Ok in H. destruct H as (childs & Ec & H).
    apply bind_Ok in H. destruct H as (components & Em & H).
    apply mapCommasToNulls_Ok in Ec. destruct Ec as [Ha ->].
    simpl in H. inversion H; subst; clear H.
    rewrite appendAll_empty_slice.
    exists components. split; [reflexivity|]. split; [exact Ha|].
    apply visitSlots_Forall2 in Em.
    destruct inner as [|c rest]; [now inversion Em|].
    split; [exact Em|].
    apply Forall2_length in Em. rewrite length_map, segments_length in Em. lia.
Qed.

(** X2 at [(a, , b)], with three components, and at [()]. *)
Lemma VisitTupleExpression_components_witness :
  (exists a b,
     VisitTupleExpression (Visit 3) Sample.tupleSparse =
       Ok (ONode (Boxed node0 (TupleExpression (Some [a; ANil; b]) false)))) /\
  VisitTupleExpression (Visit 3) Sample.tupleEmpty =
    Ok (ONode (Boxed node0 (TupleExpression (Some []) false))).
Proof.
  destruct (VisitTupleExpression_components (Visit 3) "TupleExpression") as [_ H].
  split.
  - destruct (VisitTupleExpression (Visit 3) Sample.tupleSparse) as [out| |] eqn:E;
      try (vm_compute in E; discriminate E).
    destruct (H (lit "(") (lit ")")
                [Sample.eIdent "a"; lit ","; lit ","; Sample.eIdent "b"] out E)
      as (components & -> & _ & Hf & Hl).
    destruct components as [|a [|x [|b [|y l]]]]; try discriminate Hl.
    inversion Hf as [|? ? ? ? _ Hf1]; subst. inversion Hf1 as [|? ? ? ? Hx _]; subst.
    simpl in Hx. subst x. exists a, b. reflexivity.
  - destruct (VisitTupleExpression (Visit 3) Sample.tupleEmpty) as [out| |] eqn:E;
      try (vm_compute in E; discriminate E).
    destruct (H (lit "(") (lit ")") [] out E) as (components & -> & _ & ->).
    reflexivity.
Defined.

Lemma present_cons_skipn (x : Tree) (rest : list Tree) (ids : list Tree) (indx : nat) :
  x :: rest = skipn indx ids -> index ids indx = Ok x /\ rest = skipn (S indx) ids.
Proof.
  revert ids. induction indx as [|k IH]; intros ids H.
  - destruct ids as [|i ids]; simpl in H; [discriminate H|]. inversion H; subst.
    split; reflexivity.
  - destruct ids as [|i ids]; simpl in H; [discriminate H|]. now apply IH.
Qed.

(** The loop of [buildIdentifierList] takes the identifiers in order,
    one per slot that holds an element. *)
Lemma buildIdentifierList_loop_slots (V : visitor) (identifiers : list Tree)
  (childs : list (option Tree)) :
  forall indx vs,
    present childs = skipn indx identifiers ->
    buildIdentifierList_loop V childs identifiers indx = Ok vs ->
    Forall2 (declaresSlot V) childs vs.
Proof.
  induction childs as [|slot rest IH]; intros indx vs Hp H; simpl in H.
  - inversion H. constructor.
  - destruct slot as [x|]; simpl in Hp.
    + apply present_cons_skipn in Hp. destruct Hp as [Hi Hp].
      rewrite Hi in H. simpl in H.
      apply bind_Ok in H. destruct H as (n & En & H).
      apply bind_Ok in H. destruct H as (vs' & Evs & H). inversion H; subst; clear H.
      constructor; [|exact (IH _ _ Hp Evs)].
      exists n. split; [exact En|reflexivity].
    + apply bind_Ok in H. destruct H as (vs' & Evs & H). inversion H; subst; clear H.
      constructor; [reflexivity|exact (IH _ _ Hp Evs)].
Qed.

(** X3: an identifier list [(a, , b)] whose elements are its identifier
    contexts yields one variable per slot, in order: nil where the
    identifier is left out, else a VariableDeclaration tagged at
    construction, named by the text of the identifier and holding its
    visit.  With something between the brackets these are as many
    variables as commas plus one; [()] yields the empty list. *)
Theorem buildIdentifierList_slots (V : visitor) (rule : string) (open close : Tree)
  (inner : list Tree) (vars : slice (any INode)) :
  elements inner = GetTypedRuleContexts (Ctx rule (open :: inner ++ [close])) "Identifier" ->
  buildIdentifierList V (Ctx rule (open :: inner ++ [close])) = Ok vars ->
  exists variables,
    vars = Some variables /\
    alternating inner /\
    match inner with
    | [] => variables = []
    | _ :: _ =>
        Forall2 (declaresSlot V) (map slotOf (segments inner)) variables /\
        length variables = commas inner + 1
    end.
Proof.
  intros He H. unfold buildIdentifierList, GetChildCount in H.
  cbn [GetChildren] in H. rewrite sliceInner_inner in H.
  destruct (Nat.ltb _ 2) eqn:El; [discriminate H|]. cbv zeta in H.
  apply bind_Ok in H. destruct H as (childs & Ec & H).
  apply bind_Ok in H. destruct H as (variables & Em & H).
  apply mapCommasToNulls_Ok in Ec. destruct Ec as [Ha ->].
  inversion H; subst; clear H. rewrite appendAll_empty_slice.
  exists variables. split; [reflexivity|]. split; [exact Ha|].
  destruct inner as [|c rest]; [now inversion Em|].
  assert (Hf : Forall2 (declaresSlot V) (map slotOf (segments (c :: rest))) variables).
  { eapply (buildIdentifierList_loop_slots V); [|exact Em].
    rewrite present_segments by exact Ha. exact He. }
  split; [exact Hf|].
  apply Forall2_length in Hf. rewrite length_map, segments_length in Hf. lia.
Qed.

(** X3 at [(a, , b)]: three variables, the middle one nil, named [a]
    and [b]. *)
Lemma buildIdentifierList_slots_witness :
  exists ia ib,
    buildIdentifierList (Visit 2) Sample.identifierList =
      Ok (Some [ANode (identifierDeclaration (Sample.ident "a") ia); ANil;
                ANode (identifierDeclaration (Sample.ident "b") ib)]).
Proof.
  destruct (buildIdentifierList (Visit 2) Sample.identifierList) as [vars| |] eqn:E;
    try (vm_compute in E; discriminate E).
  destruct (buildIdentifierList_slots (Visit 2) "IdentifierList" (lit "(") (lit ")")
              [Sample.ident "a"; lit ","; lit ","; Sample.ident "b"] vars eq_refl E)
    as (variables & -> & _ & Hf & Hl).
  destruct variables as [|a [|x [|b [|y l]]]]; try discriminate Hl.
  inversion Hf as [|? ? ? ? Ha Hf1]; subst.
  inversion Hf1 as [|? ? ? ? Hx Hf2]; subst.
  inversion Hf2 as [|? ? ? ? Hb _]; subst.
  simpl in Ha, Hx, Hb. destruct Ha as (na & _ & ->). destruct Hb as (nb & _ & ->).
  subst x. exists (toAny na), (toAny nb). reflexivity.
Defined.

Lemma buildVariableDeclarationList_loop_slots (V : visitor) (decls : list Tree)
  (childs : list (option Tree)) :
  forall indx vs,
    present childs = skipn indx decls ->
    buildVariableDeclarationList_loop V childs decls indx = Ok vs ->
    Forall2 (declaresVariable V) childs vs.
Proof.
  induction childs as [|slot rest IH]; intros indx vs Hp H; simpl in H.
  - inversion H. constructor.
  - destruct slot as [x|]; simpl in Hp.
    + apply present_cons_skipn in Hp. destruct Hp as [Hi Hp].
      rewrite Hi in H. simpl in H.
      apply bind_Ok in H. destruct H as (sl & Esl & H).
      apply bind_Ok in H. destruct H as (name & Ename & H).
      apply toText_Ok in Ename. destruct Ename as (iden & Eiden & ->).
      apply bind_Ok in H. destruct H as (identifier & Ei & H).
      apply bind_Ok in H. destruct H as (typeName & Et & H).
      apply bind_Ok in H. destruct H as (vs' & Evs & H). inversion H; subst; clear H.
      constructor; [|exact (IH _ _ Hp Evs)].
      exists iden, identifier, typeName.
      split; [exact Eiden|]. split; [now rewrite <- Eiden|]. split; [exact Et|].
      destruct (GetTypedRuleContext x "StorageLocation" 0); simpl in Esl;
        inversion Esl; subst; reflexivity.
    + apply bind_Ok in H. destruct H as (vs' & Evs & H). inversion H; subst; clear H.
      constructor; [reflexivity|exact (IH _ _ Hp Evs)].
Qed.

(** X4: a variable declaration list [uint a, , uint b] whose elements
    are its declaration contexts yields one variable per slot, in
    order: nil where the declaration is left out, else a
    VariableDeclaration with the name, the visited identifier and type
    name, and the storage location of the declaration. *)
Theorem buildVariableDeclarationList_slots (V : visitor) (rule : string)
  (children : list Tree) (vars : slice (any INode)) :
  elements children = GetTypedRuleContexts (Ctx rule children) "VariableDeclaration" ->
  buildVariableDeclarationList V (Ctx rule children) = Ok vars ->
  exists variables,
    vars = Some variables /\
    alternating children /\
    match children with
    | [] => variables = []
    | _ :: _ =>
        Forall2 (declaresVariable V) (map slotOf (segments children)) variables /\
        length variables = commas children + 1
    end.
Proof.
  intros He H. unfold buildVariableDeclarationList in H. cbn [GetChildren] in H.
  apply bind_Ok in H. destruct H as (childs & Ec & H).
  apply bind_Ok in H. destruct H as (variables & Em & H).
  apply mapCommasToNulls_Ok in Ec. destruct Ec as [Ha ->].
  inversion H; subst; clear H. rewrite appendAll_empty_slice.
  exists variables. split; [reflexivity|]. split; [exact Ha|].
  destruct children as [|c rest]; [now inversion Em|].
  assert (Hf : Forall2 (declaresVariable V) (map slotOf (segments (c :: rest))) variables).
  { eapply (buildVariableDeclarationList_loop_slots V); [|exact Em].
    rewrite present_segments by exact Ha. exact He. }
  split; [exact Hf|].
  apply Forall2_length in Hf. rewrite length_map, segments_length in Hf. lia.
Qed.

(** X4 at [uint a, , uint b]: three variables, the middle one nil. *)
Lemma buildVariableDeclarationList_slots_witness :
  exists a b,
    buildVariableDeclarationList (Visit 3) Sample.variableDeclarationList =
      Ok (Some [ANode a; ANil; ANode b]).
Proof.
  destruct (buildVariableDeclarationList (Visit 3) Sample.variableDeclarationList)
    as [vars| |] eqn:E; try (vm_compute in E; discriminate E).
  destruct (buildVariableDeclarationList_slots (Visit 3) "VariableDeclarationList"
              [Sample.variableDeclaration "uint" "a"; lit ","; lit ",";
               Sample.variableDeclaration "uint" "b"] vars eq_refl E)
    as (variables & -> & _ & Hf & Hl).
  destruct variables as [|a [|x [|b [|y l]]]]; try discriminate Hl.
  inversion Hf as [|? ? ? ? Ha Hf1]; subst.
  inversion Hf1 as [|? ? ? ? Hx Hf2]; subst.
  inversion Hf2 as [|? ? ? ? Hb _]; subst.
  simpl in Ha, Hx, Hb.
  destruct Ha as (? & ? & ? & _ & _ & _ & ->). destruct Hb as (? & ? & ? & _ & _ & _ & ->).
  subst x. eexists _, _. reflexivity.
Defined.

(** ** Call arguments *)

Lemma nameValueLoop_aligned (V : visitor) (l : list Tree) :
  forall args names identifiers,
    nameValueLoop V l = Ok (args, names, identifiers) ->
    length args = length l /\ length identifiers = length l /\
    names = map identifierText l /\
    Forall2 (visitsPart V "Expression") l args /\
    Forall2 (visitsPart V "Identifier") l identifiers.
Proof.
  induction l as [|p rest IH]; intros args names identifiers H; simpl in H.
  - inversion H. repeat split; constructor.
  - apply bind_Ok in H. destruct H as (arg & Ea & H).
    apply bind_Ok in H. destruct H as (name & En & H).
    apply toText_Ok in En. destruct En as (iden & Ei & ->).
    apply bind_Ok in H. destruct H as (identifier & Eid & H).
    apply bind_Ok in H. destruct H as ([[args' names'] ids'] & Er & H).
    inversion H; subst; clear H.
    destruct (IH _ _ _ Er) as (Ha & Hi & -> & Hfa & Hfi).
    assert (Hp : identifierText p = GetText iden)
      by (unfold identifierText; now rewrite Ei).
    cbn [map length]. rewrite Hp.
    split; [congruence|]. split; [congruence|]. split; [reflexivity|].
    split; constructor; try assumption.
    + now exists arg.
    + now exists identifier.
Qed.

(** X5: the argument lists of a call.  With an expression list, a call
    holds for each expression of the list, in order, the visit of that
    expression, and no names; with a name-value list, Names,
    Identifiers and Arguments have one entry per name-value pair, in
    order: the text of the identifier of the pair, the visit of that
    identifier and the visit of the expression of the pair.  The
    Expression of the call is the visit of the called expression.  The
    call of [VisitFunctionCall] (emit, revert) never holds a nil list;
    the call form of a generic expression holds nil lists where
    nothing was appended. *)
Theorem call_arguments_aligned (V : visitor) :
  (forall ctx out,
     VisitFunctionCall V ctx = Ok out ->
     exists args names identifiers expression ctxArgs,
       out = ONode (Boxed node0
               (FunctionCall (Some args) (Some names) (Some identifiers) expression)) /\
       visitsPart V "Expression" ctx expression /\
       GetTypedRuleContext ctx "FunctionCallArguments" 0 = Some ctxArgs /\
       (forall list_, GetTypedRuleContext ctxArgs "ExpressionList" 0 = Some list_ ->
          Forall2 (visits V) (GetTypedRuleContexts list_ "Expression") args /\
          names = [] /\ identifiers = []) /\
       (forall list_, GetTypedRuleContext ctxArgs "ExpressionList" 0 = None ->
          GetTypedRuleContext ctxArgs "NameValueList" 0 = Some list_ ->
          names = map AString (map identifierText (GetTypedRuleContexts list_ "NameValue")) /\
          Forall2 (visitsPart V "Expression") (GetTypedRuleContexts list_ "NameValue") args /\
          Forall2 (visitsPart V "Identifier") (GetTypedRuleContexts list_ "NameValue")
            identifiers /\
          length identifiers = length names /\ length args = length names) /\
       (GetTypedRuleContext ctxArgs "ExpressionList" 0 = None ->
        GetTypedRuleContext ctxArgs "NameValueList" 0 = None ->
        args = [] /\ names = [] /\ identifiers = [])) /\
  (forall rule c0 c1 c2 c3 out,
     GetText c1 = "(" -> GetText c3 = ")" ->
     VisitExpression V (Ctx rule [c0; c1; c2; c3]) = Ok out ->
     exists args names identifiers expression ctxArgs,
       out = ONode (Boxed (NodeOf "FunctionCall")
               (FunctionCall args names identifiers expression)) /\
       visitsPart V "Expression" (Ctx rule [c0; c1; c2; c3]) expression /\
       GetTypedRuleContext (Ctx rule [c0; c1; c2; c3]) "FunctionCallArguments" 0 =
         Some ctxArgs /\
       (forall list_, GetTypedRuleContext ctxArgs "ExpressionList" 0 = Some list_ ->
          Forall2 (visits V) (GetTypedRuleContexts list_ "Expression") (elems args) /\
          (GetTypedRuleContexts list_ "Expression" = [] <-> args = None) /\
          names = None /\ identifiers = None) /\
       (forall list_, GetTypedRuleContext ctxArgs "ExpressionList" 0 = None ->
          GetTypedRuleContext ctxArgs "NameValueList" 0 = Some list_ ->
          elems names =
            map AString (map identifierText (GetTypedRuleContexts list_ "NameValue")) /\
          Forall2 (visitsPart V "Expression") (GetTypedRuleContexts list_ "NameValue")
            (elems args) /\
          Forall2 (visitsPart V "Identifier") (GetTypedRuleContexts list_ "NameValue")
            (elems identifiers) /\
          length (elems identifiers) = length (elems names) /\
          length (elems args) = length (elems names)) /\
       (GetTypedRuleContext ctxArgs "ExpressionList" 0 = None ->
        GetTypedRuleContext ctxArgs "NameValueList" 0 = None ->
        args = None /\ names = None /\ identifiers = None)).
Proof.
  split.
  - intros ctx out H. unfold VisitFunctionCall in H.
    apply bind_Ok in H. destruct H as (expression & Ex & H).
    apply bind_Ok in H. destruct H as (ctxArgs & Ec & H). apply assertCtx_Ok in Ec.
    apply bind_Ok in H. destruct H as ([[args names] identifiers] & Ea & H).
    inversion H; subst; clear H.
    assert (Hx : visitsPart V "Expression" ctx (toAny expression))
      by (exists expression; now split).
    destruct (GetTypedRuleContext ctxArgs "ExpressionList" 0) as [el|] eqn:Eel.
    + apply bind_Ok in Ea. destruct Ea as (vs & Evs & Ea). inversion Ea; subst; clear Ea.
      rewrite appendAll_empty_slice.
      eexists _, _, _, _, ctxArgs. split; [reflexivity|]. split; [exact Hx|].
      split; [exact Ec|].
      split; [|split]; intros; try congruence.
      match goal with
        | H : ?a = Some ?x, H' : ?a = Some ?y |- _ =>
            assert (x = y) by congruence; subst; clear H'
        end.
      repeat split. now apply visitAll_Forall2.
    + destruct (GetTypedRuleContext ctxArgs "NameValueList" 0) as [nl|] eqn:Enl.
      * apply bind_Ok in Ea. destruct Ea as ([[vs ns] ids] & El & Ea).
        inversion Ea; subst; clear Ea. rewrite !appendAll_empty_slice.
        destruct (nameValueLoop_aligned V _ _ _ _ El) as (Hv & Hi & -> & Hfa & Hfi).
        eexists _, _, _, _, ctxArgs. split; [reflexivity|]. split; [exact Hx|].
        split; [exact Ec|].
        split; [|split]; intros; try congruence.
        match goal with
        | H : ?a = Some ?x, H' : ?a = Some ?y |- _ =>
            assert (x = y) by congruence; subst; clear H'
        end.
        unfold stringsAsAny. rewrite !length_map.
        split; [reflexivity|]. split; [exact Hfa|]. split; [exact Hfi|].
        split; congruence.
      * inversion Ea; subst; clear Ea.
        eexists _, _, _, _, ctxArgs. split; [reflexivity|]. split; [exact Hx|].
        split; [exact Ec|].
        split; [|split]; intros; try congruence. repeat split.
  - intros rule c0 c1 c2 c3 out T1 T3 H. unfold VisitExpression in H.
    cbn [GetChildren] in H. cbv zeta in H. rewrite T1, T3 in H. simpl andb in H.
    cbv iota in H.
    apply bind_Ok in H. destruct H as (ctxArgs & Ec & H). apply assertCtx_Ok in Ec.
    apply bind_Ok in H. destruct H as ([[args names] identifiers] & Ea & H).
    apply bind_Ok in H. destruct H as (expression & Ex & H).
    inversion H; subst; clear H.
    assert (Hx : visitsPart V "Expression" (Ctx rule [c0; c1; c2; c3]) (toAny expression))
      by (exists expression; now split).
    destruct (GetTypedRuleContext ctxArgs "ExpressionList" 0) as [el|] eqn:Eel.
    + apply bind_Ok in Ea. destruct Ea as (vs & Evs & Ea). inversion Ea; subst; clear Ea.
      eexists _, _, _, _, ctxArgs. split; [reflexivity|]. split; [exact Hx|].
      split; [exact Ec|].
      split; [|split]; intros; try congruence.
      match goal with
        | H : ?a = Some ?x, H' : ?a = Some ?y |- _ =>
            assert (x = y) by congruence; subst; clear H'
        end.
      rewrite elems_appendAll. simpl.
      split; [now apply visitAll_Forall2|]. split; [|now split].
      rewrite appendAll_nil_slice. pose proof (mapM_length _ _ _ Evs) as Hl.
      destruct vs as [|v vs]; split; intros Hn; try reflexivity; try discriminate Hn.
      * destruct (GetTypedRuleContexts list_ "Expression"); [reflexivity|discriminate Hl].
      * rewrite Hn in Hl. discriminate Hl.
    + destruct (GetTypedRuleContext ctxArgs "NameValueList" 0) as [nl|] eqn:Enl.
      * apply bind_Ok in Ea. destruct Ea as ([[vs ns] ids] & El & Ea).
        inversion Ea; subst; clear Ea.
        destruct (nameValueLoop_aligned V _ _ _ _ El) as (Hv & Hi & -> & Hfa & Hfi).
        eexists _, _, _, _, ctxArgs. split; [reflexivity|]. split; [exact Hx|].
        split; [exact Ec|].
        split; [|split]; intros; try congruence.
        match goal with
        | H : ?a = Some ?x, H' : ?a = Some ?y |- _ =>
            assert (x = y) by congruence; subst; clear H'
        end.
        rewrite !elems_appendAll. simpl. unfold stringsAsAny. rewrite !length_map.
        split; [reflexivity|]. split; [exact Hfa|]. split; [exact Hfi|].
        split; congruence.
      * inversion Ea; subst; clear Ea.
        eexists _, _, _, _, ctxArgs. split; [reflexivity|]. split; [exact Hx|].
        split; [exact Ec|].
        split; [|split]; intros; try congruence. repeat split.
Qed.

(** X5 at [f({x: a, y: b})] and [f(a, b)] as expressions and at the
    call [f({x: a})] of an emit statement. *)
Lemma call_arguments_aligned_witness :
  VisitExpression (Visit 4) Sample.callNamed =
    Ok (ONode (Boxed (NodeOf "FunctionCall")
          (FunctionCall
             (Some [ANode (Boxed (mkNode "Identifier" 1) (Identifier "a"));
                    ANode (Boxed (mkNode "Identifier" 1) (Identifier "b"))])
             (Some [AString "x"; AString "y"])
             (Some [ANode (Boxed (mkNode "Identifier" 1) (Identifier "x"));
                    ANode (Boxed (mkNode "Identifier" 1) (Identifier "y"))])
             (ANode (Boxed (mkNode "Identifier" 1) (Identifier "f")))))) /\
  VisitExpression (Visit 4) Sample.callPositional =
    Ok (ONode (Boxed (NodeOf "FunctionCall")
          (FunctionCall
             (Some [ANode (Boxed (mkNode "Identifier" 1) (Identifier "a"));
                    ANode (Boxed (mkNode "Identifier" 1) (Identifier "b"))])
             None None
             (ANode (Boxed (mkNode "Identifier" 1) (Identifier "f")))))) /\
  VisitFunctionCall (Visit 4) Sample.emitCall =
    Ok (ONode (Boxed node0
          (FunctionCall
             (Some [ANode (Boxed (mkNode "Identifier" 1) (Identifier "a"))])
             (Some [AString "x"])
             (Some [ANode (Boxed (mkNode "Identifier" 1) (Identifier "x"))])
             (ANode (Boxed (mkNode "Identifier" 1) (Identifier "f")))))).
Proof.
  destruct (call_arguments_aligned (Visit 4)) as [Hc He].
  split; [|split].
  - destruct (VisitExpression (Visit 4) Sample.callNamed) as [out| |] eqn:E;
      try (vm_compute in E; discriminate E).
    destruct ((fun H1 H3 => He _ _ _ _ _ out H1 H3 E) eq_refl eq_refl)
      as (args & names & ids & e & ctxArgs & -> & (n & En & ->) & Ec & _ & Hn & _).
    vm_compute in En. inversion En; subst; clear En.
    vm_compute in Ec. inversion Ec; subst; clear Ec.
    destruct (Hn _ eq_refl eq_refl) as (Hn1 & Ha & Hi & _).
    change (GetTypedRuleContexts _ "NameValue")
      with [Sample.nameValue "x" "a"; Sample.nameValue "y" "b"] in Ha, Hi.
    destruct names as [names|]; [|discriminate Hn1]. simpl in Hn1. subst names.
    destruct args as [args|]; [|inversion Ha]. simpl in Ha.
    destruct ids as [ids|]; [|inversion Hi]. simpl in Hi.
    inversion Ha as [|? a ? ? (na & Ea & ->) Ha']; subst; clear Ha.
    inversion Ha' as [|? b ? ? (nb & Eb & ->) Ha'']; subst; clear Ha'.
    inversion Ha''; subst; clear Ha''.
    inversion Hi as [|? x ? ? (nx & Ex & ->) Hi']; subst; clear Hi.
    inversion Hi' as [|? y ? ? (ny & Ey & ->) Hi'']; subst; clear Hi'.
    inversion Hi''; subst; clear Hi''.
    vm_compute in Ea. inversion Ea; subst; clear Ea.
    vm_compute in Eb. inversion Eb; subst; clear Eb.
    vm_compute in Ex. inversion Ex; subst; clear Ex.
    vm_compute in Ey. inversion Ey; subst; clear Ey.
    reflexivity.
  - destruct (VisitExpression (Visit 4) Sample.callPositional) as [out| |] eqn:E;
      try (vm_compute in E; discriminate E).
    destruct ((fun H1 H3 => He _ _ _ _ _ out H1 H3 E) eq_refl eq_refl)
      as (args & names & ids & e & ctxArgs & -> & (n & En & ->) & Ec & Hp & _).
    vm_compute in En. inversion En; subst; clear En.
    vm_compute in Ec. inversion Ec; subst; clear Ec.
    destruct (Hp _ eq_refl) as (Ha & _ & -> & ->).
    change (GetTypedRuleContexts _ "Expression")
      with [Sample.eIdent "a"; Sample.eIdent "b"] in Ha.
    destruct args as [args|]; [|inversion Ha]. simpl in Ha.
    inversion Ha as [|? a ? ? (na & Ea & ->) Ha']; subst; clear Ha.
    inversion Ha' as [|? b ? ? (nb & Eb & ->) Ha'']; subst; clear Ha'.
    inversion Ha''; subst; clear Ha''.
    vm_compute in Ea. inversion Ea; subst; clear Ea.
    vm_compute in Eb. inversion Eb; subst; clear Eb.
    reflexivity.
  - destruct (VisitFunctionCall (Visit 4) Sample.emitCall) as [out| |] eqn:E;
      try (vm_compute in E; discriminate E).
    destruct (Hc _ out E)
      as (args & names & ids & e & ctxArgs & -> & (n & En & ->) & Ec & _ & Hn & _).
    vm_compute in En. inversion En; subst; clear En.
    vm_compute in Ec. inversion Ec; subst; clear Ec.
    destruct (Hn _ eq_refl eq_refl) as (-> & Ha & Hi & _).
    change (GetTypedRuleContexts _ "NameValue") with [Sample.nameValue "x" "a"] in Ha, Hi.
    inversion Ha as [|? a ? ? (na & Ea & ->) Ha']; subst; clear Ha.
    inversion Ha'; subst; clear Ha'.
    inversion Hi as [|? x ? ? (nx & Ex & ->) Hi']; subst; clear Hi.
    inversion Hi'; subst; clear Hi'.
    vm_compute in Ea. inversion Ea; subst; clear Ea.
    vm_compute in Ex. inversion Ex; subst; clear Ex.
    reflexivity.
Defined.

(** ** What the traversal cannot convert *)

Lemma Forall2_In_l {A B : Type} (R : A -> B -> Prop) (l : list A) (vs : list B) (x : A) :
  Forall2 R l vs -> In x l -> exists v, In v vs /\ R x v.
Proof.
  induction 1 as [|a b l vs Hab Hf IH]; intros Hin; [contradiction|].
  destruct Hin as [->|Hin].
  - exists b. split; [now left|exact Hab].
  - destruct (IH Hin) as (v & Hv & Hr). exists v. split; [now right|exact Hr].
Qed.

Lemma Visit_Ctx (fuel : nat) (rule : string) (cs : list Tree) :
  Visit (S fuel) (Some (Ctx rule cs)) =
    match lookup ("Visit" ++ rule) (funcMap (Visit fuel)) with
    | None => Panic ("BUG: visit not found " ++ "Visit" ++ rule)
    | Some fd =>
        output <- fd (Ctx rule cs) ;;
        match output with
        | ONil => Ok None
        | OOther => Panic runtimeError
        | ONode ii =>
            if negb (skipNode rule) then Ok (Some (SetTypeName ii rule)) else Ok (Some ii)
        end
    end.
Proof. rewrite Visit_S. apply Visit_step_Ctx. Qed.

(** The builder that the method table holds for a production. *)
Ltac table_entry rule builder fuel :=
  change (lookup ("Visit" ++ rule) (funcMap (Visit fuel)))
    with (Some (builder (Visit fuel))).

Ltac table_entry0 rule builder fuel :=
  change (lookup ("Visit" ++ rule) (funcMap (Visit fuel))) with (Some builder).

Ltac table_entry_in rule builder fuel H :=
  change (lookup ("Visit" ++ rule) (funcMap (Visit fuel)))
    with (Some (builder (Visit fuel))) in H.

Ltac table_entry0_in rule builder fuel H :=
  change (lookup ("Visit" ++ rule) (funcMap (Visit fuel))) with (Some builder) in H.

Ltac no_node H :=
  let out := fresh "out" in
  let E := fresh "E" in
  apply bind_Ok in H; destruct H as (out & E & H);
  repeat match type of E with
         | bind ?m _ = Ok _ =>
             let a := fresh "a" in
             let E' := fresh "E" in
             apply bind_Ok in E; destruct E as (a & E' & E); clear E'
         end;
  inversion E; subst; discriminate H.

(** The visit of one of the inline-assembly productions whose struct
    does not embed [Node] never returns. *)
Lemma assembly_no_return (fuel : nat) (rule : string) (cs : list Tree)
  (r : option INode) :
  In rule assemblyStructs -> Visit fuel (Some (Ctx rule cs)) <> Ok r.
Proof.
  intros Hin H. destruct fuel as [|fuel]; [discriminate H|].
  rewrite Visit_Ctx in H.
  unfold assemblyStructs in Hin. simpl in Hin.
  destruct Hin as [<-|[<-|[<-|[<-|[<-|[<-|[<-|[<-|[<-|[<-|[<-|[<-|[]]]]]]]]]]]]].
  - table_entry_in "InlineAssemblyStatement" VisitInlineAssemblyStatement fuel H.
    unfold VisitInlineAssemblyStatement in H. no_node H.
  - table_entry_in "AssemblyBlock" VisitAssemblyBlock fuel H.
    unfold VisitAssemblyBlock in H. no_node H.
  - table_entry_in "AssemblyCall" VisitAssemblyCall fuel H.
    unfold VisitAssemblyCall in H. no_node H.
  - table_entry0_in "AssemblyLiteral" VisitAssemblyLiteral fuel H.
    unfold VisitAssemblyLiteral in H. no_node H.
  - table_entry_in "AssemblySwitch" VisitAssemblySwitch fuel H.
    unfold VisitAssemblySwitch in H. no_node H.
  - table_entry_in "AssemblyCase" VisitAssemblyCase fuel H.
    unfold VisitAssemblyCase in H. no_node H.
  - table_entry_in "AssemblyLocalDefinition" VisitAssemblyLocalDefinition fuel H.
    unfold VisitAssemblyLocalDefinition in H. no_node H.
  - table_entry_in "AssemblyFunctionDefinition" VisitAssemblyFunctionDefinition fuel H.
    unfold VisitAssemblyFunctionDefinition in H. no_node H.
  - table_entry_in "AssemblyAssignment" VisitAssemblyAssignment fuel H.
    unfold VisitAssemblyAssignment in H. no_node H.
  - table_entry_in "AssemblyFor" VisitAssemblyFor fuel H.
    unfold VisitAssemblyFor in H. no_node H.
  - table_entry_in "AssemblyIf" VisitAssemblyIf fuel H.
    unfold VisitAssemblyIf in H. no_node H.
  - table_entry_in "AssemblyMember" VisitAssemblyMember fuel H.
    unfold VisitAssemblyMember in H. no_node H.
Qed.

(** The visit of a delegating production is the visit of its first
    child, with one unit of fuel less. *)
Lemma delegating_step (fuel : nat) (rule : string) (cs : list Tree) :
  In rule delegating ->
  Visit (S fuel) (Some (Ctx rule cs)) = Visit fuel (GetChild (Ctx rule cs) 0).
Proof.
  intros Hin. rewrite Visit_Ctx.
  unfold delegating in Hin. simpl in Hin.
  destruct Hin as [<-|[<-|[<-|[]]]].
  - table_entry "ContractPart" VisitContractPart fuel. unfold VisitContractPart.
    destruct (Visit fuel (GetChild (Ctx "ContractPart" cs) 0)) as [[n|]| |]; reflexivity.
  - table_entry "Statement" VisitStatement fuel. unfold VisitStatement.
    destruct (Visit fuel (GetChild (Ctx "Statement" cs) 0)) as [[n|]| |]; reflexivity.
  - table_entry "SimpleStatement" VisitSimpleStatement fuel. unfold VisitSimpleStatement.
    destruct (Visit fuel (GetChild (Ctx "SimpleStatement" cs) 0)) as [[n|]| |]; reflexivity.
Qed.

(** X6: inline assembly is not converted.  The traversal of one of the
    inline-assembly productions whose struct does not embed [Node]
    panics, whatever its children, and so does the traversal of a block
    one of whose statements is an inline-assembly statement. *)
Theorem assembly_panics (rule : string) (cs : list Tree) :
  (In rule assemblyStructs -> exists msg, VisitTree (Ctx rule cs) = Panic msg) /\
  (forall stmt cs',
     In stmt (GetTypedRuleContexts (Ctx "Block" cs) "Statement") ->
     GetChild stmt 0 = Some (Ctx "InlineAssemblyStatement" cs') ->
     exists msg, VisitTree (Ctx "Block" cs) = Panic msg).
Proof.
  split.
  - intros Hin. pose proof (VisitTree_total (Ctx rule cs)) as Ht.
    destruct (VisitTree (Ctx rule cs)) as [r|msg|] eqn:E.
    + exfalso. exact (assembly_no_return _ rule cs r Hin E).
    + now exists msg.
    + now destruct Ht.
  - intros stmt cs' Hin Hc. pose proof (VisitTree_total (Ctx "Block" cs)) as Ht.
    destruct (VisitTree (Ctx "Block" cs)) as [r|msg|] eqn:E.
    + exfalso. unfold VisitTree in E. rewrite Visit_Ctx in E.
      table_entry_in "Block" VisitBlock (depth (Ctx "Block" cs)) E.
      unfold VisitBlock in E.
      apply bind_Ok in E. destruct E as (out & E & _).
      apply bind_Ok in E. destruct E as (statements & E & _).
      apply visitAll_Forall2 in E.
      destruct (Forall2_In_l _ _ _ stmt E Hin) as (v & _ & n & Hn & _).
      apply filter_In in Hin. destruct Hin as [_ Hs].
      destruct stmt as [| |r' cs'']; try discriminate Hs. simpl in Hs.
      apply String.eqb_eq in Hs. subst r'.
      destruct (depth (Ctx "Block" cs)) as [|f]; [discriminate Hn|].
      rewrite delegating_step in Hn by (simpl; auto). rewrite Hc in Hn.
      exact (assembly_no_return f "InlineAssemblyStatement" cs' n
               (or_introl eq_refl) Hn).
    + now exists msg.
    + now destruct Ht.
Qed.

(** X6 at [assembly { x }] and at the block [{ assembly { x } }]. *)
Lemma assembly_panics_witness :
  (exists msg, VisitTree Sample.inlineAssembly = Panic msg) /\
  (exists msg, VisitTree Sample.assemblyBody = Panic msg).
Proof.
  split.
  - destruct (assembly_panics "InlineAssemblyStatement"
                [lit "assembly";
                 Ctx "AssemblyBlock" [lit "{"; Ctx "AssemblyItem" [Sample.ident "x"]; lit "}"]])
      as [H _].
    apply H. simpl. auto.
  - destruct (assembly_panics "Block"
                [lit "{"; Ctx "Statement" [Sample.inlineAssembly]; lit "}"]) as [_ H].
    apply (H (Ctx "Statement" [Sample.inlineAssembly])
             [lit "assembly";
              Ctx "AssemblyBlock" [lit "{"; Ctx "AssemblyItem" [Sample.ident "x"]; lit "}"]]).
    + simpl. auto.
    + reflexivity.
Defined.

Lemma typed_Ctx (ctx : Tree) (r : string) (i : nat) (x : Tree) :
  GetTypedRuleContext ctx r i = Some x -> exists cs, x = Ctx r cs.
Proof.
  intros H. apply nth_error_In in H. apply filter_In in H. destruct H as [_ H].
  destruct x as [| |r' cs]; try discriminate H. simpl in H.
  apply String.eqb_eq in H. subst. now exists cs.
Qed.

Lemma Visit_UserDefinedTypeName (fuel : nat) (cs : list Tree) :
  Visit (S fuel) (Some (Ctx "UserDefinedTypeName" cs)) =
    Ok (Some (Boxed (mkNode "UserDefinedTypeName" 1)
                (UserDefinedTypeName (GetText (Ctx "UserDefinedTypeName" cs))))).
Proof. reflexivity. Qed.

Lemma Visit_ExpressionList (fuel : nat) (cs : list Tree) :
  Visit (S fuel) (Some (Ctx "ExpressionList" cs)) =
    Panic "BUG: visit not found VisitExpressionList".
Proof. reflexivity. Qed.

(** X7: base-contract arguments are not converted.  The visit of an
    inheritance specifier with an argument list panics with "BUG: visit
    not found VisitExpressionList", because no builder exists for
    expression lists, and so panics the traversal of a contract that
    has such a specifier; without arguments the specifier holds its
    base name and an empty, non-nil argument list. *)
Theorem InheritanceSpecifier_arguments (fuel : nat) (cs : list Tree) (base : Tree) :
  GetTypedRuleContext (Ctx "InheritanceSpecifier" cs) "UserDefinedTypeName" 0 = Some base ->
  (forall list_,
     GetTypedRuleContext (Ctx "InheritanceSpecifier" cs) "ExpressionList" 0 = Some list_ ->
     Visit (S (S fuel)) (Some (Ctx "InheritanceSpecifier" cs)) =
       Panic "BUG: visit not found VisitExpressionList" /\
     forall contract,
       In (Ctx "InheritanceSpecifier" cs)
          (GetTypedRuleContexts (Ctx "ContractDefinition" contract) "InheritanceSpecifier") ->
       exists msg, VisitTree (Ctx "ContractDefinition" contract) = Panic msg) /\
  (GetTypedRuleContext (Ctx "InheritanceSpecifier" cs) "ExpressionList" 0 = None ->
   Visit (S (S fuel)) (Some (Ctx "InheritanceSpecifier" cs)) =
     Ok (Some (Boxed (mkNode "InheritanceSpecifier" 1)
                 (InheritanceSpecifier
                    (ANode (Boxed (mkNode "UserDefinedTypeName" 1)
                              (UserDefinedTypeName (GetText base))))
                    (Some []))))).
Proof.
  intros Hb. destruct (typed_Ctx _ _ _ _ Hb) as (bs & ->).
  assert (Hstep : forall f list_,
            GetTypedRuleContext (Ctx "InheritanceSpecifier" cs) "ExpressionList" 0 =
              Some list_ ->
            forall r, Visit f (Some (Ctx "InheritanceSpecifier" cs)) <> Ok r).
  { intros f list_ Hl r H. destruct (typed_Ctx _ _ _ _ Hl) as (ls & ->).
    destruct f as [|f]; [discriminate H|]. rewrite Visit_Ctx in H.
    table_entry_in "InheritanceSpecifier" VisitInheritanceSpecifier f H.
    unfold VisitInheritanceSpecifier in H. rewrite Hb, Hl in H.
    destruct f as [|f]; [discriminate H|].
    rewrite Visit_UserDefinedTypeName, Visit_ExpressionList in H. discriminate H. }
  split.
  - intros list_ Hl. split.
    + destruct (typed_Ctx _ _ _ _ Hl) as (ls & ->).
      rewrite Visit_Ctx.
      table_entry "InheritanceSpecifier" VisitInheritanceSpecifier (S fuel).
      unfold VisitInheritanceSpecifier. rewrite Hb, Hl.
      rewrite Visit_UserDefinedTypeName, Visit_ExpressionList. reflexivity.
    + intros contract Hin.
      pose proof (VisitTree_total (Ctx "ContractDefinition" contract)) as Ht.
      destruct (VisitTree (Ctx "ContractDefinition" contract)) as [r|msg|] eqn:E.
      * exfalso. unfold VisitTree in E. rewrite Visit_Ctx in E.
        table_entry_in "ContractDefinition" VisitContractDefinition
          (depth (Ctx "ContractDefinition" contract)) E.
        unfold VisitContractDefinition in E.
        apply bind_Ok in E. destruct E as (out & E & _).
        apply bind_Ok in E. destruct E as (name & _ & E).
        apply bind_Ok in E. destruct E as (kind & _ & E).
        apply bind_Ok in E. destruct E as (subNodes & _ & E).
        apply bind_Ok in E. destruct E as (baseContracts & E & _).
        apply visitAll_Forall2 in E.
        destruct (Forall2_In_l _ _ _ _ E Hin) as (v & _ & n & Hn & _).
        exact (Hstep _ list_ Hl n Hn).
      * now exists msg.
      * now destruct Ht.
  - intros Hn. rewrite Visit_Ctx.
    table_entry "InheritanceSpecifier" VisitInheritanceSpecifier (S fuel).
    unfold VisitInheritanceSpecifier. rewrite Hb, Hn.
    rewrite Visit_UserDefinedTypeName. reflexivity.
Qed.

(** X7 at [B(1)], at [contract A is B(1) {}] and at [B]. *)
Lemma InheritanceSpecifier_arguments_witness :
  VisitTree Sample.inheritanceWithArguments =
    Panic "BUG: visit not found VisitExpressionList" /\
  (exists msg, VisitTree Sample.contractWithArguments = Panic msg) /\
  VisitTree Sample.inheritancePlain =
    Ok (Some (Boxed (mkNode "InheritanceSpecifier" 1)
                (InheritanceSpecifier
                   (ANode (Boxed (mkNode "UserDefinedTypeName" 1) (UserDefinedTypeName "B")))
                   (Some [])))).
Proof.
  split; [|split].
  - destruct (InheritanceSpecifier_arguments 3
                [Ctx "UserDefinedTypeName" [Sample.ident "B"]; lit "(";
                 Ctx "ExpressionList" [Sample.eNum "1"]; lit ")"]
                (Ctx "UserDefinedTypeName" [Sample.ident "B"]) eq_refl) as [H _].
    destruct (H (Ctx "ExpressionList" [Sample.eNum "1"]) eq_refl) as [H1 _]. exact H1.
  - destruct (InheritanceSpecifier_arguments 0
                [Ctx "UserDefinedTypeName" [Sample.ident "B"]; lit "(";
                 Ctx "ExpressionList" [Sample.eNum "1"]; lit ")"]
                (Ctx "UserDefinedTypeName" [Sample.ident "B"]) eq_refl) as [H _].
    destruct (H (Ctx "ExpressionList" [Sample.eNum "1"]) eq_refl) as [_ H2].
    apply H2. simpl. auto.
  - destruct (InheritanceSpecifier_arguments 1
                [Ctx "UserDefinedTypeName" [Sample.ident "B"]]
                (Ctx "UserDefinedTypeName" [Sample.ident "B"]) eq_refl) as [_ H].
    exact (H eq_refl).
Defined.

Lemma Forall2_nth_error {A B : Type} (R : A -> B -> Prop) (l : list A) (vs : list B) :
  Forall2 R l vs ->
  forall i x, nth_error l i = Some x -> exists v, nth_error vs i = Some v /\ R x v.
Proof.
  induction 1 as [|a b l vs Hab Hf IH]; intros i x Hi.
  - destruct i; discriminate Hi.
  - destruct i as [|i]; simpl in Hi.
    + inversion Hi; subst. exists b. split; [reflexivity|exact Hab].
    + exact (IH i x Hi).
Qed.

(** X8: the root of the AST.  When the traversal of a source unit
    returns, the result is a node (never nil) tagged "SourceUnit" whose
    Children hold one entry per child of the parse tree, in order: the
    visit of the child, which is nil for every token (the EOF token at
    the end); and no child is an error node, on which the traversal
    panics. *)
Theorem SourceUnit_children (fuel : nat) (cs : list Tree) (r : option INode) :
  Visit (S fuel) (Some (Ctx "SourceUnit" cs)) = Ok r ->
  exists children,
    r = Some (Boxed (mkNode "SourceUnit" 1) (SourceUnit (Some children))) /\
    Forall2 (visits (Visit fuel)) cs children /\
    length children = length cs /\
    (forall i ty s, nth_error cs i = Some (TerminalNodeImpl ty s) ->
       nth_error children i = Some ANil) /\
    (forall ty s, ~ In (ErrorNodeImpl ty s) cs).
Proof.
  intros H. rewrite Visit_Ctx in H.
  table_entry_in "SourceUnit" VisitSourceUnit fuel H.
  unfold VisitSourceUnit in H. cbn [GetChildren] in H.
  apply bind_Ok in H. destruct H as (out & E & H).
  apply bind_Ok in E. destruct E as (children & E & Eo). inversion Eo; subst; clear Eo.
  simpl in H. inversion H; subst; clear H.
  rewrite appendAll_empty_slice.
  apply visitAll_Forall2 in E.
  exists children. split; [reflexivity|]. split; [exact E|].
  split; [symmetry; exact (Forall2_length E)|]. split.
  - intros i ty s Hi.
    destruct (Forall2_nth_error _ _ _ E i _ Hi) as (v & Hv & n & Hn & ->).
    rewrite Hv. destruct fuel as [|f]; [discriminate Hn|].
    change (Visit (S f) (Some (TerminalNodeImpl ty s))) with (@Ok (option INode) None) in Hn.
    inversion Hn. reflexivity.
  - intros ty s Hin.
    destruct (Forall2_In_l _ _ _ _ E Hin) as (v & _ & n & Hn & _).
    destruct fuel as [|f]; [discriminate Hn|].
    rewrite Visit_S, Visit_step_Error in Hn. discriminate Hn.
Qed.

(** X8 at [contract C { uint a; function foo() public {} }] followed by
    the EOF token: two children, the second one nil. *)
Lemma SourceUnit_children_witness :
  exists contract,
    VisitTree Sample.contractC =
      Ok (Some (Boxed (mkNode "SourceUnit" 1) (SourceUnit (Some [contract; ANil])))).
Proof.
  destruct (VisitTree Sample.contractC) as [r| |] eqn:E;
    try (vm_compute in E; discriminate E).
  destruct (SourceUnit_children (depth Sample.contractC) _ r E)
    as (children & -> & _ & Hl & Ht & _).
  destruct children as [|contract [|eof [|x l]]]; try discriminate Hl.
  specialize (Ht 1 "EOF" "<EOF>" eq_refl). simpl in Ht. inversion Ht; subst.
  exists contract. reflexivity.
Defined.

(** ** Lists of visited children *)

(** X9: the containers hold the visits of their children of the listed
    production, one entry per such child and in source order, in a list
    that is never nil; tokens between them (braces, commas) leave no
    entry; the first visit that panics aborts the builder. *)
Theorem containers_in_order (V : visitor) (ctx : Tree) (out : output) :
  (VisitBlock V ctx = Ok out <->
   exists statements,
     Forall2 (visits V) (GetTypedRuleContexts ctx "Statement") statements /\
     out = ONode (Boxed node0 (Block (Some statements)))) /\
  (VisitEnumDefinition V ctx = Ok out <->
   exists name members,
     GetTypedRuleContext ctx "Identifier" 0 = Some name /\
     Forall2 (visits V) (GetTypedRuleContexts ctx "EnumValue") members /\
     out = ONode (Boxed node0 (EnumDefinition (GetText name) (Some members)))) /\
  (VisitStructDefinition V ctx = Ok out <->
   exists name members,
     GetTypedRuleContext ctx "Identifier" 0 = Some name /\
     Forall2 (visits V) (GetTypedRuleContexts ctx "VariableDeclaration") members /\
     out = ONode (Boxed node0 (StructDefinition (GetText name) (Some members)))) /\
  (VisitContractDefinition V ctx = Ok out <->
   exists name kind subNodes baseContracts,
     GetTypedRuleContext ctx "Identifier" 0 = Some name /\
     GetChild ctx 0 = Some kind /\
     Forall2 (visits V) (GetTypedRuleContexts ctx "ContractPart") subNodes /\
     Forall2 (visits V) (GetTypedRuleContexts ctx "InheritanceSpecifier") baseContracts /\
     out = ONode (Boxed node0
             (ContractDefinition (GetText name) (Some subNodes) (Some baseContracts)
                (GetText kind)))).
Proof.
  split; [|split; [|split]]; split.
  - intros H. unfold VisitBlock in H.
    apply bind_Ok in H. destruct H as (statements & E & H). inversion H; subst; clear H.
    rewrite appendAll_empty_slice. apply visitAll_Forall2 in E.
    exists statements. split; [exact E|reflexivity].
  - intros (statements & E & ->). apply visitAll_Forall2 in E.
    unfold VisitBlock. rewrite E. simpl. now rewrite appendAll_empty_slice.
  - intros H. unfold VisitEnumDefinition in H.
    apply bind_Ok in H. destruct H as (name & En & H).
    apply toText_Ok in En. destruct En as (iden & Ei & ->).
    apply bind_Ok in H. destruct H as (members & E & H). inversion H; subst; clear H.
    rewrite appendAll_empty_slice. apply visitAll_Forall2 in E.
    exists iden, members. split; [exact Ei|]. split; [exact E|reflexivity].
  - intros (name & members & Ei & E & ->). apply visitAll_Forall2 in E.
    unfold VisitEnumDefinition. rewrite Ei, E. simpl. now rewrite appendAll_empty_slice.
  - intros H. unfold VisitStructDefinition in H.
    apply bind_Ok in H. destruct H as (members & E & H).
    apply bind_Ok in H. destruct H as (name & En & H).
    apply toText_Ok in En. destruct En as (iden & Ei & ->).
    inversion H; subst; clear H.
    rewrite appendAll_empty_slice. apply visitAll_Forall2 in E.
    exists iden, members. split; [exact Ei|]. split; [exact E|reflexivity].
  - intros (name & members & Ei & E & ->). apply visitAll_Forall2 in E.
    unfold VisitStructDefinition. rewrite Ei, E. simpl. now rewrite appendAll_empty_slice.
  - intros H. unfold VisitContractDefinition in H.
    apply bind_Ok in H. destruct H as (name & En & H).
    apply toText_Ok in En. destruct En as (iden & Ei & ->).
    apply bind_Ok in H. destruct H as (kind & Ek & H).
    apply toText_Ok in Ek. destruct Ek as (k & Ek & ->).
    apply bind_Ok in H. destruct H as (subNodes & Es & H).
    apply bind_Ok in H. destruct H as (baseContracts & Eb & H).
    inversion H; subst; clear H.
    rewrite !appendAll_empty_slice. apply visitAll_Forall2 in Es, Eb.
    exists iden, k, subNodes, baseContracts. repeat split; assumption.
  - intros (name & kind & subNodes & baseContracts & Ei & Ek & Es & Eb & ->).
    apply visitAll_Forall2 in Es, Eb.
    unfold VisitContractDefinition. rewrite Ei, Ek, Es, Eb. simpl.
    now rewrite !appendAll_empty_slice.
Qed.

(** X9 at the empty block [{}] and at a block with one statement. *)
Lemma containers_in_order_witness :
  VisitBlock (Visit 1) Sample.emptyBlock = Ok (ONode (Boxed node0 (Block (Some [])))) /\
  (exists statement,
     VisitBlock (Visit 2) (Ctx "Block" [lit "{"; Ctx "Statement" [Sample.breakStatement]; lit "}"])
       = Ok (ONode (Boxed node0 (Block (Some [statement]))))).
Proof.
  split.
  - destruct (containers_in_order (Visit 1) Sample.emptyBlock
                (ONode (Boxed node0 (Block (Some []))))) as [[_ H] _].
    apply H. exists []. split; [constructor|reflexivity].
  - destruct (VisitBlock (Visit 2)
                (Ctx "Block" [lit "{"; Ctx "Statement" [Sample.breakStatement]; lit "}"]))
      as [out| |] eqn:E; try (vm_compute in E; discriminate E).
    destruct (containers_in_order (Visit 2)
                (Ctx "Block" [lit "{"; Ctx "Statement" [Sample.breakStatement]; lit "}"]) out)
      as [[H _] _].
    destruct (H E) as (statements & Hf & ->).
    apply Forall2_length in Hf. destruct statements as [|s [|x l]]; try discriminate Hf.
    now exists s.
Defined.

(** X10: the lists and optional parts of a function definition.
    Modifiers is never nil and holds the visits of the modifier
    invocations in order; Parameters holds the visits of the parameters
    in order and is nil exactly when there is none; Body is nil without
    a block; StateMutability is never filled in; ReturnParameters is
    only filled in for the keyword "function" with a returns clause. *)
Theorem FunctionDefinition_lists (V : visitor) (ctx : Tree) (out : output) :
  VisitFunctionDefinition V ctx = Ok out ->
  exists f modList parameterList descr keyword,
    out = ONode (Boxed node0 (FunctionDefinition f)) /\
    GetTypedRuleContext ctx "ModifierList" 0 = Some modList /\
    GetTypedRuleContext ctx "ParameterList" 0 = Some parameterList /\
    GetTypedRuleContext ctx "FunctionDescriptor" 0 = Some descr /\
    GetChild descr 0 = Some keyword /\
    (exists modifiers,
       fd_Modifiers f = Some modifiers /\
       Forall2 (visits V) (GetTypedRuleContexts modList "ModifierInvocation") modifiers) /\
    Forall2 (visits V) (GetTypedRuleContexts parameterList "Parameter")
      (elems (fd_Parameters f)) /\
    (fd_Parameters f = None <-> GetTypedRuleContexts parameterList "Parameter" = []) /\
    fd_StateMutability f = "" /\
    (GetTypedRuleContext ctx "Block" 0 = None -> fd_Body f = ANil) /\
    (forall b, GetTypedRuleContext ctx "Block" 0 = Some b -> visits V b (fd_Body f)) /\
    (GetText keyword <> "function" -> fd_ReturnParameters f = ANil) /\
    (GetTypedRuleContext ctx "ReturnParameters" 0 = None -> fd_ReturnParameters f = ANil) /\
    (GetText keyword = "function" ->
     GetTypedRuleContext ctx "ReturnParameters" 0 <> None ->
     exists s, fd_ReturnParameters f = ASlice s).
Proof.
  intros H. unfold VisitFunctionDefinition in H.
  apply bind_Ok in H. destruct H as (block & Eb & H).
  apply bind_Ok in H. destruct H as (modList & Em & H). apply assertCtx_Ok in Em.
  apply bind_Ok in H. destruct H as (modifiers & Emods & H).
  apply bind_Ok in H. destruct H as (parameterList & Ep & H). apply assertCtx_Ok in Ep.
  apply bind_Ok in H. destruct H as (parameters & Eps & H).
  apply bind_Ok in H. destruct H as (descr & Ed & H). apply assertCtx_Ok in Ed.
  apply bind_Ok in H. destruct H as (kw & Ek & H).
  apply toText_Ok in Ek. destruct Ek as (keyword & Ek & ->).
  apply bind_Ok in H. destruct H as (vars & Ev & H).
  apply bind_Ok in H. destruct H as (override & Eo & H).
  inversion H; subst; clear H.
  apply visitAll_Forall2 in Emods, Eps.
  eexists _, modList, parameterList, descr, keyword.
  split; [reflexivity|]. cbn [fd_Modifiers fd_Parameters fd_StateMutability fd_Body
                               fd_ReturnParameters].
  split; [exact Em|]. split; [exact Ep|]. split; [exact Ed|]. split; [exact Ek|].
  split; [exists modifiers; split; [apply appendAll_empty_slice|exact Emods]|].
  split; [rewrite elems_appendAll; exact Eps|].
  split.
  { rewrite appendAll_nil_slice. apply Forall2_length in Eps.
    destruct parameters; destruct (GetTypedRuleContexts parameterList "Parameter");
      try discriminate Eps; split; intros; try discriminate; reflexivity. }
  split; [reflexivity|].
  split.
  { intros Hn. rewrite Hn in Eb. now inversion Eb. }
  split.
  { intros b Hb. rewrite Hb in Eb.
    apply bind_Ok in Eb. destruct Eb as (n & En & Eb). inversion Eb; subst. now exists n. }
  unfold functionDescriptorSwitch in Ev.
  split; [|split].
  - intros Hk. apply String.eqb_neq in Hk. rewrite Hk in Ev.
    destruct (GetText keyword =? "constructor"); [now inversion Ev|].
    destruct (GetText keyword =? "fallback"); [now inversion Ev|].
    destruct (GetText keyword =? "receive"); now inversion Ev.
  - intros Hn. rewrite Hn in Ev.
    destruct (GetText keyword =? "constructor"); [now inversion Ev|].
    destruct (GetText keyword =? "fallback"); [now inversion Ev|].
    destruct (GetText keyword =? "receive"); [now inversion Ev|].
    destruct (GetText keyword =? "function"); [|now inversion Ev].
    apply bind_Ok in Ev. destruct Ev as (name & _ & Ev). simpl in Ev. now inversion Ev.
  - intros Hk Hr. rewrite Hk in Ev. simpl in Ev.
    apply bind_Ok in Ev. destruct Ev as (name & _ & Ev).
    apply bind_Ok in Ev. destruct Ev as (ret & Er & Ev). inversion Ev; subst; clear Ev.
    destruct (GetTypedRuleContext ctx "ReturnParameters" 0); [|now destruct Hr].
    apply bind_Ok in Er. destruct Er as (s & _ & Er). inversion Er; subst.
    now exists s.
Qed.

(** X10 at [function foo() public {}]: no parameter, so Parameters is
    nil, and Modifiers is empty but not nil. *)
Lemma FunctionDefinition_lists_witness :
  exists f,
    VisitFunctionDefinition (Visit 2) Sample.functionFoo =
      Ok (ONode (Boxed node0 (FunctionDefinition f))) /\
    fd_Parameters f = None /\ fd_Modifiers f = Some [] /\ fd_StateMutability f = "" /\
    fd_ReturnParameters f = ANil.
Proof.
  destruct (VisitFunctionDefinition (Visit 2) Sample.functionFoo) as [out| |] eqn:E;
    try (vm_compute in E; discriminate E).
  destruct (FunctionDefinition_lists (Visit 2) Sample.functionFoo out E)
    as (f & modList & parameterList & descr & keyword & -> & Em & Ep & _ & _ &
        (modifiers & Hm & Hf) & _ & Hp & Hs & _ & _ & _ & Hr & _).
  vm_compute in Em. inversion Em; subst; clear Em.
  vm_compute in Ep. inversion Ep; subst; clear Ep.
  exists f. split; [reflexivity|]. split; [apply Hp; reflexivity|].
  split; [|split; [exact Hs|exact (Hr eq_refl)]].
  inversion Hf; subst. exact Hm.
Defined.

(** ** Suppressed productions and the depth of the calls *)

(** X11: the productions ContractPart, Statement and SimpleStatement,
    and a generic expression with a single child, are transparent: the
    traversal of such a context is the traversal of its first child,
    result or panic alike, and the remaining children are ignored;
    without any child the traversal panics. *)
Theorem delegating_transparent (rule : string) (c : Tree) (cs : list Tree) :
  (In rule delegating ->
   VisitTree (Ctx rule (c :: cs)) = VisitTree c /\
   VisitTree (Ctx rule []) = Panic runtimeError) /\
  VisitTree (Ctx "Expression" [c]) = VisitTree c.
Proof.
  split.
  - intros Hin. split.
    + unfold VisitTree at 1. rewrite delegating_step by exact Hin.
      cbn [GetChild GetChildren nth_error].
      apply Visit_fuel. apply depth_In. simpl. auto.
    + unfold VisitTree. rewrite delegating_step by exact Hin. reflexivity.
  - unfold VisitTree at 1. rewrite Visit_Ctx.
    table_entry "Expression" VisitExpression (depth (Ctx "Expression" [c])).
    unfold VisitExpression. cbn [GetChildren]. cbv zeta.
    rewrite (Visit_fuel (depth (Ctx "Expression" [c])) c)
      by (apply depth_In; simpl; auto).
    destruct (VisitTree c) as [[n|]| |]; reflexivity.
Qed.

(** X11 at the statement [break;]. *)
Lemma delegating_transparent_witness :
  VisitTree (Ctx "Statement" [Sample.breakStatement]) =
    Ok (Some (Boxed (mkNode "BreakStatement" 1) BreakStatement)).
Proof.
  destruct (delegating_transparent "Statement" Sample.breakStatement []) as [H _].
  destruct H as [H _]; [simpl; auto|]. rewrite H. reflexivity.
Defined.

(** X12: the traversal ends on every parse tree.  The calls of [Visit]
    only descend into sub-trees: a bound on the depth of the calls
    above the depth of the tree is never reached, and every such bound
    gives the same result or the same panic. *)
Theorem Visit_terminates (t : Tree) (fuel : nat) :
  depth t < fuel ->
  Visit fuel (Some t) = VisitTree t /\
  VisitTree t <> OutOfFuel /\
  forall fuel', depth t < fuel' -> Visit fuel' (Some t) = Visit fuel (Some t).
Proof.
  intros H.
  destruct (Visit_settled fuel (S (depth t)) t H (Nat.lt_succ_diag_r _)) as [E Hn].
  split; [exact E|]. split.
  - unfold VisitTree. now rewrite <- E.
  - intros fuel' H'.
    destruct (Visit_settled fuel' fuel t H' H) as [E' _]. exact E'.
Qed.

(** X12 at [contract C { uint a; function foo() public {} }], of depth
    6, with a bound of 100 calls. *)
Lemma Visit_terminates_witness :
  Visit 100 (Some Sample.contractC) = VisitTree Sample.contractC /\
  VisitTree Sample.contractC <> OutOfFuel.
Proof.
  destruct (Visit_terminates Sample.contractC 100) as (H1 & H2 & _).
  - vm_compute. lia.
  - split; [exact H1|exact H2].
Defined.

(** ** The delimiters of literals *)

Lemma withoutQuotes_quoted (q q' : ascii) (s : string) :
  withoutQuotes (quoted q s q') = Ok s.
Proof.
  unfold withoutQuotes, quoted.
  assert (Hl : String.length (String q (s ++ String q' "")) = S (S (String.length s))).
  { simpl. rewrite string_length_append. simpl. lia. }
  rewrite Hl. simpl Nat.leb. cbv iota.
  replace (S (S (String.length s)) - 2) with (String.length s) by lia.
  simpl substring. now rewrite substring_append_l.
Qed.

Lemma TrimPrefix_unicode (t : string) : TrimPrefix ("unicode" ++ t) "unicode" = t.
Proof.
  unfold TrimPrefix, HasPrefix.
  replace (prefix "unicode" ("unicode" ++ t)) with true by (simpl; now destruct t).
  simpl. rewrite Nat.sub_0_r. apply substring_all.
Qed.

Lemma TrimPrefix_hex (t : string) : TrimPrefix ("hex" ++ t) "hex" = t.
Proof.
  unfold TrimPrefix, HasPrefix.
  replace (prefix "hex" ("hex" ++ t)) with true by (simpl; now destruct t).
  simpl. rewrite Nat.sub_0_r. apply substring_all.
Qed.

Lemma stringFragment_fragmentOf (tok : Tree) (pf : string * bool) :
  fragmentOf tok pf -> stringFragment tok = Ok pf.
Proof.
  intros (q & q' & [(Hf & Ht & Hp)|(Hf & Ht)]); destruct pf as [part flag];
    cbn [fst snd] in *; subst flag; unfold stringFragment; cbv zeta.
  - rewrite Hp, Ht, withoutQuotes_quoted. reflexivity.
  - rewrite Ht.
    assert (Hp : HasPrefix ("unicode" ++ quoted q part q') "unicode" = true).
    { unfold HasPrefix. simpl. now destruct (quoted q part q'). }
    rewrite Hp, TrimPrefix_unicode, withoutQuotes_quoted. reflexivity.
Qed.

Lemma stringFragments_fragmentOf (toks : list Tree) (pfs : list (string * bool)) :
  Forall2 fragmentOf toks pfs -> mapM stringFragment toks = Ok pfs.
Proof.
  induction 1 as [|tok pf toks pfs Hf _ IH]; simpl; [reflexivity|].
  rewrite (stringFragment_fragmentOf _ _ Hf). simpl. rewrite IH. reflexivity.
Qed.

Lemma stringFragment_cases (t : Tree) :
  (exists pf, stringFragment t = Ok pf) \/ stringFragment t = Panic runtimeError.
Proof.
  unfold stringFragment, withoutQuotes. cbv zeta.
  destruct (Nat.leb _ _); simpl; [left; eexists; reflexivity|now right].
Qed.

Lemma stringFragment_short (t : Tree) :
  String.length (GetText t) < 2 -> stringFragment t = Panic runtimeError.
Proof.
  intros Hl. unfold stringFragment. cbv zeta.
  assert (Hu : HasPrefix (GetText t) "unicode" = false).
  { unfold HasPrefix. destruct (GetText t) as [|a [|b r]];
      [reflexivity| |simpl in Hl; lia].
    change (prefix "unicode" (String a ""))
      with (if ascii_dec "u" a then prefix "nicode" "" else false).
    now destruct (ascii_dec "u" a). }
  rewrite Hu. unfold withoutQuotes. apply Nat.leb_gt in Hl. now rewrite Hl.
Qed.

(** X13: string literals lose their delimiters, whatever the quote.
    When every fragment of a string literal is a text between two
    one-byte delimiters, possibly after the prefix "unicode", the
    literal node holds the texts between the delimiters as Parts, their
    concatenation as Value, and the flags of the prefixes as IsUnicode;
    a fragment of fewer than two bytes aborts the builder. *)
Theorem StringLiteral_delimiters (V : visitor) (ctx expr : Tree) :
  GetToken ctx "BooleanLiteral" 0 = None ->
  GetTypedRuleContext ctx "HexLiteral" 0 = None ->
  GetTypedRuleContext ctx "StringLiteral" 0 = Some expr ->
  (forall pfs,
     Forall2 fragmentOf (GetTokens expr "StringLiteralFragment") pfs ->
     VisitPrimaryExpression V ctx =
       Ok (ONode (Boxed (NodeOf "StringLiteral")
             (StringLiteral (Join (map fst pfs)) (Some (map fst pfs)) (Some (map snd pfs)))))) /\
  (forall tok,
     In tok (GetTokens expr "StringLiteralFragment") ->
     String.length (GetText tok) < 2 ->
     VisitPrimaryExpression V ctx = Panic runtimeError).
Proof.
  intros Hb Hh Hs. split.
  - intros pfs Hf. unfold VisitPrimaryExpression. rewrite Hb, Hh, Hs.
    rewrite (stringFragments_fragmentOf _ _ Hf). simpl.
    now rewrite !appendAll_empty_slice.
  - intros tok Hin Hl. unfold VisitPrimaryExpression. rewrite Hb, Hh, Hs.
    assert (Hm : mapM stringFragment (GetTokens expr "StringLiteralFragment") =
                 Panic runtimeError).
    { induction (GetTokens expr "StringLiteralFragment") as [|t l IH]; [contradiction|].
      simpl. destruct Hin as [->|Hin].
      - now rewrite (stringFragment_short _ Hl).
      - specialize (IH Hin).
        destruct (stringFragment_cases t) as [(pf & ->)| ->]; simpl; [|reflexivity].
        now rewrite IH. }
    rewrite Hm. reflexivity.
Qed.

(** X13 at [unicode"Hi" 'x']. *)
Lemma StringLiteral_delimiters_witness :
  VisitPrimaryExpression (Visit 1) Sample.stringLiteralMixed =
    Ok (ONode (Boxed (NodeOf "StringLiteral")
          (StringLiteral "Hix" (Some ["Hi"; "x"]) (Some [true; false])))).
Proof.
  destruct (StringLiteral_delimiters (Visit 1) Sample.stringLiteralMixed
              (Ctx "StringLiteral"
                 [TerminalNodeImpl "StringLiteralFragment"
                    ("unicode" ++ dquote ++ "Hi" ++ dquote)%string;
                  TerminalNodeImpl "StringLiteralFragment" "'x'"])
              eq_refl eq_refl eq_refl) as [H _].
  apply (H [("Hi", true); ("x", false)]).
  constructor; [|constructor; [|constructor]].
  - exists (ascii_of_nat 34), (ascii_of_nat 34). right. split; reflexivity.
  - exists "'"%char, "'"%char. left. repeat split.
Defined.

Lemma TrimRight_kept (s : string) (c : ascii) (cutset : string) :
  inCutset c cutset = false ->
  TrimRight (s ++ String c "") cutset = (s ++ String c "")%string.
Proof.
  intros Hc. induction s as [|a s IH]; simpl.
  - now rewrite Hc.
  - rewrite IH. destruct (s ++ String c "")%string eqn:E; [|reflexivity].
    destruct s; discriminate E.
Qed.

Lemma TrimRight_quoteFree (s : string) :
  quoteFree s = true -> TrimRight (s ++ dquote) dquote = s.
Proof.
  induction s as [|a s IH]; intros H; simpl in *; [reflexivity|].
  apply andb_true_iff in H. destruct H as [Ha Hs].
  rewrite (IH Hs). apply negb_true_iff in Ha.
  destruct s; [|reflexivity].
  unfold inCutset, dquote in Ha. now rewrite Ha.
Qed.

Lemma Trim_double_quoted (s : string) :
  quoteFree s = true -> Trim (dquote ++ s ++ dquote) dquote = s.
Proof.
  intros H. unfold Trim.
  assert (Hl : TrimLeft (dquote ++ s ++ dquote) dquote = (s ++ dquote)%string
               \/ s = EmptyString).
  { destruct s as [|a s]; [now right|left].
    simpl in H. apply andb_true_iff in H. destruct H as [Ha _].
    apply negb_true_iff in Ha. simpl. unfold dquote in Ha. simpl in Ha.
    now rewrite Ha. }
  destruct Hl as [Hl| ->]; [|reflexivity].
  rewrite Hl. now apply TrimRight_quoteFree.
Qed.

Lemma Trim_single_quoted (s : string) :
  Trim ("'" ++ s ++ "'") dquote = ("'" ++ s ++ "'")%string.
Proof.
  unfold Trim. change (TrimLeft ("'" ++ s ++ "'") dquote) with ("'" ++ s ++ "'")%string.
  change ("'" ++ s ++ "'")%string with (("'" ++ s) ++ String "'" "")%string.
  apply TrimRight_kept. reflexivity.
Qed.

Lemma hexFragment_hexPartOf (tok : Tree) (part : string) :
  hexPartOf tok part -> hexFragment tok = part.
Proof.
  intros (digits & [(Ht & Hq & ->)|(Ht & ->)]); unfold hexFragment; rewrite Ht.
  - rewrite TrimPrefix_hex. now apply Trim_double_quoted.
  - change ("hex'" ++ digits ++ "'")%string with ("hex" ++ "'" ++ digits ++ "'")%string.
    rewrite TrimPrefix_hex. apply Trim_single_quoted.
Qed.

(** X14: only double quotes are trimmed from hex literals and import
    paths.  A hex fragment [hex"..."] leaves its digits in Parts, but a
    single-quoted fragment [hex'...'] leaves the digits with their
    quotes; likewise the Path of an import is the text between double
    quotes, but a single-quoted path keeps its quotes. *)
Theorem double_quotes_only (V : visitor) (ctx : Tree) :
  (forall parts,
     Forall2 hexPartOf (GetTokens ctx "HexLiteralFragment") parts ->
     VisitHexLiteral ctx = Ok (ONode (Boxed node0 (HexLiteral (Join parts) (Some parts))))) /\
  (forall out,
     VisitImportDirective V ctx = Ok out ->
     exists d path,
       out = ONode (Boxed node0 (ImportDirective d)) /\
       GetTypedRuleContext ctx "ImportPath" 0 = Some path /\
       (forall s, GetText path = (dquote ++ s ++ dquote)%string -> quoteFree s = true ->
          id_Path d = s) /\
       (forall s, GetText path = ("'" ++ s ++ "'")%string ->
          id_Path d = ("'" ++ s ++ "'")%string)).
Proof.
  split.
  - intros parts Hf. unfold VisitHexLiteral. cbv zeta.
    assert (Hm : map hexFragment (GetTokens ctx "HexLiteralFragment") = parts).
    { induction Hf as [|tok part toks parts Hp _ IH]; simpl; [reflexivity|].
      now rewrite (hexFragment_hexPartOf _ _ Hp), IH. }
    rewrite Hm, appendAll_empty_slice. reflexivity.
  - intros out H. unfold VisitImportDirective in H.
    apply bind_Ok in H. destruct H as (pathString & Ep & H).
    apply toText_Ok in Ep. destruct Ep as (path & Ep & ->). cbv zeta in H.
    apply bind_Ok in H. destruct H as ([[[ua uai] sa] sai] & _ & H).
    inversion H; subst; clear H.
    eexists _, path. split; [reflexivity|]. split; [exact Ep|].
    cbn [id_Path]. split.
    + intros s -> Hq. now apply Trim_double_quoted.
    + intros s ->. apply Trim_single_quoted.
Qed.

(** X14 at [hex"fa" hex"fb"], [hex'fa'] and [import 'f';]. *)
Lemma double_quotes_only_witness :
  VisitHexLiteral Sample.hexLiteral =
    Ok (ONode (Boxed node0 (HexLiteral "fafb" (Some ["fa"; "fb"])))) /\
  VisitHexLiteral Sample.hexLiteralSingle =
    Ok (ONode (Boxed node0 (HexLiteral "'fa'" (Some ["'fa'"])))) /\
  (exists d,
     VisitImportDirective (Visit 2) Sample.importSingle =
       Ok (ONode (Boxed node0 (ImportDirective d))) /\
     id_Path d = "'f'").
Proof.
  split; [|split].
  - destruct (double_quotes_only (Visit 1) Sample.hexLiteral) as [H _].
    apply (H ["fa"; "fb"]).
    constructor; [|constructor; [|constructor]]; eexists; left; repeat split.
  - destruct (double_quotes_only (Visit 1) Sample.hexLiteralSingle) as [H _].
    apply (H ["'fa'"]).
    constructor; [|constructor]. exists "fa". right. split; reflexivity.
  - destruct (VisitImportDirective (Visit 2) Sample.importSingle) as [out| |] eqn:E;
      try (vm_compute in E; discriminate E).
    destruct (double_quotes_only (Visit 2) Sample.importSingle) as [_ H].
    destruct (H out E) as (d & path & -> & Ep & _ & Hs).
    vm_compute in Ep. inversion Ep; subst; clear Ep.
    exists d. split; [reflexivity|]. exact (Hs "f" eq_refl).
Defined.

(** ** Operators, state variables, events and type names *)

(** X15: operators come from the tables.  Outside the single-child
    form, a generic expression that yields a BinaryOperation has three
    children and an operator, the text of the middle child, from
    [binaryOps]; one that yields a UnaryOperation has two children and
    an operator from [unaryOps] (prefix, the text of the first child)
    or from [postFixOps] (postfix, the text of the second child); and a
    context with no child or with more than six aborts with "TODO". *)
Theorem VisitExpression_operators (V : visitor) (rule : string) (cs : list Tree) :
  (length cs = 0 \/ 6 < length cs -> VisitExpression V (Ctx rule cs) = Panic "TODO") /\
  (forall node op left right,
     length cs <> 1 ->
     VisitExpression V (Ctx rule cs) = Ok (ONode (Boxed node (BinaryOperation op left right))) ->
     contains binaryOps op = true /\
     exists c0 c1 c2, cs = [c0; c1; c2] /\ op = GetText c1 /\ op <> ".") /\
  (forall node op sub isPrefix,
     length cs <> 1 ->
     VisitExpression V (Ctx rule cs) =
       Ok (ONode (Boxed node (UnaryOperation op sub isPrefix))) ->
     exists c0 c1,
       cs = [c0; c1] /\
       (isPrefix = true -> op = GetText c0 /\ contains unaryOps op = true) /\
       (isPrefix = false ->
          op = GetText c1 /\ contains postFixOps op = true /\
          contains unaryOps (GetText c0) = false)).
Proof.
  split; [|split].
  - intros [H|H]; unfold VisitExpression; cbn [GetChildren]; cbv zeta.
    + destruct cs; [reflexivity|discriminate H].
    + destruct cs as [|c0 [|c1 [|c2 [|c3 [|c4 [|c5 [|c6 cs]]]]]]]; simpl in H; try lia.
      reflexivity.
  - intros node op left right Hl H. unfold VisitExpression in H.
    cbn [GetChildren] in H. cbv zeta in H.
    destruct cs as [|c0 [|c1 [|c2 [|c3 [|c4 [|c5 [|c6 cs]]]]]]];
      try discriminate H; try (now destruct Hl).
    + inv_runs.
    + destruct ((GetText c0 =? "(") && (GetText c2 =? ")")); [inv_runs|].
      destruct (GetText c1 =? ".") eqn:Ed; [inv_runs|].
      destruct (contains binaryOps (GetText c1)) eqn:Ec; [|discriminate H].
      inv_runs. split; [exact Ec|].
      exists c0, c1, c2. repeat split. now apply String.eqb_neq.
    + inv_runs.
    + inv_runs.
    + inv_runs.
  - intros node op sub isPrefix Hl H. unfold VisitExpression in H.
    cbn [GetChildren] in H. cbv zeta in H.
    destruct cs as [|c0 [|c1 [|c2 [|c3 [|c4 [|c5 [|c6 cs]]]]]]];
      try discriminate H; try (now destruct Hl).
    + destruct (GetText c0 =? "new"); [inv_runs|].
      destruct (contains unaryOps (GetText c0)) eqn:Eu.
      * inv_runs. exists c0, c1. repeat split; try discriminate. exact Eu.
      * destruct (contains postFixOps (GetText c1)) eqn:Ep; [|discriminate H].
        inv_runs. exists c0, c1. repeat split; try discriminate; assumption.
    + inv_runs.
    + inv_runs.
    + inv_runs.
    + inv_runs.
Qed.

(** X15 at [a + b], [!a], [i++] and, with an operator outside the
    tables, [a ? b]. *)
Lemma VisitExpression_operators_witness :
  (exists left right,
     VisitExpression (Visit 3) Sample.binaryPlus =
       Ok (ONode (Boxed (NodeOf "BinaryOperation") (BinaryOperation "+" left right)))) /\
  VisitExpression (Visit 3) (Ctx "Expression" []) = Panic "TODO" /\
  VisitExpression (Visit 3) Sample.unknownOperator = Panic "TODO".
Proof.
  split; [|split].
  - destruct (VisitExpression (Visit 3) Sample.binaryPlus) as [[|[node s]|]| |] eqn:E;
      try (vm_compute in E; discriminate E).
    destruct s; try (vm_compute in E; discriminate E).
    destruct (VisitExpression_operators (Visit 3) "Expression"
                [Sample.eIdent "a"; lit "+"; Sample.eIdent "b"]) as (_ & H & _).
    destruct (H node Operator Left Right) as (_ & c0 & c1 & c2 & Hc & -> & _);
      [discriminate|exact E|].
    inversion Hc; subst.
    assert (node = NodeOf "BinaryOperation") by (vm_compute in E; now inversion E).
    subst node. exists Left, Right. reflexivity.
  - destruct (VisitExpression_operators (Visit 3) "Expression" []) as (H & _).
    apply H. now left.
  - reflexivity.
Defined.

(** X16: a state variable declaration always holds exactly one
    variable, tagged "VariableDeclaration" at construction and marked
    as a state variable, and never an InitialValue of its own: the
    initial value is the Expression of the variable, nil without one.
    The visibility is the first of internal, public, private that the
    declaration holds, "default" without any; the constant and
    immutable flags tell whether the keywords occur. *)
Theorem StateVariableDeclaration_variable (V : visitor) (ctx : Tree) (out : output) :
  VisitStateVariableDeclaration V ctx = Ok out ->
  exists v immutable name,
    out = ONode (Boxed node0 (StateVariableDeclaration
            (Some [ANode (Boxed (NodeOf "VariableDeclaration")
                            (StateVariableDeclarationVariable v immutable))]) ANil)) /\
    GetTypedRuleContext ctx "Identifier" 0 = Some name /\
    vd_Name v = GetText name /\
    visits V name (vd_Identifier v) /\
    vd_IsStateVar v = true /\
    vd_IsDeclaredConst v = hasElem (GetTokens ctx "ConstantKeyword") /\
    immutable = hasElem (GetTokens ctx "ImmutableKeyword") /\
    vd_Visibility v =
      firstKeyword ctx [("InternalKeyword", "internal"); ("PublicKeyword", "public");
                        ("PrivateKeyword", "private")] /\
    (GetTypedRuleContext ctx "Expression" 0 = None -> vd_Expression v = ANil) /\
    (forall e, GetTypedRuleContext ctx "Expression" 0 = Some e ->
       visits V e (vd_Expression v)).
Proof.
  intros H. unfold VisitStateVariableDeclaration in H. cbv zeta in H.
  apply bind_Ok in H. destruct H as (override & _ & H).
  apply bind_Ok in H. destruct H as (name & En & H).
  apply toText_Ok in En. destruct En as (iden & Ei & ->).
  apply bind_Ok in H. destruct H as (typeName & _ & H).
  apply bind_Ok in H. destruct H as (identifier & Eid & H).
  apply bind_Ok in H. destruct H as (expression & Ee & H).
  inversion H; subst; clear H.
  eexists _, _, iden. split; [reflexivity|]. cbn [vd_Name vd_Identifier vd_IsStateVar
    vd_IsDeclaredConst vd_Visibility vd_Expression].
  split; [exact Ei|]. split; [reflexivity|].
  split; [rewrite Ei in Eid; now exists identifier|].
  split; [reflexivity|]. split; [reflexivity|]. split; [reflexivity|].
  split; [reflexivity|]. split.
  - intros Hn. rewrite Hn in Ee. now inversion Ee.
  - intros e He. rewrite He in Ee.
    apply bind_Ok in Ee. destruct Ee as (n & En & Ee). inversion Ee; subst. now exists n.
Qed.

(** X16 at [uint public constant a = 1;]. *)
Lemma StateVariableDeclaration_variable_witness :
  exists v,
    VisitStateVariableDeclaration (Visit 4) Sample.stateVariableConstant =
      Ok (ONode (Boxed node0 (StateVariableDeclaration
            (Some [ANode (Boxed (NodeOf "VariableDeclaration")
                            (StateVariableDeclarationVariable v false))]) ANil))) /\
    vd_Name v = "a" /\ vd_Visibility v = "public" /\ vd_IsDeclaredConst v = true /\
    vd_Expression v <> ANil.
Proof.
  destruct (VisitStateVariableDeclaration (Visit 4) Sample.stateVariableConstant)
    as [out| |] eqn:E; try (vm_compute in E; discriminate E).
  destruct (StateVariableDeclaration_variable (Visit 4) Sample.stateVariableConstant out E)
    as (v & immutable & name & -> & Hn & Hname & _ & _ & Hc & Hi & Hv & _ & He).
  vm_compute in Hn. inversion Hn; subst; clear Hn.
  change (hasElem (GetTokens Sample.stateVariableConstant "ImmutableKeyword"))
    with false.
  exists v. split; [reflexivity|]. split; [exact Hname|]. split; [exact Hv|].
  split; [exact Hc|].
  destruct (He (Sample.eNum "1") eq_refl) as (n & Hvis & ->).
  vm_compute in Hvis. inversion Hvis; subst. discriminate.
Defined.

Lemma eventParameterLoop_Forall2 (V : visitor) (paramsList : list Tree)
  (vs : list (any INode)) :
  eventParameterLoop V paramsList = Ok vs ->
  Forall2 (declaresEventParameter V) paramsList vs.
Proof.
  revert vs. induction paramsList as [|param rest IH]; intros vs H; simpl in H.
  - inversion H. constructor.
  - apply bind_Ok in H. destruct H as ([name identifier] & Eni & H).
    apply bind_Ok in H. destruct H as (typeName & Et & H).
    cbv zeta in H.
    apply bind_Ok in H. destruct H as (vs' & Evs & H). inversion H; subst; clear H.
    constructor; [|now apply IH].
    exists typeName, identifier. split; [exact Et|].
    unfold identifierText.
    destruct (GetTypedRuleContext param "Identifier" 0) as [iden|] eqn:Ei.
    + simpl in Eni. apply bind_Ok in Eni. destruct Eni as (n & Ev & Eni).
      inversion Eni; subst.
      split; [now exists n|].
      destruct (GetToken param "IndexedKeyword" 0) eqn:Ek;
        unfold GetToken in Ek; destruct (GetTokens param "IndexedKeyword");
        try discriminate Ek; reflexivity.
    + inversion Eni; subst. split; [reflexivity|].
      destruct (GetToken param "IndexedKeyword" 0) eqn:Ek;
        unfold GetToken in Ek; destruct (GetTokens param "IndexedKeyword");
        try discriminate Ek; reflexivity.
Qed.

(** X17: an event definition holds one VariableDeclaration per event
    parameter, in order and in a list that is never nil: each is tagged
    at construction, named by its identifier (empty without one),
    indexed exactly when the parameter carries the keyword, and holds
    the visited type name. *)
Theorem EventDefinition_parameters (V : visitor) (ctx : Tree) (out : output) :
  VisitEventDefinition V ctx = Ok out ->
  exists name list_ parameters,
    out = ONode (Boxed node0 (EventDefinition (GetText name) (Some parameters))) /\
    GetTypedRuleContext ctx "Identifier" 0 = Some name /\
    GetTypedRuleContext ctx "EventParameterList" 0 = Some list_ /\
    Forall2 (declaresEventParameter V) (GetTypedRuleContexts list_ "EventParameter")
      parameters.
Proof.
  intros H. unfold VisitEventDefinition in H.
  apply bind_Ok in H. destruct H as (name & En & H).
  apply toText_Ok in En. destruct En as (iden & Ei & ->).
  apply bind_Ok in H. destruct H as (list_ & El & H). apply assertCtx_Ok in El.
  apply bind_Ok in H. destruct H as (parameters & Ep & H). inversion H; subst; clear H.
  rewrite appendAll_empty_slice.
  exists iden, list_, parameters. split; [reflexivity|]. split; [exact Ei|].
  split; [exact El|]. now apply eventParameterLoop_Forall2.
Qed.

(** X17 at [event E(uint indexed a, uint);]: two parameters, the first
    one indexed and named [a], the second one without a name. *)
Lemma EventDefinition_parameters_witness :
  exists a b,
    VisitEventDefinition (Visit 3) Sample.eventE =
      Ok (ONode (Boxed node0
            (EventDefinition "E"
               (Some [ANode (Boxed (NodeOf "VariableDeclaration") (VariableDeclaration a));
                      ANode (Boxed (NodeOf "VariableDeclaration") (VariableDeclaration b))])))) /\
    vd_Name a = "a" /\ vd_IsIndexed a = true /\ vd_Name b = "" /\ vd_IsIndexed b = false.
Proof.
  destruct (VisitEventDefinition (Visit 3) Sample.eventE) as [out| |] eqn:E;
    try (vm_compute in E; discriminate E).
  destruct (EventDefinition_parameters (Visit 3) Sample.eventE out E)
    as (name & list_ & parameters & -> & Hn & Hl & Hf).
  vm_compute in Hn. inversion Hn; subst; clear Hn.
  vm_compute in Hl. inversion Hl; subst; clear Hl.
  inversion Hf as [|? a ? ps (ta & ia & _ & _ & ->) Hf1]; subst.
  inversion Hf1 as [|? b ? ps' (tb & ib & _ & _ & ->) Hf2]; subst.
  inversion Hf2; subst.
  eexists _, _. split; [reflexivity|]. repeat split.
Defined.

(** X18: the shapes of a type name.  With more than two children it is
    an array: the Length is the visited expression when there are
    exactly four children (and the builder aborts with "BAD" when they
    hold no expression) and nil otherwise.  With exactly two children
    it is an ElementaryTypeName made of the two texts, without any
    visit.  With fewer children the builder hands on the visit of the
    first of elementary, user-defined, mapping and function type name
    that it holds, and aborts with "TODO" when it holds none. *)
Theorem VisitTypeName_shapes (V : visitor) (ctx : Tree) :
  (forall out, 2 < GetChildCount ctx -> VisitTypeName V ctx = Ok out ->
     exists base length_,
       out = ONode (Boxed (NodeOf "ArrayTypeName") (ArrayTypeName (toAny base) length_)) /\
       V (GetTypedRuleContext ctx "TypeName" 0) = Ok base /\
       (GetChildCount ctx <> 4 -> length_ = ANil) /\
       (GetChildCount ctx = 4 ->
        exists e, GetTypedRuleContext ctx "Expression" 0 = Some e /\ visits V e length_)) /\
  (GetChildCount ctx = 4 -> GetTypedRuleContext ctx "Expression" 0 = None ->
   VisitTypeName V ctx = Panic "BAD") /\
  (forall c0 c1, GetChildren ctx = [c0; c1] ->
     VisitTypeName V ctx =
       Ok (ONode (Boxed (NodeOf "ElementaryTypeName")
             (ElementaryTypeName (GetText c0) (GetText c1))))) /\
  (GetChildCount ctx < 2 ->
   GetTypedRuleContext ctx "ElementaryTypeName" 0 = None ->
   GetTypedRuleContext ctx "UserDefinedTypeName" 0 = None ->
   GetTypedRuleContext ctx "Mapping" 0 = None ->
   GetTypedRuleContext ctx "FunctionTypeName" 0 = None ->
   VisitTypeName V ctx = Panic "TODO").
Proof.
  split; [|split; [|split]].
  - intros out Hc H. unfold VisitTypeName in H.
    apply Nat.ltb_lt in Hc. rewrite Hc in H.
    apply bind_Ok in H. destruct H as (length_ & El & H).
    apply bind_Ok in H. destruct H as (base & Eb & H). inversion H; subst; clear H.
    exists base, length_. split; [reflexivity|]. split; [exact Eb|]. split.
    + intros Hn. apply Nat.eqb_neq in Hn. rewrite Hn in El. now inversion El.
    + intros H4. rewrite H4 in El. simpl in El.
      destruct (GetTypedRuleContext ctx "Expression" 0) as [e|]; [|discriminate El].
      apply bind_Ok in El. destruct El as (n & En & El). inversion El; subst.
      exists e. split; [reflexivity|now exists n].
  - intros H4 He. unfold VisitTypeName. rewrite H4, He. reflexivity.
  - intros c0 c1 Hc. unfold VisitTypeName, GetChildCount, GetChild. rewrite Hc. reflexivity.
  - intros Hc He Hu Hm Hf. unfold VisitTypeName.
    assert (H2 : Nat.ltb 2 (GetChildCount ctx) = false) by (apply Nat.ltb_ge; lia).
    assert (H2' : Nat.eqb (GetChildCount ctx) 2 = false) by (apply Nat.eqb_neq; lia).
    rewrite H2, H2', He, Hu, Hm, Hf. reflexivity.
Qed.

(** X18 at [uint[]], [uint[3]] and [address payable]. *)
Lemma VisitTypeName_shapes_witness :
  (exists base,
     VisitTypeName (Visit 3) Sample.arrayDynamic =
       Ok (ONode (Boxed (NodeOf "ArrayTypeName") (ArrayTypeName base ANil)))) /\
  (exists base length_,
     VisitTypeName (Visit 4) Sample.arrayFixed =
       Ok (ONode (Boxed (NodeOf "ArrayTypeName") (ArrayTypeName base length_))) /\
     length_ <> ANil) /\
  VisitTypeName (Visit 1) Sample.addressPayable =
    Ok (ONode (Boxed (NodeOf "ElementaryTypeName") (ElementaryTypeName "address" "payable"))).
Proof.
  split; [|split].
  - destruct (VisitTypeName (Visit 3) Sample.arrayDynamic) as [out| |] eqn:E;
      try (vm_compute in E; discriminate E).
    destruct (VisitTypeName_shapes (Visit 3) Sample.arrayDynamic) as (H & _).
    destruct (H out) as (base & length_ & -> & _ & Hn & _);
      [vm_compute; lia|exact E|].
    rewrite Hn by (vm_compute; discriminate). now exists (toAny base).
  - destruct (VisitTypeName (Visit 4) Sample.arrayFixed) as [out| |] eqn:E;
      try (vm_compute in E; discriminate E).
    destruct (VisitTypeName_shapes (Visit 4) Sample.arrayFixed) as (H & _).
    destruct (H out) as (base & length_ & -> & _ & _ & H4);
      [vm_compute; lia|exact E|].
    destruct (H4 eq_refl) as (e & He & n & Hn & ->).
    vm_compute in He. inversion He; subst; clear He.
    exists (toAny base), (toAny n). split; [reflexivity|].
    vm_compute in Hn. inversion Hn; subst. discriminate.
  - destruct (VisitTypeName_shapes (Visit 1) Sample.addressPayable) as (_ & _ & H & _).
    exact (H _ _ eq_refl).
Defined.

(** ** Names and identifier nodes *)

Lemma Visit_Identifier (fuel : nat) (iden : Tree) :
  isCtx "Identifier" iden = true ->
  Visit (S fuel) (Some iden) =
    Ok (Some (Boxed (mkNode "Identifier" 1) (Identifier (GetText iden)))).
Proof.
  intros H. destruct (isCtx_inv _ _ H) as (cs & ->). reflexivity.
Qed.

Lemma typed_Identifier (fuel : nat) (ctx : Tree) (i : nat) (iden : Tree) :
  GetTypedRuleContext ctx "Identifier" i = Some iden ->
  Visit (S fuel) (Some iden) =
    Ok (Some (Boxed (mkNode "Identifier" 1) (Identifier (GetText iden)))).
Proof.
  intros H. apply typed_In in H. destruct H as [_ H]. now apply Visit_Identifier.
Qed.

(** X20: names and identifier nodes agree.  Wherever a declaration
    stores both the text of an identifier and the node of its visit,
    the node is an Identifier, tagged once, whose Name is that text: in
    a variable declaration, a parameter, the variable of a state
    variable declaration and the unit alias of an import; a parameter
    without identifier and an import without unit alias have an empty
    name and a nil node. *)
Theorem names_agree (fuel : nat) (ctx : Tree) (out : output) :
  (VisitVariableDeclaration (Visit (S fuel)) ctx = Ok out ->
   exists v,
     out = ONode (Boxed node0 (VariableDeclaration v)) /\
     vd_Identifier v = ANode (Boxed (mkNode "Identifier" 1) (Identifier (vd_Name v)))) /\
  (VisitParameter (Visit (S fuel)) ctx = Ok out ->
   exists v,
     out = ONode (Boxed (NodeOf "VariableDeclaration") (VariableDeclaration v)) /\
     match GetTypedRuleContext ctx "Identifier" 0 with
     | Some iden =>
         vd_Name v = GetText iden /\
         vd_Identifier v = ANode (Boxed (mkNode "Identifier" 1) (Identifier (vd_Name v)))
     | None => vd_Name v = "" /\ vd_Identifier v = ANil
     end) /\
  (VisitStateVariableDeclaration (Visit (S fuel)) ctx = Ok out ->
   exists v immutable,
     out = ONode (Boxed node0 (StateVariableDeclaration
             (Some [ANode (Boxed (NodeOf "VariableDeclaration")
                             (StateVariableDeclarationVariable v immutable))]) ANil)) /\
     vd_Identifier v = ANode (Boxed (mkNode "Identifier" 1) (Identifier (vd_Name v)))) /\
  (VisitImportDirective (Visit (S fuel)) ctx = Ok out ->
   GetTypedRuleContexts ctx "ImportDeclaration" = [] ->
   exists d,
     out = ONode (Boxed node0 (ImportDirective d)) /\
     match GetTypedRuleContexts ctx "Identifier" with
     | [] => id_UnitAlias d = "" /\ id_UnitAliasIdentifier d = ANil
     | _ :: _ =>
         id_UnitAliasIdentifier d =
           ANode (Boxed (mkNode "Identifier" 1) (Identifier (id_UnitAlias d)))
     end).
Proof.
  split; [|split; [|split]].
  - intros H. unfold VisitVariableDeclaration in H.
    apply bind_Ok in H. destruct H as (name & En & H).
    apply toText_Ok in En. destruct En as (iden & Ei & ->).
    rewrite Ei, (typed_Identifier fuel _ _ _ Ei) in H. simpl in H.
    apply bind_Ok in H. destruct H as (typeName & _ & H).
    apply bind_Ok in H. destruct H as (storageLocation & _ & H).
    inversion H; subst; clear H. eexists. split; reflexivity.
  - intros H. unfold VisitParameter in H.
    apply bind_Ok in H. destruct H as (typeName & _ & H).
    apply bind_Ok in H. destruct H as (storageLocation & _ & H).
    destruct (GetTypedRuleContext ctx "Identifier" 0) as [iden|] eqn:Ei.
    + rewrite (typed_Identifier fuel _ _ _ Ei) in H. simpl in H.
      inversion H; subst; clear H. eexists. split; [reflexivity|]. split; reflexivity.
    + simpl in H. inversion H; subst; clear H.
      eexists. split; [reflexivity|]. split; reflexivity.
  - intros H. unfold VisitStateVariableDeclaration in H. cbv zeta in H.
    apply bind_Ok in H. destruct H as (override & _ & H).
    apply bind_Ok in H. destruct H as (name & En & H).
    apply toText_Ok in En. destruct En as (iden & Ei & ->).
    apply bind_Ok in H. destruct H as (typeName & _ & H).
    rewrite Ei, (typed_Identifier fuel _ _ _ Ei) in H. simpl in H.
    apply bind_Ok in H. destruct H as (expression & _ & H).
    inversion H; subst; clear H. eexists _, _. split; reflexivity.
  - intros H Hd. unfold VisitImportDirective in H. rewrite Hd in H.
    apply bind_Ok in H. destruct H as (pathString & _ & H). cbv zeta in H.
    simpl Nat.ltb in H. cbv iota in H.
    assert (Hin : forall x, In x (GetTypedRuleContexts ctx "Identifier") ->
              Visit (S fuel) (Some x) =
                Ok (Some (Boxed (mkNode "Identifier" 1) (Identifier (GetText x))))).
    { intros x Hx. apply filter_In in Hx. destruct Hx as [_ Hx].
      now apply Visit_Identifier. }
    destruct (GetTypedRuleContexts ctx "Identifier") as [|i0 [|i1 [|i2 l]]];
      cbn [bind] in H.
    + inversion H; subst; clear H. eexists. split; [reflexivity|]. split; reflexivity.
    + rewrite (Hin i0) in H by (simpl; auto). cbn [bind toAny] in H.
      inversion H; subst; clear H. eexists. split; reflexivity.
    + rewrite (Hin i1) in H by (simpl; auto). cbn [bind toAny] in H.
      inversion H; subst; clear H. eexists. split; reflexivity.
    + discriminate H.
Qed.

(** X20 at [uint a;] and at [import "f" as x;]. *)
Lemma names_agree_witness :
  (exists v immutable,
     VisitStateVariableDeclaration (Visit 3) Sample.stateVariable =
       Ok (ONode (Boxed node0 (StateVariableDeclaration
             (Some [ANode (Boxed (NodeOf "VariableDeclaration")
                             (StateVariableDeclarationVariable v immutable))]) ANil))) /\
     vd_Identifier v = ANode (Boxed (mkNode "Identifier" 1) (Identifier (vd_Name v)))) /\
  (exists d,
     VisitImportDirective (Visit 2) Sample.importUnit =
       Ok (ONode (Boxed node0 (ImportDirective d))) /\
     id_UnitAliasIdentifier d =
       ANode (Boxed (mkNode "Identifier" 1) (Identifier (id_UnitAlias d)))).
Proof.
  split.
  - destruct (VisitStateVariableDeclaration (Visit 3) Sample.stateVariable)
      as [out| |] eqn:E; try (vm_compute in E; discriminate E).
    destruct (names_agree 2 Sample.stateVariable out) as (_ & _ & H & _).
    destruct (H E) as (v & immutable & -> & Hv).
    exists v, immutable. split; [reflexivity|exact Hv].
  - destruct (VisitImportDirective (Visit 2) Sample.importUnit) as [out| |] eqn:E;
      try (vm_compute in E; discriminate E).
    destruct (names_agree 1 Sample.importUnit out) as (_ & _ & _ & H).
    destruct (H E eq_refl) as (d & -> & Hd).
    exists d. split; [reflexivity|exact Hd].
Defined.

(** ** Modifier definitions *)

(** X21: a modifier definition never carries its parameters: the
    Parameters field is nil whatever the parameter list of the
    modifier holds, and no parameter is visited.  The Body is nil for a
    modifier without block, IsVirtual tells whether the keyword occurs,
    and Override is never nil: it holds the visited base types of the
    first override specifier, none for a bare [override]. *)
Theorem ModifierDefinition_fields (V : visitor) (ctx : Tree) (out : output) :
  VisitModifierDefinition V ctx = Ok out ->
  exists name body override,
    out = ONode (Boxed node0
            (ModifierDefinition (GetText name) ANil body
               (hasElem (GetTokens ctx "VirtualKeyword")) (Some override))) /\
    GetTypedRuleContext ctx "Identifier" 0 = Some name /\
    (GetTypedRuleContext ctx "Block" 0 = None -> body = ANil) /\
    (forall b, GetTypedRuleContext ctx "Block" 0 = Some b -> visits V b body) /\
    match GetTypedRuleContexts ctx "OverrideSpecifier" with
    | [] => override = []
    | spec :: _ =>
        Forall2 (visits V) (GetTypedRuleContexts spec "UserDefinedTypeName") override
    end.
Proof.
  intros H. unfold VisitModifierDefinition in H.
  apply bind_Ok in H. destruct H as (name & En & H).
  apply toText_Ok in En. destruct En as (iden & Ei & ->).
  apply bind_Ok in H. destruct H as (override & Eo & H). cbv zeta in H.
  apply bind_Ok in H. destruct H as (body & Eb & H).
  inversion H; subst; clear H.
  assert (Hv : Nat.ltb 0 (length (GetTokens ctx "VirtualKeyword")) =
               hasElem (GetTokens ctx "VirtualKeyword"))
    by (destruct (GetTokens ctx "VirtualKeyword"); reflexivity).
  rewrite Hv.
  assert (Ho : exists l, override = Some l /\
            match GetTypedRuleContexts ctx "OverrideSpecifier" with
            | [] => l = []
            | spec :: _ =>
                Forall2 (visits V) (GetTypedRuleContexts spec "UserDefinedTypeName") l
            end).
  { destruct (GetTypedRuleContexts ctx "OverrideSpecifier") as [|spec rest].
    - inversion Eo. now exists [].
    - apply bind_Ok in Eo. destruct Eo as (types & Et & Eo). inversion Eo; subst.
      rewrite appendAll_empty_slice. exists types. split; [reflexivity|].
      now apply visitAll_Forall2. }
  destruct Ho as (l & -> & Hl).
  exists iden, body, l. split; [reflexivity|]. split; [exact Ei|]. split; [|split].
  - intros Hn. rewrite Hn in Eb. now inversion Eb.
  - intros b Hb. rewrite Hb in Eb.
    apply bind_Ok in Eb. destruct Eb as (n & En & Eb). inversion Eb; subst. now exists n.
  - exact Hl.
Qed.

(** X21 at [modifier m(uint a) virtual;]. *)
Lemma ModifierDefinition_fields_witness :
  VisitModifierDefinition (Visit 1) Sample.modifierWithParameter =
    Ok (ONode (Boxed node0 (ModifierDefinition "m" ANil ANil true (Some [])))).
Proof.
  destruct (VisitModifierDefinition (Visit 1) Sample.modifierWithParameter)
    as [out| |] eqn:E; try (vm_compute in E; discriminate E).
  destruct (ModifierDefinition_fields (Visit 1) Sample.modifierWithParameter out E)
    as (name & body & override & -> & Hn & Hb & _ & Ho).
  vm_compute in Hn. inversion Hn; subst; clear Hn.
  rewrite (Hb eq_refl).
  change (GetTypedRuleContexts Sample.modifierWithParameter "OverrideSpecifier")
    with (@nil Tree) in Ho.
  cbv iota in Ho. subst override. reflexivity.
Defined.

